(* ===== verification/_CoqProject ===== *)
-Q . S2P
Prelude.v
Text.v
Telemetry.v
Foreign.v
Wire.v
Types.v
Burn.v
Store.v
StoreFacts.v
StoreInv.v
StoreWf.v
StoreScan.v
StoreAuth.v
StoreReads.v
Config.v
Verify.v
Circle.v
Signer.v
Submission.v
Admin.v
Attester.v
Chain.v
AttesterLogic.v
AttesterSubmit.v
AttesterCycle.v
AttesterRun.v
Sample.v
ServiceProps.v
StoreProps.v
StoreQueries.v
AdminSocket.v
AdminProps.v
AdminLive.v
StoreTypes.v
VerifyProps.v
ReplyProps.v
ClientProps.v
Io.v
Feed.v
Mint.v
MidenNode.v
Relayer.v
RelayerFacts.v
RelayerScan.v
RelayerProps.v
RelayerChain.v
MidenProps.v
Bridge.v
Binaries.v
Ledger.v
AttesterWire.v
AttesterHttp.v
Quorum.v
Evidence.v
Listener.v
Programs.v
SubmitOnce.v
Deployment.v
ListenerProps.v
GovernorProps.v
SettleProps.v
RelaySample.v
ListenerSample.v
Observations.v
LogScan.v
Sanity.v
LogScanProps.v
SanityDriver.v
Stack.v
Actors.v
SanityAdmin.v
SanityProps.v
MatrixDriver.v
MatrixRuns.v
Record.v
SanityRecord.v
MatrixProps.v
Witnesses.v
RelayWitnesses.v
ListenerWitnesses.v
