(* ===== verification/Prelude.v ===== *)
(** * Verification of the xUSDC bridge services

    The repository moves USDC between Miden and the chains Circle serves. Its light attester
    (src/crates/xusdc-light-attester) watches Miden for xUSDC burns, asks Circle to prepare each
    withdrawal, checks what Circle proposes, signs it with two keys and submits it. The development
    models that service from its source and proves what makes it safe: a burn is paid once, to the
    burner's destination, within the configured fees, across crashes, lost replies, operator
    intervention and rate limits. The deposit relayer (src/crates/xreserve-deposit-relayer) goes the
    other way: it reads Circle's attestation feed and creates the notes that mint the deposits on
    Miden. The bridge (src/crates/usdcx-bridge) runs both in one process and stops them together.
    The earlier withdrawal service (src/crates/withdrawal-listener-attester), which signs and submits
    one discovered burn at a time over a ledger of submitted burns, is modelled as well.

    ** How a run goes

    [Attester.start] checks the node, the pinned anchor block, the two signing keys and Circle, then
    opens the store. [Attester.service_run] attaches the admin listener and runs cycles. A cycle
    discovers burns (blocks one by one, each authenticated against the one before it and saved with
    its burns in one transaction), sends again the saved requests whose outcome is unknown, takes
    each ready burn through prepare, verify, sign, save and submit, and polls the submitted
    withdrawals. Between the steps the operator's commands are handled.

    ** Files

    - Prelude: results, the transaction monad of the store, their inversion tactics and hints, bytes
      and their order, machine integers, transition sequences.
    - Text, Telemetry (usdcx-telemetry), Foreign (the parameters: Miden's types, URLs, hashes),
      Wire (circle.rs wire types; JSON is a parameter).
    - Types, Burn (burn.rs), Store (store.rs and migrations/), Config (config.rs), Verify
      (verify.rs), Circle (circle.rs), Signer (signer.rs, signer/kms.rs), Submission
      (submission.rs), Admin (admin.rs, admin/client.rs), Attester (attester.rs, service.rs): each
      Rust function is a definition under its own name where Rocq allows it.
    - StoreFacts, StoreInv, StoreWf, StoreScan, StoreAuth, StoreReads: the
      store as a state machine. [StoreFacts.store_step] is its abstract specification (one
      constructor per transaction the service makes), [store_wf] the invariant every step keeps.
    - AttesterLogic, AttesterSubmit, AttesterCycle, AttesterRun: a Hoare logic over the
      attester's methods, and the invariant of a cycle and of a run.
    - Sample, Witnesses: concrete instances of every parameter and of the laws, and the
        theorems applied to them.
    - Io, Feed (circle.rs), Mint (mint.rs, config.rs, store.rs, metrics), MidenNode (miden.rs,
      prover.rs), Relayer (lib.rs): the relayer, in the state-and-error monad of Io whose world
      answers every outside call. RelayerFacts, RelayerScan: one page, the saved
      progress against the feed, and a scan. RelayerProps, RelayerChain, MidenProps: its properties,
      for any client that keeps the interface [MidenClient] and for the node client that implements it.
    - AdminSocket (admin.rs: the listener, its connections and the attester's inbox as one transition
      system; service.rs: the maintenance commands), AdminLive: a release that is answered was decided,
      and one made offline is all or nothing. Chain (chain.rs):
      the node reader. StoreTypes: reading a well-formed store never fails.
    - Bridge (supervisor.rs, config.rs): the two services as threads, the events that end them, and
      the property of their joint stop. Binaries (service.rs, the three main.rs): how the attester's
      dependencies are connected, and each process from its command line to its end.
    - Ledger (idempotency/), AttesterWire (circle/wire.rs, circle/schema/), AttesterHttp (config.rs,
      circle/client.rs, transport.rs, retry.rs, rate.rs, auth.rs), Quorum (validate.rs, attester.rs,
      note_decode.rs), Evidence (evidence.rs, types.rs), Listener (withdrawal_api.rs, submit.rs,
      listener/): the withdrawal listener. A run is a [prog], a tree of its calls; Programs says how
      one advances and what it means to obey a protocol and what most programs obey at once.
    - SubmitOnce, Deployment: the ledger's transactions, the discipline of one
      submission, and any number of submissions interleaved over one ledger. ListenerProps,
      SettleProps, GovernorProps: the other properties of the listener.
    - ListenerSample, ListenerWitnesses: a sample withdrawal run by an interpreter of programs.
    - The validation harness (src/crates/xusdc-validation), which checks a faucet on a node:
      Observations (observations*.rs, assertions*.rs: what a row of the matrix records and when it
      passes), LogScan (rows_kl.rs, evidence.rs, record.rs: the service logs and the verdicts of a
      whole run); Stack (config.rs, stack.rs, bin/lnv_stack.rs: the node of a run, started and torn
      down by its scripts), Actors (actors.rs, client.rs, deploy.rs: the wallets and keys of a run,
      its client and its faucet); Sanity, SanityDriver, SanityAdmin (sanity/, mintburn.rs,
      bin/sanity_e2e.rs): the sanity gate from the URL it is given to its exit, over a node that may
      answer anything; MatrixDriver, MatrixRuns (rows_ab.rs, rows_cf.rs, rows_de.rs, rows_gj.rs): the
      calls of the matrix rows over that node, and the runs that fill their observations in, up to
      [run_full_matrix] on one stack; Record, SanityRecord (record.rs, sanity/record.rs, evidence*.rs,
      bin/): the text of the records and packets, the evidence documents, and the commands from their
      arguments to their exits. LogScanProps, SanityProps, MatrixProps: their properties.
      The burn evidence of the sanity gate is assembled by the withdrawal listener's own code
      ([Evidence.assemble_evidence], run over three reads by [SanityDriver.run_reads]).
    - RelaySample, RelayWitnesses: instances and applications for the relayer and the bridge.
    - ServiceProps, StoreProps, StoreQueries, AdminProps, VerifyProps, ReplyProps, ClientProps: the
      properties.

    ** The model

    A database transaction is a [tx]: it either returns the new store or leaves the old one. The
    four tables are maps keyed by note ID (bytes, in SQLite's order), the one state row, and the
    history list, newest first with its sequence numbers. BLOB columns keep bytes, so decoding can
    fail and is modelled. The attester's methods are state passing ([Attester.run]) over the store,
    the configuration and an outside world [W] that answers for the node, Circle, the signers, the
    clocks and the operator; the classes [ChainReader], [CircleApi], [SignerApi], [Clock] and
    [Inbox] quantify over every behaviour of these. [at_trace] keeps what the service did, with the
    store as it was on disk at that moment. A crash is the end of a run at any point: the store a
    run leaves behind at each action is one the store's own steps reach, and a later run may start
    from any such store.

    The relayer's methods are state passing too, over the progress file, the clients' state
    and a world that answers each outside call; [rl_trace] keeps what was minted, checked and put on
    chain. A crash is every later call failing, so the theorems on what a run leaves behind cover
    it. What they need of the feed is [honest_feed] (deposits only appear at its head, and a page is
    a stretch of it) and, for ending, [pages_not_empty]; of the node, [node_chain] (blocks keep
    coming). These, and the laws assumed of outside code ([MidenLaws], [WebLaws], [JsonLaws],
    [EthLaws] and the like), are stated where they are used and hold of the instances in Sample and
    RelaySample.

    The withdrawal listener's calls are atomic actions: an exchange with Circle, a ledger
    transaction, a permit, a signature, a read of the node. A deployment advances any of its
    submissions by one call, starts others and stops any, and a ledger transaction may fail before
    its commit or while reporting it, which covers crashes and restarts over the same file.

    ** What the properties show

    - ServiceProps: a signed request is on disk before it is sent; every store a run can leave is
      reached by the abstract store's steps and opens again; a cycle authenticates the blocks it
      saves, ends its calls at a 429, and only a diverged chain ends a run.
    - StoreProps, StoreQueries, AdminProps: no second authorization until a step that closes the first
      (StoreAuth); history and burns only grow; what is ready for withdrawal; holds, their pages and releases.
    - VerifyProps: whatever Circle replies, a verified withdrawal pays the burner's destination
      within the fees, and both signatures are over the digest of the checked fields.
    - RelayerProps: the saved progress of a relayer is true in every process of a deployment (each
      deposit behind it was handled, whatever crash, stop or failure ended a walk), a complete scan
      handled the whole feed, and a scan ends. RelayerChain: a transaction carries one page of
      deposits the faucet had not minted; a failed page is where the next scan goes on, in small pages
      after an expired transaction. MidenProps: submitting ends, and succeeds only once the transaction is
      committed; what the relayer over the node client counts as on chain is the end of one sequence of
      calls: a sync, an empty reading of each deposit, a sync, the transaction, its committed record.
      Bridge: the first signal or stop decides the end, and no service runs on alone.
    - Deployment: whatever runs, fails or stops at once, a burn is sent to Circle again only after
      Circle refused it. ListenerProps: what a run asks Circle to release is the checked intent of
      its note, signed by two attesters, for the one transaction the node names. SettleProps: a
      submission records an outcome for every burn it claimed. GovernorProps: the rates hold.
    - ReplyProps: what the answers to one attempt at a saved request decide of it, over every branch of
      [Attester.advance_submission], that each of them is recorded, and the withdrawal limit's order.
      ClientProps: pacing, amounts, signers, configuration.
    - SanityProps: a sanity run against a deployed faucet submits mints and burns only, from the wallets it
      made itself, and a run that deploys does so at a loopback URL and administers the faucet it built
      alone; the ownership the administration checks move comes back by the driver's own notes; a URL the gate takes for local and the
      client dials elsewhere. LogScanProps: row L passes exactly on complete and clean logs, row K
      exactly on a live network; neither row L nor the matrix can pass on the stack's logs.
      MatrixProps: the notes by which a run of rows G to J can move the supply are those of its ledger,
      such a run passes its checks on a small chain, and a run that owns its node leaves none behind.
      The adversarial mint note of row E carries its eleven words whole.
      Record, SanityRecord: a record tells the verdicts the checks gave, and a command succeeds only
      on checks that passed. SanityProps.evidence_proves_burn: what the gate accepts as a burn's
      evidence. Actors: an operator's secret is not written, the run's own only to fresh files.
    - Telemetry, Binaries: tracing is installed once, spans go to the endpoint that is set, a process is
      terminated only past its deadline, and a socket that cannot be bound fails the start first.

    ** Bounds and fuel

    [run_cycles] takes the number of cycles observed; every property of it holds for every number.
    [to_decimal] has 78 digits of fuel, enough for 256 bits. A relayer scan has fuel for its pages
    and the wait for a transaction for its polls; RelayerProps.scan_ends and
    MidenProps.submission_ends_committed prove how much of it is enough. The harness's waits look
    at most 602 times, enough for the longest of them (SanityProps.polls_suffice); its reconciliation
    of ownership is bounded in the code (four attempts). No other recursion needs fuel.

    ** Not modelled

    The transport under the node reader, clap's parsing of the services' command lines, the span
    exporter, SQLite's locking and the upgrade of older store layouts are I/O or other crates' code.
    JSON, ABI, EIP-712, keccak, ECDSA and the Miden protocol are other projects' code and are
    parameters. Of the withdrawal listener the texts of its errors, and of the validation harness the
    progress lines on its console, the wording of a failed check (a parameter of Record) and the node's
    own scripts are left out. Methods that several rows_*.rs files repeat are modelled once. *)

From Stdlib Require Export ZArith Lia.
From stdpp Require Export sorting strings base gmap fin_maps fin_sets option list.

#[global] Set Warnings "-clear-no-such-hyp,-register-all".

(** ** Results *)

(** Rust's [Result<A, E>]. *)
Inductive result (E A : Type) : Type :=
| Ok (a : A)
| Err (e : E).
Arguments Ok {E A} a.
Arguments Err {E A} e.

Definition rbind {E A B} (r : result E A) (k : A -> result E B) : result E B :=
  match r with Ok a => k a | Err e => Err e end.

Definition map_err {E F A} (f : E -> F) (r : result E A) : result F A :=
  match r with Ok a => Ok a | Err e => Err (f e) end.

Definition map_ok {E A B} (f : A -> B) (r : result E A) : result E B :=
  match r with Ok a => Ok (f a) | Err e => Err e end.

(** [Option::ok_or] / [anyhow::Context::context] on an option. *)
Definition ok_or {E A} (o : option A) (e : E) : result E A :=
  match o with Some a => Ok a | None => Err e end.

(** [anyhow::ensure!]. *)
Definition ensure {E} (b : bool) (e : E) : result E unit :=
  if b then Ok tt else Err e.

Definition is_ok {E A} (r : result E A) : bool :=
  match r with Ok _ => true | Err _ => false end.

(** [Option::transpose] of an option of results. *)
Definition transpose {E A} (o : option (result E A)) : result E (option A) :=
  match o with
  | None => Ok None
  | Some (Ok a) => Ok (Some a)
  | Some (Err e) => Err e
  end.

(** A loop that stops at the first error, keeping the order of the items. *)
Fixpoint collect {E A B} (f : A -> result E B) (l : list A) : result E (list B) :=
  match l with
  | [] => Ok []
  | a :: l => rbind (f a) (fun b => rbind (collect f l) (fun bs => Ok (b :: bs)))
  end.

(** ** State passing with errors: one database transaction *)

(** A transaction either commits a new state with a result or fails; a failed one leaves no state
    behind, as rusqlite rolls back a [Transaction] that is dropped before [commit]. *)
Definition tx (S E A : Type) : Type := S -> result E (A * S).

Definition tret {S E A} (a : A) : tx S E A := fun s => Ok (a, s).
Definition tbind {S E A B} (m : tx S E A) (k : A -> tx S E B) : tx S E B :=
  fun s => match m s with Ok (a, s') => k a s' | Err e => Err e end.
Definition tlift {S E A} (r : result E A) : tx S E A :=
  fun s => match r with Ok a => Ok (a, s) | Err e => Err e end.
Definition tget {S E} : tx S E S := fun s => Ok (s, s).
Definition tput {S E} (s : S) : tx S E unit := fun _ => Ok (tt, s).
Definition tmap_err {S E F A} (f : E -> F) (m : tx S E A) : tx S F A := fun s => map_err f (m s).

Fixpoint tfor {S E A} (f : A -> tx S E unit) (l : list A) : tx S E unit :=
  match l with
  | [] => tret tt
  | a :: l => tbind (f a) (fun _ => tfor f l)
  end.

Declare Scope attester_scope.
Delimit Scope attester_scope with attester.
Notation "'let?' x ':=' e 'in' k" := (rbind e (fun x => k))
  (at level 10, x pattern, e at level 200, k at level 200) : attester_scope.
Notation "'let!' x ':=' e 'in' k" := (tbind e (fun x => k))
  (at level 10, x pattern, e at level 200, k at level 200) : attester_scope.
Notation "e ';?' k" := (rbind e (fun _ => k))
  (at level 100, k at level 200, right associativity) : attester_scope.
Notation "e ';!' k" := (tbind e (fun _ => k))
  (at level 100, k at level 200, right associativity) : attester_scope.
#[global] Open Scope attester_scope.

Lemma rbind_Ok {E A B} (r : result E A) (k : A -> result E B) b :
  rbind r k = Ok b -> exists a, r = Ok a /\ k a = Ok b.
Proof. destruct r; simpl; naive_solver. Qed.

Lemma tbind_Ok {S E A B} (m : tx S E A) (k : A -> tx S E B) s b s' :
  tbind m k s = Ok (b, s') -> exists a s1, m s = Ok (a, s1) /\ k a s1 = Ok (b, s').
Proof. unfold tbind. destruct (m s) as [[a s1]|]; naive_solver. Qed.

Lemma tlift_Ok {S E A} (r : result E A) (s : S) a s' :
  tlift r s = Ok (a, s') -> r = Ok a /\ s' = s.
Proof. unfold tlift. destruct r; naive_solver. Qed.

Lemma ensure_Ok {E} b (e : E) u : ensure b e = Ok u -> b = true.
Proof. destruct b; simpl; naive_solver. Qed.

Lemma ok_or_Ok {E A} (o : option A) (e : E) a : ok_or o e = Ok a -> o = Some a.
Proof. destruct o; simpl; naive_solver. Qed.

Lemma map_err_Ok {E F A} (f : E -> F) (r : result E A) a : map_err f r = Ok a -> r = Ok a.
Proof. destruct r; simpl; naive_solver. Qed.

Lemma map_ok_Ok {E A B} (f : A -> B) (r : result E A) b :
  map_ok f r = Ok b -> exists a, r = Ok a /\ b = f a.
Proof. destruct r; simpl; naive_solver. Qed.

Lemma collect_Ok {E A B} (f : A -> result E B) l bs :
  collect f l = Ok bs <-> Forall2 (fun a b => f a = Ok b) l bs.
Proof.
  revert bs; induction l as [|a l IH]; intros bs; simpl.
  - split; [intros [= <-]; constructor | by inversion 1].
  - destruct (f a) as [b|e] eqn:Ef; simpl.
    + destruct (collect f l) as [bs'|e] eqn:Ec; simpl.
      * split; [intros [= <-]; constructor; [done|by apply IH]|].
        inversion 1; subst. apply IH in H4. congruence.
      * split; [done|]. inversion 1; subst. apply IH in H4. done.
    + split; [done|]. inversion 1; congruence.
Qed.

(** The rule of a [tfor] loop: a property every step keeps holds at the end. *)
Lemma tfor_inv {S E A} (P : S -> Prop) (f : A -> tx S E unit) l s u s' :
  (forall a s1 u1 s2, a ∈ l -> P s1 -> f a s1 = Ok (u1, s2) -> P s2) ->
  P s -> tfor f l s = Ok (u, s') -> P s'.
Proof.
  revert s; induction l as [|a l IH]; intros s Hstep HP; simpl.
  - intros [= _ <-]. done.
  - intros (u1 & s1 & Ha & Hl)%tbind_Ok.
    eapply IH; [|eapply Hstep, Ha; [set_solver|done]|done].
    intros; eapply Hstep; [|done..]. set_solver.
Qed.

(** Uses an equation between constructors, keeping the older of two equal variables. *)
Ltac inj_clear H :=
  injection H; clear H;
  repeat match goal with
  | |- ?a = ?b -> _ =>
      let E := fresh in intros E; first [is_var b; subst b | subst a | idtac]
  end.

(** Inverts every successful step of a monadic run in the context. *)
Ltac inv_ok :=
  repeat match goal with
  | H : rbind _ _ = Ok _ |- _ => apply rbind_Ok in H as (? & ? & H)
  | H : tbind _ _ _ = Ok (_, _) |- _ => apply tbind_Ok in H as (? & ? & ? & H)
  | H : tlift _ _ = Ok (_, _) |- _ => apply tlift_Ok in H as [? ->]
  | H : ensure _ _ = Ok _ |- _ => apply ensure_Ok in H
  | H : ok_or _ _ = Ok _ |- _ => apply ok_or_Ok in H
  | H : map_err _ _ = Ok _ |- _ => apply map_err_Ok in H
  | H : map_ok _ _ = Ok _ |- _ => apply map_ok_Ok in H as (? & H & ?)
  | H : tret _ _ = Ok (_, _) |- _ => unfold tret in H; inj_clear H
  | H : tget _ = Ok (_, _) |- _ => unfold tget in H; inj_clear H
  | H : tput _ _ = Ok (_, _) |- _ => unfold tput in H; inj_clear H
  | H : Ok _ = Ok _ |- _ => inj_clear H
  | H : Err _ = Ok _ |- _ => discriminate H
  | H : Ok _ = Err _ |- _ => discriminate H
  | H : Some _ = Some _ |- _ => inj_clear H
  | H : (_, _) = (_, _) |- _ => inj_clear H
  end.

(** Splits the head [match] of a successful run. *)
Ltac case_ok :=
  match goal with
  | H : match ?x with _ => _ end = Ok _ |- _ => destruct x eqn:?
  | H : match ?x with _ => _ end _ = Ok _ |- _ => destruct x eqn:?
  end; try discriminate.

Tactic Notation "inv_run" := repeat (inv_ok; try case_ok); inv_ok.

(** Boolean conditions of the code as propositions. *)
Ltac bool_prop :=
  repeat match goal with
  | H : _ && _ = true |- _ => apply andb_true_iff in H as [? ?]
  | H : _ || _ = false |- _ => apply orb_false_iff in H as [? ?]
  | H : negb _ = true |- _ => apply negb_true_iff in H
  | H : negb _ = false |- _ => apply negb_false_iff in H
  | H : bool_decide _ = true |- _ => apply bool_decide_eq_true in H
  | H : bool_decide _ = false |- _ => apply bool_decide_eq_false in H
  | H : Is_true (bool_decide _) |- _ => apply bool_decide_unpack in H
  | H : (_ <? _)%Z = true |- _ => apply Z.ltb_lt in H
  | H : (_ <? _)%Z = false |- _ => apply Z.ltb_ge in H
  | H : (_ <=? _)%Z = true |- _ => apply Z.leb_le in H
  | H : (_ <=? _)%Z = false |- _ => apply Z.leb_gt in H
  | H : (_ =? _)%Z = true |- _ => apply Z.eqb_eq in H
  | H : (_ =? _)%Z = false |- _ => apply Z.eqb_neq in H
  end.

(** ** Bytes and their order *)

(** A byte string; each byte is a [Z] in [0, 256). Keys and hashes are kept in their canonical byte
    form, which is what the store's [BLOB] columns hold. *)
Abbreviation bytes := (list Z).

(** SQLite's [memcmp] order on [BLOB]s and Rust's order on [Vec<u8>]: lexicographic. *)
Fixpoint bytes_cmp (a b : bytes) : comparison :=
  match a, b with
  | [], [] => Eq
  | [], _ :: _ => Lt
  | _ :: _, [] => Gt
  | x :: a, y :: b => match (x ?= y)%Z with Eq => bytes_cmp a b | c => c end
  end.

Definition bytes_lt (a b : bytes) : Prop := bytes_cmp a b = Lt.
Definition bytes_le (a b : bytes) : Prop := bytes_cmp a b <> Gt.

#[export] Instance bytes_lt_dec a b : Decision (bytes_lt a b).
Proof. unfold bytes_lt. solve_decision. Defined.
#[export] Instance bytes_le_dec a b : Decision (bytes_le a b).
Proof. unfold bytes_le. destruct (bytes_cmp a b); [left|left|right]; by try intros ?. Defined.

Lemma bytes_cmp_eq a b : bytes_cmp a b = Eq <-> a = b.
Proof.
  revert b; induction a as [|x a IH]; intros [|y b]; simpl; try done.
  destruct (Z.compare_spec x y); subst; try (split; [done|]; intros [= ]; subst; lia).
  rewrite IH. split; [by intros -> | by intros [= ->]].
Qed.

Lemma bytes_cmp_antisym a b : bytes_cmp b a = CompOpp (bytes_cmp a b).
Proof.
  revert b; induction a as [|x a IH]; intros [|y b]; simpl; try done.
  rewrite (Z.compare_antisym x y). destruct (x ?= y)%Z; simpl; auto.
Qed.

Lemma bytes_lt_trans a b c : bytes_lt a b -> bytes_lt b c -> bytes_lt a c.
Proof.
  unfold bytes_lt. revert b c; induction a as [|x a IH]; intros [|y b] [|z c]; simpl; try done.
  destruct (Z.compare_spec x y), (Z.compare_spec y z), (Z.compare_spec x z);
    subst; try done; try lia. apply IH.
Qed.

Lemma bytes_lt_irrefl a : ~ bytes_lt a a.
Proof. unfold bytes_lt. by rewrite (proj2 (bytes_cmp_eq a a)). Qed.

Lemma bytes_le_lt_eq a b : bytes_le a b <-> bytes_lt a b \/ a = b.
Proof.
  unfold bytes_le, bytes_lt. rewrite <-(bytes_cmp_eq a b).
  destruct (bytes_cmp a b); intuition congruence.
Qed.

Lemma bytes_lt_le a b : bytes_lt a b -> bytes_le a b.
Proof. rewrite bytes_le_lt_eq. auto. Qed.

Lemma bytes_not_le a b : ~ bytes_le a b <-> bytes_lt b a.
Proof.
  unfold bytes_le, bytes_lt. rewrite (bytes_cmp_antisym a b).
  destruct (bytes_cmp a b); simpl; naive_solver.
Qed.

Lemma bytes_lt_not_le a b : bytes_lt a b -> ~ bytes_le b a.
Proof. by rewrite bytes_not_le. Qed.

Lemma bytes_trichotomy a b : bytes_lt a b \/ a = b \/ bytes_lt b a.
Proof.
  unfold bytes_lt. rewrite <-(bytes_cmp_eq a b), (bytes_cmp_antisym a b).
  destruct (bytes_cmp a b); simpl; auto.
Qed.

#[export] Instance bytes_le_total : Total bytes_le.
Proof.
  intros a b. destruct (bytes_trichotomy a b) as [?|[ -> |?]];
    rewrite !bytes_le_lt_eq; auto.
Qed.

#[export] Instance bytes_le_trans : Transitive bytes_le.
Proof.
  intros a b c. rewrite !bytes_le_lt_eq. intros [?| -> ] [?| -> ]; eauto using bytes_lt_trans.
Qed.

Lemma bytes_le_antisym a b : bytes_le a b -> bytes_le b a -> a = b.
Proof. rewrite bytes_le_lt_eq. intros [?%bytes_lt_not_le|?]; done. Qed.

(** ** ORDER BY *)

(** The rows of a query in the order of a byte-string key: [ORDER BY] over [BLOB] columns, and over
    an integer column followed by a [BLOB] when the key starts with that integer. *)
Section order_by.
Context {A : Type} (key : A -> bytes).

Definition key_le (a b : A) : Prop := bytes_le (key a) (key b).
Definition key_lt (a b : A) : Prop := bytes_lt (key a) (key b).

#[local] Instance key_le_dec a b : Decision (key_le a b).
Proof. unfold key_le. apply _. Defined.
#[local] Instance key_le_total : Total key_le.
Proof. intros a b. apply bytes_le_total. Qed.
#[local] Instance key_le_trans : Transitive key_le.
Proof. intros a b c. unfold key_le. apply bytes_le_trans. Qed.

Definition order_by (l : list A) : list A := merge_sort key_le l.

Lemma order_by_perm l : order_by l ≡ₚ l.
Proof. apply merge_sort_Permutation. Qed.

Lemma elem_of_order_by a l : a ∈ order_by l <-> a ∈ l.
Proof. by rewrite order_by_perm. Qed.

Lemma order_by_sorted l : StronglySorted key_le (order_by l).
Proof. apply (StronglySorted_merge_sort key_le). Qed.

(** Rows with distinct keys come out strictly increasing. *)
Lemma order_by_strict l : NoDup (key <$> l) -> StronglySorted key_lt (order_by l).
Proof.
  intros Hnd. pose proof (order_by_sorted l) as Hs.
  assert (NoDup (key <$> order_by l)) as Hnd' by (by rewrite order_by_perm).
  clear Hnd. induction Hs as [|a l' Hs IH Hall]; [constructor|].
  simpl in Hnd'. apply NoDup_cons in Hnd' as [Hni Hnd']. constructor; [auto|].
  rewrite Forall_forall in Hall |- *. intros b Hb. specialize (Hall b Hb).
  unfold key_le, key_lt in *. apply bytes_le_lt_eq in Hall as [?|He]; [done|].
  destruct Hni. rewrite He. by apply list_elem_of_fmap_2.
Qed.

(** A strictly increasing list is determined by its elements. *)
Lemma strict_sorted_unique l1 l2 :
  StronglySorted key_lt l1 -> StronglySorted key_lt l2 ->
  (forall a, a ∈ l1 <-> a ∈ l2) -> l1 = l2.
Proof.
  intros H1; revert l2; induction H1 as [|a l1 Hs1 IH Hall1]; intros l2 H2 Hel.
  { destruct l2 as [|b l2]; [done|]. specialize (Hel b). set_solver. }
  destruct H2 as [|b l2 Hs2 Hall2]; [specialize (Hel a); set_solver|].
  rewrite Forall_forall in Hall1, Hall2.
  assert (a = b) as ->.
  { assert (a ∈ b :: l2) as [ -> |Ha]%elem_of_cons by (apply Hel; set_solver); [done|].
    assert (b ∈ a :: l1) as [ -> |Hb]%elem_of_cons by (apply Hel; set_solver); [done|].
    destruct (bytes_lt_irrefl _ (bytes_lt_trans _ _ _ (Hall1 _ Hb) (Hall2 _ Ha))). }
  f_equal. apply IH; [done|]. intros c. split; intros Hc.
  - assert (c ∈ b :: l2) as [ -> |?]%elem_of_cons by (apply Hel; set_solver); [|done].
    destruct (bytes_lt_irrefl _ (Hall1 _ Hc)).
  - assert (c ∈ b :: l1) as [ -> |?]%elem_of_cons by (apply Hel; set_solver); [|done].
    destruct (bytes_lt_irrefl _ (Hall2 _ Hc)).
Qed.
End order_by.

(** ** Machine integers *)

Definition u8_max : Z := 255.
Definition u16_max : Z := 65535.
Definition u32_max : Z := 4294967295.
Definition u64_max : Z := 18446744073709551615.
Definition i64_max : Z := 9223372036854775807.
Definition u256_max : Z := 2 ^ 256 - 1.

(** [checked_add] and [saturating_add] at a width given by its largest value. *)
Definition checked_add (max a b : Z) : option Z :=
  if (a + b <=? max)%Z then Some (a + b)%Z else None.
Definition saturating_add (max a b : Z) : Z := Z.min max (a + b).
Definition saturating_mul (max a b : Z) : Z := Z.min max (a * b).
(** [checked_sub] and [saturating_sub] of unsigned integers. *)
Definition checked_sub (a b : Z) : option Z :=
  if (b <=? a)%Z then Some (a - b)%Z else None.
Definition saturating_sub (a b : Z) : Z := Z.max 0 (a - b).
(** [T::try_from] into an unsigned type. *)
Definition try_from_max (max v : Z) : option Z :=
  if ((0 <=? v) && (v <=? max))%Z then Some v else None.
(** The wrapping operators of a type of [w] bits. *)
Definition wrap (w v : Z) : Z := v mod 2 ^ w.

Lemma checked_add_Some max a b c :
  checked_add max a b = Some c <-> c = (a + b)%Z /\ (a + b <= max)%Z.
Proof. unfold checked_add. destruct (Z.leb_spec (a + b) max); naive_solver lia. Qed.

Lemma checked_sub_Some a b c :
  checked_sub a b = Some c <-> c = (a - b)%Z /\ (b <= a)%Z.
Proof. unfold checked_sub. destruct (Z.leb_spec b a); naive_solver lia. Qed.

Lemma try_from_max_Some max v c :
  try_from_max max v = Some c <-> c = v /\ (0 <= v <= max)%Z.
Proof.
  unfold try_from_max. destruct (Z.leb_spec 0 v), (Z.leb_spec v max); simpl; naive_solver lia.
Qed.

Lemma wrap_small w v : (0 <= v < 2 ^ w)%Z -> wrap w v = v.
Proof. apply Z.mod_small. Qed.

(** [to_be_bytes] of a [w]-byte integer. *)
Fixpoint be_bytes (w : nat) (v : Z) : bytes :=
  match w with
  | O => []
  | S w => (v / 2 ^ (8 * Z.of_nat w) mod 256)%Z :: be_bytes w v
  end.

(** The integer a big-endian byte string denotes. *)
Definition be_value (b : bytes) : Z := foldl (fun acc x => (acc * 256 + x)%Z) 0%Z b.

Lemma be_bytes_length w v : length (be_bytes w v) = w.
Proof. induction w; simpl; auto. Qed.

Lemma be_fold_bytes w v acc :
  foldl (fun acc x => (acc * 256 + x)%Z) acc (be_bytes w v) =
  (acc * 2 ^ (8 * Z.of_nat w) + v mod 2 ^ (8 * Z.of_nat w))%Z.
Proof.
  revert acc; induction w as [|w IH]; intros acc.
  { simpl. rewrite Z.mod_1_r. lia. }
  cbn [be_bytes foldl]. rewrite IH.
  replace (8 * Z.of_nat (S w))%Z with (8 * Z.of_nat w + 8)%Z by lia.
  rewrite Z.pow_add_r by lia. change (2 ^ 8)%Z with 256%Z.
  assert (0 < 2 ^ (8 * Z.of_nat w))%Z by (apply Z.pow_pos_nonneg; lia).
  rewrite Z.rem_mul_r by lia. ring.
Qed.

Lemma be_value_be_bytes w v :
  (0 <= v < 2 ^ (8 * Z.of_nat w))%Z -> be_value (be_bytes w v) = v.
Proof. intros. unfold be_value. rewrite be_fold_bytes, Z.mod_small by done. lia. Qed.

Lemma be_bytes_inj w v1 v2 :
  (0 <= v1 < 2 ^ (8 * Z.of_nat w))%Z -> (0 <= v2 < 2 ^ (8 * Z.of_nat w))%Z ->
  be_bytes w v1 = be_bytes w v2 -> v1 = v2.
Proof. intros H1 H2 He. by rewrite <-(be_value_be_bytes w v1), He, be_value_be_bytes. Qed.

(** Two concatenations with first parts of equal length agree part by part. *)
Lemma app_split {A} (a b c d : list A) : length a = length c -> a ++ b = c ++ d -> a = c /\ b = d.
Proof. intros Hl He. by apply app_inj_1. Qed.

(** ** Transition sequences *)

Section star.
Context {A : Type} (R : A -> A -> Prop).

(** Zero or more steps. *)
Inductive star : A -> A -> Prop :=
| star_refl a : star a a
| star_step a b c : R a b -> star b c -> star a c.

Lemma star_one a b : R a b -> star a b.
Proof. eauto using star. Qed.

Lemma star_trans a b c : star a b -> star b c -> star a c.
Proof. induction 1; eauto using star. Qed.

(** Rule induction on runs: what every step keeps, every run keeps. *)
Lemma star_inv (P : A -> Prop) a b :
  (forall x y, P x -> R x y -> P y) -> star a b -> P a -> P b.
Proof. intros Hstep. induction 1; eauto. Qed.

(** The same for a reflexive and transitive relation between the ends of a run. *)
Lemma star_rel (P : A -> Prop) (Q : A -> A -> Prop) a b :
  (forall x, Q x x) -> (forall x y z, Q x y -> Q y z -> Q x z) ->
  (forall x y, P x -> R x y -> P y /\ Q x y) -> star a b -> P a -> P b /\ Q a b.
Proof.
  intros Hrefl Htrans Hstep. induction 1 as [|x y z Hxy _ IH]; [auto|].
  intros Hx. destruct (Hstep _ _ Hx Hxy). naive_solver.
Qed.
End star.

(** ** Hints *)

(** Facts about runs that close side conditions: [eauto with runs]. *)
Create HintDb runs.
#[export] Hint Constructors star : runs.
#[export] Hint Resolve star_one star_trans : runs.
#[export] Hint Resolve bytes_lt_irrefl : runs.

(** The lengths of encodings. *)
Create Rewrite HintDb lengths.
#[export] Hint Rewrite be_bytes_length @length_app : lengths.
