(* ===== verification/Text.v ===== *)
(** Strings: UTF-8 text as [string] (a byte sequence), the byte and character predicates of Rust's
    standard library the services use, withdrawal IDs, and Circle's decimal amounts. *)
From S2P Require Import Prelude.
From Stdlib Require Import Ascii.
From Stdlib Require String.
Local Open Scope Z_scope.

Definition code (a : ascii) : Z := Z.of_N (N_of_ascii a).
Definition str_list (s : string) : list ascii := String.list_ascii_of_string s.
Definition list_str (l : list ascii) : string := String.string_of_list_ascii l.
Definition str_bytes (s : string) : bytes := code <$> str_list s.
(** [str::len]: the number of bytes. *)
Definition str_len (s : string) : Z := Z.of_nat (length (str_list s)).

Lemma list_str_list s : list_str (str_list s) = s.
Proof. apply String.string_of_list_ascii_of_string. Qed.
Lemma str_list_str l : str_list (list_str l) = l.
Proof. apply String.list_ascii_of_string_of_list_ascii. Qed.

Lemma str_list_app a b : str_list (String.append a b) = str_list a ++ str_list b.
Proof. induction a as [|x a IH]; simpl; [done|]. by f_equal. Qed.

Lemma code_range a : 0 <= code a < 256.
Proof. unfold code. pose proof (N_ascii_bounded a). lia. Qed.

(** ** Bytes *)

Definition is_ascii_digit (a : ascii) : bool := (48 <=? code a) && (code a <=? 57).
Definition is_ascii_hexdigit (a : ascii) : bool :=
  is_ascii_digit a
  || ((65 <=? code a) && (code a <=? 70))
  || ((97 <=? code a) && (code a <=? 102)).
Definition to_ascii_lowercase (a : ascii) : ascii :=
  if (65 <=? code a) && (code a <=? 90) then ascii_of_N (Z.to_N (code a + 32)) else a.
(** [str::eq_ignore_ascii_case]. *)
Definition eq_ignore_ascii_case (s t : string) : bool :=
  bool_decide (to_ascii_lowercase <$> str_list s = to_ascii_lowercase <$> str_list t).

Fixpoint starts_with (s prefix : list ascii) {struct prefix} : bool :=
  match prefix, s with
  | [], _ => true
  | p :: ps, a :: s => if decide (p = a) then starts_with s ps else false
  | _ :: _, [] => false
  end.

Lemma starts_with_spec s p : starts_with s p = true <-> exists r, s = p ++ r.
Proof.
  revert s; induction p as [|a p IH]; intros s; cbn [starts_with]; [split; eauto; by destruct s|].
  destruct s as [|b s]; [split; [done|by intros [r ?]]|].
  destruct (decide (a = b)) as [->|Hne].
  - rewrite IH. split; intros [r Hr]; exists r; [by rewrite Hr|by injection Hr].
  - split; [done|]. intros [r Hr]. simpl in Hr; congruence.
Qed.

(** ** Characters *)

(** A continuation byte of a multi-byte UTF-8 character. *)
Definition is_continuation (a : ascii) : bool := (128 <=? code a) && (code a <? 192).

(** [str::chars]: the text cut before every byte that is not a continuation byte, which in valid
    UTF-8 is one piece per character. *)
Definition chars : list ascii -> list (list ascii) :=
  foldr (fun a cs =>
    match cs with
    | (b :: c) :: cs' => if is_continuation b then (a :: b :: c) :: cs' else [a] :: cs
    | _ => [a] :: cs
    end) [].

(** [char::is_whitespace]: the Unicode [White_Space] characters, by their UTF-8 bytes. *)
Definition is_whitespace (c : list ascii) : bool :=
  match code <$> c with
  | [b] => ((9 <=? b) && (b <=? 13)) || (b =? 32)
  | [194; b] => (b =? 133) || (b =? 160)
  | [225; 154; b] => b =? 128
  | [226; 128; b] =>
      ((128 <=? b) && (b <=? 138)) || (b =? 168) || (b =? 169) || (b =? 175)
  | [226; 129; b] => b =? 159
  | [227; 128; b] => b =? 128
  | _ => false
  end.

(** [char::is_control]: U+0000 to U+001F and U+007F to U+009F. *)
Definition is_control (c : list ascii) : bool :=
  match code <$> c with
  | [b] => (b <? 32) || (b =? 127)
  | [194; b] => (128 <=? b) && (b <=? 159)
  | _ => false
  end.

(** [str::trim] leaves nothing: every character is whitespace. *)
Definition is_blank (s : string) : bool := forallb is_whitespace (chars (str_list s)).

(** [chars().take(n).collect()]. *)
Definition take_chars (n : nat) (s : string) : string :=
  list_str (concat (take n (chars (str_list s)))).

(** [str::split_whitespace] over characters; [cur] is the word being read, in reverse. *)
Fixpoint split_ws (cs : list (list ascii)) (cur : list (list ascii)) : list (list (list ascii)) :=
  match cs with
  | [] => match cur with [] => [] | _ => [rev cur] end
  | c :: cs =>
      if is_whitespace c then
        match cur with [] => split_ws cs [] | _ => rev cur :: split_ws cs [] end
      else split_ws cs (c :: cur)
  end.

(** [split_whitespace().collect::<Vec<_>>().join(" ")]. *)
Fixpoint join_space (ws : list (list (list ascii))) : list (list ascii) :=
  match ws with
  | [] => []
  | [w] => w
  | w :: ws => w ++ [[" "%char]] ++ join_space ws
  end.
Definition one_line (s : string) : string :=
  list_str (concat (join_space (split_ws (chars (str_list s)) []))).

(** The text without its control characters. *)
Definition strip_control (s : string) : string :=
  list_str (concat (List.filter (fun c => negb (is_control c)) (chars (str_list s)))).

Lemma chars_nonempty l : Forall (fun c => c <> []) (chars l).
Proof.
  induction l as [|a l IH]; simpl; [constructor|].
  destruct (chars l) as [|[|b c] cs]; simpl in *; repeat constructor; auto;
    inversion IH; subst; try done.
  destruct (is_continuation b); repeat constructor; auto; done.
Qed.

(** Cutting a text into characters loses nothing. *)
Lemma concat_chars l : concat (chars l) = l.
Proof.
  induction l as [|a l IH]; simpl; [done|]. rewrite <-IH at 2.
  pose proof (chars_nonempty l) as Hne.
  destruct (chars l) as [|[|b c] cs]; simpl; [done| |].
  - by inversion Hne.
  - by destruct (is_continuation b).
Qed.

(** A cut text is a prefix of the whole one. *)
Lemma take_chars_prefix n s : exists r, str_list s = str_list (take_chars n s) ++ r.
Proof.
  unfold take_chars. rewrite str_list_str. exists (concat (drop n (chars (str_list s)))).
  by rewrite <-concat_app, take_drop, concat_chars.
Qed.

(** No word of [split_whitespace] holds a whitespace character or is empty. *)
Lemma split_ws_words cs cur :
  Forall (fun c => is_whitespace c = false) cur ->
  Forall (fun w => w <> [] /\ Forall (fun c => is_whitespace c = false) w) (split_ws cs cur).
Proof.
  revert cur; induction cs as [|c cs IH]; intros cur Hcur; simpl.
  - destruct cur as [|a cur]; constructor; [|constructor]. split.
    + simpl. by destruct (rev cur).
    + by apply Forall_rev.
  - destruct (is_whitespace c) eqn:Ec.
    + destruct cur as [|a cur]; [by apply IH|]. constructor; [|by apply IH]. split.
      * simpl. by destruct (rev cur).
      * by apply Forall_rev.
    + apply IH. by constructor.
Qed.

(** ** Withdrawal IDs *)

(** Circle's withdrawal IDs are UUIDs in the hyphenated 8-4-4-4-12 form. *)
Definition id_byte_ok (index : nat) (byte : ascii) : bool :=
  match index with
  | 8%nat | 13%nat | 18%nat | 23%nat => bool_decide (byte = "-"%char)
  | _ => is_ascii_hexdigit byte
  end.
Fixpoint all_indexed (f : nat -> ascii -> bool) (index : nat) (l : list ascii) : bool :=
  match l with
  | [] => true
  | a :: l => f index a && all_indexed f (S index) l
  end.
Definition is_well_formed_id (id : string) : bool :=
  (str_len id =? 36) && all_indexed id_byte_ok 0 (str_list id).

Lemma all_indexed_spec f n l :
  all_indexed f n l = true <-> forall i a, l !! i = Some a -> f (n + i)%nat a = true.
Proof.
  revert n; induction l as [|a l IH]; intros n; simpl; [split; [done|done]|].
  rewrite andb_true_iff, IH. split.
  - intros [Ha Hl] [|i] b; simpl; [rewrite Nat.add_0_r; naive_solver|].
    intros Hb. rewrite Nat.add_succ_r. by apply (Hl i).
  - intros H. split; [specialize (H 0%nat a eq_refl); by rewrite Nat.add_0_r in H|].
    intros i b Hb. specialize (H (S i) b Hb). by rewrite Nat.add_succ_r in H.
Qed.

(** ** Decimal amounts *)

Definition digit_char (d : Z) : ascii := ascii_of_N (Z.to_N (48 + d)).

(** The decimal digits of [v], at least [width] of them: [{:0width$}]. [fuel] bounds the number of
    digits. *)
Fixpoint decimal_digits (fuel : nat) (v : Z) (acc : list ascii) : list ascii :=
  match fuel with
  | O => acc
  | S fuel =>
      let acc := digit_char (v mod 10) :: acc in
      if v <? 10 then acc else decimal_digits fuel (v / 10) acc
  end.
(** Every 256-bit integer has at most 78 decimal digits. *)
Definition to_decimal (v : Z) : list ascii := decimal_digits 78 v [].
Definition zero_padded (width : nat) (v : Z) : list ascii :=
  let ds := to_decimal v in repeat "0"%char (width - length ds) ++ ds.

(** The number plain decimal digits denote. *)
Definition digits_value (l : list ascii) : Z := foldl (fun acc a => acc * 10 + (code a - 48)) 0 l.

(** [str::parse] into an unsigned type: an optional plus sign and decimal digits, in range. *)
Definition parse_unsigned (max : Z) (s : string) : option Z :=
  let digits := match str_list s with "+"%char :: l => l | l => l end in
  if bool_decide (digits = []) || negb (forallb is_ascii_digit digits) then None
  else try_from_max max (digits_value digits).

Lemma digit_code d : 0 <= d < 10 -> code (digit_char d) = 48 + d.
Proof.
  intros. unfold code, digit_char. rewrite N_ascii_embedding; lia.
Qed.

Lemma digits_value_app l1 l2 acc :
  foldl (fun acc a => acc * 10 + (code a - 48)) acc (l1 ++ l2) =
  foldl (fun acc a => acc * 10 + (code a - 48)) (foldl (fun acc a => acc * 10 + (code a - 48)) acc l1) l2.
Proof. by rewrite foldl_app. Qed.

Lemma digits_value_shift l acc :
  foldl (fun acc a => acc * 10 + (code a - 48)) acc l = acc * 10 ^ Z.of_nat (length l) + digits_value l.
Proof.
  revert acc; induction l as [|a l IH]; intros acc; [simpl; unfold digits_value; simpl; lia|].
  unfold digits_value. cbn [foldl length]. rewrite IH, (IH (0 * 10 + _)).
  rewrite Nat2Z.inj_succ, Z.pow_succ_r by lia. ring.
Qed.

Lemma decimal_digits_value fuel v acc :
  0 <= v < 10 ^ Z.of_nat fuel ->
  digits_value (decimal_digits fuel v acc) = v * 10 ^ Z.of_nat (length acc) + digits_value acc.
Proof.
  revert v acc; induction fuel as [|fuel IH]; intros v acc Hv.
  { change (10 ^ Z.of_nat 0) with 1 in Hv. assert (v = 0) as -> by lia. simpl. lia. }
  cbn [decimal_digits]. rewrite Nat2Z.inj_succ, Z.pow_succ_r in Hv by lia.
  assert (0 <= v mod 10 < 10) by (apply Z.mod_pos_bound; lia).
  assert (Hcons : digits_value (digit_char (v mod 10) :: acc) =
    v mod 10 * 10 ^ Z.of_nat (length acc) + digits_value acc).
  { unfold digits_value at 1. cbn [foldl]. rewrite digits_value_shift, digit_code by done.
    f_equal. f_equal. lia. }
  destruct (Z.ltb_spec v 10).
  - rewrite Hcons, Z.mod_small by lia. done.
  - rewrite IH, Hcons; [|split; [apply Z.div_pos; lia|apply Z.div_lt_upper_bound; lia]].
    cbn [length]. rewrite Nat2Z.inj_succ, Z.pow_succ_r by lia.
    rewrite (Z.div_mod v 10) at 3 by lia. ring.
Qed.

Lemma to_decimal_value v : 0 <= v < 10 ^ 78 -> digits_value (to_decimal v) = v.
Proof.
  intros Hv. unfold to_decimal. rewrite decimal_digits_value by done.
  simpl. unfold digits_value. simpl. lia.
Qed.

Lemma decimal_digits_digit fuel v acc :
  0 <= v -> Forall (fun a => is_ascii_digit a = true) acc ->
  Forall (fun a => is_ascii_digit a = true) (decimal_digits fuel v acc).
Proof.
  revert v acc; induction fuel as [|fuel IH]; intros v acc Hv Hacc; [done|]. cbn [decimal_digits].
  assert (is_ascii_digit (digit_char (v mod 10)) = true).
  { unfold is_ascii_digit. assert (0 <= v mod 10 < 10) by (apply Z.mod_pos_bound; lia).
    rewrite digit_code by done. lia. }
  case_match; [by constructor|]. apply IH; [apply Z.div_pos; lia|by constructor].
Qed.

(** ** Lowercase hex *)

Definition hex_char (d : Z) : ascii :=
  ascii_of_N (Z.to_N (if d <? 10 then 48 + d else 87 + d)).
Definition hex_digit_value (a : ascii) : option Z :=
  let c := code a in
  if (48 <=? c) && (c <=? 57) then Some (c - 48)
  else if (97 <=? c) && (c <=? 102) then Some (c - 87)
  else if (65 <=? c) && (c <=? 70) then Some (c - 55)
  else None.

Fixpoint hex_chars (b : bytes) : list ascii :=
  match b with
  | [] => []
  | x :: b => hex_char (x / 16) :: hex_char (x mod 16) :: hex_chars b
  end.
Fixpoint hex_decode (l : list ascii) : option bytes :=
  match l with
  | [] => Some []
  | h :: d :: l =>
      h ← hex_digit_value h; d ← hex_digit_value d; b ← hex_decode l; Some (h * 16 + d :: b)
  | _ => None
  end.

(** The bytes as ["0x"] and two lowercase digits each, and back. *)
Definition to_hex (b : bytes) : string := list_str ("0"%char :: "x"%char :: hex_chars b).
Definition of_hex (s : string) : option bytes :=
  match str_list s with
  | "0"%char :: "x"%char :: l => hex_decode l
  | _ => None
  end.

Definition is_byte (x : Z) : Prop := 0 <= x < 256.
#[export] Instance is_byte_dec x : Decision (is_byte x).
Proof. unfold is_byte. apply _. Defined.

Lemma hex_char_value d : 0 <= d < 16 -> hex_digit_value (hex_char d) = Some d.
Proof.
  intros Hd. unfold hex_char. assert (d = Z.of_nat (Z.to_nat d)) as -> by lia.
  assert (Hn : (Z.to_nat d < 16)%nat) by lia. revert Hn. generalize (Z.to_nat d) as n. intros n Hn.
  do 16 (destruct n as [|n]; [reflexivity|]). lia.
Qed.

Lemma hex_decode_chars b : Forall is_byte b -> hex_decode (hex_chars b) = Some b.
Proof.
  unfold is_byte. induction 1 as [|x b Hx _ IH]; [done|]. cbn [hex_chars hex_decode].
  rewrite !hex_char_value, IH by
    first [by apply Z.mod_pos_bound|split; [apply Z.div_pos; lia|apply Z.div_lt_upper_bound; lia]].
  simpl. do 2 f_equal. rewrite (Z.div_mod x 16) at 3 by lia. lia.
Qed.

Lemma of_to_hex b : Forall is_byte b -> of_hex (to_hex b) = Some b.
Proof. intros Hb. unfold of_hex, to_hex. rewrite str_list_str. by apply hex_decode_chars. Qed.
