(* ===== verification/Telemetry.v ===== *)
(** usdcx-telemetry (lib.rs, shutdown.rs): the failure classes every service attaches to its errors and the
    spans they mark, the options that turn the export on, its installation, and the bound on a shutdown. The
    exporter and the subscriber are other crates'. *)
From S2P Require Import Prelude Text.
Local Open Scope Z_scope.

Inductive FailureClass : Type :=
| Integrity (kind : string)
| Actionable (kind : string)
| Transient (kind : string).

#[export] Instance FailureClass_eq_dec : EqDecision FailureClass.
Proof. solve_decision. Defined.

Definition kind (c : FailureClass) : string :=
  match c with Integrity k | Actionable k | Transient k => k end.

(** The name a class is exported under ([strum] with [serialize_all = "snake_case"]). *)
Definition class_name (c : FailureClass) : string :=
  match c with
  | Integrity _ => "integrity"
  | Actionable _ => "actionable"
  | Transient _ => "transient"
  end.

(** [trait Classified]: every error says how an alert should treat it. *)
Class Classified (E : Type) := failure : E -> FailureClass.

(** [Failure]: an error with its class; the error type stands for [anyhow::Error]. *)
Record Failure (E : Type) : Type := mkFailure { failure_class : FailureClass; failure_error : E }.
Arguments mkFailure {E} _ _.
Arguments failure_class {E} _.
Arguments failure_error {E} _.

#[export] Instance Failure_classified E : Classified (Failure E) := failure_class.

Definition classified {E} `{Classified E} (e : E) : Failure E := mkFailure (failure e) e.
Definition classify {E A} (r : result E A) (c : FailureClass) : result (Failure E) A :=
  map_err (mkFailure c) r.

Definition classify_with {E A} (r : result E A) (class : E -> FailureClass) : result (Failure E) A :=
  map_err (fun e => mkFailure (class e) e) r.
(** Context is added to the error; the class stays ([add] is anyhow's [context]). *)
Definition failure_context {E} (add : string -> E -> E) (c : string) (f : Failure E) : Failure E :=
  mkFailure (failure_class f) (add c (failure_error f)).
Definition result_context {E A} (add : string -> E -> E) (c : string) (r : result (Failure E) A)
    : result (Failure E) A := map_err (failure_context add c) r.

(** ** Spans *)

Record Span := { span_attributes : list (string * string); span_error : option string }.
Definition record_failure (class : FailureClass) (s : Span) : Span :=
  {| span_attributes := span_attributes s ++ [("failure.class", class_name class); ("failure.kind", kind class)]%string;
     span_error := Some (kind class) |}.
Definition record_error {E} `{Classified E} (e : E) (s : Span) : Span := record_failure (failure e) s.
(** [Failure::report]: the current span is marked and the error logged in it. *)
Definition report {E} (f : Failure E) (message : string) (s : Span) : Span * (string * E) :=
  (record_error f s, (message, failure_error f)).

(** ** Options *)

(** The command line treats a blank setting as unset, and prefers the traces endpoint. *)
Record TelemetryArgs := {
  otel_exporter_otlp_endpoint : option string;
  otel_exporter_otlp_traces_endpoint : option string;
  otel_service_name : option string;
  arg_export_filter : option string;
}.
Definition non_blank (value : option string) : option string :=
  match value with Some v => if is_blank v then None else Some v | None => None end.
Definition endpoint (args : TelemetryArgs) : option string :=
  match non_blank (otel_exporter_otlp_traces_endpoint args) with
  | Some e => Some e
  | None => non_blank (otel_exporter_otlp_endpoint args)
  end.

Definition DEFAULT_EXPORT_FILTER : string :=
  "warn,usdcx_bridge=info,xreserve_deposit_relayer=info,xusdc_attester=info".

(** ** Installation *)

(** The runtime [init] is called on, when there is one. *)
Inductive RuntimeFlavor : Type := CurrentThread | MultiThread.
(** The filter syntax, the runtime, the exporter's construction, and the [service.name] that
    OTEL_RESOURCE_ATTRIBUTES sets. *)
Class TracingLib := {
  filter_valid : string -> bool;
  current_runtime : option RuntimeFlavor;
  exporter_builds : string -> bool;
  resource_attributes_name : option string;
}.

(** A span pipeline: its endpoint, the service name it exports and its filter. *)
Record Provider := { pv_endpoint : string; pv_service_name : string; pv_filter : string }.
(** [PROVIDER], and whether a global subscriber is installed. *)
Record Tracing := { tr_provider : option Provider; tr_subscriber : bool }.

Section tracing.
Context `{TracingLib}.

Definition export_filter (directives : option string) : result string string :=
  match directives with
  | None => Ok DEFAULT_EXPORT_FILTER
  | Some directives => ensure (filter_valid directives) "invalid --export-filter" ;? Ok directives
  end.
(** A later source of the name overrides an earlier one. *)
Definition resource (service_name : string) (name_override : option string) : string :=
  default (default service_name resource_attributes_name) name_override.
Definition provider (endpoint service_name filter : string) : result string Provider :=
  let? flavor := ok_or current_runtime "span export needs a Tokio runtime"%string in
  ensure (match flavor with MultiThread => true | CurrentThread => false end)
    "span export needs the multi-thread Tokio runtime" ;?
  ensure (exporter_builds endpoint) "building the OTLP span exporter" ;?
  Ok {| pv_endpoint := endpoint; pv_service_name := service_name; pv_filter := filter |}.
Definition export_pipeline (service_name : string) (args : TelemetryArgs) : result string (option Provider) :=
  match endpoint args with
  | None => Ok None
  | Some endpoint =>
      let? filter := export_filter (non_blank (arg_export_filter args)) in
      map_ok Some (provider endpoint (resource service_name (non_blank (otel_service_name args))) filter)
  end.
(** The pipeline is kept before the subscriber is installed. *)
Definition init (service_name : string) (args : TelemetryArgs) (tr : Tracing) : result string unit * Tracing :=
  match tr_provider tr with
  | Some _ => (Err "tracing is already initialised"%string, tr)
  | None =>
      match export_pipeline service_name args with
      | Err e => (Err e, tr)
      | Ok export =>
          if tr_subscriber tr then
            (Err "installing the tracing subscriber"%string, {| tr_provider := export; tr_subscriber := true |})
          else (Ok tt, {| tr_provider := export; tr_subscriber := true |})
      end
  end.

(** [flush], and the guard's drop, which shuts the pipeline down: what the pipeline answers, and the error
    logged when it could not send what was left. Nothing happens when export is off. *)
Definition flush {W} (send : Provider -> W -> result string unit * W) (tr : Tracing) (w : W) : list string * W :=
  match tr_provider tr with
  | None => ([], w)
  | Some p => let '(sent, w) := send p w in (match sent with Ok _ => [] | Err e => [e] end, w)
  end.

(** Tracing is installed once: whatever it was installed with, another call fails, and installs nothing. *)
Theorem init_once service_name args tr tr' : init service_name args tr = (Ok tt, tr') ->
  forall name' args', exists e, (init name' args' tr').1 = Err e.
Proof.
  unfold init at 1. destruct (tr_provider tr); [done|]. destruct (export_pipeline service_name args) as [ex|e]; [|done].
  destruct (tr_subscriber tr); [done|]. intros [= <-] name' args'. unfold init. simpl. destruct ex; [by eexists|].
  destruct (export_pipeline name' args'); by eexists.
Qed.

(** Spans are exported exactly when an endpoint is set and not blank. *)
Theorem exports_to_endpoint service_name args tr tr' : init service_name args tr = (Ok tt, tr') ->
  pv_endpoint <$> tr_provider tr' = endpoint args.
Proof.
  unfold init. destruct (tr_provider tr); [done|]. destruct (export_pipeline service_name args) as [ex|e] eqn:He; [|done].
  destruct (tr_subscriber tr); [done|]. intros [= <-]. simpl. unfold export_pipeline in He.
  destruct (endpoint args) as [ep|]; [|by injection He as <-].
  apply rbind_Ok in He as (f & _ & He). apply map_ok_Ok in He as (p & Hp & ->). unfold provider in Hp.
  inv_ok. done.
Qed.
End tracing.

(** ** Shutdown (shutdown.rs) *)

Definition SHUTDOWN_TIMEOUT : Z := 300000.

(** What [stop_within] comes to: the service's output, the process terminated at the deadline, or a service
    that runs on. *)
Inductive Within (T : Type) : Type := Finished (output : T) | Terminated | RunsOn.
Arguments Finished {T} _.
Arguments Terminated {T}.
Arguments RunsOn {T}.
(** [shutdown] is when shutdown was requested, [service] when the service finished and with what. A service
    that finishes at the deadline itself is counted as finished. *)
Definition stop_within {T} (timeout : Z) (shutdown : option Z) (service : option (Z * T)) : Within T :=
  match service, shutdown with
  | Some (now, output), Some at_ => if at_ + timeout <? now then Terminated else Finished output
  | Some (_, output), None => Finished output
  | None, Some _ => Terminated
  | None, None => RunsOn
  end.
(** [cancel_on_signal]: the handlers of both signals are installed, in this order. *)
Definition cancel_on_signal (terminate interrupt : bool) : result string unit :=
  ensure terminate "installing the SIGTERM handler" ;? ensure interrupt "installing the SIGINT handler".

(** A service is terminated only past its deadline, and only once shutdown was requested. *)
Theorem terminated_only_late {T} timeout shutdown (service : option (Z * T)) :
  stop_within timeout shutdown service = Terminated <->
  exists at_, shutdown = Some at_
    /\ forall now output, service = Some (now, output) -> at_ + timeout < now.
Proof.
  unfold stop_within. destruct service as [[now output]|], shutdown as [at_|].
  - destruct (Z.ltb_spec (at_ + timeout) now).
    + split; [|done]. intros _. exists at_. split; [done|]. by intros ?? [= <- <-].
    + split; [done|]. intros (a & [= <-] & Hn). specialize (Hn now output eq_refl). lia.
  - split; [done|]. by intros (a & ? & _).
  - split; [|done]. intros _. by exists at_.
  - split; [done|]. by intros (a & ? & _).
Qed.
