(* ===== verification/Foreign.v ===== *)
(** Code outside the repository, as parameters of the model: the Miden protocol types the services
    read, URLs, and the hashes and parsers of the Ethereum libraries. Each class lists the calls the
    sources make; the [...Laws] classes state the documented round trips that some properties rely
    on. Keys and hashes of those libraries ([NoteId], [Nullifier], [Word], [B256], [Address]) are
    identified with their canonical bytes. *)
From S2P Require Import Prelude Text.

Abbreviation NoteId := bytes.
Abbreviation Nullifier := bytes.
Abbreviation AccountId := bytes.
Abbreviation Word := bytes.
Abbreviation B256 := bytes.
Abbreviation Address := bytes.
Abbreviation BlockNumber := Z.
(** A URL in its serialized form. *)
Abbreviation Url := string.

(** ** miden-protocol, miden-standards and miden-usdcx *)

Inductive OutputNote_ (N : Type) : Type := Public (n : N) | NotPublic.
Arguments Public {N} n.
Arguments NotPublic {N}.

(** A transaction header of a validated block: the account it ran against and its input notes. *)
Record TransactionHeader := {
  tx_account_id : AccountId;
  tx_input_nullifiers : list Nullifier;
}.

Class MidenLib := {
  PublicOutputNote : Type;
  Attachment : Type;
  Asset : Type;
  (** [XReserveBurnItems]. *)
  BurnItems : Type;
  BlockHeader : Type;
  SignedBlock : Type;
  BurnItems_eq_dec :: EqDecision BurnItems;
  PublicOutputNote_eq_dec :: EqDecision PublicOutputNote;
  (** [PublicOutputNote]. *)
  note_id_of : PublicOutputNote -> NoteId;
  note_nullifier : PublicOutputNote -> Nullifier;
  note_to_bytes : PublicOutputNote -> bytes;
  note_read : bytes -> option PublicOutputNote;
  note_sender : PublicOutputNote -> AccountId;
  note_script_root : PublicOutputNote -> Word;
  note_num_attachments : PublicOutputNote -> Z;
  note_find_attachment : PublicOutputNote -> Z -> option Attachment;
  note_attachments : PublicOutputNote -> list Attachment;
  note_assets : PublicOutputNote -> list Asset;
  note_storage_items : PublicOutputNote -> list Z;
  (** The constants of [XReserveBurnNote], [NetworkAccountTarget] and [XUsdcBurnAttachment]. *)
  xreserve_burn_script_root : Word;
  network_account_target_scheme : Z;
  xreserve_burn_withdrawal_attachment_scheme : Z;
  attachment_scheme : Attachment -> Z;
  network_account_target : Attachment -> option AccountId;
  xusdc_burn_items : Attachment -> option BurnItems;
  dest_domain : BurnItems -> Z;
  dest_recipient : BurnItems -> bytes;
  asset_is_fungible : Asset -> bool;
  asset_faucet_id : Asset -> AccountId;
  asset_as_elements : Asset -> list Z;
  asset_amount : Asset -> Z;
  (** [EthEmbeddedAccountId::from_account_id(..).to_bytes32()] and [CircleDomain::MIDEN]. *)
  account_id_bytes32 : AccountId -> bytes;
  miden_domain : Z;
  (** [USDCX_DECIMALS] and [AssetAmount::new]. *)
  usdcx_decimals : Z;
  asset_amount_new : Z -> option Z;
  (** [AccountId::from_hex], [Word::parse], their [to_hex], and [Endpoint::try_from]. *)
  account_id_from_hex : string -> option AccountId;
  account_id_to_hex : AccountId -> string;
  word_parse : string -> option Word;
  word_to_hex : Word -> string;
  endpoint_try_from : string -> option string;
  (** Canonical encodings: the bytes read back as a [Word] or an [AccountId] and re-encode to
      themselves. *)
  canonical_word : bytes -> bool;
  canonical_account_id : bytes -> bool;
  (** [NoteId::to_hex], its [Display] and [NoteId::try_from_hex]. *)
  note_id_to_hex : NoteId -> string;
  note_id_to_string : NoteId -> string;
  note_id_try_from_hex : string -> option NoteId;
  (** The key [NoteId]'s [Ord] sorts by. *)
  note_id_order : NoteId -> bytes;
  (** [BlockHeader] and its protobuf form. *)
  header_block_num : BlockHeader -> BlockNumber;
  header_commitment : BlockHeader -> Word;
  header_timestamp : BlockHeader -> Z;
  header_encode : BlockHeader -> bytes;
  header_decode : bytes -> option BlockHeader;
  (** [SignedBlock]. *)
  block_header : SignedBlock -> BlockHeader;
  block_output_note_batches : SignedBlock -> list (list (Z * OutputNote_ PublicOutputNote));
  block_transactions : SignedBlock -> list TransactionHeader;
  block_validate : SignedBlock -> option BlockHeader -> bool;
}.

(** Serialization round trips of miden-protocol, and the ranges of its block numbers ([u32]). *)
Class MidenLaws `{MidenLib} : Prop := {
  note_read_to_bytes n : note_read (note_to_bytes n) = Some n;
  note_id_canonical n : canonical_word (note_id_of n) = true;
  note_nullifier_canonical n : canonical_word (note_nullifier n) = true;
  note_id_hex_string id : canonical_word id = true ->
    note_id_try_from_hex (note_id_to_string id) = Some id;
  header_decode_encode h : header_decode (header_encode h) = Some h;
  header_block_num_range h : (0 <= header_block_num h <= u32_max)%Z;
}.

(** ** url, reqwest and alloy *)

Class WebLib := {
  (** [Url::parse], as the serialized form of what it reads. *)
  url_parse : string -> option Url;
  url_scheme : Url -> string;
  url_has_host : Url -> bool;
  url_path : Url -> string;
  url_join : Url -> string -> option Url;
  (** [path_segments_mut] with [pop_if_empty] and [push]; fails on a URL that cannot be a base. *)
  url_push_segment : Url -> string -> option Url;
  (** [StatusCode::from_u16] accepts the number. *)
  status_code_ok : Z -> bool;
  (** [StatusCode]'s [Display]. *)
  status_display : Z -> string;
  (** [str::parse::<B256>], [Address] and [Bytes]. *)
  parse_b256 : string -> option B256;
  parse_address : string -> option Address;
  parse_hex_bytes : string -> option bytes;
  keccak256 : bytes -> B256;
}.

(** [StatusCode] is the three-digit integers from 100 to 999; a joined URL is serialized, so it
    parses to itself; Keccak-256 gives 32 bytes, and so do the texts that parse as one. *)
Class WebLaws `{WebLib} : Prop := {
  url_join_parse u s v : url_join u s = Some v -> url_parse v = Some v;
  keccak256_length b : length (keccak256 b) = 32%nat;
  parse_b256_length s b : parse_b256 s = Some b -> length b = 32%nat;
  parse_address_length s a : parse_address s = Some a -> length a = 20%nat;
  status_code_range c : (100 <= c <= 999)%Z -> status_code_ok c = true;
}.

(** The status codes the sources name. *)
Definition OK : Z := 200.
Definition CREATED : Z := 201.
Definition BAD_REQUEST : Z := 400.
Definition CONFLICT_STATUS : Z := 409.
Definition TOO_MANY_REQUESTS : Z := 429.
