(* ===== verification/Wire.v ===== *)
(** Circle's wire types (circle.rs) and the JSON reader and writer they go through. serde's derived
    decoders are generated code: they are parameters. *)
From S2P Require Import Prelude Text Foreign.

(** [serde_json::Value]. Object keys are unique, as the parser leaves them. *)
Inductive Value : Type :=
| VNull
| VBool (b : bool)
| VNumber (text : string)
| VString (s : string)
| VArray (l : list Value)
| VObject (m : list (string * Value)).

Definition find_key (m : list (string * Value)) (key : string) : option Value :=
  match List.find (fun kv => bool_decide (kv.1 = key)) m with Some kv => Some kv.2 | None => None end.
(** [Value::get] by key and by index 0, [Index<&str>] and [as_str]. *)
Definition value_get (v : Value) (key : string) : option Value :=
  match v with VObject m => find_key m key | _ => None end.
Definition value_get_0 (v : Value) : option Value :=
  match v with VArray (x :: _) => Some x | _ => None end.
Definition value_index (v : Value) (key : string) : Value := default VNull (value_get v key).
Definition as_str (v : Value) : option string := match v with VString s => Some s | _ => None end.

Record StructuredHookData := {
  hd_remote_domain : Z;
  hd_remote_depositor : string;
  hd_remote_token : string;
  hd_forwarding_contract_address : string;
  hd_forwarding_calldata : string;
}.

Record TransferSpec := {
  ts_version : Z;
  ts_source_domain : Z;
  ts_destination_domain : Z;
  ts_source_contract : string;
  ts_destination_contract : string;
  ts_source_token : string;
  ts_destination_token : string;
  ts_source_depositor : string;
  ts_destination_recipient : string;
  ts_source_signer : string;
  ts_destination_caller : string;
  ts_value : string;
  ts_salt : string;
  ts_hook_data : StructuredHookData;
}.

Record BurnIntent := {
  bi_max_block_height : string;
  bi_max_fee : string;
  bi_spec : TransferSpec;
}.

Record UnverifiedPrepareBatch := {
  pb_burn_intents : list BurnIntent;
  pb_encoded : string;
  pb_message_hash_to_sign : string;
}.

Record UnverifiedPrepareResponse := { pr_batches : list UnverifiedPrepareBatch }.

Record WithdrawalResponse := {
  wr_withdrawal_id : string;
  wr_burn_note_id : string;
  wr_status : string;
  wr_transfer_spec_hashes : list string;
  wr_failure_reason : option string;
}.

Record WithdrawalConflict := {
  wc_withdrawal_id : option string;
  wc_burn_note_id : option string;
}.

Record ConflictResponse := { cr_conflict : option WithdrawalConflict }.

Record RawResponse := { rr_status : Z; rr_body : bytes }.

(** serde_json over the types above, and the request body a signed withdrawal is saved as. *)
Class JsonLib := {
  json_value : bytes -> option Value;
  json_withdrawal : bytes -> option WithdrawalResponse;
  json_withdrawals : bytes -> option (list WithdrawalResponse);
  json_conflict : bytes -> option ConflictResponse;
  json_prepare : bytes -> option UnverifiedPrepareResponse;
  (** The [burnTxId] of a saved body that decodes as a request with exactly one batch. *)
  json_saved_burn_tx_id : bytes -> option string;
  (** A body with exactly one batch of exactly one intent: that intent as JSON. *)
  json_saved_intent : bytes -> option Value;
  (** An array of exactly one withdrawal. *)
  json_one_withdrawal : bytes -> option WithdrawalResponse;
  json_text : Value -> string;
  (** The body of a submission: the checked intent, the two signatures and the note ID. *)
  json_submission : BurnIntent -> string -> string -> string -> option bytes;
}.

(** A written submission reads back with its note ID. *)
Class JsonLaws `{JsonLib} : Prop := {
  json_submission_burn_tx_id intent s1 s2 id body :
    json_submission intent s1 s2 id = Some body -> json_saved_burn_tx_id body = Some id;
}.

Section messages.
Context `{JsonLib}.
Local Open Scope Z_scope.

(** 200 characters keep Circle's reason readable without letting a long reply flood the log. *)
Definition MAX_LOGGED_MESSAGE_CHARS : nat := 200.

Definition is_withdrawal_limit (status : Z) (body : bytes) (prefix : string) : bool :=
  (status =? BAD_REQUEST)
  && match json_value body with
     | Some reply =>
         match as_str (value_index reply "message") with
         | Some message => starts_with (str_list message) (str_list prefix)
         | None => false
         end
     | None => false
     end.

Definition circle_message (body : bytes) : option string :=
  match json_value body with
  | Some reply =>
      match as_str (value_index reply "message") with
      | Some message => Some (take_chars MAX_LOGGED_MESSAGE_CHARS message)
      | None => None
      end
  | None => None
  end.

Definition one_line_circle_message (response : bytes) : option string :=
  one_line <$> circle_message response.

(** The status Circle reports: of the first element of a list, or of the reply itself. *)
Definition circle_status (response : option bytes) : option string :=
  match response with
  | None => None
  | Some body =>
      match json_value body with
      | None => None
      | Some reply =>
          let withdrawal := default reply (value_get_0 reply) in
          match value_get withdrawal "status" with Some v => as_str v | None => None end
      end
  end.
End messages.
