(* ===== verification/Types.v ===== *)
(** The saved submission (submission.rs) and the enumerations the store keeps by name or number
    (store.rs). *)
From S2P Require Import Prelude Text Telemetry Foreign.
Local Open Scope Z_scope.

(** ** Submissions *)

Inductive SubmissionStatus : Type := Submitting | Submitted | Finalized | Expired | Failed | Held.
#[export] Instance SubmissionStatus_eq_dec : EqDecision SubmissionStatus.
Proof. solve_decision. Defined.

(** [strum::AsRefStr] and [strum::EnumString]. *)
Definition status_as_ref (s : SubmissionStatus) : string :=
  match s with
  | Submitting => "SUBMITTING" | Submitted => "SUBMITTED" | Finalized => "FINALIZED"
  | Expired => "EXPIRED" | Failed => "FAILED" | Held => "HELD"
  end.
Definition all_statuses : list SubmissionStatus :=
  [Submitting; Submitted; Finalized; Expired; Failed; Held].
Definition status_from_str (text : string) : option SubmissionStatus :=
  List.find (fun s => bool_decide (status_as_ref s = text)) all_statuses.

Inductive HoldReason : Type := HttpRejected.
#[export] Instance HoldReason_eq_dec : EqDecision HoldReason.
Proof. solve_decision. Defined.
Definition hold_reason_as_ref (r : HoldReason) : string := match r with HttpRejected => "http_rejected" end.
(** The [Debug] form the listings print. *)
Definition hold_reason_debug (r : HoldReason) : string := match r with HttpRejected => "HttpRejected" end.

Inductive SubmissionAttempt : Type := First | Recovery.

Record SavedSubmission := {
  note_id : NoteId;
  sub_endpoint : Url;
  body : bytes;
  transfer_spec_hash : B256;
  status : SubmissionStatus;
  withdrawal_id : option string;
  hold_reason : option HoldReason;
  last_http_status : option Z;
  last_response : option bytes;
  last_error : option string;
}.
#[export] Instance SavedSubmission_eq_dec : EqDecision SavedSubmission.
Proof. solve_decision. Defined.

(** Field updates of [SavedSubmission]. *)
Definition with_withdrawal_id (w : option string) (s : SavedSubmission) : SavedSubmission :=
  {| note_id := note_id s; sub_endpoint := sub_endpoint s; body := body s;
     transfer_spec_hash := transfer_spec_hash s; status := status s; withdrawal_id := w;
     hold_reason := hold_reason s; last_http_status := last_http_status s;
     last_response := last_response s; last_error := last_error s |}.
Definition with_status (x : SubmissionStatus) (s : SavedSubmission) : SavedSubmission :=
  {| note_id := note_id s; sub_endpoint := sub_endpoint s; body := body s;
     transfer_spec_hash := transfer_spec_hash s; status := x; withdrawal_id := withdrawal_id s;
     hold_reason := hold_reason s; last_http_status := last_http_status s;
     last_response := last_response s; last_error := last_error s |}.
Definition with_hold_reason (h : option HoldReason) (s : SavedSubmission) : SavedSubmission :=
  {| note_id := note_id s; sub_endpoint := sub_endpoint s; body := body s;
     transfer_spec_hash := transfer_spec_hash s; status := status s;
     withdrawal_id := withdrawal_id s; hold_reason := h; last_http_status := last_http_status s;
     last_response := last_response s; last_error := last_error s |}.
Definition with_last_error (e : option string) (s : SavedSubmission) : SavedSubmission :=
  {| note_id := note_id s; sub_endpoint := sub_endpoint s; body := body s;
     transfer_spec_hash := transfer_spec_hash s; status := status s;
     withdrawal_id := withdrawal_id s; hold_reason := hold_reason s;
     last_http_status := last_http_status s; last_response := last_response s; last_error := e |}.
Definition with_reply (http : option Z) (response : option bytes) (e : option string)
    (s : SavedSubmission) : SavedSubmission :=
  {| note_id := note_id s; sub_endpoint := sub_endpoint s; body := body s;
     transfer_spec_hash := transfer_spec_hash s; status := status s;
     withdrawal_id := withdrawal_id s; hold_reason := hold_reason s;
     last_http_status := http; last_response := response; last_error := e |}.

Definition with_endpoint (u : Url) (s : SavedSubmission) : SavedSubmission :=
  {| note_id := note_id s; sub_endpoint := u; body := body s;
     transfer_spec_hash := transfer_spec_hash s; status := status s;
     withdrawal_id := withdrawal_id s; hold_reason := hold_reason s;
     last_http_status := last_http_status s; last_response := last_response s;
     last_error := last_error s |}.

(** ** Holds *)

Inductive BurnHoldReason : Type := PrepareRejected | TooSmallToForward.
#[export] Instance BurnHoldReason_eq_dec : EqDecision BurnHoldReason.
Proof. solve_decision. Defined.
Definition burn_hold_code (r : BurnHoldReason) : Z :=
  match r with PrepareRejected => 1 | TooSmallToForward => 2 end.
Definition burn_hold_from_code (code : Z) : option BurnHoldReason :=
  List.find (fun r => burn_hold_code r =? code) [PrepareRejected; TooSmallToForward].
Definition burn_hold_debug (r : BurnHoldReason) : string :=
  match r with PrepareRejected => "PrepareRejected" | TooSmallToForward => "TooSmallToForward" end.

Record Hold := {
  hold_note_id : NoteId;
  hold_kind : string;
  hold_reason_text : string;
  hold_http_status : option Z;
  hold_circle_message : option string;
}.

Record HoldEntry := {
  he_note_id : string;
  he_kind : string;
  he_reason : string;
  he_http_status : option Z;
  he_circle_message : option string;
  he_event_seq : Z;
}.

Record ReleaseSelection := {
  sel_note_id : NoteId;
  sel_expected_event_seq : Z;
  sel_circle_not_accepted : bool;
}.

(** ** Errors *)

(** The store's errors, by the text of their [anyhow] context. [StoreQuery] is a statement SQLite
    refused, as for a failed CHECK constraint; [StoreContext] is another context text. *)
Inductive StoreError : Type :=
| INVALID
| CONFLICT
| CANNOT_UPGRADE
| AnchorDiffers
| NewerVersion (version : Z)
| StoreQuery
| StoreContext (text : string).

Inductive ReleaseError : Type :=
| ReleaseInvalid
| ReleaseConflict
| NotHeld (note : NoteId)
| CircleCheck
| ReleaseStore (e : StoreError).

(** ** History *)

Inductive EventKind : Type :=
| Authorized | Outcome | BurnHeld | BurnReleased | OperatorRelease | WithdrawalLimitEvent.
#[export] Instance EventKind_eq_dec : EqDecision EventKind.
Proof. solve_decision. Defined.
Definition event_kind_as_ref (k : EventKind) : string :=
  match k with
  | Authorized => "AUTHORIZED" | Outcome => "OUTCOME" | BurnHeld => "BURN_HELD"
  | BurnReleased => "BURN_RELEASED" | OperatorRelease => "OPERATOR_RELEASE"
  | WithdrawalLimitEvent => "WITHDRAWAL_LIMIT"
  end.
Definition keeps_request (k : EventKind) : bool := bool_decide (k = Authorized).

(** Stored names and numbers read back. *)
Lemma status_roundtrip s : status_from_str (status_as_ref s) = Some s.
Proof. by destruct s. Qed.
Lemma burn_hold_roundtrip r : burn_hold_from_code (burn_hold_code r) = Some r.
Proof. by destruct r. Qed.
Lemma burn_hold_from_code_Some c r : burn_hold_from_code c = Some r -> c = burn_hold_code r.
Proof.
  unfold burn_hold_from_code. simpl.
  destruct c as [|[p|p|]|p]; try done; [destruct p; try done|]; by intros [= <-].
Qed.
