(* ===== verification/Burn.v ===== *)
(** Burn notes (burn.rs): which public notes the faucet can consume as an xUSDC burn, and the burns
    a block's faucet transactions consumed. *)
From S2P Require Import Prelude Text Foreign.
Local Open Scope Z_scope.

(** [InvalidBurnCandidate], with its reason. *)
Inductive InvalidBurnCandidate : Type := NotABurn (reason : string).

Section burn.
Context `{MidenLib}.

Record BurnCandidate := {
  bc_note : PublicOutputNote;
  bc_creation_block : BlockNumber;
  bc_items : BurnItems;
  bc_amount : Z;
}.

Record DiscoveredBurn := {
  db_note : PublicOutputNote;
  db_creation_block : BlockNumber;
  db_consumption_block : BlockNumber;
  db_items : BurnItems;
  db_amount : Z;
}.

#[export] Instance DiscoveredBurn_eq_dec : EqDecision DiscoveredBurn.
Proof. solve_decision. Defined.

(** [burn.assets().as_slice()] is one fungible asset of the faucet whose elements are the note's
    storage. *)
Definition single_asset (note : PublicOutputNote) (faucet : AccountId)
    : result InvalidBurnCandidate Asset :=
  match note_assets note with
  | [asset] =>
      if negb (asset_is_fungible asset)
         || negb (bool_decide (asset_faucet_id asset = faucet))
         || negb (bool_decide (note_storage_items note = asset_as_elements asset))
      then Err (NotABurn "asset or storage is not one fungible amount of the faucet's token")
      else Ok asset
  | _ => Err (NotABurn "expected exactly one asset")
  end.

Definition BurnCandidate_new (note : PublicOutputNote) (creation_block : BlockNumber)
    (faucet : AccountId) : result InvalidBurnCandidate BurnCandidate :=
  ensure (bool_decide (note_script_root note = xreserve_burn_script_root))
    (NotABurn "script root is not the burn script") ;?
  ensure (note_num_attachments note =? 2) (NotABurn "expected exactly two attachments") ;?
  let? routing :=
    ok_or (note_find_attachment note network_account_target_scheme)
      (NotABurn "routing attachment is missing") in
  let? withdrawal :=
    ok_or (List.find (fun a => attachment_scheme a =? xreserve_burn_withdrawal_attachment_scheme)
             (note_attachments note))
      (NotABurn "withdrawal attachment is missing") in
  let? target :=
    ok_or (network_account_target routing) (NotABurn "routing attachment is malformed") in
  ensure (bool_decide (target = faucet)) (NotABurn "routing target is not the faucet") ;?
  let? items :=
    ok_or (xusdc_burn_items withdrawal) (NotABurn "withdrawal attachment is malformed") in
  let? asset := single_asset note faucet in
  Ok {| bc_note := note;
        bc_creation_block := creation_block;
        bc_items := items;
        bc_amount := asset_amount asset |}.

Definition bc_note_id (c : BurnCandidate) : NoteId := note_id_of (bc_note c).
Definition bc_nullifier (c : BurnCandidate) : Nullifier := note_nullifier (bc_note c).

Definition into_discovered (c : BurnCandidate) (consumption_block : BlockNumber) : DiscoveredBurn :=
  {| db_note := bc_note c;
     db_creation_block := bc_creation_block c;
     db_consumption_block := consumption_block;
     db_items := bc_items c;
     db_amount := bc_amount c |}.

Definition DiscoveredBurn_new (note : PublicOutputNote) (creation consumption : BlockNumber)
    (faucet : AccountId) : result InvalidBurnCandidate DiscoveredBurn :=
  map_ok (fun c => into_discovered c consumption) (BurnCandidate_new note creation faucet).

Definition db_note_id (b : DiscoveredBurn) : NoteId := note_id_of (db_note b).
Definition db_nullifier (b : DiscoveredBurn) : Nullifier := note_nullifier (db_note b).

(** A candidate keeps the note and block it was made from. *)
Lemma BurnCandidate_new_note note creation faucet c :
  BurnCandidate_new note creation faucet = Ok c ->
  bc_note c = note /\ bc_creation_block c = creation.
Proof. unfold BurnCandidate_new. intros. inv_run. done. Qed.

(** Whether a note is a burn does not depend on the block it was created in. *)
Lemma BurnCandidate_new_block note b1 b2 faucet c :
  BurnCandidate_new note b1 faucet = Ok c ->
  BurnCandidate_new note b2 faucet =
    Ok {| bc_note := bc_note c; bc_creation_block := b2;
          bc_items := bc_items c; bc_amount := bc_amount c |}.
Proof.
  unfold BurnCandidate_new. intros.
  destruct (bool_decide (_ = xreserve_burn_script_root)); [|done]. simpl in *.
  destruct (_ =? 2); [|done]. simpl in *.
  inv_ok. repeat match goal with E : _ = _ |- _ => rewrite E; clear E; simpl end. done.
Qed.

Lemma DiscoveredBurn_new_note note creation consumption faucet b :
  DiscoveredBurn_new note creation consumption faucet = Ok b ->
  db_note b = note /\ db_creation_block b = creation /\ db_consumption_block b = consumption.
Proof.
  unfold DiscoveredBurn_new. intros. inv_ok.
  match goal with E : _ = Ok _ |- _ => apply BurnCandidate_new_note in E as [<- <-] end.
  by subst.
Qed.

(** What the configured faucet accepts as a burn: the reference the constructor implements. *)
Definition is_burn_note (note : PublicOutputNote) (faucet : AccountId) (items : BurnItems)
    (amount : Z) : Prop :=
  note_script_root note = xreserve_burn_script_root /\
  note_num_attachments note = 2 /\
  (exists routing,
    note_find_attachment note network_account_target_scheme = Some routing /\
    network_account_target routing = Some faucet) /\
  (exists withdrawal,
    List.find (fun a => attachment_scheme a =? xreserve_burn_withdrawal_attachment_scheme)
      (note_attachments note) = Some withdrawal /\
    xusdc_burn_items withdrawal = Some items) /\
  (exists asset,
    note_assets note = [asset] /\ asset_is_fungible asset = true /\
    asset_faucet_id asset = faucet /\ note_storage_items note = asset_as_elements asset /\
    amount = asset_amount asset).

Lemma single_asset_Ok note faucet asset :
  single_asset note faucet = Ok asset <->
  note_assets note = [asset] /\ asset_is_fungible asset = true /\
  asset_faucet_id asset = faucet /\ note_storage_items note = asset_as_elements asset.
Proof.
  unfold single_asset. destruct (note_assets note) as [|a [|a' l]]; [naive_solver| |naive_solver].
  case_match eqn:Hc; split.
  - done.
  - intros ([= ->] & Hf & Hid & Hst). by rewrite Hf, !bool_decide_eq_true_2 in Hc by done.
  - intros [= <-]. bool_prop. by split_and!.
  - by intros ([= ->] & _).
Qed.

Lemma BurnCandidate_new_spec note creation faucet c :
  BurnCandidate_new note creation faucet = Ok c <->
  bc_note c = note /\ bc_creation_block c = creation /\
  is_burn_note note faucet (bc_items c) (bc_amount c).
Proof.
  split.
  - intros Hn. pose proof Hn as [-> ->]%BurnCandidate_new_note. split_and!; [done..|].
    unfold BurnCandidate_new in Hn. inv_ok. bool_prop. subst.
    match goal with E : single_asset _ _ = _ |- _ => apply single_asset_Ok in E end.
    unfold is_burn_note. simpl. naive_solver.
  - intros (<- & <- & Hs & Hn & (r & Hr & Ht) & (w & Hw & Hi) & (a & Ha & Hf & Hid & Hst & Ham)).
    unfold BurnCandidate_new.
    rewrite bool_decide_eq_true_2 by done. simpl. rewrite Hn. simpl.
    rewrite Hr. simpl. rewrite Hw. simpl. rewrite Ht. simpl.
    rewrite bool_decide_eq_true_2 by done. simpl. rewrite Hi. simpl.
    rewrite (proj2 (single_asset_Ok (bc_note c) faucet a)) by done. simpl.
    rewrite <-Ham. by destruct c.
Qed.
End burn.
