(* ===== verification/Store.v ===== *)
(** The durable store (store.rs): its tables as maps and a history list, and each operation as one
    transaction over them. The SQL texts of the source are translated clause by clause. A statement
    SQLite itself fails to run (I/O, a full disk, a lock) aborts its transaction and is not
    modelled further. *)
From S2P Require Import Prelude Text Foreign Wire Types Burn.
Local Open Scope Z_scope.

(** ** Tables *)

(** A row of [burns], keyed by [note_id]. *)
Record BurnRow := {
  b_nullifier : bytes;
  b_note : bytes;
  b_creation_block : Z;
  b_consumption_block : option Z;
  b_hold_reason : option Z;
  b_retry_at : option Z;
}.
#[export] Instance BurnRow_eq_dec : EqDecision BurnRow.
Proof. solve_decision. Defined.

Definition set_hold (h : option Z) (r : BurnRow) : BurnRow :=
  {| b_nullifier := b_nullifier r; b_note := b_note r; b_creation_block := b_creation_block r;
     b_consumption_block := b_consumption_block r; b_hold_reason := h; b_retry_at := b_retry_at r |}.
Definition set_retry (a : option Z) (r : BurnRow) : BurnRow :=
  {| b_nullifier := b_nullifier r; b_note := b_note r; b_creation_block := b_creation_block r;
     b_consumption_block := b_consumption_block r; b_hold_reason := b_hold_reason r;
     b_retry_at := a |}.
Definition set_consumption (c : option Z) (r : BurnRow) : BurnRow :=
  {| b_nullifier := b_nullifier r; b_note := b_note r; b_creation_block := b_creation_block r;
     b_consumption_block := c; b_hold_reason := b_hold_reason r; b_retry_at := b_retry_at r |}.

(** A row of [submissions], keyed by [note_id]. The CHECK constraints limit [status] and
    [hold_reason] to the names of their enumerations. *)
Record SubmissionRow := {
  s_endpoint : string;
  s_body : bytes;
  s_transfer_spec_hash : bytes;
  s_status : SubmissionStatus;
  s_withdrawal_id : option string;
  s_hold_reason : option HoldReason;
  s_last_http_status : option Z;
  s_last_response : option bytes;
  s_last_error : option string;
}.

(** The columns of a saved submission, and back. *)
Definition row_of (s : SavedSubmission) : SubmissionRow :=
  {| s_endpoint := sub_endpoint s; s_body := body s; s_transfer_spec_hash := transfer_spec_hash s;
     s_status := status s; s_withdrawal_id := withdrawal_id s; s_hold_reason := hold_reason s;
     s_last_http_status := last_http_status s; s_last_response := last_response s;
     s_last_error := last_error s |}.
Definition saved_of (id : NoteId) (r : SubmissionRow) : SavedSubmission :=
  {| note_id := id; sub_endpoint := s_endpoint r; body := s_body r;
     transfer_spec_hash := s_transfer_spec_hash r; status := s_status r;
     withdrawal_id := s_withdrawal_id r; hold_reason := s_hold_reason r;
     last_http_status := s_last_http_status r; last_response := s_last_response r;
     last_error := s_last_error r |}.

(** A row of [submission_events]. *)
Record EventRow := {
  e_seq : Z;
  e_note_id : NoteId;
  e_recorded_at : Z;
  e_kind : EventKind;
  e_status : option SubmissionStatus;
  e_withdrawal_id : option string;
  e_body : option bytes;
  e_transfer_spec_hash : option bytes;
  e_http_status : option Z;
  e_response : option bytes;
  e_error : option string;
  e_endpoint : option string;
  e_hold_reason : option HoldReason;
  e_burn_hold_reason : option Z;
  e_circle_status : option string;
}.

(** The single row of [attester_state]. *)
Record StateRow := {
  a_faucet_account_id : bytes;
  a_anchor_block : Z;
  a_anchor_commitment : bytes;
  a_checkpoint : option bytes;
}.

Record TrustedAnchor := { ta_block_num : BlockNumber; ta_commitment : Word }.
#[export] Instance TrustedAnchor_eq_dec : EqDecision TrustedAnchor.
Proof. solve_decision. Defined.

(** The open store: its tables and the faucet it was opened for. [events] is the history, newest
    first; [sequence] is SQLite's AUTOINCREMENT counter of that table. *)
Record Store := {
  burns : gmap NoteId BurnRow;
  submissions : gmap NoteId SubmissionRow;
  events : list EventRow;
  sequence : Z;
  attester_state : option StateRow;
  store_faucet : AccountId;
}.

Definition set_burns (m : gmap NoteId BurnRow) (st : Store) : Store :=
  {| burns := m; submissions := submissions st; events := events st; sequence := sequence st;
     attester_state := attester_state st; store_faucet := store_faucet st |}.
Definition set_submissions (m : gmap NoteId SubmissionRow) (st : Store) : Store :=
  {| burns := burns st; submissions := m; events := events st; sequence := sequence st;
     attester_state := attester_state st; store_faucet := store_faucet st |}.
Definition set_state (a : option StateRow) (st : Store) : Store :=
  {| burns := burns st; submissions := submissions st; events := events st;
     sequence := sequence st; attester_state := a; store_faucet := store_faucet st |}.
(** INSERT INTO submission_events: the row takes the next sequence number. *)
Definition push_event (mk : Z -> EventRow) (st : Store) : Store :=
  {| burns := burns st; submissions := submissions st;
     events := mk (sequence st + 1) :: events st; sequence := sequence st + 1;
     attester_state := attester_state st; store_faucet := store_faucet st |}.

Record Progress := {
  burns_held : Z;
  withdrawals_held : Z;
  withdrawals_failed : Z;
  withdrawals_pending : Z;
  burns_unfinished : Z;
  oldest_unfinished_burn : option BlockNumber;
  withdrawal_limit_waiting : Z;
}.

Record LimitWait := {
  lw_note_id : NoteId;
  lw_creation_block : Z;
  lw_retry_at : Z;
}.

Definition HOLDS_PAGE : nat := 100.

(** ** Queries *)

(** SELECT MAX(seq) over the rows that satisfy [p]. *)
Definition max_seq (p : EventRow -> bool) (evs : list EventRow) : option Z :=
  foldr (fun e acc =>
    if p e then Some (match acc with None => e_seq e | Some m => Z.max (e_seq e) m end) else acc)
    None evs.
Definition of_note (id : NoteId) (e : EventRow) : bool := bool_decide (e_note_id e = id).
Definition of_kind (k : EventKind) (e : EventRow) : bool := bool_decide (e_kind e = k).
Definition event_at (seq : option Z) (evs : list EventRow) : option EventRow :=
  match seq with None => None | Some n => List.find (fun e => e_seq e =? n) evs end.

(** The revision of a note: its latest history row. *)
Definition revision (st : Store) (id : NoteId) : option Z := max_seq (of_note id) (events st).

(** The rows of [burns] in creation order: ORDER BY creation_block, note_id. *)
Definition burn_key (r : NoteId * BurnRow) : bytes := b_creation_block r.2 :: r.1.
Definition burn_rows (st : Store) : list (NoteId * BurnRow) :=
  order_by burn_key (map_to_list (burns st)).
(** The rows of [submissions] ORDER BY note_id. *)
Definition submission_rows (st : Store) : list (NoteId * SubmissionRow) :=
  order_by fst (map_to_list (submissions st)).

Definition decode_block_number (value : Z) : result StoreError BlockNumber :=
  ok_or (try_from_max u32_max value) INVALID.

Section store.
Context `{MidenLib, WebLib, JsonLib}.

Definition note_known (st : Store) (id : NoteId) : bool := bool_decide (is_Some (burns st !! id)).

Definition decode_header (b : bytes) : result StoreError BlockHeader := ok_or (header_decode b) INVALID.

Definition load_checkpoint (st : Store) : result StoreError (option BlockHeader) :=
  let? row := ok_or (attester_state st) StoreQuery in
  transpose (decode_header <$> a_checkpoint row).
Definition checkpoint := load_checkpoint.

(** [decode_canonical::<PublicOutputNote>]. *)
Definition decode_public_note (b : bytes) : result StoreError PublicOutputNote :=
  match note_read b with
  | Some n => if bool_decide (note_to_bytes n = b) then Ok n else Err INVALID
  | None => Err INVALID
  end.
(** [decode_canonical] of a [NoteId], a [Nullifier] or a [Word]. *)
Definition decode_word (b : bytes) : result StoreError bytes :=
  if canonical_word b then Ok b else Err INVALID.

Definition decode_note (note id nullifier : bytes) : result StoreError PublicOutputNote :=
  let? n := decode_public_note note in
  let? i := decode_word id in
  let? u := decode_word nullifier in
  if negb (bool_decide (note_id_of n = i)) || negb (bool_decide (note_nullifier n = u))
  then Err INVALID else Ok n.

Definition load_candidate (faucet : AccountId) (r : NoteId * BurnRow)
    : result StoreError BurnCandidate :=
  let? n := decode_note (b_note r.2) r.1 (b_nullifier r.2) in
  let? c := decode_block_number (b_creation_block r.2) in
  map_err (fun _ => INVALID) (BurnCandidate_new n c faucet).

(** [load_candidates] with its optional [AND nullifier = ?1]. *)
Definition load_candidates (st : Store) (nullifier : option Nullifier)
    : result StoreError (list BurnCandidate) :=
  collect (load_candidate (store_faucet st))
    (List.filter (fun r =>
       bool_decide (b_consumption_block r.2 = None)
       && match nullifier with None => true | Some u => bool_decide (b_nullifier r.2 = u) end)
     (burn_rows st)).

Definition candidate_by_nullifier (st : Store) (nullifier : Nullifier)
    : result StoreError (option BurnCandidate) :=
  map_ok last (load_candidates st (Some nullifier)).

Definition load_burn (faucet : AccountId) (r : NoteId * BurnRow)
    : result StoreError DiscoveredBurn :=
  let? n := decode_note (b_note r.2) r.1 (b_nullifier r.2) in
  let? c := decode_block_number (b_creation_block r.2) in
  let? k := decode_block_number (default (-1) (b_consumption_block r.2)) in
  map_err (fun _ => INVALID) (DiscoveredBurn_new n c k faucet).

(** The WHERE clause of [load_burns]: consumed and, unless submitted burns are included, not held
    and without a submission that is not expired. *)
Definition burn_selected (st : Store) (include_submitted : bool) (r : NoteId * BurnRow) : bool :=
  bool_decide (is_Some (b_consumption_block r.2))
  && (include_submitted
      || (bool_decide (b_hold_reason r.2 = None)
          && match submissions st !! r.1 with
             | None => true
             | Some s => bool_decide (s_status s = Expired)
             end)).
Definition load_burns (st : Store) (include_submitted : bool)
    : result StoreError (list DiscoveredBurn) :=
  collect (load_burn (store_faucet st))
    (List.filter (burn_selected st include_submitted) (burn_rows st)).

(** ** Validation of saved submissions *)

Definition validate_saved_request (saved : SavedSubmission) : bool :=
  match json_saved_burn_tx_id (body saved) with
  | Some id => bool_decide (id = note_id_to_hex (note_id saved))
  | None => false
  end.

Definition validate_submission_outcome (outcome : SavedSubmission) : result StoreError unit :=
  if negb (Bool.eqb (bool_decide (status outcome = Held)) (bool_decide (is_Some (hold_reason outcome))))
     || match withdrawal_id outcome with Some id => negb (is_well_formed_id id) | None => false end
     || (match status outcome with
         | Submitted | Finalized | Expired | Failed => true
         | _ => false
         end && bool_decide (withdrawal_id outcome = None))
     || match last_http_status outcome with Some c => negb (status_code_ok c) | None => false end
  then Err INVALID else Ok tt.

Definition validate_submission (record : SavedSubmission) : result StoreError unit :=
  let endpoint := sub_endpoint record in
  if negb (bool_decide (url_scheme endpoint = "https"))
     || negb (url_has_host endpoint)
     || negb (bool_decide (url_path endpoint = "/v1/withdraw"))
     || negb (validate_saved_request record)
  then Err INVALID else validate_submission_outcome record.

(** One row of [select_submissions]: decoded, validated, and of a consumed burn. *)
Definition select_submission (st : Store) (r : NoteId * SubmissionRow)
    : result StoreError SavedSubmission :=
  let? id := decode_word r.1 in
  let? endpoint := ok_or (url_parse (s_endpoint r.2)) INVALID in
  ensure (Nat.eqb (length (s_transfer_spec_hash r.2)) 32) StoreQuery ;?
  let record := with_endpoint endpoint (saved_of id r.2) in
  validate_submission record ;?
  ensure (match burns st !! r.1 with
          | Some b => bool_decide (is_Some (b_consumption_block b))
          | None => false
          end) INVALID ;?
  Ok record.
Definition select_submissions (st : Store) (id : option NoteId) (status : option SubmissionStatus)
    : result StoreError (list SavedSubmission) :=
  collect (select_submission st)
    (List.filter (fun r =>
       match id with None => true | Some i => bool_decide (r.1 = i) end
       && match status with None => true | Some s => bool_decide (s_status r.2 = s) end)
     (submission_rows st)).

Definition submission (st : Store) (id : NoteId) : result StoreError (option SavedSubmission) :=
  map_ok last (select_submissions st (Some id) None).
Definition submissions_to_recover (st : Store) : result StoreError (list SavedSubmission) :=
  select_submissions st None (Some Submitting).
Definition submissions_to_poll (st : Store) : result StoreError (list SavedSubmission) :=
  select_submissions st None (Some Submitted).

(** ** History *)

(** The row [record_event] selects: the burn's hold and its submission as they now stand. *)
Definition event_row (now : Z) (id : NoteId) (k : EventKind) (circle : option string)
    (b : BurnRow) (s : option SubmissionRow) (seq : Z) : EventRow :=
  {| e_seq := seq; e_note_id := id; e_recorded_at := now; e_kind := k;
     e_status := s_status <$> s;
     e_withdrawal_id := s ≫= s_withdrawal_id;
     e_body := if keeps_request k then s_body <$> s else None;
     e_transfer_spec_hash := s_transfer_spec_hash <$> s;
     e_http_status := s ≫= s_last_http_status;
     e_response := s ≫= s_last_response;
     e_error := s ≫= s_last_error;
     e_endpoint := if keeps_request k then s_endpoint <$> s else None;
     e_hold_reason := s ≫= s_hold_reason;
     e_burn_hold_reason := b_hold_reason b;
     e_circle_status := circle |}.
(** INSERT INTO submission_events SELECT .. FROM burns LEFT JOIN submissions. *)
Definition record_event (now : Z) (id : NoteId) (k : EventKind) (circle : option string)
    : tx Store StoreError unit := fun st =>
  match burns st !! id with
  | None => Err CONFLICT
  | Some b => Ok (tt, push_event (event_row now id k circle b (submissions st !! id)) st)
  end.

(** The latest outcome since the latest authorization. *)
Definition latest_outcome (st : Store) (id : NoteId) : option EventRow :=
  let authorized := default 0 (max_seq (fun e => of_note id e && of_kind Authorized e) (events st)) in
  event_at
    (max_seq (fun e => of_note id e && of_kind Outcome e && (authorized <? e_seq e)) (events st))
    (events st).
Definition repeats_latest_outcome (st : Store) (outcome : SavedSubmission) (circle : option string)
    : bool :=
  match latest_outcome st (note_id outcome) with
  | None => false
  | Some e =>
      bool_decide (e_status e = Some (status outcome))
      && bool_decide (e_withdrawal_id e = withdrawal_id outcome)
      && bool_decide (e_http_status e = last_http_status outcome)
      && bool_decide (e_error e = last_error outcome)
      && bool_decide (e_circle_status e = circle)
  end.

(** ** Operations on submissions *)

(** [save_submission]: [now] is the clock [unixepoch()] reads. *)
Definition save_submission (now : Z) (record : SavedSubmission) : tx Store StoreError unit :=
  tlift (validate_submission record) ;!
  let! st := tget in
  let row :=
    {| s_endpoint := sub_endpoint record; s_body := body record;
       s_transfer_spec_hash := transfer_spec_hash record; s_status := Submitting;
       s_withdrawal_id := None; s_hold_reason := None; s_last_http_status := None;
       s_last_response := None; s_last_error := None |} in
  let written :=
    match submissions st !! note_id record with
    | None => true
    | Some old =>
        bool_decide (s_status old = Expired) && bool_decide (is_Some (s_withdrawal_id old))
    end in
  tlift (ensure written CONFLICT) ;!
  tput (set_submissions (<[note_id record := row]> (submissions st)) st) ;!
  record_event now (note_id record) Authorized None.

(** The columns an outcome writes. *)
Definition outcome_row (outcome : SavedSubmission) (r : SubmissionRow) : SubmissionRow :=
  {| s_endpoint := s_endpoint r; s_body := s_body r;
     s_transfer_spec_hash := s_transfer_spec_hash r; s_status := status outcome;
     s_withdrawal_id := withdrawal_id outcome; s_hold_reason := hold_reason outcome;
     s_last_http_status := last_http_status outcome; s_last_response := last_response outcome;
     s_last_error := last_error outcome |}.

(** UPDATE burns SET withdrawal_limit_retry_at = NULL WHERE note_id = ?1. *)
Definition clear_retry (id : NoteId) (st : Store) : Store :=
  set_burns (alter (set_retry None) id (burns st)) st.

Definition update_submission_outcome (now : Z) (outcome : SavedSubmission)
    : tx Store StoreError unit :=
  tlift (validate_submission_outcome outcome) ;!
  let! st := tget in
  let! row := tlift (ok_or (submissions st !! note_id outcome) CONFLICT) in
  tput (set_submissions (<[note_id outcome := outcome_row outcome row]> (submissions st)) st) ;!
  let circle := circle_status (last_response outcome) in
  let! st := tget in
  (if repeats_latest_outcome st outcome circle then tret tt
   else record_event now (note_id outcome) Outcome circle) ;!
  let! st := tget in
  match status outcome with
  | Submitted | Finalized | Failed | Held => tput (clear_retry (note_id outcome) st)
  | _ => tret tt
  end.

(** ** Holds and releases *)

Definition hold_burn (now : Z) (id : NoteId) (reason : BurnHoldReason)
    (response : option (Z * bytes)) : tx Store StoreError unit :=
  let! st := tget in
  let! row := tlift (ok_or (burns st !! id) CONFLICT) in
  let held := set_retry None (set_hold (Some (burn_hold_code reason)) row) in
  tput (push_event (fun seq =>
    {| e_seq := seq; e_note_id := id; e_recorded_at := now; e_kind := BurnHeld;
       e_status := None; e_withdrawal_id := None; e_body := None; e_transfer_spec_hash := None;
       e_http_status := fst <$> response; e_response := snd <$> response; e_error := None;
       e_endpoint := None; e_hold_reason := None;
       e_burn_hold_reason := Some (burn_hold_code reason); e_circle_status := None |})
    (set_burns (<[id := held]> (burns st)) st)).

(** A burn is held; a withdrawal is held and can be released. *)
Definition burn_is_held (st : Store) (id : NoteId) : bool :=
  match burns st !! id with Some b => bool_decide (is_Some (b_hold_reason b)) | None => false end.
Definition withdrawal_releasable (st : Store) (id : NoteId) : bool :=
  match submissions st !! id with
  | Some s =>
      bool_decide (s_status s = Held) && bool_decide (s_hold_reason s = Some HttpRejected)
      && bool_decide (s_withdrawal_id s = None)
  | None => false
  end.

Definition release_hold (now : Z) (id : NoteId) (circle_not_accepted : bool)
    : tx Store ReleaseError (Z * Z) :=
  let! st := tget in
  if burn_is_held st id then
    tmap_err ReleaseStore (record_event now id BurnReleased None) ;!
    let! st := tget in
    tput (set_burns (alter (set_hold None) id (burns st)) st) ;!
    tret (1, 0)
  else if withdrawal_releasable st id then
    tlift (ensure circle_not_accepted CircleCheck) ;!
    tmap_err ReleaseStore (record_event now id OperatorRelease None) ;!
    let! st := tget in
    tlift (ensure (bool_decide (is_Some (submissions st !! id))) (ReleaseStore CONFLICT)) ;!
    tput (set_submissions (delete id (submissions st)) st) ;!
    tret (0, 1)
  else tlift (Err (NotHeld id)).

(** The loop of [release_holds], over the distinct note IDs in order. *)
Fixpoint release_each (now : Z) (ids : list NoteId) (counts : Z * Z)
    : tx Store ReleaseError (Z * Z) :=
  match ids with
  | [] => tret counts
  | id :: ids =>
      let! released := release_hold now id true in
      release_each now ids (counts.1 + released.1, counts.2 + released.2)
  end.
Definition release_holds (now : Z) (ids : list NoteId) : tx Store ReleaseError (Z * Z) :=
  release_each now (order_by note_id_order (remove_dups ids)) (0, 0).

Definition release_checked (now : Z) (selection : ReleaseSelection) : tx Store ReleaseError (Z * Z) :=
  let id := sel_note_id selection in
  tlift (ensure (0 <? sel_expected_event_seq selection) ReleaseInvalid) ;!
  let! st := tget in
  let! rev :=
    tlift (match revision st id with
           | Some rev => Ok rev
           | None =>
               if burn_is_held st id
                  || match submissions st !! id with
                     | Some s => bool_decide (s_status s = Held)
                     | None => false
                     end
               then Err (ReleaseStore INVALID) else Err (NotHeld id)
           end) in
  tlift (ensure (rev =? sel_expected_event_seq selection) ReleaseConflict) ;!
  release_hold now id (sel_circle_not_accepted selection).

(** ** Listings *)

(** The answer of the latest BURN_HELD event, unless that row holds an old submission snapshot. *)
Definition held_event (st : Store) (id : NoteId) : option EventRow :=
  event_at (max_seq (fun e => of_note id e && of_kind BurnHeld e) (events st)) (events st).
Definition held_answer (st : Store) (id : NoteId) : option Z * option bytes :=
  match held_event st id with
  | Some e => match e_status e with None => (e_http_status e, e_response e) | Some _ => (None, None) end
  | None => (None, None)
  end.

(** One row of the UNION of held burns and held withdrawals. *)
Record HoldRow := {
  hr_note_id : NoteId;
  hr_kind : string;
  hr_burn_reason : option Z;
  hr_withdrawal_reason : option HoldReason;
  hr_http_status : option Z;
  hr_response : option bytes;
}.
Definition held_burn_rows (st : Store) : list HoldRow :=
  omap (fun '(id, b) =>
    match b_hold_reason b with
    | None => None
    | Some reason =>
        let '(http, response) := held_answer st id in
        Some {| hr_note_id := id; hr_kind := "burn"; hr_burn_reason := Some reason;
                hr_withdrawal_reason := None; hr_http_status := http; hr_response := response |}
    end) (map_to_list (burns st)).
Definition held_withdrawal_rows (st : Store) : list HoldRow :=
  omap (fun '(id, s) =>
    if decide (s_status s = Held) then
      Some {| hr_note_id := id; hr_kind := "withdrawal"; hr_burn_reason := None;
              hr_withdrawal_reason := s_hold_reason s; hr_http_status := s_last_http_status s;
              hr_response := s_last_response s |}
    else None) (map_to_list (submissions st)).
Definition hold_rows (st : Store) : list HoldRow :=
  order_by hr_note_id (held_burn_rows st ++ held_withdrawal_rows st).
Definition after_cursor (after : option NoteId) (r : HoldRow) : bool :=
  match after with None => true | Some a => bool_decide (bytes_lt a (hr_note_id r)) end.

Definition hold_entry (st : Store) (r : HoldRow) : result StoreError HoldEntry :=
  let? reason :=
    if decide (hr_kind r = "burn") then
      map_ok burn_hold_debug
        (ok_or (c ← hr_burn_reason r; burn_hold_from_code c) INVALID)
    else Ok (match hr_withdrawal_reason r with Some w => hold_reason_debug w | None => "-" end) in
  let? event_seq := ok_or (revision st (hr_note_id r)) INVALID in
  ensure (0 <? event_seq) INVALID ;?
  let? id := decode_word (hr_note_id r) in
  Ok {| he_note_id := note_id_to_string id; he_kind := hr_kind r; he_reason := reason;
        he_http_status := hr_http_status r;
        he_circle_message := strip_control <$> (hr_response r ≫= one_line_circle_message);
        he_event_seq := event_seq |}.
Definition holds_page (st : Store) (after : option NoteId) : result StoreError (list HoldEntry) :=
  collect (hold_entry st)
    (take (HOLDS_PAGE + 1) (List.filter (after_cursor after) (hold_rows st))).

Definition burn_hold (st : Store) (r : HoldRow) : result StoreError Hold :=
  let? reason := ok_or (c ← hr_burn_reason r; burn_hold_from_code c) INVALID in
  let? id := decode_word (hr_note_id r) in
  Ok {| hold_note_id := id; hold_kind := "burn"; hold_reason_text := burn_hold_debug reason;
        hold_http_status := hr_http_status r;
        hold_circle_message := hr_response r ≫= one_line_circle_message |}.
Definition withdrawal_hold (s : SavedSubmission) : Hold :=
  {| hold_note_id := note_id s; hold_kind := "withdrawal";
     hold_reason_text :=
       match hold_reason s with Some r => hold_reason_debug r | None => "-" end;
     hold_http_status := last_http_status s;
     hold_circle_message := last_response s ≫= one_line_circle_message |}.
Definition holds (st : Store) : result StoreError (list Hold) :=
  let? held := collect (burn_hold st) (order_by hr_note_id (held_burn_rows st)) in
  let? submissions := select_submissions st None (Some Held) in
  Ok (held ++ (withdrawal_hold <$> submissions)).

(** ** Circle's withdrawal limit *)

Definition burn_creation_block (st : Store) (id : NoteId) : result StoreError BlockNumber :=
  let? row := ok_or (burns st !! id) StoreQuery in
  decode_block_number (b_creation_block row).

Definition first_limit_wait (st : Store) : result StoreError (option LimitWait) :=
  match List.find (fun r => bool_decide (is_Some (b_retry_at r.2))) (burn_rows st) with
  | None => Ok None
  | Some (id, b) =>
      let? note := decode_word id in
      Ok (Some {| lw_note_id := note; lw_creation_block := b_creation_block b;
                  lw_retry_at := default 0 (b_retry_at b) |})
  end.

(** The column's CHECK (withdrawal_limit_retry_at >= 0). *)
Definition check_retry (retry_at : Z) : result StoreError unit := ensure (0 <=? retry_at) StoreQuery.

Definition advance_limit_retry (id : NoteId) (retry_at : Z) : tx Store StoreError unit :=
  let! st := tget in
  let! row := tlift (ok_or (burns st !! id) CONFLICT) in
  tlift (ensure (bool_decide (is_Some (b_retry_at row))) CONFLICT) ;!
  tlift (check_retry retry_at) ;!
  tput (set_burns (<[id := set_retry (Some retry_at) row]> (burns st)) st).

(** The WHERE clause both attempts share: the saved, still undecided request itself. *)
Definition same_request (saved : SavedSubmission) (row : SubmissionRow) : bool :=
  bool_decide (s_status row = Submitting) && bool_decide (s_withdrawal_id row = None)
  && bool_decide (s_endpoint row = sub_endpoint saved) && bool_decide (s_body row = body saved)
  && bool_decide (s_transfer_spec_hash row = transfer_spec_hash saved).

Definition record_limit_rejection (now : Z) (id : NoteId) (retry_at : Z) (response : bytes)
    (submission : option (SavedSubmission * SubmissionAttempt)) : tx Store StoreError unit :=
  let! st := tget in
  let! row := tlift (ok_or (burns st !! id) CONFLICT) in
  tlift (ensure (bool_decide (is_Some (b_consumption_block row))
                 && bool_decide (b_hold_reason row = None)) CONFLICT) ;!
  tlift (check_retry retry_at) ;!
  tput (set_burns (<[id := set_retry (Some retry_at) row]> (burns st)) st) ;!
  match submission with
  | None => tret tt
  | Some (saved, attempt) =>
      tlift (ensure (bool_decide (note_id saved = id)) CONFLICT) ;!
      let! st := tget in
      let! srow := tlift (ok_or (submissions st !! id) CONFLICT) in
      tlift (ensure (same_request saved srow) CONFLICT) ;!
      match attempt with
      | First => tput (set_submissions (delete id (submissions st)) st)
      | Recovery =>
          tput (set_submissions
            (<[id := {| s_endpoint := s_endpoint srow; s_body := s_body srow;
                        s_transfer_spec_hash := s_transfer_spec_hash srow;
                        s_status := s_status srow; s_withdrawal_id := s_withdrawal_id srow;
                        s_hold_reason := s_hold_reason srow;
                        s_last_http_status := Some 400; s_last_response := Some response;
                        s_last_error := Some "Circle withdrawal limit" |}]> (submissions st)) st)
      end
  end ;!
  let! st := tget in
  tput (push_event (fun seq =>
    {| e_seq := seq; e_note_id := id; e_recorded_at := now; e_kind := WithdrawalLimitEvent;
       e_status := None; e_withdrawal_id := None; e_body := None; e_transfer_spec_hash := None;
       e_http_status := Some 400; e_response := Some response; e_error := None;
       e_endpoint := None; e_hold_reason := None; e_burn_hold_reason := None;
       e_circle_status := None |}) st).

(** ** Readiness and progress *)

Definition burns_ready_for_withdrawal (st : Store) (proof_lag_block : BlockNumber)
    (minimum_depth_blocks : Z) : result StoreError (list DiscoveredBurn) :=
  let? c := checkpoint st in
  match c with
  | None => Ok []
  | Some header =>
      match checked_sub (header_block_num header) minimum_depth_blocks with
      | None => Ok []
      | Some last_depth_safe_block =>
          let last_ready_block := Z.min proof_lag_block last_depth_safe_block in
          map_ok (List.filter (fun b => db_consumption_block b <=? last_ready_block))
            (load_burns st false)
      end
  end.

Definition count {A} (p : A -> bool) (l : list A) : Z := Z.of_nat (length (List.filter p l)).
Definition status_count (st : Store) (p : SubmissionStatus -> bool) : Z :=
  count (fun r => p (s_status r.2)) (map_to_list (submissions st)).
(** The WHERE clause of [progress]: consumed, not held, and its withdrawal, if any, neither held,
    failed nor final. *)
Definition unfinished (st : Store) (r : NoteId * BurnRow) : bool :=
  bool_decide (is_Some (b_consumption_block r.2)) && bool_decide (b_hold_reason r.2 = None)
  && match submissions st !! r.1 with
     | None => true
     | Some s => match s_status s with Held | Failed | Finalized => false | _ => true end
     end.
Definition min_opt (l : list Z) : option Z :=
  foldr (fun x acc => Some (match acc with None => x | Some m => Z.min x m end)) None l.
Definition progress (st : Store) : Progress :=
  let rows := map_to_list (burns st) in
  {| burns_held := count (fun r => bool_decide (is_Some (b_hold_reason r.2))) rows;
     withdrawals_held := status_count st (fun s => bool_decide (s = Held));
     withdrawals_failed := status_count st (fun s => bool_decide (s = Failed));
     withdrawals_pending :=
       status_count st (fun s => bool_decide (s = Submitting) || bool_decide (s = Submitted));
     burns_unfinished := count (unfinished st) rows;
     oldest_unfinished_burn :=
       min_opt (omap (fun r => b_consumption_block r.2) (List.filter (unfinished st) rows));
     withdrawal_limit_waiting := count (fun r => bool_decide (is_Some (b_retry_at r.2))) rows |}.

(** ** Saving a scanned block *)

Definition validate_discovery_records (candidates : list BurnCandidate) (burns : list DiscoveredBurn)
    (block : BlockNumber) : result StoreError unit :=
  if existsb (fun c => block <? bc_creation_block c) candidates
     || existsb (fun b => (db_consumption_block b <=? db_creation_block b)
                          || (block <? db_consumption_block b)) burns
  then Err CONFLICT else Ok tt.

(** The UNIQUE constraint on [nullifier]. *)
Definition nullifier_used (st : Store) (u : Nullifier) : bool :=
  existsb (fun r => bool_decide (b_nullifier r.2 = u)) (map_to_list (burns st)).

(** INSERT INTO burns: the keys must be new and the block range CHECKs hold. *)
Definition insert_burn_row (id : NoteId) (row : BurnRow) : tx Store StoreError unit :=
  let! st := tget in
  tlift (ensure (bool_decide (burns st !! id = None) && negb (nullifier_used st (b_nullifier row)))
           CONFLICT) ;!
  tput (set_burns (<[id := row]> (burns st)) st).

Definition insert_candidate (c : BurnCandidate) : tx Store StoreError unit :=
  insert_burn_row (bc_note_id c)
    {| b_nullifier := bc_nullifier c; b_note := note_to_bytes (bc_note c);
       b_creation_block := bc_creation_block c; b_consumption_block := None;
       b_hold_reason := None; b_retry_at := None |}.

Definition insert_burn (b : DiscoveredBurn) : tx Store StoreError unit :=
  let! st := tget in
  let promoted :=
    match burns st !! db_note_id b with
    | Some row => bool_decide (b_consumption_block row = None)
    | None => false
    end in
  if promoted then
    (* The CHECK (consumption_block > creation_block) of the saved row. *)
    let! row := tlift (ok_or (burns st !! db_note_id b) StoreQuery) in
    tlift (ensure (b_creation_block row <? db_consumption_block b) StoreQuery) ;!
    tput (set_burns (<[db_note_id b := set_consumption (Some (db_consumption_block b)) row]>
                       (burns st)) st)
  else
    insert_burn_row (db_note_id b)
      {| b_nullifier := db_nullifier b; b_note := note_to_bytes (db_note b);
         b_creation_block := db_creation_block b;
         b_consumption_block := Some (db_consumption_block b);
         b_hold_reason := None; b_retry_at := None |}.

Definition save_scan_progress (candidates : list BurnCandidate) (burns : list DiscoveredBurn)
    (header : BlockHeader) : tx Store StoreError unit :=
  tlift (validate_discovery_records candidates burns (header_block_num header)) ;!
  tfor insert_candidate candidates ;!
  tfor insert_burn burns ;!
  let! st := tget in
  let! row := tlift (ok_or (attester_state st) INVALID) in
  tput (set_state (Some {| a_faucet_account_id := a_faucet_account_id row;
                           a_anchor_block := a_anchor_block row;
                           a_anchor_commitment := a_anchor_commitment row;
                           a_checkpoint := Some (header_encode header) |}) st).

(** ** Opening *)

(** A new store: the row [initialize_store] inserts, over empty tables. *)
Definition initialize_store (faucet : AccountId) (anchor : TrustedAnchor) : Store :=
  {| burns := ∅; submissions := ∅; events := []; sequence := 0;
     attester_state :=
       Some {| a_faucet_account_id := faucet; a_anchor_block := ta_block_num anchor;
               a_anchor_commitment := ta_commitment anchor; a_checkpoint := None |};
     store_faucet := faucet |}.

(** The rows the limit query of [validate_store] looks for. *)
Definition bad_limit_wait (st : Store) (r : NoteId * BurnRow) : bool :=
  bool_decide (is_Some (b_retry_at r.2))
  && (bool_decide (b_consumption_block r.2 = None) || bool_decide (is_Some (b_hold_reason r.2))
      || match submissions st !! r.1 with
         | Some s => match s_status s with Submitting | Expired => false | _ => true end
         | None => false
         end).

Definition validate_store (st : Store) (faucet : AccountId) (anchor : TrustedAnchor)
    : result StoreError unit :=
  ensure (negb (existsb (bad_limit_wait st) (map_to_list (burns st)))) INVALID ;?
  ensure (forallb (fun r => match s_withdrawal_id r.2 with
                            | Some id => is_well_formed_id id
                            | None => true
                            end) (map_to_list (submissions st))) INVALID ;?
  let? row := ok_or (attester_state st) INVALID in
  ensure (canonical_account_id (a_faucet_account_id row)
          && bool_decide (a_faucet_account_id row = faucet)) INVALID ;?
  let? block := decode_block_number (a_anchor_block row) in
  let? commitment := decode_word (a_anchor_commitment row) in
  ensure (bool_decide ({| ta_block_num := block; ta_commitment := commitment |} = anchor))
    AnchorDiffers ;?
  let? c := load_checkpoint st in
  let? _ := load_candidates st None in
  let? _ := load_burns st true in
  ensure (match c with
          | Some h => negb (header_block_num h <? ta_block_num anchor)
          | None => true
          end) INVALID.

(** [Store::open_existing] and [Store::open_or_create]: what the path holds, if anything, is
    validated and opened for the configured faucet. The schema version and upgrades are not
    modelled. *)
Definition open_existing (st : Store) (faucet : AccountId) (anchor : TrustedAnchor)
    : result StoreError Store :=
  validate_store st faucet anchor ;?
  Ok {| burns := burns st; submissions := submissions st; events := events st;
        sequence := sequence st; attester_state := attester_state st; store_faucet := faucet |}.
Definition open_or_create (on_disk : option Store) (faucet : AccountId) (anchor : TrustedAnchor)
    : result StoreError Store :=
  match on_disk with
  | Some st => open_existing st faucet anchor
  | None => Ok (initialize_store faucet anchor)
  end.
End store.
