(* ===== verification/StoreFacts.v ===== *)
(** Single operations of the store and its steps: the queries over the history, what each operation changes
    and when it fails; the store as a state machine, the well-formedness invariant every step keeps, and
    what a step may change. *)
From S2P Require Import Prelude Text Foreign Wire Types Burn Store.

Local Open Scope Z_scope.

(** ** MAX(seq) *)

Lemma max_seq_None p evs : max_seq p evs = None <-> Forall (fun e => p e = false) evs.
Proof.
  induction evs as [|e evs IH]; simpl; [by split|].
  rewrite Forall_cons, <-IH. destruct (p e); split; [done|naive_solver|naive_solver|naive_solver].
Qed.

Lemma max_seq_Some p evs n :
  max_seq p evs = Some n ->
  (exists e, e ∈ evs /\ p e = true /\ e_seq e = n) /\
  (forall e, e ∈ evs -> p e = true -> e_seq e <= n).
Proof.
  revert n; induction evs as [|e evs IH]; intros n; simpl; [done|].
  destruct (p e) eqn:Hp.
  - destruct (max_seq p evs) as [m|] eqn:Hm; intros [= <-].
    + destruct (IH m eq_refl) as [(x & Hx & Hpx & Hsx) Hmax]. split.
      * destruct (Z.max_spec (e_seq e) m) as [[? ->]|[? ->]]; [exists x|exists e]; set_solver.
      * intros y [->|Hy]%elem_of_cons Hpy; [lia|]. specialize (Hmax y Hy Hpy). lia.
    + apply max_seq_None in Hm. rewrite Forall_forall in Hm. split; [exists e; set_solver|].
      intros y [->|Hy]%elem_of_cons Hpy; [lia|]. specialize (Hm y Hy). congruence.
  - intros Hm. destruct (IH n Hm) as [(x & Hx & ?) Hmax]. split; [exists x; set_solver|].
    intros y [->|Hy]%elem_of_cons Hpy; [congruence|]. eauto.
Qed.

(** A history in strictly decreasing order, all of it at or below the sequence counter. *)
Definition history_ok (seq : Z) (evs : list EventRow) : Prop :=
  StronglySorted (fun a b => e_seq b < e_seq a) evs /\
  Forall (fun e => 0 < e_seq e <= seq) evs.

Lemma history_ok_nil : history_ok 0 [].
Proof. split; constructor. Qed.

Lemma history_ok_cons seq evs e :
  e_seq e = seq + 1 -> 0 <= seq -> history_ok seq evs -> history_ok (seq + 1) (e :: evs).
Proof.
  intros He Hs [Hsorted Hrange]. split.
  - constructor; [done|]. eapply Forall_impl; [exact Hrange|]. simpl. intros. lia.
  - constructor; [lia|]. eapply Forall_impl; [exact Hrange|]. simpl. intros. lia.
Qed.

(** In such a history the newest matching row carries the maximum. *)
Lemma max_seq_sorted p seq evs :
  history_ok seq evs -> max_seq p evs = e_seq <$> List.find p evs.
Proof.
  intros [Hs _]. induction Hs as [|e evs Hs IH Hall]; simpl; [done|].
  destruct (p e); [|done]. destruct (max_seq p evs) as [m|] eqn:Hm; simpl; [|done].
  apply max_seq_Some in Hm as [(x & Hx & _ & <-) _].
  rewrite Forall_forall in Hall. specialize (Hall x Hx). f_equal. lia.
Qed.

Lemma event_at_sorted p seq evs :
  history_ok seq evs -> event_at (max_seq p evs) evs = List.find p evs.
Proof.
  intros Hok. rewrite (max_seq_sorted p seq) by done. destruct Hok as [Hs _].
  induction Hs as [|e evs Hs IH Hall]; simpl; [done|].
  destruct (p e) eqn:Hp; simpl; [by rewrite Z.eqb_refl|].
  destruct (List.find p evs) as [x|] eqn:Hf; simpl in *; [|done].
  pose proof (find_some _ _ Hf) as [Hx%list_elem_of_In _]. rewrite Forall_forall in Hall.
  specialize (Hall x Hx). destruct (Z.eqb_spec (e_seq e) (e_seq x)); [lia|done].
Qed.

Lemma find_ext {A} (p q : A -> bool) l : (forall a, a ∈ l -> p a = q a) -> List.find p l = List.find q l.
Proof.
  induction l as [|a l IH]; intros He; simpl; [done|]. rewrite (He a) by set_solver.
  destruct (q a); [done|]. apply IH. set_solver.
Qed.

(** ** The latest outcome, by replaying the history *)

(** The newest outcome row of a note that no newer authorization precedes. *)
Fixpoint replay_outcome (id : NoteId) (evs : list EventRow) : option EventRow :=
  match evs with
  | [] => None
  | e :: evs =>
      if of_note id e then
        match e_kind e with
        | Outcome => Some e
        | Authorized => None
        | _ => replay_outcome id evs
        end
      else replay_outcome id evs
  end.

Lemma latest_outcome_replay st id :
  history_ok (sequence st) (events st) -> latest_outcome st id = replay_outcome id (events st).
Proof.
  unfold latest_outcome. generalize (sequence st) as seq. generalize (events st) as evs.
  intros evs seq Hok. rewrite (event_at_sorted _ seq), (max_seq_sorted _ seq) by done.
  destruct Hok as [Hs Hr]. induction Hs as [|e evs Hs IH Hall]; simpl; [done|].
  inversion Hr as [|? ? [He _] Hr']; subst. specialize (IH Hr').
  rewrite Forall_forall in Hall.
  destruct (of_note id e) eqn:Hn; simpl; [|exact IH].
  destruct (decide (e_kind e = Authorized)) as [Ha|Ha].
  { assert (of_kind Authorized e = true) as -> by (by apply bool_decide_eq_true_2).
    assert (of_kind Outcome e = false) as -> by (apply bool_decide_eq_false_2; congruence).
    rewrite Ha. simpl. match goal with |- context [List.find ?f evs] => destruct (List.find f evs) as [x|] eqn:Hf end; [|done].
    apply find_some in Hf as [Hx%list_elem_of_In Hc]. bool_prop. specialize (Hall x Hx). lia. }
  assert (of_kind Authorized e = false) as -> by (by apply bool_decide_eq_false_2).
  destruct (decide (e_kind e = Outcome)) as [Ho|Ho].
  { assert (of_kind Outcome e = true) as -> by (by apply bool_decide_eq_true_2).
    rewrite Ho. simpl. match goal with |- context [List.find ?f evs] => destruct (List.find f evs) as [x|] eqn:Hf end; simpl.
    - apply find_some in Hf as [Hx%list_elem_of_In _]. specialize (Hall x Hx).
      by destruct (Z.ltb_spec (e_seq x) (e_seq e)); [|lia].
    - by destruct (Z.ltb_spec 0 (e_seq e)); [|lia]. }
  assert (of_kind Outcome e = false) as -> by (by apply bool_decide_eq_false_2).
  simpl. rewrite IH. by destruct (e_kind e).
Qed.

Lemma revision_newest st id :
  history_ok (sequence st) (events st) ->
  revision st id = e_seq <$> List.find (of_note id) (events st).
Proof. intros. by eapply max_seq_sorted. Qed.

Section steps.
Context `{MidenLib, WebLib, JsonLib}.

(** ** The invariant, note by note *)

(** No submission that is still being sent, accepted, held, failed or final. *)
Definition no_active (os : option SubmissionRow) : Prop :=
  forall s, os = Some s -> s_status s = Expired.
Definition consumed (b : BurnRow) : Prop := is_Some (b_consumption_block b).

(** The row decodes to the burn it was made from, and its blocks are ordered. *)
Definition burn_decodes (faucet : AccountId) (id : NoteId) (b : BurnRow) : Prop :=
  (exists n c, b_note b = note_to_bytes n /\ id = note_id_of n /\
     b_nullifier b = note_nullifier n /\
     BurnCandidate_new n (b_creation_block b) faucet = Ok c) /\
  0 <= b_creation_block b <= u32_max /\
  (forall k, b_consumption_block b = Some k -> b_creation_block b < k <= u32_max).

Record note_ok (faucet : AccountId) (id : NoteId) (ob : option BurnRow)
    (os : option SubmissionRow) (evs : list EventRow) : Prop := {
  nk_decodes b : ob = Some b -> burn_decodes faucet id b;
  nk_history : is_Some (List.find (of_note id) evs) -> is_Some ob;
  nk_hold b c : ob = Some b -> b_hold_reason b = Some c ->
    is_Some (burn_hold_from_code c) /\ consumed b /\ b_retry_at b = None /\ no_active os /\
    is_Some (List.find (of_note id) evs);
  nk_wait b a : ob = Some b -> b_retry_at b = Some a ->
    0 <= a /\ consumed b /\
    (forall s, os = Some s -> s_status s = Submitting \/ s_status s = Expired);
  nk_sub_burn s : os = Some s -> exists b, ob = Some b /\ consumed b;
  nk_sub_valid s : os = Some s ->
    validate_submission (saved_of id s) = Ok tt /\ url_parse (s_endpoint s) = Some (s_endpoint s) /\
    length (s_transfer_spec_hash s) = 32%nat;
  nk_sub_held s : os = Some s -> s_status s = Held -> s_withdrawal_id s = None;
  nk_sub_status s : os = Some s ->
    Some (s_status s) = match replay_outcome id evs with Some e => e_status e | None => Some Submitting end;
}.

(** Two rows never share a nullifier. *)
Definition nullifiers_unique (m : gmap NoteId BurnRow) : Prop :=
  forall i j a b, m !! i = Some a -> m !! j = Some b -> b_nullifier a = b_nullifier b -> i = j.

(** The state row keeps its anchor; a saved checkpoint decodes, is not before the anchor, and no
    recorded block is past it. *)
Record state_ok (anchor : TrustedAnchor) (st : Store) : Prop := {
  so_row : exists row, attester_state st = Some row /\
    a_faucet_account_id row = store_faucet st /\
    a_anchor_block row = ta_block_num anchor /\
    a_anchor_commitment row = ta_commitment anchor;
  so_checkpoint row bs : attester_state st = Some row -> a_checkpoint row = Some bs ->
    exists h, header_decode bs = Some h /\ ta_block_num anchor <= header_block_num h /\
      forall id b, burns st !! id = Some b ->
        b_creation_block b <= header_block_num h /\
        (forall k, b_consumption_block b = Some k -> k <= header_block_num h);
  so_empty row : attester_state st = Some row -> a_checkpoint row = None -> burns st = ∅;
}.

Record store_wf (anchor : TrustedAnchor) (st : Store) : Prop := {
  wf_sequence : 0 <= sequence st;
  wf_history : history_ok (sequence st) (events st);
  wf_note id : note_ok (store_faucet st) id (burns st !! id) (submissions st !! id) (events st);
  wf_nullifiers : nullifiers_unique (burns st);
  wf_state : state_ok anchor st;
}.

(** ** Steps *)

(** The burn is one [load_burns] offers for withdrawal. *)
Definition eligible (st : Store) (id : NoteId) : Prop :=
  exists b, burns st !! id = Some b /\ burn_selected st false (id, b) = true.

(** An outcome the attester may record over a row: of the same request, still being sent or
    accepted, keeping a known withdrawal ID, and a hold only when none is known. *)
Definition follows (row : SubmissionRow) (o : SavedSubmission) : Prop :=
  s_endpoint row = sub_endpoint o /\ s_body row = body o /\
  s_transfer_spec_hash row = transfer_spec_hash o /\
  (s_status row = Submitting \/ s_status row = Submitted) /\
  (forall w, s_withdrawal_id row = Some w -> withdrawal_id o = Some w) /\
  (status o = Held -> withdrawal_id o = None).

(** Nothing was recorded about the note since its last authorization: a first attempt's answer
    arrives in such a store. *)
Definition just_authorized (st : Store) (id : NoteId) : Prop :=
  exists e, List.find (of_note id) (events st) = Some e /\ e_kind e = Authorized.

(** A block found by discovery: its candidates and burns belong to the faucet's notes, and it
    comes after the saved checkpoint and not before the anchor. *)
Definition scan_ok (anchor : TrustedAnchor) (st : Store) (candidates : list BurnCandidate)
    (found : list DiscoveredBurn) (header : BlockHeader) : Prop :=
  Forall (fun c => BurnCandidate_new (bc_note c) (bc_creation_block c) (store_faucet st) = Ok c /\
                   0 <= bc_creation_block c) candidates /\
  Forall (fun b => DiscoveredBurn_new (db_note b) (db_creation_block b) (db_consumption_block b)
                     (store_faucet st) = Ok b /\ 0 <= db_creation_block b) found /\
  (forall h, checkpoint st = Ok (Some h) -> header_block_num h <= header_block_num header) /\
  ta_block_num anchor <= header_block_num header <= u32_max.

Inductive store_step (anchor : TrustedAnchor) : Store -> Store -> Prop :=
| step_save now saved st st' :
    eligible st (note_id saved) -> url_parse (sub_endpoint saved) = Some (sub_endpoint saved) ->
    length (transfer_spec_hash saved) = 32%nat ->
    save_submission now saved st = Ok (tt, st') -> store_step anchor st st'
| step_outcome now o row st st' :
    submissions st !! note_id o = Some row -> follows row o ->
    update_submission_outcome now o st = Ok (tt, st') -> store_step anchor st st'
| step_hold now id reason response st st' :
    eligible st id -> hold_burn now id reason response st = Ok (tt, st') -> store_step anchor st st'
| step_limit now id retry_at response submission st st' :
    (submission = None -> eligible st id) ->
    (forall saved, submission = Some (saved, First) -> just_authorized st id) ->
    record_limit_rejection now id retry_at response submission st = Ok (tt, st') ->
    store_step anchor st st'
| step_advance id retry_at st st' :
    advance_limit_retry id retry_at st = Ok (tt, st') -> store_step anchor st st'
| step_release now id circle_not_accepted counts st st' :
    release_hold now id circle_not_accepted st = Ok (counts, st') -> store_step anchor st st'
| step_scan candidates found header st st' :
    scan_ok anchor st candidates found header ->
    save_scan_progress candidates found header st = Ok (tt, st') -> store_step anchor st st'.

(** ** What a step on one note leaves alone *)

(** The history grew by at most one row, of note [id]. *)
Definition history_grows (id : NoteId) (st st' : Store) : Prop :=
  (events st' = events st /\ sequence st' = sequence st) \/
  (exists e, e_note_id e = id /\ e_seq e = sequence st + 1 /\
     events st' = e :: events st /\ sequence st' = sequence st + 1).

(** Only note [id] changed; its nullifier, blocks and note did not. *)
Record touches (id : NoteId) (st st' : Store) : Prop := {
  to_burns i : i <> id -> burns st' !! i = burns st !! i;
  to_submissions i : i <> id -> submissions st' !! i = submissions st !! i;
  to_note : (fun b => (b_nullifier b, b_note b, b_creation_block b, b_consumption_block b))
              <$> burns st' !! id =
            (fun b => (b_nullifier b, b_note b, b_creation_block b, b_consumption_block b))
              <$> burns st !! id;
  to_state : attester_state st' = attester_state st;
  to_faucet : store_faucet st' = store_faucet st;
  to_history : history_grows id st st';
}.

Lemma touches_refl id st : touches id st st.
Proof. split; try done. by left. Qed.

Lemma touches_row id st st' :
  touches id st st' ->
  forall i b', burns st' !! i = Some b' -> exists b, burns st !! i = Some b /\
    b_nullifier b' = b_nullifier b /\ b_note b' = b_note b /\
    b_creation_block b' = b_creation_block b /\ b_consumption_block b' = b_consumption_block b.
Proof.
  intros Ht i b' Hb'. destruct (decide (i = id)) as [->|Hne].
  - pose proof (to_note _ _ _ Ht) as Hn. rewrite Hb' in Hn.
    destruct (burns st !! id) as [b|] eqn:Hb; simpl in Hn; [|done].
    injection Hn as ? ? ? ?. by exists b.
  - rewrite (to_burns _ _ _ Ht) in Hb' by done. by exists b'.
Qed.

Lemma replay_outcome_other id e evs :
  e_note_id e <> id -> replay_outcome id (e :: evs) = replay_outcome id evs.
Proof. intros Hne. simpl. unfold of_note. by rewrite bool_decide_eq_false_2. Qed.

Lemma find_of_note_other id e evs :
  e_note_id e <> id -> List.find (of_note id) (e :: evs) = List.find (of_note id) evs.
Proof. intros Hne. simpl. unfold of_note at 1. by rewrite bool_decide_eq_false_2. Qed.

Lemma note_ok_ext faucet id ob os evs evs' :
  replay_outcome id evs' = replay_outcome id evs ->
  List.find (of_note id) evs' = List.find (of_note id) evs ->
  note_ok faucet id ob os evs -> note_ok faucet id ob os evs'.
Proof. intros Hr Hf []. split; rewrite ?Hr, ?Hf; done. Qed.

Lemma history_grows_ok id st st' :
  0 <= sequence st -> history_grows id st st' -> history_ok (sequence st) (events st) ->
  0 <= sequence st' /\ history_ok (sequence st') (events st').
Proof.
  intros Hs [[-> ->]|(e & _ & He & -> & ->)] Hok; [done|].
  split; [lia|]. by apply history_ok_cons.
Qed.

Lemma history_grows_other id i st st' :
  i <> id -> history_grows id st st' ->
  replay_outcome i (events st') = replay_outcome i (events st) /\
  List.find (of_note i) (events st') = List.find (of_note i) (events st).
Proof.
  intros Hne [[-> _]|(e & He & _ & -> & _)]; [done|].
  rewrite replay_outcome_other, find_of_note_other by congruence. done.
Qed.

(** The frame rule of the invariant: a step that touches only [id] keeps it when [id] stays
    well formed. *)
Lemma touches_wf anchor id st st' :
  touches id st st' ->
  note_ok (store_faucet st) id (burns st' !! id) (submissions st' !! id) (events st') ->
  store_wf anchor st -> store_wf anchor st'.
Proof.
  intros Ht Hid Hwf. pose proof (touches_row _ _ _ Ht) as Hrow.
  pose proof (history_grows_ok id st st' (wf_sequence _ _ Hwf) (to_history _ _ _ Ht)
    (wf_history _ _ Hwf)) as [Hseq Hhist].
  split; [done..| | |].
  - intros i. rewrite (to_faucet _ _ _ Ht). destruct (decide (i = id)) as [->|Hne]; [done|].
    rewrite (to_burns _ _ _ Ht), (to_submissions _ _ _ Ht) by done.
    destruct (history_grows_other _ _ _ _ Hne (to_history _ _ _ Ht)).
    by eapply note_ok_ext, wf_note.
  - intros i j a b Ha Hb Hab. apply Hrow in Ha as (a0 & Ha & Han & _), Hb as (b0 & Hb & Hbn & _).
    eapply (wf_nullifiers _ _ Hwf); [done..|congruence].
  - destruct (wf_state _ _ Hwf) as [Hr Hc He]. split.
    + by rewrite (to_state _ _ _ Ht), (to_faucet _ _ _ Ht).
    + intros row bs. rewrite (to_state _ _ _ Ht). intros Hst Hbs.
      destruct (Hc _ _ Hst Hbs) as (h & Hd & Ha & Hbl). exists h. split_and!; [done..|].
      intros i b (b0 & Hb0 & _ & _ & -> & ->)%Hrow. eauto.
    + intros row. rewrite (to_state _ _ _ Ht). intros Hst Hn. apply map_eq. intros i.
      rewrite lookup_empty. destruct (burns st' !! i) as [b|] eqn:Hb; [|done].
      apply Hrow in Hb as (b0 & Hb0 & _). rewrite (He _ Hst Hn) in Hb0. done.
Qed.
End steps.
