(* ===== verification/StoreInv.v ===== *)
(** Every step of the store touches one note, or saves one scanned block, and keeps the
    invariant. *)
From S2P Require Import Prelude Text Foreign Wire Types Burn Store StoreFacts.
Local Open Scope Z_scope.

Section inv.
Context `{ML : MidenLib, WL : WebLib, JL : JsonLib}.
Context `{!MidenLaws, !WebLaws}.
Implicit Types st : Store.

(** The row [record_event] appends. *)
Lemma record_event_Ok now id k c st u st' :
  record_event now id k c st = Ok (u, st') ->
  exists b e, burns st !! id = Some b /\ e_note_id e = id /\ e_seq e = sequence st + 1 /\
    e_kind e = k /\ e_status e = s_status <$> submissions st !! id /\
    st' = push_event (fun _ => e) st.
Proof.
  unfold record_event. destruct (burns st !! id) as [b|] eqn:Hb; [|done]. intros [= <- <-].
  by exists b, (event_row now id k c b (submissions st !! id) (sequence st + 1)).
Qed.

Lemma record_event_runs now id k c st b :
  burns st !! id = Some b -> exists st', record_event now id k c st = Ok (tt, st').
Proof. unfold record_event. intros ->. eauto. Qed.

(** ** The touched note, operation by operation *)

Lemma find_own id e evs : e_note_id e = id -> is_Some (List.find (of_note id) (e :: evs)).
Proof. intros <-. simpl. unfold of_note at 1. rewrite bool_decide_eq_true_2; eauto. Qed.

Lemma replay_own id e evs : e_note_id e = id ->
  replay_outcome id (e :: evs) =
  match e_kind e with
  | Outcome => Some e | Authorized => None | _ => replay_outcome id evs
  end.
Proof. intros <-. simpl. unfold of_note. by rewrite bool_decide_eq_true_2. Qed.

Lemma eligible_row st id :
  eligible st id <-> exists b, burns st !! id = Some b /\ consumed b /\ b_hold_reason b = None /\
    no_active (submissions st !! id).
Proof.
  unfold eligible, burn_selected, no_active, consumed. simpl. split.
  - intros (b & Hb & Hsel). exists b. simpl in Hsel. bool_prop.
    split_and!; [done..|]. intros s Hs. rewrite Hs in *. by bool_prop.
  - intros (b & Hb & Hc & Hh & Hs). exists b. split; [done|].
    rewrite !bool_decide_eq_true_2 by done. simpl.
    destruct (submissions st !! id) as [s|]; [|done]. rewrite (Hs s eq_refl). done.
Qed.

Lemma save_submission_Ok now r st u st' :
  save_submission now r st = Ok (u, st') ->
  validate_submission r = Ok tt /\
  (forall old, submissions st !! note_id r = Some old ->
     s_status old = Expired /\ is_Some (s_withdrawal_id old)) /\
  exists b e row, burns st !! note_id r = Some b /\
    row = {| s_endpoint := sub_endpoint r; s_body := body r;
             s_transfer_spec_hash := transfer_spec_hash r; s_status := Submitting;
             s_withdrawal_id := None; s_hold_reason := None; s_last_http_status := None;
             s_last_response := None; s_last_error := None |} /\
    e_note_id e = note_id r /\ e_seq e = sequence st + 1 /\ e_kind e = Authorized /\
    st' = push_event (fun _ => e) (set_submissions (<[note_id r := row]> (submissions st)) st).
Proof.
  unfold save_submission. intros Hr. inv_ok.
  match goal with E : record_event _ _ _ _ _ = _ |- _ =>
    apply record_event_Ok in E as (b & e & Hb & He & Hs & Hk & _ & ->) end.
  destruct x. split_and!; [done| |by eexists b, e, _].
  intros old Hold. rewrite Hold in *. by bool_prop.
Qed.

Definition clears (s : SubmissionStatus) : bool :=
  match s with Submitted | Finalized | Failed | Held => true | _ => false end.

(** After an outcome: the row carries it, its event may have been appended, and a status that
    ends the wait clears the retry time. *)
Lemma update_outcome_Ok now o st u st' :
  update_submission_outcome now o st = Ok (u, st') ->
  validate_submission_outcome o = Ok tt /\
  exists row st1 st2, submissions st !! note_id o = Some row /\
    st1 = set_submissions (<[note_id o := outcome_row o row]> (submissions st)) st /\
    ((st2 = st1 /\ exists e, latest_outcome st1 (note_id o) = Some e /\
        e_status e = Some (status o)) \/
     (exists b e, burns st !! note_id o = Some b /\ e_note_id e = note_id o /\
        e_seq e = sequence st + 1 /\ e_kind e = Outcome /\ e_status e = Some (status o) /\
        st2 = push_event (fun _ => e) st1)) /\
    st' = if clears (status o) then clear_retry (note_id o) st2 else st2.
Proof.
  unfold update_submission_outcome. intros Hr. inv_ok. destruct x. split; [done|].
  match goal with E : submissions st !! _ = Some ?r |- _ => rename r into row; rename E into Hrow end.
  set (st1 := set_submissions _ st) in *.
  match goal with E : (if ?c then _ else _) st1 = Ok (_, ?s) |- _ =>
    rename s into st2; rename E into Hev; destruct c eqn:Hrep end.
  all: exists row, st1, st2; split_and!; [done|done| |destruct (status o); inv_ok; done].
  - left. unfold tret in Hev. injection Hev as _ <-. split; [done|].
    unfold repeats_latest_outcome in Hrep.
    destruct (latest_outcome st1 (note_id o)) as [e|]; [|done]. exists e. by bool_prop.
  - right. apply record_event_Ok in Hev as (b & e & Hb & He & Hs & Hk & Hst & ->).
    exists b, e. split_and!; try done. rewrite Hst. unfold st1. simpl.
    by rewrite lookup_insert_eq.
Qed.

Lemma clear_retry_history id st : events (clear_retry id st) = events st.
Proof. done. Qed.

(** ** Frames *)

Lemma touches_sub_event id st m e :
  (forall i, i <> id -> m !! i = submissions st !! i) ->
  e_note_id e = id -> e_seq e = sequence st + 1 ->
  touches id st (push_event (fun _ => e) (set_submissions m st)).
Proof. intros. split; simpl; try done. right. by exists e. Qed.

Lemma touches_sub id st m :
  (forall i, i <> id -> m !! i = submissions st !! i) -> touches id st (set_submissions m st).
Proof. intros. split; simpl; try done. by left. Qed.

(** The columns of a burn row that no step on a note changes. *)
Definition burn_fixed (b : BurnRow) :=
  (b_nullifier b, b_note b, b_creation_block b, b_consumption_block b).

Lemma touches_burn id st b b' :
  burns st !! id = Some b -> burn_fixed b' = burn_fixed b ->
  touches id st (set_burns (<[id := b']> (burns st)) st).
Proof.
  intros Hb Hf. split; simpl; try done.
  - intros i Hi. by rewrite lookup_insert_ne.
  - rewrite lookup_insert_eq, Hb. simpl. unfold burn_fixed in Hf. by rewrite Hf.
  - by left.
Qed.

Lemma touches_push id st e :
  e_note_id e = id -> e_seq e = sequence st + 1 -> touches id st (push_event (fun _ => e) st).
Proof. intros. split; simpl; try done. right. by exists e. Qed.

(** Frames compose when only one of them extends the history. *)
Lemma touches_trans id st1 st2 st3 :
  touches id st1 st2 -> touches id st2 st3 ->
  events st2 = events st1 /\ sequence st2 = sequence st1 \/
  events st3 = events st2 /\ sequence st3 = sequence st2 ->
  touches id st1 st3.
Proof.
  intros H12 H23 Hone. split.
  - intros i Hi. by rewrite (to_burns _ _ _ H23), (to_burns _ _ _ H12).
  - intros i Hi. by rewrite (to_submissions _ _ _ H23), (to_submissions _ _ _ H12).
  - by rewrite (to_note _ _ _ H23), (to_note _ _ _ H12).
  - by rewrite (to_state _ _ _ H23), (to_state _ _ _ H12).
  - by rewrite (to_faucet _ _ _ H23), (to_faucet _ _ _ H12).
  - destruct Hone as [[He Hs]|[He Hs]].
    + pose proof (to_history _ _ _ H23) as Hg. unfold history_grows in *. by rewrite He, Hs in Hg.
    + pose proof (to_history _ _ _ H12) as Hg. unfold history_grows in *. by rewrite He, Hs.
Qed.

Lemma alter_some {A} (f : A -> A) (m : gmap NoteId A) id a :
  m !! id = Some a -> alter f id m = <[id := f a]> m.
Proof.
  intros Ha. apply map_eq. intros i. destruct (decide (i = id)) as [->|Hne].
  - by rewrite lookup_alter_eq, Ha, lookup_insert_eq.
  - by rewrite lookup_alter_ne, lookup_insert_ne.
Qed.
Lemma alter_none {A} (f : A -> A) (m : gmap NoteId A) id : m !! id = None -> alter f id m = m.
Proof.
  intros Ha. apply map_eq. intros i. destruct (decide (i = id)) as [->|Hne].
  - by rewrite lookup_alter_eq, Ha.
  - by rewrite lookup_alter_ne.
Qed.

Lemma touches_alter id st f :
  (forall b, burn_fixed (f b) = burn_fixed b) ->
  touches id st (set_burns (alter f id (burns st)) st).
Proof.
  intros Hf. destruct (burns st !! id) as [b|] eqn:Hb.
  - rewrite (alter_some _ _ _ b) by done. by eapply touches_burn.
  - rewrite alter_none by done. destruct st. apply touches_refl.
Qed.

Lemma save_touches now r st st' :
  save_submission now r st = Ok (tt, st') -> touches (note_id r) st st'.
Proof.
  intros (_ & _ & b & e & row & Hb & _ & He & Hs & _ & ->)%save_submission_Ok.
  apply touches_sub_event; [|done..]. intros i Hi. by rewrite lookup_insert_ne.
Qed.

Lemma outcome_touches now o st st' :
  update_submission_outcome now o st = Ok (tt, st') -> touches (note_id o) st st'.
Proof.
  intros (_ & row & st1 & st2 & Hrow & Hst1 & Hst2 & ->)%update_outcome_Ok.
  assert (touches (note_id o) st st1) as H1.
  { subst st1. apply touches_sub. intros i Hi. by rewrite lookup_insert_ne. }
  assert (touches (note_id o) st st2) as H2.
  { destruct Hst2 as [[-> _]|(b & e & _ & He & Hs & _ & _ & ->)]; [done|].
    subst st1. eapply touches_trans; [done|by apply touches_push|]. by left. }
  destruct (clears (status o)); [|done].
  eapply touches_trans; [done|by apply touches_alter|]. by right.
Qed.

Lemma hold_burn_Ok now id reason response st u st' :
  hold_burn now id reason response st = Ok (u, st') ->
  exists b b' e, burns st !! id = Some b /\
    b' = set_retry None (set_hold (Some (burn_hold_code reason)) b) /\
    e_note_id e = id /\ e_seq e = sequence st + 1 /\ e_kind e = BurnHeld /\
    e_status e = None /\ e_http_status e = fst <$> response /\ e_response e = snd <$> response /\
    st' = push_event (fun _ => e) (set_burns (<[id := b']> (burns st)) st).
Proof.
  unfold hold_burn. intros Hr. inv_ok. eexists _, _, _.
  split_and!; [done|done| | | | | | |reflexivity]; done.
Qed.

Lemma hold_touches now id reason response st st' :
  hold_burn now id reason response st = Ok (tt, st') -> touches id st st'.
Proof.
  intros (b & b' & e & Hb & -> & He & Hs & _ & _ & _ & _ & ->)%hold_burn_Ok.
  eapply touches_trans; [|by apply touches_push|by left]. by eapply touches_burn.
Qed.

Lemma advance_touches id retry_at st st' :
  advance_limit_retry id retry_at st = Ok (tt, st') -> touches id st st'.
Proof. unfold advance_limit_retry. intros Hr. inv_ok. by eapply touches_burn. Qed.
(** After a limit rejection: the burn waits, and a rejected request is deleted on its first send
    and kept, with Circle's answer, on a resend. *)
Lemma limit_rejection_Ok now id retry_at response submission st u st' :
  record_limit_rejection now id retry_at response submission st = Ok (u, st') ->
  exists b m e, burns st !! id = Some b /\ consumed b /\ b_hold_reason b = None /\
    0 <= retry_at /\
    match submission with
    | None => m = submissions st
    | Some (saved, attempt) => note_id saved = id /\
        exists row, submissions st !! id = Some row /\ same_request saved row = true /\
          match attempt with
          | First => m = delete id (submissions st)
          | Recovery => m = <[id := {|
              s_endpoint := s_endpoint row; s_body := s_body row;
              s_transfer_spec_hash := s_transfer_spec_hash row; s_status := s_status row;
              s_withdrawal_id := s_withdrawal_id row; s_hold_reason := s_hold_reason row;
              s_last_http_status := Some 400; s_last_response := Some response;
              s_last_error := Some "Circle withdrawal limit" |}]> (submissions st)
          end
    end /\
    e_note_id e = id /\ e_seq e = sequence st + 1 /\ e_kind e = WithdrawalLimitEvent /\
    st' = push_event (fun _ => e) (set_submissions m
            (set_burns (<[id := set_retry (Some retry_at) b]> (burns st)) st)).
Proof.
  unfold record_limit_rejection, check_retry.
  destruct submission as [[saved attempt]|]; [destruct attempt|]; intros Hr; inv_ok; bool_prop.
  all: match goal with Hb : _ = Some ?b, Hc : is_Some (b_consumption_block ?b) |- _ => exists b end.
  all: eexists _, _; split_and!; cycle -1; [reflexivity|done..| | | |]; simpl; try done.
  all: eexists; split_and!; done.
Qed.

Lemma withdrawal_releasable_row st id :
  withdrawal_releasable st id = true -> exists s, submissions st !! id = Some s /\
    s_status s = Held /\ s_hold_reason s = Some HttpRejected /\ s_withdrawal_id s = None.
Proof.
  unfold withdrawal_releasable. destruct (submissions st !! id) as [s|]; [|done].
  intros. bool_prop. eauto.
Qed.

Lemma release_hold_Ok now id flag st counts st' :
  release_hold now id flag st = Ok (counts, st') ->
  (burn_is_held st id = true /\ counts = (1, 0) /\
    exists e, e_note_id e = id /\ e_seq e = sequence st + 1 /\ e_kind e = BurnReleased /\
      st' = set_burns (alter (set_hold None) id (burns st)) (push_event (fun _ => e) st)) \/
  (burn_is_held st id = false /\ withdrawal_releasable st id = true /\ flag = true /\
    counts = (0, 1) /\
    exists e, e_note_id e = id /\ e_seq e = sequence st + 1 /\ e_kind e = OperatorRelease /\
      st' = set_submissions (delete id (submissions st)) (push_event (fun _ => e) st)).
Proof.
  unfold release_hold. intros Hr. inv_ok.
  destruct (burn_is_held st id) eqn:Hb; [left|right; destruct (withdrawal_releasable st id) eqn:Hw].
  all: inv_ok; unfold tmap_err in *; inv_ok.
  all: match goal with E : record_event _ _ _ _ _ = _ |- _ =>
    apply record_event_Ok in E as (b & e & _ & He & Hs & Hk & _ & ->) end.
  all: split_and!; try done; by exists e.
Qed.

Lemma limit_touches now id retry_at response submission st st' :
  record_limit_rejection now id retry_at response submission st = Ok (tt, st') ->
  touches id st st'.
Proof.
  intros (b & m & e & Hb & _ & _ & _ & Hm & He & Hs & _ & ->)%limit_rejection_Ok.
  eapply touches_trans; [|by apply touches_push|by left].
  eapply touches_trans; [by eapply (touches_burn id st b (set_retry (Some retry_at) b))| |by left].
  apply touches_sub. simpl. intros i Hi. destruct submission as [[saved [|]]|]; [..|by subst].
  - destruct Hm as (_ & row & _ & _ & ->). by rewrite lookup_delete_ne.
  - destruct Hm as (_ & row & _ & _ & ->). by rewrite lookup_insert_ne.
Qed.

Lemma release_touches now id flag st counts st' :
  release_hold now id flag st = Ok (counts, st') -> touches id st st'.
Proof.
  intros [(_ & _ & e & He & Hs & _ & ->)|(_ & _ & _ & _ & e & He & Hs & _ & ->)]%release_hold_Ok.
  - eapply (touches_trans _ _ (push_event (fun _ => e) st)); [by apply touches_push| |by right].
    by apply (touches_alter id (push_event (fun _ => e) st)).
  - eapply (touches_trans _ _ (push_event (fun _ => e) st)); [by apply touches_push| |by right].
    apply touches_sub. intros i Hi. by rewrite lookup_delete_ne.
Qed.
End inv.
