(* ===== verification/StoreWf.v ===== *)
(** Every step keeps the store well formed, and a new store starts well formed. *)
From S2P Require Import Prelude Text Foreign Wire Types Burn Store StoreFacts StoreInv.
Local Open Scope Z_scope.

Section wf.
Context `{ML : MidenLib, WL : WebLib, JL : JsonLib}.
Context `{!MidenLaws, !WebLaws}.
Implicit Types st : Store.

(** ** Validation *)

Lemma validate_submission_Ok s u :
  validate_submission s = Ok u <->
  url_scheme (sub_endpoint s) = "https" /\ url_has_host (sub_endpoint s) = true /\
  url_path (sub_endpoint s) = "/v1/withdraw" /\ validate_saved_request s = true /\
  validate_submission_outcome s = Ok tt.
Proof.
  destruct u. unfold validate_submission. split.
  - intros Hr. case_match eqn:Hc; [done|]. by bool_prop.
  - intros (H1 & H2 & H3 & H4 & H5).
    rewrite H2, H4, !bool_decide_eq_true_2 by done. done.
Qed.

(** The outcome fields can change; the request cannot. *)
Lemma validate_submission_change s s' :
  note_id s' = note_id s -> sub_endpoint s' = sub_endpoint s -> body s' = body s ->
  validate_submission s = Ok tt -> validate_submission_outcome s' = Ok tt ->
  validate_submission s' = Ok tt.
Proof.
  intros Hn He Hb (H1 & H2 & H3 & H4 & _)%validate_submission_Ok Ho.
  apply validate_submission_Ok. rewrite He. split_and!; try done.
  unfold validate_saved_request in *. by rewrite Hb, Hn.
Qed.

Lemma validate_outcome_fields s s' :
  status s' = status s -> withdrawal_id s' = withdrawal_id s -> hold_reason s' = hold_reason s ->
  match last_http_status s' with Some c => status_code_ok c = true | None => True end ->
  validate_submission_outcome s = Ok tt -> validate_submission_outcome s' = Ok tt.
Proof.
  unfold validate_submission_outcome. intros -> -> -> Hc. intros Hr.
  case_match eqn:Hd; [done|]. apply orb_false_iff in Hd as [-> _].
  by destruct (last_http_status s') as [c|]; [rewrite Hc|].
Qed.

Lemma validate_outcome_held s :
  validate_submission_outcome s = Ok tt -> status s = Held <-> is_Some (hold_reason s).
Proof.
  unfold validate_submission_outcome. intros Hr. case_match eqn:Hd; [done|]. bool_prop.
  match goal with E : Bool.eqb _ _ = true |- _ => apply Bool.eqb_prop in E; rename E into He end.
  rewrite <-(bool_decide_eq_true (status s = Held)), He. apply bool_decide_eq_true.
Qed.

(** ** The touched note stays well formed *)

Lemma note_save now r st st' :
  eligible st (note_id r) -> url_parse (sub_endpoint r) = Some (sub_endpoint r) ->
  length (transfer_spec_hash r) = 32%nat -> save_submission now r st = Ok (tt, st') ->
  note_ok (store_faucet st) (note_id r) (burns st !! note_id r) (submissions st !! note_id r)
    (events st) ->
  note_ok (store_faucet st) (note_id r) (burns st' !! note_id r) (submissions st' !! note_id r)
    (events st').
Proof.
  intros (b0 & Hb0 & Hc & Hh & Hn)%eligible_row Hurl Hlen
    (Hv & _ & b & e & row & Hb & -> & He & _ & Hk & ->)%save_submission_Ok
    [Hdec Hhis Hho Hwa Hsb Hsv Hsh Hss].
  simpl. rewrite lookup_insert_eq. split; simpl.
  - done.
  - intros _. by rewrite Hb.
  - congruence.
  - intros b1 a Hb1 Ha. destruct (Hwa _ _ Hb1 Ha) as (? & ? & _). split_and!; [done..|].
    intros s Hs. injection Hs as <-. auto.
  - eauto.
  - intros s [= <-]. split; [|done].
    by apply (validate_submission_change r).
  - by intros s [= <-].
  - intros s [= <-]. unfold of_note. by rewrite He, bool_decide_eq_true_2, Hk.
Qed.

Lemma note_outcome now o row st st' :
  submissions st !! note_id o = Some row -> follows row o ->
  history_ok (sequence st) (events st) -> update_submission_outcome now o st = Ok (tt, st') ->
  note_ok (store_faucet st) (note_id o) (burns st !! note_id o) (submissions st !! note_id o)
    (events st) ->
  note_ok (store_faucet st) (note_id o) (burns st' !! note_id o) (submissions st' !! note_id o)
    (events st').
Proof.
  intros Hrow (He & Hbody & Htsh & Hact & Hwid & Hheld) Hok
    (Hv & row' & st1 & st2 & Hrow' & Hst1 & Hst2 & ->)%update_outcome_Ok Hnk.
  rewrite Hrow in Hrow'. injection Hrow' as <-. destruct Hnk as [Hdec Hhis Hho Hwa Hsb Hsv Hsh Hss].
  assert (Hevs : Some (status o) = match replay_outcome (note_id o) (events st2) with
                   | Some e => e_status e | None => Some Submitting end /\
                 burns st2 = burns st /\
                 submissions st2 = <[note_id o := outcome_row o row]> (submissions st) /\
                 (is_Some (List.find (of_note (note_id o)) (events st2)) ->
                  is_Some (burns st !! note_id o))).
  { destruct Hst2 as [(-> & e & Hl & Hes)|(b & e & Hb & Hne & _ & Hk & Hes & ->)]; subst st1; simpl.
    - rewrite latest_outcome_replay in Hl by done. simpl in Hl. by rewrite Hl, Hes.
    - unfold of_note. rewrite Hne, bool_decide_eq_true_2, Hk by done. split_and!; [done..|].
      intros _. by rewrite Hb. }
  destruct Hevs as (Hstat & Hb2 & Hs2 & Hh2). destruct (Hsb _ Hrow) as (b0 & Hb0 & Hc0).
  assert (Hhold0 : b_hold_reason b0 = None).
  { destruct (b_hold_reason b0) as [c|] eqn:Hh; [|done].
    destruct (Hho _ _ Hb0 Hh) as (_ & _ & _ & Hna & _). specialize (Hna _ Hrow).
    destruct Hact; congruence. }
  (* The burn's row, with the wait cleared or not. *)
  assert (Hb' : exists b', burns (if clears (status o) then clear_retry (note_id o) st2 else st2)
                  !! note_id o = Some b' /\ burn_fixed b' = burn_fixed b0 /\
                  b_hold_reason b' = None /\
                  (forall a, b_retry_at b' = Some a -> clears (status o) = false /\
                     b_retry_at b0 = Some a)).
  { destruct (clears (status o)); simpl; rewrite Hb2, ?lookup_alter_eq, Hb0; simpl;
      [exists (set_retry None b0)|exists b0]; by split_and!. }
  destruct Hb' as (b' & Hlk & Hfix & Hhold & Hret). rewrite Hlk.
  replace (submissions (if clears (status o) then clear_retry (note_id o) st2 else st2))
    with (submissions st2) by (by destruct (clears (status o))).
  replace (events (if clears (status o) then clear_retry (note_id o) st2 else st2))
    with (events st2) by (by destruct (clears (status o))).
  rewrite Hs2, lookup_insert_eq. unfold burn_fixed in Hfix. injection Hfix as Hf1 Hf2 Hf3 Hf4.
  split.
  - intros b [= <-]. specialize (Hdec _ Hb0). unfold burn_decodes in *. by rewrite Hf1, Hf2, Hf3, Hf4.
  - eauto.
  - intros b c [= <-]. congruence.
  - intros b a [= <-] Ha. destruct (Hret _ Ha) as [Hcl Ha0].
    destruct (Hwa _ _ Hb0 Ha0) as (? & ? & _). unfold consumed. rewrite Hf4. split_and!; [done..|].
    intros s [= <-]. simpl. destruct (status o); auto; done.
  - intros s _. exists b'. unfold consumed. by rewrite Hf4.
  - intros s [= <-]. destruct (Hsv _ Hrow) as (Hval & Hurl & Hlen). split; [|done].
    by apply (validate_submission_change (saved_of (note_id o) row)).
  - intros s [= <-] Hst. by apply Hheld.
  - by intros s [= <-].
Qed.

Lemma burn_hold_code_decodes r : is_Some (burn_hold_from_code (burn_hold_code r)).
Proof. rewrite burn_hold_roundtrip. eauto. Qed.

Lemma note_hold now id reason response st st' :
  eligible st id -> hold_burn now id reason response st = Ok (tt, st') ->
  note_ok (store_faucet st) id (burns st !! id) (submissions st !! id) (events st) ->
  note_ok (store_faucet st) id (burns st' !! id) (submissions st' !! id) (events st').
Proof.
  intros (b0 & Hb0 & Hc & Hh & Hn)%eligible_row
    (b & b' & e & Hb & -> & He & _ & Hk & _ & _ & _ & ->)%hold_burn_Ok
    [Hdec Hhis Hho Hwa Hsb Hsv Hsh Hss].
  rewrite Hb in Hb0. injection Hb0 as <-. simpl. rewrite lookup_insert_eq. split; simpl.
  - intros x [= <-]. exact (Hdec _ Hb).
  - eauto.
  - intros x c [= <-] [= <-]. split_and!; [apply burn_hold_code_decodes|done..|].
    by apply find_own.
  - by intros x a [= <-].
  - intros s Hs. eexists. split; [done|]. done.
  - done.
  - done.
  - intros s Hs. unfold of_note. rewrite He, bool_decide_eq_true_2, Hk by done. auto.
Qed.

Lemma same_request_row saved row :
  same_request saved row = true ->
  s_status row = Submitting /\ s_withdrawal_id row = None /\ s_endpoint row = sub_endpoint saved /\
  s_body row = body saved /\ s_transfer_spec_hash row = transfer_spec_hash saved.
Proof. unfold same_request. intros. by bool_prop. Qed.

Lemma note_limit now id retry_at response submission st st' :
  (submission = None -> eligible st id) ->
  record_limit_rejection now id retry_at response submission st = Ok (tt, st') ->
  note_ok (store_faucet st) id (burns st !! id) (submissions st !! id) (events st) ->
  note_ok (store_faucet st) id (burns st' !! id) (submissions st' !! id) (events st').
Proof.
  intros Hel (b & m & e & Hb & Hc & Hh & Ha & Hm & He & _ & Hk & ->)%limit_rejection_Ok
    [Hdec Hhis Hho Hwa Hsb Hsv Hsh Hss].
  (* What the statement leaves of the note's submission. *)
  assert (Hrow : forall s, m !! id = Some s ->
    (s_status s = Submitting \/ s_status s = Expired) /\
    exists s0, submissions st !! id = Some s0 /\ s_status s = s_status s0 /\
      s_withdrawal_id s = s_withdrawal_id s0 /\ s_endpoint s = s_endpoint s0 /\
      s_transfer_spec_hash s = s_transfer_spec_hash s0 /\
      validate_submission (saved_of id s) = Ok tt).
  { intros s Hs. destruct submission as [[saved attempt]|]; [destruct attempt|].
    - destruct Hm as (_ & row & _ & _ & ->). by rewrite lookup_delete_eq in Hs.
    - destruct Hm as (_ & row & Hr & (Hst & Hw & _)%same_request_row & ->).
      rewrite lookup_insert_eq in Hs. injection Hs as <-. simpl. split; [auto|].
      exists row. split_and!; [done..|]. destruct (Hsv _ Hr) as (Hval & _).
      eapply validate_submission_change; [..|exact Hval|]; [done..|].
      eapply validate_outcome_fields; cycle -1;
        [by apply validate_submission_Ok in Hval as (_ & _ & _ & _ & Hval)|done..|].
      apply status_code_range. lia.
    - subst m. destruct (Hel eq_refl) as (b0 & Hb0 & Hsel).
      destruct (proj1 (eligible_row st id)) as (_ & _ & _ & _ & Hna); [by exists b0|].
      split; [right; auto|]. exists s. split_and!; try done. by apply Hsv. }
  simpl. rewrite lookup_insert_eq. split; simpl.
  - intros x [= <-]. exact (Hdec _ Hb).
  - eauto.
  - intros x c [= <-]. simpl. congruence.
  - intros x a [= <-] [= <-]. split_and!; [done..|]. intros s Hs. by apply Hrow.
  - intros s _. by eexists.
  - intros s Hs. destruct (Hrow s Hs) as (_ & s0 & Hs0 & _ & _ & -> & -> & Hval).
    destruct (Hsv _ Hs0) as (_ & ? & ?). done.
  - intros s Hs Hst. destruct (Hrow s Hs) as ([?|?] & _); congruence.
  - intros s Hs. unfold of_note. rewrite He, bool_decide_eq_true_2, Hk by done.
    destruct (Hrow s Hs) as (_ & s0 & Hs0 & -> & _). auto.
Qed.

Lemma note_advance id retry_at st st' :
  advance_limit_retry id retry_at st = Ok (tt, st') ->
  note_ok (store_faucet st) id (burns st !! id) (submissions st !! id) (events st) ->
  note_ok (store_faucet st) id (burns st' !! id) (submissions st' !! id) (events st').
Proof.
  unfold advance_limit_retry, check_retry. intros Hr [Hdec Hhis Hho Hwa Hsb Hsv Hsh Hss].
  inv_ok. bool_prop.
  match goal with Hb : burns _ !! id = Some ?b, Hr : is_Some (b_retry_at ?b) |- _ =>
    rename Hb into Hlk; destruct Hr as [a0 Ha0]; destruct (Hwa _ _ Hlk Ha0) as (_ & Hc & Hs0) end.
  simpl. rewrite lookup_insert_eq. split; simpl; try done.
  - intros x [= <-]. exact (Hdec _ Hlk).
  - intros x c [= <-] Hc'. destruct (Hho _ _ Hlk Hc') as (_ & _ & Hn & _). congruence.
  - intros x a [= <-] [= <-]. by split_and!.
  - intros s _. by eexists.
Qed.

Lemma note_release now id flag st counts st' :
  release_hold now id flag st = Ok (counts, st') ->
  note_ok (store_faucet st) id (burns st !! id) (submissions st !! id) (events st) ->
  note_ok (store_faucet st) id (burns st' !! id) (submissions st' !! id) (events st').
Proof.
  intros [(Hh & _ & e & He & _ & Hk & ->)|(Hh & Hw & _ & _ & e & He & _ & Hk & ->)]%release_hold_Ok
    [Hdec Hhis Hho Hwa Hsb Hsv Hsh Hss]; simpl.
  - unfold burn_is_held in Hh. destruct (burns st !! id) as [b|] eqn:Hb; [|done]. bool_prop.
    destruct Hh as [c Hc]. destruct (Hho _ _ eq_refl Hc) as (_ & Hcons & Hret & Hna & _).
    rewrite lookup_alter_eq, Hb. simpl. split; simpl.
    + intros x [= <-]. exact (Hdec _ eq_refl).
    + eauto.
    + by intros x y [= <-].
    + intros x a [= <-]. simpl. congruence.
    + intros s _. by eexists.
    + done.
    + done.
    + intros s Hs. unfold of_note. rewrite He, bool_decide_eq_true_2, Hk by done. auto.
  - apply withdrawal_releasable_row in Hw as (s0 & Hs0 & _).
    destruct (Hsb _ Hs0) as (b & Hb & Hc).
    assert (b_hold_reason b = None) as Hn.
    { unfold burn_is_held in Hh. rewrite Hb in Hh. bool_prop.
      destruct (b_hold_reason b) eqn:E; [destruct Hh; eauto|done]. }
    rewrite lookup_delete_eq, Hb. split; try done.
    + intros x [= <-]. exact (Hdec _ Hb).
    + intros x c [= <-]. congruence.
    + intros x a [= <-] Ha. destruct (Hwa _ _ Hb Ha) as (? & ? & _). by split_and!.
Qed.
End wf.
