(* ===== verification/StoreScan.v ===== *)
(** Saving a scanned block keeps the store well formed, so every step does, and every store reached
    from a new one is well formed. What a run of steps preserves: the history only grows, recorded burns
    stay recorded, a changed hold has a new revision, and an open authorization keeps its request. *)
From S2P Require Import Prelude Text Foreign Wire Types Burn Store StoreFacts StoreInv StoreWf.

Local Open Scope Z_scope.

Section scan.
Context `{ML : MidenLib, WL : WebLib, JL : JsonLib}.
Context `{!MidenLaws, !WebLaws}.
Implicit Types st : Store.

(** A burn row grew out of an older one: unchanged, or a candidate promoted in place. *)
Definition row_grows (b b' : BurnRow) : Prop :=
  b' = b \/ (b_consumption_block b = None /\ exists k, b' = set_consumption (Some k) b).

(** The state inside the transaction that saves block [num]. *)
Record scanned (num : BlockNumber) (st0 st : Store) : Prop := {
  sc_same : submissions st = submissions st0 /\ events st = events st0 /\
    sequence st = sequence st0 /\ attester_state st = attester_state st0 /\
    store_faucet st = store_faucet st0;
  sc_note id : note_ok (store_faucet st0) id (burns st !! id) (submissions st0 !! id) (events st0);
  sc_nullifiers : nullifiers_unique (burns st);
  sc_blocks id b : burns st !! id = Some b -> b_creation_block b <= num /\
    (forall k, b_consumption_block b = Some k -> k <= num);
  sc_grows id b : burns st0 !! id = Some b -> exists b', burns st !! id = Some b' /\ row_grows b b';
}.

Lemma nullifier_used_false st u :
  nullifier_used st u = false <-> forall id b, burns st !! id = Some b -> b_nullifier b <> u.
Proof.
  unfold nullifier_used. rewrite <-not_true_iff_false, existsb_exists. split.
  - intros Hn id b Hb He. apply Hn. exists (id, b). split; [|by apply bool_decide_eq_true_2].
    by apply list_elem_of_In, elem_of_map_to_list.
  - intros Hn ([id b] & Hin & He). bool_prop.
    apply list_elem_of_In, elem_of_map_to_list in Hin. by apply (Hn id b).
Qed.

Lemma insert_burn_row_Ok id row st u st' :
  insert_burn_row id row st = Ok (u, st') ->
  burns st !! id = None /\ (forall i b, burns st !! i = Some b -> b_nullifier b <> b_nullifier row) /\
  st' = set_burns (<[id := row]> (burns st)) st.
Proof.
  unfold insert_burn_row. intros Hr. inv_ok. bool_prop.
  match goal with E : nullifier_used _ _ = false |- _ =>
    pose proof (proj1 (nullifier_used_false _ _) E) end.
  done.
Qed.

Lemma scanned_insert num st0 st id row st' :
  scanned num st0 st -> insert_burn_row id row st = Ok (tt, st') ->
  burn_decodes (store_faucet st0) id row -> b_hold_reason row = None -> b_retry_at row = None ->
  b_creation_block row <= num -> (forall k, b_consumption_block row = Some k -> k <= num) ->
  scanned num st0 st'.
Proof.
  intros [Hsame Hnote Hnul Hblk Hgrow] (Hfree & Hfresh & ->)%insert_burn_row_Ok Hdec Hh Hr Hc Hk.
  split; simpl.
  - done.
  - intros i. destruct (decide (i = id)) as [->|Hne]; [|by rewrite lookup_insert_ne].
    rewrite lookup_insert_eq. destruct (Hnote id) as [_ _ _ _ Hsb Hsv Hsh Hss]. rewrite Hfree in Hsb.
    assert (submissions st0 !! id = None) as ->.
    { destruct (submissions st0 !! id) as [s|] eqn:Hs; [|done].
      by destruct (Hsb s eq_refl) as (? & ? & _). }
    split; try done; intros b; intros; simplify_eq. done.
  - intros i j a b Ha Hb Hab.
    apply lookup_insert_Some in Ha as [[<- <-]|[Hi Ha]], Hb as [[<- <-]|[Hj Hb]]; [done|..].
    + by destruct (Hfresh _ _ Hb).
    + by destruct (Hfresh _ _ Ha).
    + by eapply Hnul.
  - intros i b. destruct (decide (i = id)) as [->|Hi].
    + rewrite lookup_insert_eq. by intros [= <-].
    + rewrite lookup_insert_ne by done. apply Hblk.
  - intros i b Hb. destruct (Hgrow _ _ Hb) as (b' & Hb' & ?). exists b'. split; [|done].
    rewrite lookup_insert_ne; [done|]. intros ->. congruence.
Qed.

Lemma scanned_candidate num st0 st c st' :
  num <= u32_max -> scanned num st0 st ->
  BurnCandidate_new (bc_note c) (bc_creation_block c) (store_faucet st0) = Ok c ->
  0 <= bc_creation_block c <= num -> insert_candidate c st = Ok (tt, st') -> scanned num st0 st'.
Proof.
  intros Hnum Hsc Hnew Hcr Hins. eapply scanned_insert; [done|exact Hins|..]; simpl; try done; [|lia].
  split_and!; simpl; [|lia..|done]. by exists (bc_note c), c.
Qed.

Lemma DiscoveredBurn_new_candidate note creation consumption faucet b :
  DiscoveredBurn_new note creation consumption faucet = Ok b ->
  exists c, BurnCandidate_new note creation faucet = Ok c /\ b = into_discovered c consumption.
Proof. unfold DiscoveredBurn_new. intros. inv_ok. eauto. Qed.

Lemma scanned_burn num st0 st d st' :
  num <= u32_max -> scanned num st0 st ->
  DiscoveredBurn_new (db_note d) (db_creation_block d) (db_consumption_block d) (store_faucet st0) = Ok d ->
  0 <= db_creation_block d -> db_creation_block d < db_consumption_block d <= num ->
  insert_burn d st = Ok (tt, st') -> scanned num st0 st'.
Proof.
  intros Hnum Hsc Hnew Hcr Hblocks Hins. unfold insert_burn in Hins. inv_ok.
  destruct (match burns st !! db_note_id d with Some row => _ | None => false end) eqn:Hprom.
  - destruct (burns st !! db_note_id d) as [row|] eqn:Hrow; [|done]. bool_prop. inv_ok. bool_prop.
    simplify_eq. destruct Hsc as [Hsame Hnote Hnul Hblk Hgrow]. split; simpl.
    + done.
    + intros i. destruct (decide (i = db_note_id d)) as [->|Hne]; [|by rewrite lookup_insert_ne].
      rewrite lookup_insert_eq. destruct (Hnote (db_note_id d)) as [Hdec Hhis Hho Hwa Hsb Hsv Hsh Hss].
      rewrite Hrow in *. split; try done.
      * intros b [= <-]. destruct (Hdec _ eq_refl) as (Hd & Hc & _).
        split; [exact Hd|split; [exact Hc|]]. simpl. intros k [= <-]. lia.
      * intros b c [= <-] Hc. destruct (Hho _ _ eq_refl Hc) as (_ & [k Hk] & _). congruence.
      * intros b a [= <-] Ha. destruct (Hwa _ _ eq_refl Ha) as (_ & [k Hk] & _). congruence.
      * intros s Hs. destruct (Hsb _ Hs) as (b & [= <-] & _). eexists. split; [done|]. by eexists.
    + intros i j a b Ha Hb Hab.
      assert (Hun : forall i a, <[db_note_id d := set_consumption (Some (db_consumption_block d)) row]>
          (burns st) !! i = Some a -> exists a0, burns st !! i = Some a0 /\ b_nullifier a0 = b_nullifier a).
      { intros i' a'. destruct (decide (i' = db_note_id d)) as [->|?].
        - rewrite lookup_insert_eq. intros [= <-]. by exists row.
        - rewrite lookup_insert_ne by done. eauto. }
      apply Hun in Ha as (a0 & Ha & Han), Hb as (b0 & Hb & Hbn). eapply Hnul; [done..|congruence].
    + intros i b. destruct (decide (i = db_note_id d)) as [->|Hi].
      * rewrite lookup_insert_eq. intros [= <-]. simpl. split; [by destruct (Hblk _ _ Hrow)|].
        intros k [= <-]. lia.
      * rewrite lookup_insert_ne by done. apply Hblk.
    + intros i b Hb. destruct (Hgrow _ _ Hb) as (b' & Hb' & Hg).
      destruct (decide (i = db_note_id d)) as [->|Hi].
      * rewrite lookup_insert_eq. eexists. split; [done|]. simplify_eq.
        destruct Hg as [->|(Hn & k & ->)]; [|done]. right. eauto.
      * rewrite lookup_insert_ne by done. eauto.
  - apply DiscoveredBurn_new_candidate in Hnew as (c & Hc & Hd).
    eapply scanned_insert; [done|exact Hins|..]; simpl; try done; [|lia|by intros k [= <-]; lia].
    split_and!; simpl; [|lia..|by intros k [= <-]; lia]. by exists (db_note d), c.
Qed.

Lemma checkpoint_row st row bs h :
  attester_state st = Some row -> a_checkpoint row = Some bs -> header_decode bs = Some h ->
  checkpoint st = Ok (Some h).
Proof.
  intros Hs Hc Hd. unfold checkpoint, load_checkpoint, decode_header. by rewrite Hs; simpl; rewrite Hc; simpl; rewrite Hd.
Qed.

Lemma checkpoint_Some st h :
  checkpoint st = Ok (Some h) <->
  exists row bs, attester_state st = Some row /\ a_checkpoint row = Some bs /\ header_decode bs = Some h.
Proof.
  split; [|by intros (row & bs & ? & ? & ?); eapply checkpoint_row].
  unfold checkpoint, load_checkpoint, decode_header. destruct (attester_state st) as [row|]; [simpl|done].
  destruct (a_checkpoint row) as [bs|] eqn:Hc; simpl; [|done].
  destruct (header_decode bs) as [h'|] eqn:Hd; simpl; [|done]. intros [= ->]. by exists row, bs.
Qed.

(** No recorded block is past the block about to be saved. *)
Lemma scanned_refl anchor st candidates found header :
  store_wf anchor st -> scan_ok anchor st candidates found header ->
  scanned (header_block_num header) st st.
Proof.
  intros [_ _ Hnote Hnul [(row & Hrow & _) Hc He]] (_ & _ & Hprev & _). split; try done.
  - intros id b Hb. destruct (a_checkpoint row) as [bs|] eqn:Hbs.
    + destruct (Hc _ _ Hrow Hbs) as (h & Hd & _ & Hblk). destruct (Hblk _ _ Hb) as [Hcr Hk].
      specialize (Hprev h (checkpoint_row _ _ _ _ Hrow Hbs Hd)). split; [lia|].
      intros k Hk'. specialize (Hk k Hk'). lia.
    + rewrite (He _ Hrow Hbs) in Hb. done.
  - intros id b Hb. exists b. split; [done|]. by left.
Qed.

(** A saved block: the found notes are recorded and its header is the checkpoint. *)
Lemma save_scan_progress_Ok anchor candidates found header st u st' :
  store_wf anchor st -> scan_ok anchor st candidates found header ->
  save_scan_progress candidates found header st = Ok (u, st') ->
  exists st1 row, scanned (header_block_num header) st st1 /\ attester_state st = Some row /\
    st' = set_state (Some {| a_faucet_account_id := a_faucet_account_id row;
                             a_anchor_block := a_anchor_block row;
                             a_anchor_commitment := a_anchor_commitment row;
                             a_checkpoint := Some (header_encode header) |}) st1.
Proof.
  intros Hwf Hok Hr. pose proof (scanned_refl _ _ _ _ _ Hwf Hok) as Hsc.
  destruct Hok as (Hcs & Hfs & _ & _ & Hmax). rewrite Forall_forall in Hcs.
  rewrite Forall_forall in Hfs. unfold save_scan_progress in Hr.
  apply tbind_Ok in Hr as ([] & st0 & [Hval ->]%tlift_Ok & Hr).
  apply tbind_Ok in Hr as ([] & st1 & Hc & Hr). apply tbind_Ok in Hr as ([] & st2 & Hf & Hr).
  inv_ok. unfold validate_discovery_records in Hval. case_match eqn:Hv; [done|].
  apply orb_false_iff in Hv as [Hvc Hvf].
  eapply (tfor_inv (scanned (header_block_num header) st)) in Hc; [|clear Hc|done].
  2: { intros c s1 [] s2 Hin Hs Hi. destruct (Hcs c Hin). eapply scanned_candidate; [done..| |done].
       split; [done|]. rewrite <-not_true_iff_false, existsb_exists in Hvc.
       destruct (Z.le_gt_cases (bc_creation_block c) (header_block_num header)); [done|].
       destruct Hvc. exists c. split; [by apply list_elem_of_In|]. by apply Z.ltb_lt. }
  eapply (tfor_inv (scanned (header_block_num header) st)) in Hf; [|clear Hf|done].
  2: { intros d s1 [] s2 Hin Hs Hi. destruct (Hfs d Hin). eapply scanned_burn; [done..| |done].
       rewrite <-not_true_iff_false, existsb_exists in Hvf.
       destruct (decide (db_creation_block d < db_consumption_block d <= header_block_num header)); [done|].
       destruct Hvf. exists d. split; [by apply list_elem_of_In|]. lia. }
  match goal with E : attester_state st2 = Some ?r |- _ => exists st2, r; rename E into Hrow end.
  split_and!; [done| |done]. destruct Hf as [(_ & _ & _ & He & _) _ _ _ _]. by rewrite <-He.
Qed.

Lemma scan_wf anchor candidates found header st st' :
  store_wf anchor st -> scan_ok anchor st candidates found header ->
  save_scan_progress candidates found header st = Ok (tt, st') -> store_wf anchor st'.
Proof.
  intros Hwf Hok (st1 & row & [(Hs & He & Hq & Ha & Hf) Hn Hu Hb Hg] & Hrow & ->)%(save_scan_progress_Ok anchor);
    [|done..].
  destruct Hok as (_ & _ & _ & Hanc & _). destruct Hwf as [Hseq Hhist Hnote Hnul [Hr Hc Hemp]].
  destruct Hr as (row' & Hrow' & Hfa & Hab & Hac). rewrite Hrow in Hrow'. injection Hrow' as <-.
  split; simpl.
  - by rewrite Hq.
  - by rewrite Hq, He.
  - intros id. rewrite Hf, Hs, He. apply Hn.
  - done.
  - split; simpl.
    + eexists. rewrite Hf. by split_and!.
    + intros x bs [= <-] [= <-]. exists header. rewrite header_decode_encode. by split_and!.
    + by intros x [= <-].
Qed.

(** ** The invariant *)

Lemma store_step_wf anchor st st' : store_wf anchor st -> store_step anchor st st' -> store_wf anchor st'.
Proof.
  intros Hwf Hstep.
  destruct Hstep; [eapply touches_wf; [by eapply save_touches| |done]
                  |eapply touches_wf; [by eapply outcome_touches| |done]
                  |eapply touches_wf; [by eapply hold_touches| |done]
                  |eapply touches_wf; [by eapply limit_touches| |done]
                  |eapply touches_wf; [by eapply advance_touches| |done]
                  |eapply touches_wf; [by eapply release_touches| |done]
                  |by eapply scan_wf].
  - eapply note_save; [done..|apply Hwf].
  - eapply note_outcome; [done|done|apply Hwf|done|apply Hwf].
  - eapply note_hold; [done..|apply Hwf].
  - eapply note_limit; [done..|apply Hwf].
  - eapply note_advance; [done..|apply Hwf].
  - eapply note_release; [done..|apply Hwf].
Qed.

Lemma initialize_wf faucet anchor : store_wf anchor (initialize_store faucet anchor).
Proof.
  split; simpl.
  - done.
  - apply history_ok_nil.
  - intros id. rewrite !lookup_empty. split; try done. simpl. by intros [? ?].
  - intros i j a b. by rewrite lookup_empty.
  - split; simpl; [by eexists|..]; by intros row ? [= <-] || intros row [= <-].
Qed.

Lemma reachable_wf faucet anchor st :
  star (store_step anchor) (initialize_store faucet anchor) st -> store_wf anchor st.
Proof.
  intros Hs. eapply star_inv; [|done|apply initialize_wf]. intros x y. apply store_step_wf.
Qed.
End scan.

Section runs.
Context `{ML : MidenLib, WL : WebLib, JL : JsonLib}.
Context `{!MidenLaws, !WebLaws}.
Implicit Types st : Store.

(** A step touches one note or saves one scanned block. *)
Inductive step_effect (st st' : Store) : Prop :=
| effect_note id : touches id st st' -> step_effect st st'
| effect_scan num st1 a : scanned num st st1 -> st' = set_state a st1 -> step_effect st st'.

Lemma store_step_effect anchor st st' :
  store_wf anchor st -> store_step anchor st st' -> step_effect st st'.
Proof.
  intros Hwf Hstep. destruct Hstep.
  - by eapply effect_note, save_touches.
  - by eapply effect_note, outcome_touches.
  - by eapply effect_note, hold_touches.
  - by eapply effect_note, limit_touches.
  - by eapply effect_note, advance_touches.
  - by eapply effect_note, release_touches.
  - match goal with Hs : save_scan_progress _ _ _ _ = _ |- _ =>
      eapply save_scan_progress_Ok in Hs as (st1 & row & Hs & _ & ->); [|done..] end.
    by eapply effect_scan.
Qed.

(** ** History *)

(** The older history is a suffix of the newer one, and the rows before it are new. *)
Definition history_extends (st st' : Store) : Prop :=
  sequence st <= sequence st' /\
  exists new, events st' = new ++ events st /\ Forall (fun e => sequence st < e_seq e) new.

Lemma history_extends_refl st : history_extends st st.
Proof. split; [lia|]. by exists []. Qed.

Lemma history_extends_trans st1 st2 st3 :
  history_extends st1 st2 -> history_extends st2 st3 -> history_extends st1 st3.
Proof.
  intros (Hs1 & n1 & He1 & Hf1) (Hs2 & n2 & He2 & Hf2). split; [lia|].
  exists (n2 ++ n1). rewrite He2, He1, app_assoc. split; [done|]. apply Forall_app. split; [|done].
  eapply Forall_impl; [exact Hf2|]. simpl. intros. lia.
Qed.

Lemma step_history anchor st st' :
  store_wf anchor st -> store_step anchor st st' -> history_extends st st'.
Proof.
  intros Hwf Hstep. destruct (store_step_effect _ _ _ Hwf Hstep) as [id Ht|num st1 a Hsc ->].
  - destruct (to_history _ _ _ Ht) as [[He Hs]|(e & _ & Hq & He & Hs)].
    + split; [lia|]. by exists [].
    + split; [lia|]. exists [e]. split; [done|]. constructor; [lia|constructor].
  - destruct Hsc as [(_ & He & Hq & _) _ _ _ _]. unfold history_extends. simpl. rewrite He, Hq.
    split; [lia|]. by exists [].
Qed.

(** ** Recorded burns *)

Definition burn_kept (b b' : BurnRow) : Prop :=
  b_nullifier b' = b_nullifier b /\ b_note b' = b_note b /\
  b_creation_block b' = b_creation_block b /\
  (forall k, b_consumption_block b = Some k -> b_consumption_block b' = Some k).
Definition burns_kept (st st' : Store) : Prop :=
  forall id b, burns st !! id = Some b -> exists b', burns st' !! id = Some b' /\ burn_kept b b'.

Lemma burns_kept_refl st : burns_kept st st.
Proof. intros id b Hb. exists b. by split_and!. Qed.
Lemma burns_kept_trans st1 st2 st3 : burns_kept st1 st2 -> burns_kept st2 st3 -> burns_kept st1 st3.
Proof.
  intros H12 H23 id b Hb. destruct (H12 _ _ Hb) as (b2 & Hb2 & N2 & M2 & C2 & K2).
  destruct (H23 _ _ Hb2) as (b3 & Hb3 & N3 & M3 & C3 & K3). exists b3.
  split; [done|]. split; [|split; [|split]]; [congruence..|]. intros k Hk. by apply K3, K2.
Qed.

Lemma step_burns anchor st st' :
  store_wf anchor st -> store_step anchor st st' -> burns_kept st st'.
Proof.
  intros Hwf Hstep id b Hb. destruct (store_step_effect _ _ _ Hwf Hstep) as [i Ht|num st1 a Hsc ->].
  - destruct (decide (id = i)) as [->|Hne].
    + pose proof (to_note _ _ _ Ht) as Hn. rewrite Hb in Hn.
      destruct (burns st' !! i) as [b'|]; [|done]. injection Hn as H1 H2 H3 H4.
      exists b'. split; [done|]. do 3 (split; [done|]). intros k Hk. congruence.
    + exists b. rewrite (to_burns _ _ _ Ht) by done. by split_and!.
  - destruct (sc_grows _ _ _ Hsc _ _ Hb) as (b' & Hb' & [->|(Hn & k & ->)]).
    + exists b. by split_and!.
    + eexists. split; [exact Hb'|]. do 3 (split; [done|]). intros k' Hk'. congruence.
Qed.

(** ** Holds and revisions *)

(** What a listing shows of a note: the burn's hold with the answer behind it, and the held
    withdrawal. *)
Definition hold_view (st : Store) (id : NoteId)
    : option (Z * (option Z * option bytes)) * option SubmissionRow :=
  ((burns st !! id ≫= b_hold_reason) ≫= (fun c => Some (c, held_answer st id)),
   submissions st !! id ≫= (fun s => if decide (s_status s = Held) then Some s else None)).

Definition rev_no (st : Store) (id : NoteId) : Z := default 0 (revision st id).

Lemma held_answer_find st id :
  history_ok (sequence st) (events st) ->
  held_answer st id =
    match List.find (fun e => of_note id e && of_kind BurnHeld e) (events st) with
    | Some e => match e_status e with None => (e_http_status e, e_response e) | Some _ => (None, None) end
    | None => (None, None)
    end.
Proof. intros Hok. unfold held_answer, held_event. by erewrite event_at_sorted. Qed.

Definition held_burn_code (st : Store) (id : NoteId) : option Z := burns st !! id ≫= b_hold_reason.
Definition held_row (st : Store) (id : NoteId) : option SubmissionRow :=
  submissions st !! id ≫= (fun s => if decide (s_status s = Held) then Some s else None).

Lemma hold_view_same st st' id :
  history_ok (sequence st) (events st) -> history_ok (sequence st') (events st') ->
  List.find (fun e => of_note id e && of_kind BurnHeld e) (events st') =
  List.find (fun e => of_note id e && of_kind BurnHeld e) (events st) ->
  held_burn_code st' id = held_burn_code st id -> held_row st' id = held_row st id ->
  hold_view st' id = hold_view st id.
Proof.
  intros Hok Hok' He Hb Hs. unfold hold_view, held_burn_code, held_row in *. rewrite Hb, Hs. f_equal.
  by rewrite !held_answer_find, He by done.
Qed.

(** A step that appends a row of [id] moves its revision; one that appends another note's row or
    none does not. *)
Lemma revision_grows st st' id :
  history_ok (sequence st) (events st) -> history_ok (sequence st') (events st') ->
  (exists e, e_note_id e = id /\ e_seq e = sequence st + 1 /\ events st' = e :: events st) ->
  rev_no st id < rev_no st' id.
Proof.
  intros Hok Hok' (e & He & Hs & Hev). unfold rev_no. rewrite !revision_newest by done.
  rewrite Hev. simpl. unfold of_note at 2. rewrite bool_decide_eq_true_2 by done. simpl.
  destruct Hok as [_ Hr]. destruct (List.find _ (events st)) as [x|] eqn:Hf; simpl.
  - apply find_some in Hf as [Hx%list_elem_of_In _]. rewrite Forall_forall in Hr.
    specialize (Hr x Hx). lia.
  - rewrite Hs. destruct Hok' as [_ Hr']. rewrite Hev in Hr'. inversion Hr'; subst. lia.
Qed.

Lemma revision_same st st' id :
  history_ok (sequence st) (events st) -> history_ok (sequence st') (events st') ->
  List.find (of_note id) (events st') = List.find (of_note id) (events st) ->
  rev_no st' id = rev_no st id.
Proof. intros Hok Hok' He. unfold rev_no. by rewrite !revision_newest, He by done. Qed.

Definition hold_follows (st st' : Store) : Prop :=
  forall id, rev_no st id <= rev_no st' id /\
    (rev_no st id = rev_no st' id -> hold_view st' id = hold_view st id).

Lemma hold_follows_trans st1 st2 st3 :
  hold_follows st1 st2 -> hold_follows st2 st3 -> hold_follows st1 st3.
Proof.
  intros H12 H23 id. destruct (H12 id) as [L1 V1], (H23 id) as [L2 V2]. split; [lia|].
  intros He. rewrite V2, V1 by lia. done.
Qed.

(** A row of another note, or none, is invisible to this note's queries. *)
Lemma history_grows_find id i p st st' :
  i <> id -> history_grows id st st' ->
  List.find (fun e => of_note i e && p e) (events st') =
  List.find (fun e => of_note i e && p e) (events st).
Proof.
  intros Hne [[-> _]|(e & He & _ & -> & _)]; [done|]. simpl.
  unfold of_note at 1. by rewrite bool_decide_eq_false_2 by congruence.
Qed.

(** A step that appends no row changes no hold: it repeats the latest outcome, or it moves a
    retry time. *)
Lemma quiet_outcome now o row st st' id :
  history_ok (sequence st) (events st) ->
  note_ok (store_faucet st) (note_id o) (burns st !! note_id o) (submissions st !! note_id o)
    (events st) ->
  submissions st !! note_id o = Some row -> follows row o ->
  update_submission_outcome now o st = Ok (tt, st') -> events st' = events st ->
  held_burn_code st' id = held_burn_code st id /\ held_row st' id = held_row st id.
Proof.
  intros Hok Hnk Hrow (_ & _ & _ & Hact & _) (_ & row' & st1 & st2 & Hrow' & -> & Hst2 & ->)%update_outcome_Ok Hev.
  rewrite Hrow in Hrow'. injection Hrow' as <-. unfold held_burn_code, held_row.
  destruct Hst2 as [(-> & e & Hl & Hes)|(b & e & _ & _ & _ & _ & _ & ->)].
  2: { exfalso. assert (e :: events st = events st) as Hc by (by destruct (clears (status o))).
       apply (f_equal length) in Hc. simpl in Hc. lia. }
  rewrite latest_outcome_replay in Hl by done. simpl in Hl.
  pose proof (nk_sub_status _ _ _ _ _ Hnk _ Hrow) as Hst. rewrite Hl, Hes in Hst. injection Hst as Hst.
  split.
  - destruct (clears (status o)); simpl; [|done]. destruct (decide (id = note_id o)) as [->|Hne].
    + rewrite lookup_alter_eq. by destruct (burns st !! note_id o).
    + by rewrite lookup_alter_ne.
  - replace (submissions _) with (<[note_id o := outcome_row o row]> (submissions st))
      by (by destruct (clears (status o))).
    destruct (decide (id = note_id o)) as [->|Hne]; [|by rewrite lookup_insert_ne].
    rewrite lookup_insert_eq, Hrow. simpl. rewrite <-Hst. by destruct Hact as [->| ->].
Qed.

Lemma quiet_advance id i a st st' :
  advance_limit_retry i a st = Ok (tt, st') ->
  held_burn_code st' id = held_burn_code st id /\ held_row st' id = held_row st id.
Proof.
  unfold advance_limit_retry, held_burn_code, held_row. intros Ha. inv_ok. simpl. split; [|done].
  destruct (decide (id = i)) as [->|Hne]; [|by rewrite lookup_insert_ne].
  rewrite lookup_insert_eq. match goal with E : burns st !! i = _ |- _ => by rewrite E end.
Qed.

(** Saving a block promotes candidates in place and adds rows that are not held. *)
Lemma quiet_scan anchor num st st1 a id :
  store_wf anchor st -> scanned num st st1 ->
  held_burn_code (set_state a st1) id = held_burn_code st id /\
  held_row (set_state a st1) id = held_row st id.
Proof.
  intros Hwf [(Hs & _) Hn _ _ Hg]. unfold held_burn_code, held_row. simpl. rewrite Hs. split; [|done].
  destruct (burns st !! id) as [b|] eqn:Hb; simpl.
  - destruct (Hg _ _ Hb) as (b' & -> & [->|(_ & k & ->)]); done.
  - destruct (burns st1 !! id) as [b'|] eqn:Hb'; [|done]. simpl.
    destruct (b_hold_reason b') as [c|] eqn:Hh; [|done].
    destruct (nk_hold _ _ _ _ _ (Hn id) _ _ Hb' Hh) as (_ & _ & _ & _ & Hf).
    pose proof (nk_history _ _ _ _ _ (wf_note _ _ Hwf id) Hf) as [b Hb2]. congruence.
Qed.

Lemma quiet_step anchor st st' id :
  store_wf anchor st -> store_step anchor st st' -> events st' = events st ->
  held_burn_code st' id = held_burn_code st id /\ held_row st' id = held_row st id.
Proof.
  intros Hwf Hstep Hev.
  assert (Hcons : forall e, e :: events st <> events st).
  { intros e He. apply (f_equal length) in He. simpl in He. lia. }
  destruct Hstep as [now r ?? _ _ _ Hs|now o row ?? Hrow Hfol Ho|now i ? ? ?? _ Hs|now i ? ? ? ?? _ _ Hs
    |i a ?? Ha|now i f n ?? Hs|cs fs h ?? Hok Hs].
  - apply save_submission_Ok in Hs as (_ & _ & b & e & row & _ & _ & _ & _ & _ & ->). by destruct (Hcons e).
  - eapply quiet_outcome; [apply (wf_history _ _ Hwf)|apply (wf_note _ _ Hwf)|done..].
  - apply hold_burn_Ok in Hs as (b & b' & e & _ & _ & _ & _ & _ & _ & _ & _ & ->). by destruct (Hcons e).
  - apply limit_rejection_Ok in Hs as (b & m & e & _ & _ & _ & _ & _ & _ & _ & _ & ->). by destruct (Hcons e).
  - by eapply quiet_advance.
  - apply release_hold_Ok in Hs as [(_ & _ & e & _ & _ & _ & ->)|(_ & _ & _ & _ & e & _ & _ & _ & ->)];
      by destruct (Hcons e).
  - eapply save_scan_progress_Ok in Hs as (st1 & row & Hsc & _ & ->); [|done..]. by eapply quiet_scan.
Qed.

Lemma step_holds anchor st st' :
  store_wf anchor st -> store_step anchor st st' -> hold_follows st st'.
Proof.
  intros Hwf Hstep id. pose proof (wf_history _ _ Hwf) as Hok.
  pose proof (wf_history _ _ (store_step_wf _ _ _ Hwf Hstep)) as Hok'.
  assert (Hsame : events st' = events st -> rev_no st' id = rev_no st id /\ hold_view st' id = hold_view st id).
  { intros He. split; [apply revision_same; [done|done|by rewrite He]|].
    destruct (quiet_step _ _ _ id Hwf Hstep He). apply hold_view_same; [done|done|by rewrite He|done|done]. }
  destruct (store_step_effect _ _ _ Hwf Hstep) as [i Ht|num st1 a Hsc ->].
  2: { destruct Hsame as [-> ->]; [|done]. by destruct Hsc as [(_ & ? & _) _ _ _ _]. }
  destruct (to_history _ _ _ Ht) as [[He _]|(e & He & Hq & Hev & _)].
  { by destruct (Hsame He) as [-> ->]. }
  destruct (decide (id = i)) as [->|Hne].
  - assert (rev_no st i < rev_no st' i) by (apply revision_grows; eauto). split; [lia|lia].
  - rewrite (revision_same st st' id); [|done..|].
    2: { by destruct (history_grows_other _ _ _ _ Hne (to_history _ _ _ Ht)). }
    split; [done|]. intros _. apply hold_view_same; [done..| | |].
    + by eapply history_grows_find, to_history.
    + unfold held_burn_code. by rewrite (to_burns _ _ _ Ht).
    + unfold held_row. by rewrite (to_submissions _ _ _ Ht).
Qed.
End runs.
