(* ===== verification/StoreAuth.v ===== *)
(** No withdrawal is authorized twice: an authorization leaves its request saved, and only three steps take
    it away ([closing]): an answer that lets it expire, the limit's refusal of its first attempt, and an
    operator's release of the held, rejected request. *)
From S2P Require Import Prelude Text Foreign Wire Types Burn Store StoreFacts StoreInv.
From S2P Require Import StoreWf StoreScan.
Local Open Scope Z_scope.

Section auth.
Context `{ML : MidenLib, WL : WebLib, JL : JsonLib}.
Context `{!MidenLaws, !WebLaws}.
Implicit Types st : Store.

(** The operations that close a note's authorization: Circle's answer let the request expire, Circle
    refused it for the withdrawal limit on its first attempt, before any other answer was recorded,
    or an operator released its rejected, held request stating that Circle had not accepted it.
    A limit answer to a recovery resend is not one of them. *)
Inductive closing (id : NoteId) (st st' : Store) : Prop :=
| closed_expired now o row :
    note_id o = id -> status o = Expired -> submissions st !! id = Some row -> follows row o ->
    update_submission_outcome now o st = Ok (tt, st') -> closing id st st'
| closed_refused now retry_at response saved :
    just_authorized st id ->
    record_limit_rejection now id retry_at response (Some (saved, First)) st = Ok (tt, st') ->
    closing id st st'
| closed_released now :
    burn_is_held st id = false -> withdrawal_releasable st id = true ->
    release_hold now id true st = Ok ((0, 1), st') -> closing id st st'.

(** The note's saved request is this body, and it has not expired. *)
Definition saves_body (st : Store) (id : NoteId) (sent : option bytes) : Prop :=
  exists row, submissions st !! id = Some row /\ s_status row <> Expired /\ sent = Some (s_body row).

(** What a step leaves of an open request: it is still saved, and nothing was authorized, or the
    step closed it. *)
Definition keeps_or_closes (id : NoteId) (sent : option bytes) (st st' : Store) : Prop :=
  (saves_body st' id sent /\
    forall e, events st' = e :: events st -> e_note_id e = id -> e_kind e <> Authorized) \/
  (closing id st st' /\ exists e, events st' = e :: events st /\ e_note_id e = id /\
    e_kind e <> Authorized).

Lemma saves_active st id sent : saves_body st id sent -> ~ no_active (submissions st !! id).
Proof. intros (row & Hrow & He & _) Hn. by apply He, Hn. Qed.

Lemma keeps_same id sent st st' row :
  submissions st !! id = Some row -> s_status row <> Expired -> sent = Some (s_body row) ->
  (exists row', submissions st' !! id = Some row' /\ s_status row' = s_status row /\
    s_body row' = s_body row) ->
  (forall e, events st' = e :: events st -> e_kind e <> Authorized) ->
  keeps_or_closes id sent st st'.
Proof.
  intros Hrow Hst -> (row' & Hrow' & Hs & Hb) Hev. left. split; [|intros e He _; by apply Hev].
  exists row'. rewrite Hs, Hb. by split_and!.
Qed.

Lemma no_new {A} (l : list A) (P : A -> Prop) e : l = e :: l -> P e.
Proof. intros He. apply (f_equal length) in He. simpl in He. lia. Qed.

(** A step on another note. *)
Lemma keeps_touches id i sent st st' :
  touches i st st' -> i <> id -> saves_body st id sent -> keeps_or_closes id sent st st'.
Proof.
  intros Ht Hne Hb. left. split.
  - unfold saves_body. by rewrite (to_submissions _ _ _ Ht).
  - intros e He Hid. destruct (to_history _ _ _ Ht) as [[Hs _]|(e' & He' & _ & Hs & _)].
    + rewrite Hs in He. exact (no_new _ (fun e => e_kind e <> Authorized) _ He).
    + rewrite Hs in He. congruence.
Qed.

Lemma keeps_outcome anchor now o row sent st st' :
  store_wf anchor st -> submissions st !! note_id o = Some row -> follows row o ->
  saves_body st (note_id o) sent -> update_submission_outcome now o st = Ok (tt, st') ->
  keeps_or_closes (note_id o) sent st st'.
Proof.
  intros Hwf Hrow Hfol (row' & Hrow' & Hst & ->) Ho. rewrite Hrow in Hrow'. injection Hrow' as <-.
  pose proof (nk_sub_status _ _ _ _ _ (wf_note _ _ Hwf _) _ Hrow) as Hlast.
  pose proof Ho as (_ & row' & st1 & st2 & Hrow' & -> & Hst2 & Hst')%update_outcome_Ok.
  rewrite Hrow in Hrow'. injection Hrow' as <-.
  assert (Hsub : submissions st' !! note_id o = Some (outcome_row o row)).
  { subst st'. destruct Hst2 as [[-> _]|(? & ? & _ & _ & _ & _ & _ & ->)]; destruct (clears (status o));
      simpl; by rewrite lookup_insert_eq. }
  assert (Hev : events st' = events st2) by (subst st'; by destruct (clears (status o))).
  assert (Hnew : forall e, events st' = e :: events st -> e_kind e <> Authorized).
  { rewrite Hev. intros e. destruct Hst2 as [[-> _]|(b & x & _ & _ & _ & Hk & _ & ->)]; simpl.
    - apply (no_new _ (fun e => e_kind e <> Authorized)).
    - intros [= <-]. congruence. }
  destruct (decide (status o = Expired)) as [He|Hne]; [right|left].
  - split; [by eapply closed_expired|].
    destruct Hst2 as [(-> & e & Hl & Hes)|(b & x & _ & Hx & _ & Hk & _ & ->)].
    + rewrite latest_outcome_replay in Hl by apply (wf_history _ _ Hwf). simpl in Hl.
      rewrite Hl, Hes, He in Hlast. congruence.
    + exists x. rewrite Hev. split_and!; [done|done|congruence].
  - split; [|intros e Hx _; by apply Hnew]. exists (outcome_row o row). by split_and!.
Qed.

Lemma keeps_limit now i retry_at response submission id sent st st' :
  (submission = None -> eligible st i) ->
  (forall saved, submission = Some (saved, First) -> just_authorized st i) ->
  saves_body st id sent -> record_limit_rejection now i retry_at response submission st = Ok (tt, st') ->
  keeps_or_closes id sent st st'.
Proof.
  intros Hel Hfirst Hb Hr. destruct (decide (i = id)) as [->|Hne];
    [|by eapply keeps_touches; [eapply limit_touches|..]].
  pose proof Hb as (row & Hrow & Hst & ->).
  pose proof Hr as (b & m & e & _ & _ & _ & _ & Hm & Hid & _ & Hk & Hst')%limit_rejection_Ok.
  destruct submission as [[saved [|]]|]; [right| |].
  - split; [eapply closed_refused; [by eapply Hfirst|done]|]. exists e. subst st'.
    split_and!; [done|done|by rewrite Hk].
  - destruct Hm as (_ & row' & Hrow' & _ & ->). rewrite Hrow in Hrow'. injection Hrow' as <-. subst st'.
    eapply keeps_same; [done..| |].
    + simpl. rewrite lookup_insert_eq. by eexists.
    + intros x [= <-]. by rewrite Hk.
  - specialize (Hel eq_refl) as (_ & _ & _ & _ & Hn)%eligible_row. by destruct (saves_active _ _ _ Hb).
Qed.

Lemma keeps_release now i flag counts id sent st st' :
  saves_body st id sent -> release_hold now i flag st = Ok (counts, st') -> keeps_or_closes id sent st st'.
Proof.
  intros Hb Hr. destruct (decide (i = id)) as [->|Hne];
    [|by eapply keeps_touches; [eapply release_touches|..]].
  pose proof Hb as (row & Hrow & Hst & ->).
  pose proof Hr as [(_ & _ & e & _ & _ & Hk & ->)|(Hh & Hw & -> & -> & e & Hid & _ & Hk & Hst')]%release_hold_Ok.
  - eapply keeps_same; [done..|by eexists|]. intros x [= <-]. by rewrite Hk.
  - right. split; [by eapply closed_released|]. exists e. subst st'. split_and!; [done|done|by rewrite Hk].
Qed.

(** No step loses an open request but by closing it. *)
Lemma step_keeps_or_closes anchor st st' id sent :
  store_wf anchor st -> saves_body st id sent -> store_step anchor st st' ->
  keeps_or_closes id sent st st'.
Proof.
  intros Hwf Hb Hstep.
  destruct Hstep as [now r ?? Hel _ _ Hs|now o row ?? Hrow Hfol Ho|now i ? ? ?? Hel Hs|now i ? ? ? ?? Hel Hf Hs
    |i a ?? Hs|now i f n ?? Hs|cs fs h ?? Hok Hs].
  - eapply keeps_touches; [by eapply save_touches| |done]. intros <-.
    apply eligible_row in Hel as (_ & _ & _ & _ & Hn). by destruct (saves_active _ _ _ Hb).
  - destruct (decide (note_id o = id)) as [<-|Hne]; [by eapply keeps_outcome|].
    eapply keeps_touches; [by eapply outcome_touches|done..].
  - eapply keeps_touches; [by eapply hold_touches| |done]. intros <-.
    apply eligible_row in Hel as (_ & _ & _ & _ & Hn). by destruct (saves_active _ _ _ Hb).
  - by eapply keeps_limit.
  - destruct Hb as (row & Hrow & Hst & ->). unfold advance_limit_retry in Hs. inv_ok.
    eapply keeps_same; [done..|by eexists|]. apply (no_new _ (fun e => e_kind e <> Authorized)).
  - by eapply keeps_release.
  - eapply save_scan_progress_Ok in Hs as (st1 & row & [(Hs & He & _) _ _ _ _] & _ & ->); [|done..].
    left. unfold saves_body. simpl. rewrite Hs, He. split; [done|]. intros e Hx.
    exact (no_new _ (fun e => e_note_id e = id -> e_kind e <> Authorized) _ Hx).
Qed.

Lemma save_event_body now r st u st' e :
  save_submission now r st = Ok (u, st') -> events st' = e :: events st ->
  e_note_id e = note_id r /\ e_body e = Some (body r).
Proof.
  unfold save_submission. intros Hr Hev. inv_ok. unfold record_event in *. case_match; inv_ok. simpl in Hev.
  injection Hev as <-. simpl. by rewrite lookup_insert_eq.
Qed.

(** A step that authorizes a note saves the request it records, over none still open. *)
Lemma step_authorizes anchor st st' e :
  store_wf anchor st -> store_step anchor st st' -> events st' = e :: events st ->
  e_kind e = Authorized ->
  no_active (submissions st !! e_note_id e) /\ saves_body st' (e_note_id e) (e_body e).
Proof.
  intros Hwf Hstep Hev Hk.
  destruct Hstep as [now r ?? Hel _ _ Hs|now o row ?? Hrow Hfol Ho|now i ? ? ?? _ Hs|now i ? ? ? ?? _ _ Hs
    |i a ?? Hs|now i f n ?? Hs|cs fs h ?? Hok Hs].
  - destruct (save_event_body _ _ _ _ _ _ Hs Hev) as [-> ->].
    apply eligible_row in Hel as (_ & _ & _ & _ & Hn). split; [done|].
    apply save_submission_Ok in Hs as (_ & _ & b & x & row & _ & -> & _ & _ & _ & ->).
    eexists. simpl. by rewrite lookup_insert_eq.
  - apply update_outcome_Ok in Ho as (_ & row2 & st1 & st2 & _ & -> & Hst2 & ->).
    assert (Hev2 : events st2 = e :: events st) by (by destruct (clears (status o))).
    destruct Hst2 as [[-> _]|(b2 & x & _ & _ & _ & Hx & _ & ->)]; simpl in Hev2.
    + by apply (no_new _ (fun _ => False)) in Hev2.
    + injection Hev2 as <-. congruence.
  - apply hold_burn_Ok in Hs as (b & b2 & x & _ & _ & _ & _ & Hx & _ & _ & _ & ->).
    injection Hev as <-. congruence.
  - apply limit_rejection_Ok in Hs as (b & m & x & _ & _ & _ & _ & _ & _ & _ & Hx & ->).
    injection Hev as <-. congruence.
  - unfold advance_limit_retry in Hs. inv_ok. by apply (no_new _ (fun _ => False)) in Hev.
  - apply release_hold_Ok in Hs as [(_ & _ & x & _ & _ & Hx & ->)|(_ & _ & _ & _ & x & _ & _ & Hx & ->)];
      injection Hev as <-; congruence.
  - eapply save_scan_progress_Ok in Hs as (st1 & row & [(_ & He & _) _ _ _ _] & _ & ->); [|done..].
    simpl in Hev. rewrite He in Hev. by apply (no_new _ (fun _ => False)) in Hev.
Qed.

(** ** What became of an authorization *)

Definition none_authorized (id : NoteId) (evs : list EventRow) : Prop :=
  forall e, e ∈ evs -> e_note_id e = id -> e_kind e <> Authorized.

(** An authorization of the note among rows that split at [e] lies before the split. *)
Lemma split_quiet id newer second between after e before :
  newer ++ second :: between = after ++ e :: before -> e_kind second = Authorized ->
  e_note_id second = id -> e_kind e <> Authorized -> none_authorized id before ->
  exists mid, between = mid ++ e :: before.
Proof.
  intros Hs Hk Hid Hne Hq. apply app_eq_inv in Hs as [(k & Hl & Hr)|(k & Hl & Hr)].
  - destruct k as [|a k]; simplify_eq/=. exfalso. by apply (Hq second); [set_solver|..].
  - destruct k as [|a k]; simplify_eq/=. by exists k.
Qed.

(** The authorization [first], with the rows [since] recorded after it, was closed: some step of
    the run took its saved request away, and nothing was authorized for the note before it. *)
Definition was_closed (init : Store) (anchor : TrustedAnchor) (st : Store) (since : list EventRow)
    (first : EventRow) (older : list EventRow) : Prop :=
  exists x y e after before,
    star (store_step anchor) init x /\ saves_body x (e_note_id first) (e_body first) /\
    closing (e_note_id first) x y /\ star (store_step anchor) y st /\
    since = after ++ e :: before /\ events x = before ++ first :: older /\
    events y = e :: events x /\ e_kind e <> Authorized /\ none_authorized (e_note_id first) before.

(** Every authorization of the history is still open, with nothing authorized since, or closed. *)
Definition auth_ok (init : Store) (anchor : TrustedAnchor) (st : Store) : Prop :=
  forall since first older, events st = since ++ first :: older -> e_kind first = Authorized ->
    (saves_body st (e_note_id first) (e_body first) /\ none_authorized (e_note_id first) since) \/
    was_closed init anchor st since first older.

(** The history after a step: unchanged or one row longer. *)
Lemma step_history_one anchor st st' :
  store_wf anchor st -> store_step anchor st st' ->
  events st' = events st \/ exists e, events st' = e :: events st.
Proof.
  intros Hwf Hstep. destruct (store_step_effect _ _ _ Hwf Hstep) as [id Ht|num st1 a Hsc ->].
  - destruct (to_history _ _ _ Ht) as [[He _]|(e & _ & _ & He & _)]; eauto.
  - left. by destruct Hsc as [(_ & He & _) _ _ _ _].
Qed.

Lemma was_closed_step init anchor st st' since since' first older new :
  store_step anchor st st' -> since' = new ++ since ->
  was_closed init anchor st since first older -> was_closed init anchor st' since' first older.
Proof.
  intros Hstep -> (x & y & e & after & before & Hx & Hb & Hc & Hy & -> & Hrest).
  exists x, y, e, (new ++ after), before. rewrite <-app_assoc.
  do 3 (split; [done|]). split; [eapply star_trans; [done|by apply star_one]|]. by split.
Qed.

Lemma auth_step init anchor st st' :
  store_wf anchor st -> star (store_step anchor) init st -> auth_ok init anchor st ->
  store_step anchor st st' -> auth_ok init anchor st'.
Proof.
  intros Hwf Hrun Ha Hstep.
  assert (Hopen : forall since first older new, events st = since ++ first :: older ->
    events st' = new ++ events st -> e_kind first = Authorized ->
    (saves_body st' (e_note_id first) (e_body first) /\ none_authorized (e_note_id first) (new ++ since)) \/
    was_closed init anchor st' (new ++ since) first older).
  { intros since first older new Hev Hnew Hk.
    destruct (Ha _ _ _ Hev Hk) as [[Hb Hq]|Hc]; [|right; by eapply was_closed_step].
    destruct (step_keeps_or_closes _ _ _ _ _ Hwf Hb Hstep) as [[Hb' Hn]|(Hc & e & He & Hid & Hne)].
    - left. split; [done|]. destruct (step_history_one _ _ _ Hwf Hstep) as [He|[e He]]; rewrite He in Hnew.
      + symmetry in Hnew. apply (app_inv_tail _ _ []) in Hnew as ->. exact Hq.
      + apply (app_inv_tail _ [e] new) in Hnew as <-. intros x [->|Hx]%elem_of_cons; [by apply Hn|by apply Hq].
    - right. rewrite He in Hnew. apply (app_inv_tail _ [e] new) in Hnew as <-.
      exists st, st', e, [], since. rewrite <-Hev. split_and!; try done. apply star_refl. }
  intros since first older Hev Hk.
  destruct (step_history_one _ _ _ Hwf Hstep) as [He|[e He]]; rewrite He in Hev.
  - by apply (Hopen since first older []).
  - destruct since as [|e' since]; simplify_eq/=.
    + left. destruct (step_authorizes _ _ _ _ Hwf Hstep He Hk) as [_ Hb]. split; [done|].
      intros x Hx. by apply elem_of_nil in Hx.
    + by apply (Hopen since first older [e']).
Qed.

Lemma reachable_auth faucet anchor st :
  star (store_step anchor) (initialize_store faucet anchor) st ->
  auth_ok (initialize_store faucet anchor) anchor st.
Proof.
  intros Hs. set (init := initialize_store faucet anchor).
  enough (forall x, star (store_step anchor) init x -> star (store_step anchor) x st ->
    auth_ok init anchor x -> auth_ok init anchor st) as Hgo.
  { apply (Hgo init); [apply star_refl|done|]. intros since first older He. by destruct since. }
  clear Hs. intros x Hx Hs. revert Hx. induction Hs as [|x y st Hxy Hs IH]; [done|]. intros Hx Ha.
  pose proof (reachable_wf _ _ _ Hx) as Hwf. apply IH; [|by eapply auth_step].
  eapply star_trans; [done|by apply star_one].
Qed.
End auth.
