(* ===== verification/StoreReads.v ===== *)
(** What the queries of a well-formed store return: every recorded row decodes, so no listing fails,
    and each lists exactly the rows its WHERE clause names, in order. *)
From S2P Require Import Prelude Text Foreign Wire Types Burn Store StoreFacts StoreInv.
From S2P Require Import StoreWf StoreScan.
Local Open Scope Z_scope.

(** ** Generic *)

Lemma collect_total {E A B} (f : A -> result E B) (g : A -> B) l :
  (forall a, a ∈ l -> f a = Ok (g a)) -> collect f l = Ok (g <$> l).
Proof.
  induction l as [|a l IH]; intros Hf; simpl; [done|].
  rewrite Hf by set_solver. simpl. rewrite IH by set_solver. done.
Qed.

Lemma elem_of_filter_list {A} (p : A -> bool) l a : a ∈ List.filter p l <-> a ∈ l /\ p a = true.
Proof. rewrite !list_elem_of_In. apply filter_In. Qed.

Lemma sublist_filter {A} (p : A -> bool) l : sublist (List.filter p l) l.
Proof. induction l as [|a l IH]; simpl; [done|]. destruct (p a); by constructor. Qed.

Lemma NoDup_filter_list {A} (p : A -> bool) l : NoDup l -> NoDup (List.filter p l).
Proof. intros. by eapply sublist_NoDup, sublist_filter. Qed.

Lemma StronglySorted_filter {A} (R : A -> A -> Prop) p l :
  StronglySorted R l -> StronglySorted R (List.filter p l).
Proof.
  induction 1 as [|a l Hs IH Hall]; simpl; [constructor|]. destruct (p a); [|done].
  constructor; [done|]. rewrite Forall_forall in *. intros b [Hb _]%elem_of_filter_list. auto.
Qed.

Section reads.
Context `{ML : MidenLib, WL : WebLib, JL : JsonLib}.
Context `{!MidenLaws, !WebLaws}.
Implicit Types st : Store.

(** ** Rows in order *)

Lemma elem_of_burn_rows st id b : (id, b) ∈ burn_rows st <-> burns st !! id = Some b.
Proof. unfold burn_rows. by rewrite elem_of_order_by, elem_of_map_to_list. Qed.
Lemma elem_of_submission_rows st id s :
  (id, s) ∈ submission_rows st <-> submissions st !! id = Some s.
Proof. unfold submission_rows. by rewrite elem_of_order_by, elem_of_map_to_list. Qed.

Lemma burn_rows_NoDup st : NoDup ((burn_rows st).*1).
Proof. unfold burn_rows. rewrite order_by_perm. apply NoDup_fst_map_to_list. Qed.
Lemma submission_rows_NoDup st : NoDup ((submission_rows st).*1).
Proof. unfold submission_rows. rewrite order_by_perm. apply NoDup_fst_map_to_list. Qed.

Lemma burn_rows_sorted st : StronglySorted (key_lt burn_key) (burn_rows st).
Proof.
  apply order_by_strict. apply (NoDup_fmap_1 tail). rewrite <-list_fmap_compose.
  replace (tail ∘ burn_key <$> map_to_list (burns st)) with ((map_to_list (burns st)).*1); [|done].
  apply NoDup_fst_map_to_list.
Qed.

(** ** Decoding recorded rows *)

Lemma decode_note_wf n :
  decode_note (note_to_bytes n) (note_id_of n) (note_nullifier n) = Ok n.
Proof.
  unfold decode_note, decode_public_note, decode_word.
  rewrite note_read_to_bytes, bool_decide_eq_true_2 by done. simpl.
  rewrite note_id_canonical. simpl. rewrite note_nullifier_canonical. simpl.
  by rewrite !bool_decide_eq_true_2.
Qed.

Lemma decode_block_wf n : 0 <= n <= u32_max -> decode_block_number n = Ok n.
Proof.
  intros Hn. unfold decode_block_number.
  by rewrite (proj2 (try_from_max_Some u32_max n n)).
Qed.

(** The row is the candidate's, as [insert_candidate] writes it. *)
Definition row_candidate (id : NoteId) (b : BurnRow) (c : BurnCandidate) : Prop :=
  note_id_of (bc_note c) = id /\ note_nullifier (bc_note c) = b_nullifier b /\
  bc_creation_block c = b_creation_block b.

Lemma load_candidate_wf faucet id b :
  burn_decodes faucet id b -> exists c, load_candidate faucet (id, b) = Ok c /\
    row_candidate id b c /\ BurnCandidate_new (bc_note c) (bc_creation_block c) faucet = Ok c.
Proof.
  intros ((n & c & Hn & -> & Hu & Hc) & Hcr & _). exists c.
  pose proof (BurnCandidate_new_note _ _ _ _ Hc) as [Hcn Hcb].
  unfold load_candidate, row_candidate. simpl. rewrite Hn, Hu, decode_note_wf. simpl.
  rewrite decode_block_wf by done. simpl. rewrite Hc. simpl.
  by rewrite Hcn, Hcb.
Qed.

Definition row_burn (id : NoteId) (b : BurnRow) (d : DiscoveredBurn) : Prop :=
  db_note_id d = id /\ db_nullifier d = b_nullifier b /\
  db_creation_block d = b_creation_block b /\
  b_consumption_block b = Some (db_consumption_block d).

Lemma load_burn_wf faucet id b :
  burn_decodes faucet id b -> consumed b ->
  exists d, load_burn faucet (id, b) = Ok d /\ row_burn id b d /\
    DiscoveredBurn_new (db_note d) (db_creation_block d) (db_consumption_block d) faucet = Ok d.
Proof.
  intros ((n & c & Hn & -> & Hu & Hc) & Hcr & Hk) [k Hcons]. exists (into_discovered c k).
  pose proof (BurnCandidate_new_note _ _ _ _ Hc) as [Hcn Hcb]. specialize (Hk _ Hcons).
  unfold load_burn, row_burn, db_note_id, db_nullifier. simpl. rewrite Hn, Hu, decode_note_wf. simpl.
  rewrite decode_block_wf by done. simpl. rewrite Hcons. simpl.
  rewrite decode_block_wf by lia. simpl. unfold DiscoveredBurn_new. rewrite Hc. simpl.
  rewrite Hcn, Hcb, Hc. done.
Qed.

Lemma load_burn_Ok faucet id b d :
  load_burn faucet (id, b) = Ok d -> db_note_id d = id /\ b_consumption_block b = Some (db_consumption_block d).
Proof.
  unfold load_burn, decode_note, decode_public_note, decode_word, decode_block_number. simpl. intros Hr. inv_run.
  all: bool_prop; subst.
  all: match goal with E : DiscoveredBurn_new _ _ _ _ = Ok _ |- _ =>
    apply DiscoveredBurn_new_note in E as (Hn & _ & Hk) end.
  all: match goal with E : try_from_max _ (default _ _) = Some _ |- _ =>
    apply try_from_max_Some in E as [Hk' Hr] end.
  all: unfold db_note_id; rewrite Hn, Hk, Hk'; split; [done|].
  all: destruct (b_consumption_block b); simpl in *; [done|lia].
Qed.

(** ** Submissions *)

Lemma select_submission_wf anchor st id s :
  store_wf anchor st -> submissions st !! id = Some s ->
  select_submission st (id, s) = Ok (saved_of id s).
Proof.
  intros Hwf Hs. pose proof (wf_note _ _ Hwf id) as Hnk.
  destruct (nk_sub_burn _ _ _ _ _ Hnk _ Hs) as (b & Hb & Hc).
  destruct (nk_sub_valid _ _ _ _ _ Hnk _ Hs) as (Hv & Hu & Hl).
  destruct (nk_decodes _ _ _ _ _ Hnk _ Hb) as ((n & c & _ & Hid & _) & _).
  unfold select_submission, decode_word. simpl. rewrite Hid, note_id_canonical, <-Hid. simpl.
  rewrite Hu. simpl. rewrite Hl. simpl.
  change (with_endpoint (s_endpoint s) (saved_of id s)) with (saved_of id s). rewrite Hv. simpl.
  rewrite Hb. by rewrite bool_decide_eq_true_2.
Qed.

Definition submission_selected (id : option NoteId) (status : option SubmissionStatus)
    (r : NoteId * SubmissionRow) : bool :=
  match id with None => true | Some i => bool_decide (r.1 = i) end
  && match status with None => true | Some s => bool_decide (s_status r.2 = s) end.

Lemma select_submissions_wf anchor st id status :
  store_wf anchor st ->
  select_submissions st id status =
    Ok ((fun r => saved_of r.1 r.2)
          <$> List.filter (submission_selected id status) (submission_rows st)).
Proof.
  intros Hwf. unfold select_submissions. apply collect_total.
  intros [i s] [Hin _]%elem_of_filter_list. apply elem_of_submission_rows in Hin.
  by eapply select_submission_wf.
Qed.

Lemma filter_one {A} (l : list (NoteId * A)) id a :
  NoDup l.*1 -> (id, a) ∈ l -> List.filter (fun r => bool_decide (r.1 = id)) l = [(id, a)].
Proof.
  induction l as [|[i x] l IH]; simpl; [set_solver|]. intros [Hi Hnd]%NoDup_cons Hin.
  destruct (decide (i = id)) as [->|Hne].
  - rewrite bool_decide_eq_true_2 by done.
    assert (x = a) as ->.
    { apply elem_of_cons in Hin as [[= ->]|Hin]; [done|]. destruct Hi. by apply (list_elem_of_fmap_2 fst) in Hin. }
    f_equal. apply elem_of_nil_inv. intros [j y] [Hj ?]%elem_of_filter_list. simpl in *. bool_prop. subst.
    destruct Hi. by apply (list_elem_of_fmap_2 fst) in Hj.
  - rewrite bool_decide_eq_false_2 by done. apply IH; [done|]. set_solver.
Qed.

Lemma submission_wf anchor st id :
  store_wf anchor st -> submission st id = Ok (saved_of id <$> submissions st !! id).
Proof.
  intros Hwf. unfold submission. rewrite (select_submissions_wf anchor) by done. simpl.
  assert (List.filter (submission_selected (Some id) None) (submission_rows st) =
          List.filter (fun r => bool_decide (r.1 = id)) (submission_rows st)) as ->.
  { apply List.filter_ext. intros [i s]. unfold submission_selected. simpl. by rewrite andb_true_r. }
  destruct (submissions st !! id) as [s|] eqn:Hs; simpl.
  - rewrite (filter_one _ id s); [done|apply submission_rows_NoDup|by apply elem_of_submission_rows].
  - rewrite (elem_of_nil_inv (List.filter _ _)); [done|].
    intros [i s] [Hin ?]%elem_of_filter_list. simpl in *. bool_prop. subst.
    apply elem_of_submission_rows in Hin. congruence.
Qed.

(** ** Burns *)

(** A total loader, for the rows a well-formed store keeps. *)
Lemma collect_choose {E A B} (f : A -> result E B) (P : A -> B -> Prop) l :
  (forall a, a ∈ l -> exists b, f a = Ok b /\ P a b) ->
  exists bs, collect f l = Ok bs /\ Forall2 P l bs.
Proof.
  induction l as [|a l IH]; intros Hf; simpl; [eexists; by split|].
  destruct (Hf a) as (b & Hb & HP); [set_solver|]. destruct IH as (bs & Hbs & HF); [set_solver|].
  rewrite Hb. simpl. rewrite Hbs. simpl. eexists. split; [done|by constructor].
Qed.

Definition candidate_selected (nullifier : option Nullifier) (r : NoteId * BurnRow) : bool :=
  bool_decide (b_consumption_block r.2 = None)
  && match nullifier with None => true | Some u => bool_decide (b_nullifier r.2 = u) end.

Lemma load_candidates_wf anchor st nullifier :
  store_wf anchor st -> exists cs, load_candidates st nullifier = Ok cs /\
    Forall2 (fun r c => row_candidate r.1 r.2 c /\
               BurnCandidate_new (bc_note c) (bc_creation_block c) (store_faucet st) = Ok c)
      (List.filter (candidate_selected nullifier) (burn_rows st)) cs.
Proof.
  intros Hwf. unfold load_candidates. apply collect_choose.
  intros [id b] [Hin _]%elem_of_filter_list. apply elem_of_burn_rows in Hin.
  destruct (load_candidate_wf (store_faucet st) id b) as (c & ? & ? & ?); [|by exists c].
  by apply (nk_decodes _ _ _ _ _ (wf_note _ _ Hwf id)).
Qed.

Lemma load_burns_wf anchor st all :
  store_wf anchor st -> exists ds, load_burns st all = Ok ds /\
    Forall2 (fun r d => row_burn r.1 r.2 d /\
               DiscoveredBurn_new (db_note d) (db_creation_block d) (db_consumption_block d)
                 (store_faucet st) = Ok d)
      (List.filter (burn_selected st all) (burn_rows st)) ds.
Proof.
  intros Hwf. unfold load_burns. apply collect_choose.
  intros [id b] [Hin Hsel]%elem_of_filter_list. apply elem_of_burn_rows in Hin.
  destruct (load_burn_wf (store_faucet st) id b) as (d & ? & ? & ?); [| |by exists d].
  - by apply (nk_decodes _ _ _ _ _ (wf_note _ _ Hwf id)).
  - unfold burn_selected in Hsel. bool_prop. done.
Qed.

(** The listed burns carry their rows' IDs, so each note is listed once. *)
Lemma Forall2_ids {A} (R : NoteId * BurnRow -> A -> Prop) (f : A -> NoteId) rs ds :
  Forall2 R rs ds -> (forall r d, R r d -> f d = r.1) -> f <$> ds = rs.*1.
Proof. induction 1; intros HR; simpl; [done|]. f_equal; auto. Qed.

Lemma load_burns_ids anchor st ds :
  store_wf anchor st -> load_burns st false = Ok ds ->
  NoDup (db_note_id <$> ds) /\ Forall (eligible st) (db_note_id <$> ds).
Proof.
  intros Hwf Hl. destruct (load_burns_wf anchor st false Hwf) as (ds' & Hl' & HF).
  rewrite Hl in Hl'. injection Hl' as <-.
  erewrite (Forall2_ids _ db_note_id _ _ HF); [|by intros r d ((? & _) & _)].
  split.
  - pose proof (burn_rows_NoDup st) as Hnd. eapply sublist_NoDup; [exact Hnd|].
    apply fmap_sublist, sublist_filter.
  - rewrite Forall_forall. intros id ([i b] & -> & [Hin Hsel]%elem_of_filter_list)%list_elem_of_fmap.
    apply elem_of_burn_rows in Hin. by exists b.
Qed.

Lemma candidate_by_nullifier_Ok anchor st u oc :
  store_wf anchor st -> candidate_by_nullifier st u = Ok oc ->
  forall c, oc = Some c ->
    BurnCandidate_new (bc_note c) (bc_creation_block c) (store_faucet st) = Ok c /\
    0 <= bc_creation_block c.
Proof.
  intros Hwf. unfold candidate_by_nullifier.
  destruct (load_candidates_wf anchor st (Some u) Hwf) as (cs & -> & HF). simpl. intros [= <-] c Hc.
  assert (c ∈ cs) as Hin by (apply last_Some in Hc as [l ->]; set_solver).
  apply list_elem_of_lookup in Hin as [i Hi].
  destruct (Forall2_lookup_r _ _ _ _ _ HF Hi) as ([id b] & Hr & (_ & _ & Hcr) & Hnew).
  split; [done|]. assert ((id, b) ∈ burn_rows st) as Hb.
  { apply list_elem_of_lookup_2 in Hr. by apply elem_of_filter_list in Hr as [? _]. }
  apply elem_of_burn_rows in Hb.
  destruct (nk_decodes _ _ _ _ _ (wf_note _ _ Hwf id) _ Hb) as (_ & ? & _). simpl in Hcr. lia.
Qed.

(** ** The first withdrawal-limit wait *)

Lemma burn_id_canonical anchor st id b :
  store_wf anchor st -> burns st !! id = Some b -> canonical_word id = true.
Proof.
  intros Hwf Hb. destruct (nk_decodes _ _ _ _ _ (wf_note _ _ Hwf id) _ Hb) as ((n & c & _ & -> & _) & _).
  apply note_id_canonical.
Qed.

Lemma first_limit_wait_wf anchor st :
  store_wf anchor st ->
  (first_limit_wait st = Ok None /\ forall id b, burns st !! id = Some b -> b_retry_at b = None) \/
  (exists id b a, burns st !! id = Some b /\ b_retry_at b = Some a /\
     first_limit_wait st = Ok (Some {| lw_note_id := id; lw_creation_block := b_creation_block b;
                                       lw_retry_at := a |}) /\
     forall i c, burns st !! i = Some c -> is_Some (b_retry_at c) -> i <> id ->
       bytes_lt (b_creation_block b :: id) (b_creation_block c :: i)).
Proof.
  intros Hwf. unfold first_limit_wait.
  destruct (List.find _ (burn_rows st)) as [[id b]|] eqn:Hf.
  - right. apply find_some in Hf as Hf'. destruct Hf' as [Hin%list_elem_of_In Hw]. simpl in Hw. bool_prop.
    destruct Hw as [a Ha]. apply elem_of_burn_rows in Hin as Hb. exists id, b, a.
    unfold decode_word. rewrite (burn_id_canonical anchor st id b) by done. simpl. rewrite Ha.
    split_and!; [done..|]. intros i c Hc Hwc Hne. apply elem_of_burn_rows in Hc.
    pose proof (burn_rows_sorted st) as Hs. clear Hin Hb. induction Hs as [|[j e] l Hs IH Hall]; simpl in *; [set_solver|].
    rewrite Forall_forall in Hall. destruct (bool_decide (is_Some (b_retry_at e))) eqn:He.
    + injection Hf as -> ->. apply elem_of_cons in Hc as [[= -> ->]|Hc]; [done|]. by apply (Hall (i, c)).
    + bool_prop. apply elem_of_cons in Hc as [[= -> ->]|Hc]; [done|]. by apply IH.
  - left. split; [done|]. intros id b Hb. apply elem_of_burn_rows, list_elem_of_In in Hb.
    eapply List.find_none in Hf; [|exact Hb]. simpl in Hf. bool_prop.
    destruct (b_retry_at b) eqn:Hr; [|done]. destruct Hf. by eexists.
Qed.

(** ** Opening *)

Lemma no_bad_limit_wait anchor st :
  store_wf anchor st -> existsb (bad_limit_wait st) (map_to_list (burns st)) = false.
Proof.
  intros Hwf. rewrite <-not_true_iff_false, existsb_exists. intros ([id b] & Hin & Hbad).
  apply list_elem_of_In, elem_of_map_to_list in Hin. pose proof (wf_note _ _ Hwf id) as Hnk.
  unfold bad_limit_wait in Hbad. simpl in Hbad. bool_prop.
  match goal with E : is_Some (b_retry_at b) |- _ => destruct E as [a Ha] end.
  destruct (nk_wait _ _ _ _ _ Hnk _ _ Hin Ha) as (_ & [k Hk] & Hs).
  match goal with E : _ || _ = true |- _ => apply orb_true_iff in E as [E|E]; [apply orb_true_iff in E as [E|E]|] end.
  - bool_prop. congruence.
  - bool_prop. match goal with E : is_Some (b_hold_reason b) |- _ => destruct E as [c Hc] end.
    destruct (nk_hold _ _ _ _ _ Hnk _ _ Hin Hc) as (_ & _ & Hr & _). congruence.
  - destruct (submissions st !! id) as [s|]; [|done]. destruct (Hs s eq_refl) as [Hst|Hst]; by rewrite Hst in *.
Qed.

Lemma withdrawal_ids_ok anchor st :
  store_wf anchor st ->
  forallb (fun r => match s_withdrawal_id r.2 with Some id => is_well_formed_id id | None => true end)
    (map_to_list (submissions st)) = true.
Proof.
  intros Hwf. apply forallb_forall. intros [id s] Hin. apply list_elem_of_In, elem_of_map_to_list in Hin.
  destruct (nk_sub_valid _ _ _ _ _ (wf_note _ _ Hwf id) _ Hin) as (Hv & _).
  apply validate_submission_Ok in Hv as (_ & _ & _ & _ & Hv). unfold validate_submission_outcome in Hv.
  simpl in Hv. case_match eqn:Hc; [done|]. simpl. destruct (s_withdrawal_id s); [|done].
  apply orb_false_iff in Hc as [Hc _]. apply orb_false_iff in Hc as [Hc _].
  apply orb_false_iff in Hc as [_ Hc]. by bool_prop.
Qed.

Lemma validate_store_wf anchor st :
  store_wf anchor st -> canonical_account_id (store_faucet st) = true ->
  0 <= ta_block_num anchor <= u32_max -> canonical_word (ta_commitment anchor) = true ->
  validate_store st (store_faucet st) anchor = Ok tt.
Proof.
  intros Hwf Hcf Hblk Hcm. unfold validate_store.
  rewrite (no_bad_limit_wait anchor), (withdrawal_ids_ok anchor) by done. simpl.
  destruct (wf_state _ _ Hwf) as [(row & Hrow & Hf & Ha & Hc) Hck _]. rewrite Hrow. simpl.
  rewrite Hf, Hcf, bool_decide_eq_true_2 by done. simpl. rewrite Ha, decode_block_wf by done. simpl.
  unfold decode_word. rewrite Hc, Hcm. simpl. rewrite bool_decide_eq_true_2 by (by destruct anchor). simpl.
  unfold load_checkpoint. rewrite Hrow. simpl.
  destruct (load_candidates_wf anchor st None Hwf) as (cs & -> & _).
  destruct (load_burns_wf anchor st true Hwf) as (ds & -> & _). simpl.
  destruct (a_checkpoint row) as [bs|] eqn:Hbs; simpl; [|done].
  destruct (Hck _ _ Hrow Hbs) as (h & Hd & Hle & _). unfold decode_header. rewrite Hd. simpl.
  by destruct (Z.ltb_spec (header_block_num h) (ta_block_num anchor)); [lia|].
Qed.

Lemma open_existing_wf anchor st :
  store_wf anchor st -> canonical_account_id (store_faucet st) = true ->
  0 <= ta_block_num anchor <= u32_max -> canonical_word (ta_commitment anchor) = true ->
  open_or_create (Some st) (store_faucet st) anchor = Ok st.
Proof.
  intros. simpl. unfold open_existing. rewrite validate_store_wf by done. simpl. by destruct st.
Qed.
End reads.
