(* ===== verification/Config.v ===== *)
(** The validated configuration (config.rs): the checks on the command line, the secondary-leg fee
    cap of each destination, and the retry deadline of a withdrawal-limit rejection. *)
From S2P Require Import Prelude Text Foreign.
From Stdlib Require Import Ascii.
Local Open Scope Z_scope.

Definition FIRST_REMOTE_DOMAIN : Z := 10000.
Definition STACKS_DOMAIN : Z := 10003.
Definition CARDANO_DOMAIN : Z := 10004.
Definition MOVEMENT_DOMAIN : Z := 10005.

(** A [Duration], and a [SystemTime] since the Unix epoch, in nanoseconds. *)
Definition NANOS : Z := 1000000000.
Definition duration_max : Z := u64_max * NANOS + (NANOS - 1).
Definition as_secs (d : Z) : Z := d / NANOS.
Definition subsec_nanos (d : Z) : Z := d mod NANOS.

Definition address_zero : Address := repeat 0 20.

(** The command line, as clap hands it over. [store_parent_is_dir] is what [fs::metadata] answers for
    the directory of the store path: nothing when it cannot be read. *)
Record Cli := {
  cli_admin_socket : option string;
  cli_aws_kms_region : string;
  cli_aws_kms_key_arn : list string;
  cli_aws_kms_operation_timeout : Z;
  cli_miden_rpc_url : string;
  cli_circle_url : string;
  cli_request_timeout : Z;
  cli_faucet_account_id : string;
  cli_max_withdrawal_fee : Z;
  cli_max_withdrawal_fee_bps : Z;
  cli_cctp_forwarding_max_fee : Z;
  cli_xreserve_deposit_max_fee : option Z;
  cli_cctp_forwarder_address : Address;
  cli_cctp_token_messenger_address : Address;
  cli_poll_interval : Z;
  cli_withdrawal_limit_message_prefix : option string;
  cli_withdrawal_limit_retry_interval : option Z;
  cli_faucet_deployment_block : Z;
  cli_trusted_anchor_block : Z;
  cli_trusted_anchor_commitment : string;
  cli_expected_signing_public_key : list string;
  cli_minimum_finality_depth_blocks : Z;
  cli_store_path : string;
}.

Record KmsConfig := {
  kms_region : string;
  kms_key_arns : string * string;
  kms_operation_timeout : Z;
}.

Record CctpForwarding := {
  cf_max_fee : Z;
  cf_forwarder : Address;
  cf_token_messenger : Address;
}.

Record WithdrawalLimit := {
  wl_message_prefix : string;
  wl_retry_interval : Z;
}.

Record Config := {
  cfg_admin : option string;
  cfg_kms : KmsConfig;
  cfg_miden_rpc_url : string;
  cfg_circle_request_timeout : Z;
  cfg_faucet_account_id : AccountId;
  cfg_circle_api_base_url : Url;
  cfg_max_withdrawal_fee : Z;
  cfg_max_withdrawal_fee_bps : Z;
  cfg_cctp_forwarding : CctpForwarding;
  cfg_xreserve_deposit_max_fee : option Z;
  cfg_poll_interval : Z;
  cfg_withdrawal_limit : option WithdrawalLimit;
  cfg_trusted_anchor_block : BlockNumber;
  cfg_trusted_anchor_commitment : Word;
  cfg_minimum_finality_depth_blocks : Z;
  cfg_expected_signing_public_keys_hex : list string;
  cfg_store_path : string;
}.

(** A 20-byte address written in hex, as the [address!] macro reads it. *)
Definition address_lit (text : string) : Address := default [] (hex_decode (str_list text)).

(** The USDC on Ethereum, GatewayWallet and GatewayMinter of a known xReserve deployment
    (verify.rs). *)
Definition xreserve_deployment (xreserve : Address) : option (Address * Address * Address) :=
  if bool_decide (xreserve = address_lit "8888888199b2df864bf678259607d6d5ebb4e3ce") then
    Some (address_lit "a0b86991c6218b36c1d19d4a2e9eb0ce3606eb48",
          address_lit "77777777dcc4d5a8b6e418fd04d8997ef11000ee",
          address_lit "2222222d7164433c4c09b0b0d809a9b52c04c205")
  else if bool_decide (xreserve = address_lit "008888878f94c0d87defdf0b07f46b93c1934442") then
    Some (address_lit "1c7d4b196cb0c7b01d743fbc6116a902379c7238",
          address_lit "0077777d7eba4688bdef3e311b846f25870a19b9",
          address_lit "0022222abe238cc2c7bb1f21003f0a260052475b")
  else None.

Definition KmsConfig_from_cli (cli : Cli) : result string KmsConfig :=
  match cli_aws_kms_key_arn cli with
  | [first; second] =>
      ensure (negb (bool_decide (first = second))) "the two KMS key ARNs must differ" ;?
      ensure (negb (cli_aws_kms_operation_timeout cli =? 0))
        "AWS KMS operation timeout must be greater than zero" ;?
      Ok {| kms_region := cli_aws_kms_region cli;
            kms_key_arns := (first, second);
            kms_operation_timeout := cli_aws_kms_operation_timeout cli |}
  | _ => Err "exactly two KMS key ARNs are required"%string
  end.

(** The Unix second, rounded up, at which a burn rejected at [now] may be tried again. *)
Definition retry_at (limit : WithdrawalLimit) (now : Z) : result string Z :=
  ensure (0 <=? now) "system clock is before the Unix epoch" ;?
  let? deadline :=
    ok_or (checked_add duration_max now (wl_retry_interval limit)) "withdrawal retry deadline overflow"%string in
  let? seconds :=
    ok_or (checked_add u64_max (as_secs deadline) (if subsec_nanos deadline =? 0 then 0 else 1))
      "withdrawal retry deadline overflow"%string in
  ok_or (try_from_max i64_max seconds) "withdrawal retry deadline exceeds the store's range"%string.

(** Remote destinations need explicit support; native-USDC routes keep their CCTP cap. *)
Definition forwarding_max_fee (cfg : Config) (destination : Z) : option Z :=
  if (destination =? STACKS_DOMAIN) || (destination =? CARDANO_DOMAIN) || (destination =? MOVEMENT_DOMAIN)
  then cfg_xreserve_deposit_max_fee cfg
  else if FIRST_REMOTE_DOMAIN <=? destination then None
  else Some (cf_max_fee (cfg_cctp_forwarding cfg)).

Section config.
Context `{MidenLib, WebLib}.

Definition parse_faucet_account_id (value : string) : result string AccountId :=
  let? account_id := ok_or (account_id_from_hex value) "faucet account id is invalid"%string in
  ensure (bool_decide (account_id_to_hex account_id = value))
    "faucet account id must use canonical 0x-prefixed lowercase hex" ;?
  Ok account_id.

Definition parse_trusted_anchor_commitment (value : string) : result string Word :=
  let? commitment := ok_or (word_parse value) "trusted anchor commitment is invalid"%string in
  ensure (bool_decide (word_to_hex commitment = value))
    "trusted anchor commitment must use canonical 0x-prefixed lowercase 32-byte hex" ;?
  Ok commitment.

(** The two limit settings are only used together. *)
Definition limit_settings (cli : Cli) : option (result string WithdrawalLimit) :=
  match cli_withdrawal_limit_message_prefix cli, cli_withdrawal_limit_retry_interval cli with
  | Some message_prefix, Some retry_interval =>
      Some (ensure (negb (is_blank message_prefix))
              "withdrawal limit message prefix must not be blank" ;?
            ensure (negb (retry_interval =? 0))
              "withdrawal limit retry interval must be greater than zero" ;?
            Ok {| wl_message_prefix := message_prefix; wl_retry_interval := retry_interval |})
  | _, _ => None
  end.

Definition checked_amount (v : Z) (context : string) : result string Z := ok_or (asset_amount_new v) context.

Definition Config_try_from (cli : Cli) (store_parent_is_dir : option bool) : result string Config :=
  let? kms := KmsConfig_from_cli cli in
  let? withdrawal_limit := transpose (limit_settings cli) in
  let? max_withdrawal_fee :=
    checked_amount (cli_max_withdrawal_fee cli) "maximum withdrawal fee is invalid" in
  let? xreserve_deposit_max_fee :=
    transpose ((fun fee => checked_amount fee "maximum xreserve deposit fee is invalid")
                 <$> cli_xreserve_deposit_max_fee cli) in
  let cctp_forwarding :=
    {| cf_max_fee := cli_cctp_forwarding_max_fee cli;
       cf_forwarder := cli_cctp_forwarder_address cli;
       cf_token_messenger := cli_cctp_token_messenger_address cli |} in
  ensure (negb (cf_max_fee cctp_forwarding =? 0)) "cctp forwarding max fee must be above zero" ;?
  ensure (negb (bool_decide (cf_forwarder cctp_forwarding = address_zero)))
    "cctp forwarder address must not be zero" ;?
  ensure (negb (bool_decide (cf_token_messenger cctp_forwarding = address_zero)))
    "cctp token messenger address must not be zero" ;?
  ensure (negb (bool_decide (cf_forwarder cctp_forwarding = cf_token_messenger cctp_forwarding)))
    "cctp forwarder and token messenger addresses must differ" ;?
  ensure (bool_decide (xreserve_deposit_max_fee = None)
          || bool_decide (is_Some (xreserve_deployment (cf_forwarder cctp_forwarding))))
    "xreserve deposit max fee requires a known xreserve deployment as cctp forwarder address" ;?
  ensure (negb (cli_request_timeout cli =? 0)) "circle request timeout must be greater than zero" ;?
  ensure (negb (cli_poll_interval cli =? 0)) "poll interval must be greater than zero" ;?
  ensure (negb (cli_minimum_finality_depth_blocks cli =? 0))
    "minimum finality depth must be greater than zero" ;?
  ensure (Nat.eqb (length (cli_expected_signing_public_key cli)) 2)
    "exactly two expected signing public keys are required" ;?
  ensure (cli_trusted_anchor_block cli <=? cli_faucet_deployment_block cli)
    "trusted anchor must not be after the faucet deployment block" ;?
  let? faucet_account_id := parse_faucet_account_id (cli_faucet_account_id cli) in
  let? trusted_anchor_commitment :=
    parse_trusted_anchor_commitment (cli_trusted_anchor_commitment cli) in
  ensure (starts_with (str_list (cli_miden_rpc_url cli)) (str_list "https://")
          || starts_with (str_list (cli_miden_rpc_url cli)) (str_list "http://"))
    "Miden RPC URL must start with https:// or http://" ;?
  let? miden_rpc_url :=
    ok_or (endpoint_try_from (cli_miden_rpc_url cli)) "Miden RPC URL is invalid"%string in
  let? circle_api_base_url :=
    ok_or (url_parse (cli_circle_url cli)) "Circle API base URL is invalid"%string in
  ensure (bool_decide (url_scheme circle_api_base_url = "https") && url_has_host circle_api_base_url)
    "Circle API base URL must be an absolute HTTPS URL" ;?
  ensure (negb (bool_decide (cli_store_path cli = ""))) "store path must not be empty" ;?
  let? is_dir := ok_or store_parent_is_dir "store path parent is not accessible"%string in
  ensure is_dir "store path parent must be a directory" ;?
  Ok {| cfg_admin := cli_admin_socket cli;
        cfg_kms := kms;
        cfg_miden_rpc_url := miden_rpc_url;
        cfg_circle_request_timeout := cli_request_timeout cli;
        cfg_faucet_account_id := faucet_account_id;
        cfg_circle_api_base_url := circle_api_base_url;
        cfg_max_withdrawal_fee := max_withdrawal_fee;
        cfg_max_withdrawal_fee_bps := cli_max_withdrawal_fee_bps cli;
        cfg_cctp_forwarding := cctp_forwarding;
        cfg_xreserve_deposit_max_fee := xreserve_deposit_max_fee;
        cfg_poll_interval := cli_poll_interval cli;
        cfg_withdrawal_limit := withdrawal_limit;
        cfg_trusted_anchor_block := cli_trusted_anchor_block cli;
        cfg_trusted_anchor_commitment := trusted_anchor_commitment;
        cfg_minimum_finality_depth_blocks := cli_minimum_finality_depth_blocks cli;
        cfg_expected_signing_public_keys_hex := cli_expected_signing_public_key cli;
        cfg_store_path := cli_store_path cli |}.

(** The note IDs given to [release-holds]: the arguments, then the first word of each non-empty
    line of the file, whose lines are given ([None]: no file; the read itself is I/O). *)
Definition first_word (line : string) : option string :=
  match split_ws (chars (str_list line)) [] with
  | [] => None
  | w :: _ => Some (list_str (concat w))
  end.
Definition parse_note_ids (note_ids : list string) (lines : option (list string))
    : result string (list NoteId) :=
  let words := note_ids ++ match lines with Some ls => omap first_word ls | None => [] end in
  ensure (negb (Nat.eqb (length words) 0)) "no note IDs given" ;?
  collect (fun id => ok_or (note_id_try_from_hex id) "note id is invalid"%string) words.
End config.
