(* ===== verification/Verify.v ===== *)
(** Checking Circle's prepared authorization (verify.rs): the packed encodings of Circle's
    contracts, the checks of each route, and the digest that is signed. *)
From S2P Require Import Prelude Text Telemetry Foreign Wire Types Burn Config.
From Stdlib Require Import Ascii.
Local Open Scope Z_scope.

Definition BURN_INTENT_MAGIC : bytes := be_bytes 4 0x070afbc2.
Definition TRANSFER_SPEC_MAGIC : bytes := be_bytes 4 0xca85def7.
Definition WITHDRAW_HOOK_DATA_MAGIC : bytes := be_bytes 4 0x6b20f62a.
Definition WITHDRAW_HOOK_DATA_VERSION : Z := 1.
Definition CCTP_FORWARD_MARKER : bytes := str_bytes "cctp-forward" ++ repeat 0 20.
Definition CCTP_FAST_FINALITY : Z := 1000.
Definition ARC_DOMAIN : Z := 26.
Definition ARC_USDC : Address := address_lit "3600000000000000000000000000000000000000".
Definition B256_ZERO : B256 := repeat 0 32.
(** [Address::into_word]: left-padded to 32 bytes. *)
Definition into_word (a : Address) : B256 := repeat 0 12 ++ a.

(** The structs of Circle's EIP-712 type hashes ([eip712]). *)
Record SpecFields := {
  version : Z;
  sourceDomain : Z;
  destinationDomain : Z;
  sourceContract : B256;
  destinationContract : B256;
  sourceToken : B256;
  destinationToken : B256;
  sourceDepositor : B256;
  destinationRecipient : B256;
  sourceSigner : B256;
  destinationCaller : B256;
  value : Z;
  salt : B256;
  hookData : bytes;
}.
Record IntentFields := {
  maxBlockHeight : Z;
  maxFee : Z;
  spec : SpecFields;
}.

(** The arguments of [depositForBurnWithHook] ([cctp]) and [depositToRemote] ([redeposit]). *)
Record CctpCall := {
  cc_amount : Z;
  cc_destinationDomain : Z;
  cc_mintRecipient : B256;
  cc_burnToken : Address;
  cc_destinationCaller : B256;
  cc_maxFee : Z;
  cc_minFinalityThreshold : Z;
  cc_hookData : bytes;
}.
Record RedepositCall := {
  rd_value : Z;
  rd_remoteDomain : Z;
  rd_remoteRecipient : B256;
  rd_localToken : Address;
  rd_maxFee : Z;
  rd_hookData : bytes;
}.

Inductive VerifyError : Type :=
| WrongCount
| UnsupportedDestination
| UnknownSalt
| WrongBurnField (field : string)
| BadAmount
| FeeTooHigh
| WrongSigner
| WrongSourceToken
| WrongSourceDomain
| CallerRestricted
| ForwardedField (field : string)
| TooSmallToForward_
| PayoutTooSmallToForward
| DigestMismatch
| EncodedMismatch
| MalformedField (field : string).

#[export] Instance VerifyError_Classified : Classified VerifyError := fun e =>
  match e with
  | UnsupportedDestination => Actionable "unsupported_destination"
  | FeeTooHigh => Actionable "fee_too_high"
  | TooSmallToForward_ => Actionable "too_small_to_forward"
  | PayoutTooSmallToForward => Actionable "payout_too_small_to_forward"
  | WrongCount => Integrity "wrong_count"
  | UnknownSalt => Integrity "unknown_salt"
  | WrongBurnField _ => Integrity "wrong_burn_field"
  | BadAmount => Integrity "bad_amount"
  | WrongSigner => Integrity "wrong_signer"
  | WrongSourceToken => Integrity "wrong_source_token"
  | WrongSourceDomain => Integrity "wrong_source_domain"
  | CallerRestricted => Integrity "caller_restricted"
  | ForwardedField _ => Integrity "forwarded_field"
  | DigestMismatch => Integrity "digest_mismatch"
  | EncodedMismatch => Integrity "encoded_mismatch"
  | MalformedField _ => Integrity "malformed_field"
  end.

Record HookData := {
  remote_domain : Z;
  remote_token : B256;
  remote_depositor : B256;
  forwarding_contract : Address;
  forwarding_calldata : bytes;
}.

(** alloy's ABI codec of the two calls and its EIP-712 hash in Circle's domain: generated code. *)
Class EthLib := {
  cctp_decode : bytes -> option CctpCall;
  cctp_encode : CctpCall -> bytes;
  redeposit_decode : bytes -> option RedepositCall;
  redeposit_encode : RedepositCall -> bytes;
  signing_hash : IntentFields -> B256;
}.

(** ** Packed encodings *)

Definition append_with_length (output data : bytes) : result VerifyError bytes :=
  let? length :=
    ok_or (try_from_max u32_max (Z.of_nat (length data))) (MalformedField "encoded length") in
  Ok (output ++ be_bytes 4 length ++ data).

Definition HookData_encode (h : HookData) : result VerifyError bytes :=
  append_with_length
    (WITHDRAW_HOOK_DATA_MAGIC ++ be_bytes 4 WITHDRAW_HOOK_DATA_VERSION
       ++ be_bytes 4 (remote_domain h) ++ remote_token h ++ remote_depositor h
       ++ into_word (forwarding_contract h))
    (forwarding_calldata h).

Definition TransferSpec_encode (s : SpecFields) : result VerifyError bytes :=
  append_with_length
    (TRANSFER_SPEC_MAGIC ++ be_bytes 4 (version s) ++ be_bytes 4 (sourceDomain s)
       ++ be_bytes 4 (destinationDomain s)
       ++ concat [sourceContract s; destinationContract s; sourceToken s; destinationToken s;
                  sourceDepositor s; destinationRecipient s; sourceSigner s; destinationCaller s]
       ++ be_bytes 32 (value s) ++ salt s)
    (hookData s).

Definition BurnIntent_encode (i : IntentFields) : result VerifyError bytes :=
  let? spec := TransferSpec_encode (spec i) in
  append_with_length
    (BURN_INTENT_MAGIC ++ be_bytes 32 (maxBlockHeight i) ++ be_bytes 32 (maxFee i)) spec.

(** Plain decimal digits that fit 256 bits. *)
Definition decimal (text field : string) : result VerifyError Z :=
  if bool_decide (text = "") || negb (forallb is_ascii_digit (str_list text))
  then Err (MalformedField field)
  else ok_or (try_from_max u256_max (digits_value (str_list text))) (MalformedField field).

Section verify.
Context `{MidenLib, WebLib, EthLib}.

Definition TransferSpec_hash (s : SpecFields) : result VerifyError B256 :=
  let? encoded := TransferSpec_encode s in Ok (keccak256 encoded).

Definition parse {A} (from_str : string -> option A) (text field : string) : result VerifyError A :=
  ok_or (from_str text) (MalformedField field).

Definition HookData_parse (raw : StructuredHookData) : result VerifyError HookData :=
  let? remote_token := parse parse_b256 (hd_remote_token raw) "remoteToken" in
  let? remote_depositor := parse parse_b256 (hd_remote_depositor raw) "remoteDepositor" in
  let? forwarding_contract :=
    parse parse_address (hd_forwarding_contract_address raw) "forwardingContractAddress" in
  let? forwarding_calldata :=
    parse parse_hex_bytes (hd_forwarding_calldata raw) "forwardingCalldata" in
  Ok {| remote_domain := hd_remote_domain raw; remote_token := remote_token;
        remote_depositor := remote_depositor; forwarding_contract := forwarding_contract;
        forwarding_calldata := forwarding_calldata |}.

Definition parse_intent (raw : BurnIntent) : result VerifyError (IntentFields * HookData) :=
  let s := bi_spec raw in
  let? hook := HookData_parse (ts_hook_data s) in
  let? maxBlockHeight := decimal (bi_max_block_height raw) "maxBlockHeight" in
  let? maxFee := decimal (bi_max_fee raw) "maxFee" in
  let? sourceContract := parse parse_b256 (ts_source_contract s) "sourceContract" in
  let? destinationContract := parse parse_b256 (ts_destination_contract s) "destinationContract" in
  let? sourceToken := parse parse_b256 (ts_source_token s) "sourceToken" in
  let? destinationToken := parse parse_b256 (ts_destination_token s) "destinationToken" in
  let? sourceDepositor := parse parse_b256 (ts_source_depositor s) "sourceDepositor" in
  let? destinationRecipient :=
    parse parse_b256 (ts_destination_recipient s) "destinationRecipient" in
  let? sourceSigner := parse parse_b256 (ts_source_signer s) "sourceSigner" in
  let? destinationCaller := parse parse_b256 (ts_destination_caller s) "destinationCaller" in
  let? value := decimal (ts_value s) "value" in
  let? salt := parse parse_b256 (ts_salt s) "salt" in
  let? hookData := HookData_encode hook in
  Ok ({| maxBlockHeight := maxBlockHeight; maxFee := maxFee;
         spec := {| version := ts_version s; sourceDomain := ts_source_domain s;
                    destinationDomain := ts_destination_domain s;
                    sourceContract := sourceContract; destinationContract := destinationContract;
                    sourceToken := sourceToken; destinationToken := destinationToken;
                    sourceDepositor := sourceDepositor;
                    destinationRecipient := destinationRecipient; sourceSigner := sourceSigner;
                    destinationCaller := destinationCaller; value := value; salt := salt;
                    hookData := hookData |} |}, hook).

(** ** Routes *)

Definition check_field (matches : bool) (field : string) : result VerifyError unit :=
  ensure matches (ForwardedField field).
(** The loops over pairs of a check and its field. *)
Fixpoint check_fields (l : list (bool * string)) : result VerifyError unit :=
  match l with
  | [] => Ok tt
  | (matches, field) :: l => check_field matches field ;? check_fields l
  end.

(** The CCTP leg pays the configured xReserve contract on Arc, which runs the transfer given in
    the calldata. *)
Definition verify_forwarded_leg (intent : IntentFields) (hook : HookData) (burn : DiscoveredBurn)
    (forwarding : CctpForwarding) : result VerifyError unit :=
  check_field (bool_decide (forwarding_contract hook = cf_token_messenger forwarding))
    "forwardingContractAddress" ;?
  let s := spec intent in
  let forwarder := into_word (cf_forwarder forwarding) in
  check_field (bool_decide (destinationRecipient s = forwarder)) "destinationRecipient" ;?
  check_field (bool_decide (destinationCaller s = forwarder)) "destinationCaller" ;?
  check_field (destinationDomain s =? ARC_DOMAIN) "destinationDomain" ;?
  check_field (bool_decide (destinationToken s = into_word ARC_USDC)) "destinationToken" ;?
  let? call :=
    ok_or (cctp_decode (forwarding_calldata hook)) (ForwardedField "forwardingCalldata") in
  check_field (bool_decide (cctp_encode call = forwarding_calldata hook)) "forwardingCalldata" ;?
  check_field (cc_amount call =? value s) "calldata amount" ;?
  check_field (cc_destinationDomain call =? dest_domain (db_items burn))
    "calldata destinationDomain" ;?
  check_field (bool_decide (cc_mintRecipient call = dest_recipient (db_items burn)))
    "calldata mintRecipient" ;?
  check_field (bool_decide (into_word (cc_burnToken call) = destinationToken s))
    "calldata burnToken" ;?
  check_field (bool_decide (cc_destinationCaller call = B256_ZERO)) "calldata destinationCaller" ;?
  check_field (cc_maxFee call =? cf_max_fee forwarding) "calldata maxFee" ;?
  check_field (cc_minFinalityThreshold call =? CCTP_FAST_FINALITY)
    "calldata minFinalityThreshold" ;?
  check_field (bool_decide (cc_hookData call = CCTP_FORWARD_MARKER)) "calldata hookData".

(** A redeposit through the configured xReserve, a known deployment on Arc or Ethereum. *)
Definition verify_redeposit_leg (intent : IntentFields) (hook : HookData) (burn : DiscoveredBurn)
    (forwarder : Address) (max_fee : Z) : result VerifyError unit :=
  let? deployment :=
    ok_or (xreserve_deployment forwarder) (ForwardedField "xreserve deployment") in
  let '(ethereum_token, wallet, minter) := deployment in
  let s := spec intent in
  let? token :=
    if destinationDomain s =? 0 then Ok ethereum_token
    else if destinationDomain s =? ARC_DOMAIN then Ok ARC_USDC
    else Err (ForwardedField "destinationDomain") in
  check_fields
    [(bool_decide (forwarding_contract hook = forwarder), "forwardingContractAddress"%string);
     (bool_decide (destinationRecipient s = into_word forwarder), "destinationRecipient"%string);
     (bool_decide (destinationCaller s = into_word forwarder), "destinationCaller"%string);
     (bool_decide (destinationToken s = into_word token), "destinationToken"%string);
     (bool_decide (sourceContract s = into_word wallet), "sourceContract"%string);
     (bool_decide (destinationContract s = into_word minter), "destinationContract"%string)] ;?
  let? call :=
    ok_or (redeposit_decode (forwarding_calldata hook)) (ForwardedField "forwardingCalldata") in
  check_field (bool_decide (redeposit_encode call = forwarding_calldata hook)) "forwardingCalldata" ;?
  check_fields
    [(rd_value call =? value s, "calldata value"%string);
     (rd_remoteDomain call =? dest_domain (db_items burn), "calldata remoteDomain"%string);
     (bool_decide (rd_remoteRecipient call = dest_recipient (db_items burn)),
      "calldata remoteRecipient"%string);
     (bool_decide (rd_localToken call = token), "calldata localToken"%string);
     (rd_maxFee call =? max_fee, "calldata maxFee"%string);
     (bool_decide (rd_hookData call = []), "calldata hookData"%string)].

(** ** Verification *)

Record VerifiedWithdrawal := {
  vw_note_id : NoteId;
  vw_intent : BurnIntent;
  vw_digest : B256;
  vw_transfer_spec_hash : B256;
}.

(** The checks of the direct route. *)
Definition verify_direct_leg (s : SpecFields) (burn : DiscoveredBurn) : result VerifyError unit :=
  ensure (destinationDomain s =? dest_domain (db_items burn)) (WrongBurnField "destinationDomain") ;?
  ensure (bool_decide (destinationRecipient s = dest_recipient (db_items burn)))
    (WrongBurnField "destinationRecipient") ;?
  ensure (bool_decide (destinationCaller s = B256_ZERO)) CallerRestricted.

Definition is_forwarded (hook : HookData) : bool :=
  negb (bool_decide (forwarding_contract hook = address_zero))
  || negb (bool_decide (forwarding_calldata hook = [])).

(** The route of the reply and the fee its second leg may take. *)
Definition verify_route (config : Config) (burn : DiscoveredBurn) (intent : IntentFields)
    (hook : HookData) (forwarding_fee : Z) : result VerifyError Z :=
  if FIRST_REMOTE_DOMAIN <=? dest_domain (db_items burn) then
    verify_redeposit_leg intent hook burn (cf_forwarder (cfg_cctp_forwarding config))
      forwarding_fee ;?
    Ok forwarding_fee
  else if is_forwarded hook then
    verify_forwarded_leg intent hook burn (cfg_cctp_forwarding config) ;? Ok forwarding_fee
  else verify_direct_leg (spec intent) burn ;? Ok 0.

(** [U256] arithmetic wraps; the operands are 64-bit. *)
Definition fee_ceiling (config : Config) (burned_amount : Z) : Z :=
  wrap 256 (cfg_max_withdrawal_fee config
            + wrap 256 (burned_amount * cfg_max_withdrawal_fee_bps config) / 10000).

Definition sender_bytes32 (burn : DiscoveredBurn) : B256 :=
  account_id_bytes32 (note_sender (db_note burn)).

(** The burn's own fields, the amounts and the source. *)
Definition verify_burn_fields (config : Config) (burn : DiscoveredBurn) (intent : IntentFields)
    (hook : HookData) (secondary_fee : Z) : result VerifyError unit :=
  let s := spec intent in
  ensure (remote_domain hook =? miden_domain) (WrongBurnField "remoteDomain") ;?
  ensure (bool_decide (remote_depositor hook = sender_bytes32 burn))
    (WrongBurnField "remoteDepositor") ;?
  ensure (bool_decide (remote_token hook = account_id_bytes32 (cfg_faucet_account_id config)))
    (WrongBurnField "remoteToken") ;?
  ensure (negb (value s =? 0)
          && bool_decide (checked_add u256_max (value s) (maxFee intent) = Some (db_amount burn)))
    BadAmount ;?
  ensure (saturating_add u256_max (maxFee intent) secondary_fee <=? fee_ceiling config (db_amount burn))
    FeeTooHigh ;?
  ensure (bool_decide (sourceSigner s = sourceDepositor s)) WrongSigner ;?
  ensure (bool_decide (sourceToken s = into_word ARC_USDC)) WrongSourceToken ;?
  ensure (sourceDomain s =? ARC_DOMAIN) WrongSourceDomain.

(** Circle's encoded intent and hash are rebuilt from the checked fields. *)
Definition verify_encoding (batch : UnverifiedPrepareBatch) (intent : IntentFields)
    : result VerifyError B256 :=
  let? supplied_bytes := parse parse_hex_bytes (pb_encoded batch) "encoded" in
  let? encoded := BurnIntent_encode intent in
  ensure (bool_decide (supplied_bytes = encoded)) EncodedMismatch ;?
  let digest := signing_hash intent in
  let? supplied := parse parse_b256 (pb_message_hash_to_sign batch) "messageHashToSign" in
  ensure (bool_decide (digest = supplied)) DigestMismatch ;?
  Ok digest.

Definition verify (reply : UnverifiedPrepareResponse) (burn : DiscoveredBurn) (config : Config)
    : result VerifyError VerifiedWithdrawal :=
  let? batch := match pr_batches reply with [batch] => Ok batch | _ => Err WrongCount end in
  let? raw := match pb_burn_intents batch with [raw] => Ok raw | _ => Err WrongCount end in
  let? parsed := parse_intent raw in
  let '(intent, hook) := parsed in
  let s := spec intent in
  ensure (bool_decide (db_note_id burn = salt s)) UnknownSalt ;?
  let destination := dest_domain (db_items burn) in
  let? forwarding_fee := ok_or (forwarding_max_fee config destination) UnsupportedDestination in
  let? secondary_fee := verify_route config burn intent hook forwarding_fee in
  verify_burn_fields config burn intent hook secondary_fee ;?
  let? digest := verify_encoding batch intent in
  (if (is_forwarded hook || (FIRST_REMOTE_DOMAIN <=? destination)) && (value s <=? secondary_fee)
   then (if db_amount burn <=? secondary_fee then Err TooSmallToForward_
         else Err PayoutTooSmallToForward)
   else Ok tt) ;?
  let? transfer_spec_hash := TransferSpec_hash s in
  Ok {| vw_note_id := db_note_id burn; vw_intent := raw; vw_digest := digest;
        vw_transfer_spec_hash := transfer_spec_hash |}.
End verify.
