(* ===== verification/Circle.v ===== *)
(** Circle's xReserve API (circle.rs): its errors, the requests the client builds, how a reply is
    read, the gap between two requests, and the prepare request's batch. *)
From S2P Require Import Prelude Text Telemetry Foreign Wire Types Burn Config.
From Stdlib Require Import Ascii.
Local Open Scope Z_scope.

Inductive CircleError : Type :=
| Unavailable
| Transport
| UnexpectedStatus (status : Z)
| UnexpectedPrepareStatus (status : Z) (body : bytes)
| InvalidResponse
| BodyTooLarge
| InvalidUrl
| RateLimited (body : option bytes) (read_error : option CircleError).

#[export] Instance CircleError_Classified : Classified CircleError := fun e =>
  match e with
  | InvalidUrl => Actionable "invalid_url"
  | RateLimited _ _ => Transient "rate_limited"
  | Unavailable | Transport => Transient "circle_unavailable"
  | UnexpectedStatus _ | UnexpectedPrepareStatus _ _ => Transient "unexpected_status"
  | InvalidResponse | BodyTooLarge => Transient "invalid_response"
  end.

Definition is_rate_limited (e : CircleError) : bool :=
  match e with RateLimited _ _ => true | _ => false end.

Definition MAX_RESPONSE_BODY_BYTES : Z := 1048576.
(** [REQUEST_GAP] in nanoseconds: 250 ms. *)
Definition REQUEST_GAP : Z := 250000000.

(** ** Reading a reply *)

(** The chunks a response delivers; [None] is a chunk that fails to arrive. *)
Fixpoint read_body (body : bytes) (chunks : list (option bytes)) : result CircleError bytes :=
  match chunks with
  | [] => Ok body
  | None :: _ => Err Transport
  | Some chunk :: chunks =>
      if MAX_RESPONSE_BODY_BYTES <? Z.of_nat (length body) + Z.of_nat (length chunk)
      then Err BodyTooLarge
      else read_body (body ++ chunk) chunks
  end.

Definition read_reply (status : Z) (chunks : list (option bytes)) : result CircleError RawResponse :=
  match read_body [] chunks with
  | Ok body =>
      if status =? TOO_MANY_REQUESTS then Err (RateLimited (Some body) None)
      else Ok {| rr_status := status; rr_body := body |}
  | Err error =>
      if status =? TOO_MANY_REQUESTS then Err (RateLimited None (Some error)) else Err error
  end.

Definition read_info (response : RawResponse) : result CircleError unit :=
  if rr_status response =? OK then Ok tt else Err (UnexpectedStatus (rr_status response)).

(** ** Pacing *)

(** One caller of [send]: it arrives and, holding the lock, sends no earlier than [next_dispatch].
    The attempt ends [duration] later, or the caller stops waiting for the answer ([None]), or it
    stops waiting before its request goes out. *)
Inductive SendAttempt : Type :=
| GivesUp
| Sends (arrival : Z) (duration : option Z).

(** The dispatch time, if the request goes out, and the new [next_dispatch]. *)
Definition send_turn (next_dispatch : Z) (a : SendAttempt) : option Z * Z :=
  match a with
  | GivesUp => (None, next_dispatch)
  | Sends arrival duration =>
      let dispatched := Z.max arrival next_dispatch in
      (Some dispatched,
       match duration with
       | None => dispatched + REQUEST_GAP
       | Some d => dispatched + d + REQUEST_GAP
       end)
  end.

(** The dispatch times of the callers in the order they take the lock. *)
Fixpoint dispatches (next_dispatch : Z) (l : list SendAttempt) : list Z :=
  match l with
  | [] => []
  | a :: l =>
      let '(d, next) := send_turn next_dispatch a in
      option_list d ++ dispatches next l
  end.

(** ** Requests *)

Inductive Method : Type := GET | POST.
Record Request := {
  rq_method : Method;
  rq_url : Url;
  rq_timeout : Z;
  rq_json : bool;
  rq_body : option bytes;
}.

(** The amount as Circle takes it: whole USDC with all fractional digits. *)
Definition UsdcDecimals_from (decimals : nat) (units : Z) : string :=
  let units_per_usdc := 10 ^ Z.of_nat decimals in
  list_str (to_decimal (units / units_per_usdc) ++ "."%char
              :: zero_padded decimals (units mod units_per_usdc)).

Record ForwardingOptions := { fo_max_fee : string; fo_uses_fast_finality : bool }.
Record PrepareBatch := {
  pq_token : string;
  pq_remote_domain : Z;
  pq_remote_depositor : string;
  pq_final_destination_domain : Z;
  pq_final_destination_recipient : string;
  pq_value_including_fees : string;
  pq_salt : string;
  pq_use_circle_forwarding : bool;
  pq_forwarding_options : ForwardingOptions;
}.

(** serde_json's text of a prepare request with one batch. *)
Class CircleJson := { json_prepare_request : PrepareBatch -> bytes }.

Record CircleClient := {
  cl_base_url : Url;
  cl_request_timeout : Z;
}.

Section circle.
Context `{MidenLib, WebLib, JsonLib, CircleJson}.

Definition CircleClient_new (config : Config) : CircleClient :=
  {| cl_base_url := cfg_circle_api_base_url config;
     cl_request_timeout := cfg_circle_request_timeout config |}.

Definition read_prepared (response : RawResponse) : result CircleError UnverifiedPrepareResponse :=
  if negb (rr_status response =? OK)
  then Err (UnexpectedPrepareStatus (rr_status response) (rr_body response))
  else ok_or (json_prepare (rr_body response)) InvalidResponse.

Definition submission_endpoint (base_url : Url) : result CircleError Url :=
  ok_or (url_join base_url "/v1/withdraw") InvalidUrl.

Definition PrepareBatch_from_burn (burn : DiscoveredBurn) (forwarding_max_fee : Z) : PrepareBatch :=
  {| pq_token := "USDC";
     pq_remote_domain := miden_domain;
     pq_remote_depositor := to_hex (account_id_bytes32 (note_sender (db_note burn)));
     pq_final_destination_domain := dest_domain (db_items burn);
     pq_final_destination_recipient := to_hex (dest_recipient (db_items burn));
     pq_value_including_fees := UsdcDecimals_from (Z.to_nat usdcx_decimals) (db_amount burn);
     pq_salt := note_id_to_hex (db_note_id burn);
     pq_use_circle_forwarding := true;
     pq_forwarding_options :=
       {| fo_max_fee := UsdcDecimals_from (Z.to_nat usdcx_decimals) forwarding_max_fee;
          fo_uses_fast_finality := true |} |}.

Definition info_request (c : CircleClient) : result CircleError Request :=
  let? url := ok_or (url_join (cl_base_url c) "/v1/info") InvalidUrl in
  Ok {| rq_method := GET; rq_url := url; rq_timeout := cl_request_timeout c; rq_json := false;
        rq_body := None |}.

Definition prepare_request (c : CircleClient) (burn : DiscoveredBurn) (forwarding_max_fee : Z)
    : result CircleError Request :=
  let? url := ok_or (url_join (cl_base_url c) "/v1/prepare-withdrawal") InvalidUrl in
  Ok {| rq_method := POST; rq_url := url; rq_timeout := cl_request_timeout c; rq_json := true;
        rq_body := Some (json_prepare_request (PrepareBatch_from_burn burn forwarding_max_fee)) |}.

(** A retry sends the saved authorization: the saved endpoint and the saved bytes. *)
Definition submission_request (c : CircleClient) (saved : SavedSubmission)
    : result CircleError Request :=
  Ok {| rq_method := POST; rq_url := sub_endpoint saved; rq_timeout := cl_request_timeout c;
        rq_json := true; rq_body := Some (body saved) |}.

Definition status_request (c : CircleClient) (saved : SavedSubmission) (id : string)
    : result CircleError Request :=
  let? url := ok_or (url_join (sub_endpoint saved) "/v1/withdrawal/") InvalidUrl in
  let? url := ok_or (url_push_segment url id) Unavailable in
  Ok {| rq_method := GET; rq_url := url; rq_timeout := cl_request_timeout c; rq_json := false;
        rq_body := None |}.
End circle.

(** ** The API the attester calls *)

(** The trait: each call acts on the outside world [W] and returns the world it leaves. *)
Class CircleApi `{MidenLib} (W : Type) := {
  circle_check_connection : W -> result CircleError unit * W;
  circle_prepare_withdrawal : DiscoveredBurn -> Z -> W -> result CircleError UnverifiedPrepareResponse * W;
  circle_post_submission : SavedSubmission -> W -> result CircleError RawResponse * W;
  circle_get_withdrawal : SavedSubmission -> string -> W -> result CircleError RawResponse * W;
}.

(** What the attester may rely on: a 429 never comes back as an ordinary reply, and every reply
    has a size bound and a valid status. *)
Definition reply_ok `{WebLib} (r : result CircleError RawResponse) : Prop :=
  match r with
  | Ok reply => rr_status reply <> TOO_MANY_REQUESTS /\ status_code_ok (rr_status reply) = true /\
      Z.of_nat (length (rr_body reply)) <= MAX_RESPONSE_BODY_BYTES
  | Err _ => True
  end.
Class CircleLaws `{MidenLib, WebLib} (W : Type) `{!CircleApi W} : Prop := {
  circle_post_ok saved w : reply_ok (circle_post_submission saved w).1;
  circle_get_ok saved id w : reply_ok (circle_get_withdrawal saved id w).1;
}.

(** HTTPS execution by reqwest: no answer, or a status with the chunks of its body. *)
Class HttpExec (W : Type) := {
  http_execute : Request -> W -> option (Z * list (option bytes)) * W;
}.
(** reqwest's [StatusCode] is always in range. *)
Class HttpLaws `{WebLib} (W : Type) `{!HttpExec W} : Prop := {
  http_status_ok rq w status chunks w' :
    http_execute rq w = (Some (status, chunks), w') -> status_code_ok status = true;
}.

Section client.
Context `{MidenLib, WebLib, JsonLib, CircleJson} {W : Type} `{!HttpExec W}.

(** [CircleClient::send], apart from its pacing. *)
Definition send (request : Request) (w : W) : result CircleError RawResponse * W :=
  match http_execute request w with
  | (Some (status, chunks), w) => (read_reply status chunks, w)
  | (None, w) => (Err Transport, w)
  end.

Definition send_built {A} (request : result CircleError Request)
    (read : RawResponse -> result CircleError A) (w : W) : result CircleError A * W :=
  match request with
  | Err e => (Err e, w)
  | Ok request => let '(reply, w) := send request w in (rbind reply read, w)
  end.

(** [impl CircleApi for CircleClient]. *)
Definition CircleClient_api (c : CircleClient) : CircleApi W :=
  {| circle_check_connection := send_built (info_request c) read_info;
     circle_prepare_withdrawal := fun burn fee =>
       send_built (prepare_request c burn fee) read_prepared;
     circle_post_submission := fun saved => send_built (submission_request c saved) Ok;
     circle_get_withdrawal := fun saved id => send_built (status_request c saved id) Ok |}.

(** ** The client keeps the API's promises *)

Lemma read_body_bound chunks body b :
  Z.of_nat (length body) <= MAX_RESPONSE_BODY_BYTES -> read_body body chunks = Ok b ->
  Z.of_nat (length b) <= MAX_RESPONSE_BODY_BYTES.
Proof.
  revert body; induction chunks as [|[chunk|] chunks IH]; intros body Hb; simpl; [by intros [= <-]| |done].
  destruct (Z.ltb_spec MAX_RESPONSE_BODY_BYTES (Z.of_nat (length body) + Z.of_nat (length chunk))); [done|].
  apply IH. rewrite length_app. lia.
Qed.

Lemma read_body_concat chunks body b :
  read_body body chunks = Ok b -> exists cs, chunks = Some <$> cs /\ b = body ++ concat cs.
Proof.
  revert body; induction chunks as [|[chunk|] chunks IH]; intros body; simpl; [| |done].
  - intros [= <-]. exists []. by rewrite app_nil_r.
  - case_match; [done|]. intros (cs & -> & ->)%IH. exists (chunk :: cs). by rewrite <-app_assoc.
Qed.

Lemma send_ok request w : HttpLaws W -> reply_ok (send request w).1.
Proof.
  intros Hlaw. unfold send. destruct (http_execute request w) as [[[status chunks]|] w'] eqn:Hx; [|done].
  apply http_status_ok in Hx. simpl. unfold read_reply, reply_ok.
  destruct (read_body [] chunks) as [body|e] eqn:Hb; destruct (Z.eqb_spec status TOO_MANY_REQUESTS); try done.
  simpl. split; [done|]. split; [done|]. by apply (read_body_bound chunks [] body).
Qed.

Lemma CircleClient_laws c : HttpLaws W -> @CircleLaws _ _ W (CircleClient_api c).
Proof.
  intros Hlaw.
  assert (Hb : forall rq w, reply_ok (send_built rq Ok w).1).
  { intros [rq|e] w; [|exact I]. unfold send_built. pose proof (send_ok rq w Hlaw) as Hs.
    by destruct (send rq w) as [[r|e] w']. }
  split; intros; apply Hb.
Qed.
End client.
