(* ===== verification/Signer.v ===== *)
(** The two signers (signer.rs, signer/kms.rs): public keys, the pair in ascending address order,
    the configured keys, and the checks on what AWS KMS returns. *)
From S2P Require Import Prelude Text Foreign Wire Types Burn Config Verify.
From Stdlib Require Import Ascii.
Local Open Scope Z_scope.

(** [SignerError], by its context. *)
Inductive SignerError : Type := mkSignerError (context : string).

(** A compressed SEC1 public key. *)
Abbreviation SigningPublicKey := bytes.
(** A recoverable signature, as the text it is sent as. *)
Abbreviation Signature := string.
(** A signing provider: the ARN of its KMS key. *)
Abbreviation SignerHandle := string.

(** k256 and alloy: SEC1, SPKI and DER parsing, ECDSA verification and public-key recovery. *)
Class KeyLib := {
  sec1_valid : bytes -> bool;
  address_from_public_key : bytes -> Address;
  (** The compressed key of a DER-encoded SubjectPublicKeyInfo. *)
  public_key_from_der : bytes -> option SigningPublicKey;
  EcdsaSignature : Type;
  ecdsa_from_der : bytes -> option EcdsaSignature;
  (** [normalize_s]: the low-s form when the signature is not low-s already. *)
  ecdsa_normalize_s : EcdsaSignature -> option EcdsaSignature;
  ecdsa_verify_prehash : SigningPublicKey -> B256 -> EcdsaSignature -> bool;
  (** The recovery ID: its y parity and whether x was reduced. *)
  ecdsa_trial_recovery : SigningPublicKey -> B256 -> EcdsaSignature -> option (bool * bool);
  signature_text : EcdsaSignature -> bool -> Signature;
}.

(** The trait: both calls act on the outside world. *)
Class SignerApi (W : Type) := {
  signer_public_key : SignerHandle -> W -> result SignerError SigningPublicKey * W;
  signer_sign_digest : SignerHandle -> B256 -> W -> result SignerError Signature * W;
}.

Record SignerPair := {
  sp_signers : SignerHandle * SignerHandle;
  sp_public_keys : SigningPublicKey * SigningPublicKey;
}.

(** [hex::decode_to_slice] of [n] bytes, with or without ["0x"]. *)
Definition decode_hex (n : nat) (value : string) : option bytes :=
  let digits :=
    match str_list value with
    | "0"%char :: "x"%char :: l => l
    | l => l
    end in
  match hex_decode digits with
  | Some b => if Nat.eqb (length b) n then Some b else None
  | None => None
  end.

Section keys.
Context `{KeyLib}.

Definition from_compressed (b : bytes) : result SignerError SigningPublicKey :=
  ensure (sec1_valid b) (mkSignerError "public key is not a valid secp256k1 point") ;? Ok b.

Definition SigningPublicKey_from_hex (value : string) : result SignerError SigningPublicKey :=
  let? b := ok_or (decode_hex 33 value) (mkSignerError "public key is not 33 bytes of hex") in
  from_compressed b.

Definition key_address (k : SigningPublicKey) : result SignerError Address :=
  ensure (sec1_valid k) (mkSignerError "signer public key is not a valid secp256k1 point") ;?
  Ok (address_from_public_key k).

(** The pair once both public keys are read. *)
Definition order_pair (signers : SignerHandle * SignerHandle)
    (public_keys : SigningPublicKey * SigningPublicKey) : result SignerError SignerPair :=
  if bool_decide (public_keys.1 = public_keys.2)
  then Err (mkSignerError "the two signing providers hold the same key")
  else
    let? second := key_address public_keys.2 in
    let? first := key_address public_keys.1 in
    if bool_decide (bytes_lt second first)
    then Ok {| sp_signers := (signers.2, signers.1);
               sp_public_keys := (public_keys.2, public_keys.1) |}
    else Ok {| sp_signers := signers; sp_public_keys := public_keys |}.

Definition SignerPair_new {W} `{!SignerApi W} (signers : SignerHandle * SignerHandle) (w : W)
    : result SignerError SignerPair * W :=
  let read := map_err (fun _ : SignerError =>
    mkSignerError "could not read a signing provider's public key") in
  let '(first, w) := signer_public_key signers.1 w in
  match read first with
  | Err e => (Err e, w)
  | Ok first =>
      let '(second, w) := signer_public_key signers.2 w in
      match read second with
      | Err e => (Err e, w)
      | Ok second => (order_pair signers (first, second), w)
      end
  end.

Definition configured_key (value : string) : result string SigningPublicKey :=
  map_err (fun _ => "configured signing public key is invalid"%string)
    (SigningPublicKey_from_hex value).

Definition check_expected (pair : SignerPair) (expected_hex : list string) : result string unit :=
  match expected_hex with
  | [first; second] =>
      let? first := configured_key first in
      let? second := configured_key second in
      ensure (negb (bool_decide (first = second)))
        "the two configured signing public keys must differ" ;?
      ensure (forallb (fun key => bool_decide (key = first) || bool_decide (key = second))
                [(sp_public_keys pair).1; (sp_public_keys pair).2])
        "loaded signing public keys do not match configuration"
  | _ => Err "exactly two signing public keys must be configured"%string
  end.

(** ** AWS KMS *)

Inductive KeyState : Type := KeyEnabled | KeyStateOther.
Inductive KeySpec : Type := EccSecgP256K1 | KeySpecOther.
Inductive KeyUsage : Type := SignVerify | KeyUsageOther.
Inductive SigningAlgorithm : Type := EcdsaSha256 | SigningAlgorithmOther.
Inductive MessageType : Type := Digest | Raw.
#[local] Instance KeyState_eq_dec : EqDecision KeyState. Proof. solve_decision. Defined.
#[local] Instance KeySpec_eq_dec : EqDecision KeySpec. Proof. solve_decision. Defined.
#[local] Instance KeyUsage_eq_dec : EqDecision KeyUsage. Proof. solve_decision. Defined.
#[local] Instance SigningAlgorithm_eq_dec : EqDecision SigningAlgorithm. Proof. solve_decision. Defined.

Record KeyMetadata := {
  km_arn : option string;
  km_enabled : bool;
  km_key_state : option KeyState;
  km_key_spec : option KeySpec;
  km_key_usage : option KeyUsage;
}.
Record GetPublicKeyOutput := {
  gp_key_id : option string;
  gp_key_spec : option KeySpec;
  gp_key_usage : option KeyUsage;
  gp_signing_algorithms : list SigningAlgorithm;
  gp_public_key : option bytes;
}.
Record SignRequest := {
  sr_key_id : string;
  sr_message : bytes;
  sr_message_type : MessageType;
  sr_signing_algorithm : SigningAlgorithm;
}.
Record SignOutput := {
  so_key_id : option string;
  so_signing_algorithm : option SigningAlgorithm;
  so_signature : option bytes;
}.

Definition check_key_metadata (metadata : option KeyMetadata) (key_arn : string)
    : result SignerError unit :=
  let? m := ok_or metadata (mkSignerError "AWS KMS described the key without its metadata") in
  if negb (bool_decide (km_arn m = Some key_arn)) || negb (km_enabled m)
     || negb (bool_decide (km_key_state m = Some KeyEnabled))
     || negb (bool_decide (km_key_spec m = Some EccSecgP256K1))
     || negb (bool_decide (km_key_usage m = Some SignVerify))
  then Err (mkSignerError "AWS KMS key is not the enabled secp256k1 signing key with this ARN")
  else Ok tt.

Definition public_key_from_response (response : GetPublicKeyOutput) (key_arn : string)
    : result SignerError SigningPublicKey :=
  if negb (bool_decide (gp_key_id response = Some key_arn))
     || negb (bool_decide (gp_key_spec response = Some EccSecgP256K1))
     || negb (bool_decide (gp_key_usage response = Some SignVerify))
     || negb (bool_decide (EcdsaSha256 ∈ gp_signing_algorithms response))
  then Err (mkSignerError "AWS KMS public key is not the secp256k1 signing key with this ARN")
  else
    let? spki := ok_or (gp_public_key response) (mkSignerError "AWS KMS returned no public key") in
    ok_or (public_key_from_der spki) (mkSignerError "AWS KMS public key is not a secp256k1 key").

Definition sign_request (key_arn : string) (digest : B256) : SignRequest :=
  {| sr_key_id := key_arn; sr_message := digest; sr_message_type := Digest;
     sr_signing_algorithm := EcdsaSha256 |}.

Definition signature_from_der (digest : B256) (der : bytes) (key : SigningPublicKey)
    : result SignerError Signature :=
  let? signature := ok_or (ecdsa_from_der der) (mkSignerError "AWS KMS signature is not DER") in
  let signature := default signature (ecdsa_normalize_s signature) in
  ensure (ecdsa_verify_prehash key digest signature)
    (mkSignerError "AWS KMS signature does not verify with its key") ;?
  let? recovery :=
    ok_or (ecdsa_trial_recovery key digest signature)
      (mkSignerError "AWS KMS signature has no recovery ID") in
  let '(is_y_odd, is_x_reduced) := recovery in
  ensure (negb is_x_reduced) (mkSignerError "signature has an x-reduced recovery ID") ;?
  Ok (signature_text signature is_y_odd).

Definition signature_from_response (response : SignOutput) (key_arn : string) (digest : B256)
    (key : SigningPublicKey) : result SignerError Signature :=
  if negb (bool_decide (so_key_id response = Some key_arn))
     || negb (bool_decide (so_signing_algorithm response = Some EcdsaSha256))
  then Err (mkSignerError "AWS KMS signed with another key or algorithm")
  else
    let? der := ok_or (so_signature response) (mkSignerError "AWS KMS returned no signature") in
    signature_from_der digest der key.

(** The AWS client: its answer to each request, or nothing when the request fails. *)
Class KmsApi (W : Type) := {
  kms_describe_key : string -> W -> option (option KeyMetadata) * W;
  kms_get_public_key : string -> W -> option GetPublicKeyOutput * W;
  kms_sign : SignRequest -> W -> option SignOutput * W;
}.

Record KmsSigner := { ks_key_arn : string; ks_public_key : SigningPublicKey }.

Definition KmsSigner_connect {W} `{!KmsApi W} (key_arn : string) (w : W)
    : result SignerError KmsSigner * W :=
  let '(description, w) := kms_describe_key key_arn w in
  match (let? d := ok_or description (mkSignerError "AWS KMS DescribeKey request failed") in
         check_key_metadata d key_arn) with
  | Err e => (Err e, w)
  | Ok _ =>
      let '(response, w) := kms_get_public_key key_arn w in
      (let? r := ok_or response (mkSignerError "AWS KMS GetPublicKey request failed") in
       let? public_key := public_key_from_response r key_arn in
       Ok {| ks_key_arn := key_arn; ks_public_key := public_key |}, w)
  end.

Definition KmsSigner_sign_digest {W} `{!KmsApi W} (s : KmsSigner) (digest : B256) (w : W)
    : result SignerError Signature * W :=
  let '(response, w) := kms_sign (sign_request (ks_key_arn s) digest) w in
  (let? r := ok_or response (mkSignerError "AWS KMS Sign request failed") in
   signature_from_response r (ks_key_arn s) digest (ks_public_key s), w).
End keys.

(** ** Signing a verified withdrawal (verify.rs) *)

Record SignedWithdrawal `{MidenLib} := {
  sw_verified : VerifiedWithdrawal;
  sw_signatures : Signature * Signature;
}.

Section sign.
Context `{MidenLib, JsonLib}.

(** Both signatures over the checked digest, in the pair's order; no partial result. *)
Definition sign {W} `{!SignerApi W} (v : VerifiedWithdrawal) (pair : SignerPair) (w : W)
    : result SignerError SignedWithdrawal * W :=
  let '(first, w) := signer_sign_digest (sp_signers pair).1 (vw_digest v) w in
  match first with
  | Err e => (Err e, w)
  | Ok first =>
      let '(second, w) := signer_sign_digest (sp_signers pair).2 (vw_digest v) w in
      (map_ok (fun second => {| sw_verified := v; sw_signatures := (first, second) |}) second, w)
  end.

(** The submission of a signed withdrawal; [None] when the body cannot be encoded. *)
Definition signed_submission (s : SignedWithdrawal) (endpoint : Url) : option SavedSubmission :=
  let v := sw_verified s in
  let '(first, second) := sw_signatures s in
  body ← json_submission (vw_intent v) first second (note_id_to_hex (vw_note_id v));
  Some {| note_id := vw_note_id v; sub_endpoint := endpoint; body := body;
          transfer_spec_hash := vw_transfer_spec_hash v; status := Submitting;
          withdrawal_id := None; hold_reason := None; last_http_status := None;
          last_response := None; last_error := None |}.
End sign.
