(* ===== verification/Submission.v ===== *)
(** Reading Circle's replies about a saved request (submission.rs), and the errors of the submission
    phase. *)
From S2P Require Import Prelude Text Telemetry Foreign Wire Types Burn Config Verify Circle Signer.
Local Open Scope Z_scope.

Inductive SubmitError : Type :=
| InvalidRequest (e : CircleError)
| SubmitStore (e : StoreError)
| Encoding
| Prepare (e : CircleError)
| Verification (e : VerifyError)
| Signing (e : SignerError).

Definition is_fatal (e : SubmitError) : bool := match e with SubmitStore _ => true | _ => false end.

#[export] Instance SubmitError_Classified : Classified SubmitError := fun e =>
  match e with
  | InvalidRequest _ => Actionable "invalid_request"
  | SubmitStore _ => Actionable "store"
  | Encoding => Actionable "encoding"
  | Prepare (UnexpectedPrepareStatus status _ as error) =>
      if status =? BAD_REQUEST then Actionable "prepare_rejected" else failure error
  | Prepare error => failure error
  | Verification error => failure error
  | Signing _ => Actionable "signing"
  end.

(** The hold a failure before submission puts on its burn, with its HTTP evidence and Circle's
    message (attester.rs). *)
Definition burn_hold_of `{JsonLib} (error : SubmitError)
    : option BurnHoldReason * option (Z * bytes) * option string :=
  match error with
  | Prepare (UnexpectedPrepareStatus status body) =>
      if status =? BAD_REQUEST
      then (Some PrepareRejected, Some (status, body), circle_message body)
      else (None, None, None)
  | Verification TooSmallToForward_ => (Some TooSmallToForward, None, None)
  | _ => (None, None, None)
  end.

Section submission.
Context `{MidenLib, WebLib, JsonLib}.

Definition circle_error_text (e : CircleError) : string :=
  match e with
  | Unavailable => "Circle API is unavailable"
  | Transport => "Circle request failed"
  | UnexpectedStatus c => ("Circle returned HTTP " +:+ status_display c)%string
  | UnexpectedPrepareStatus c _ => ("Circle prepare returned HTTP " +:+ status_display c)%string
  | InvalidResponse => "Circle prepare response is malformed"
  | BodyTooLarge => "Circle response body exceeds 1048576 bytes"
  | InvalidUrl => "Circle request URL is invalid"
  | RateLimited _ _ => "Circle returned HTTP 429 Too Many Requests"
  end.

Definition matches_note (saved : SavedSubmission) (id : string) : bool :=
  eq_ignore_ascii_case id (note_id_to_hex (note_id saved)).

Definition hold (reason : HoldReason) (message : string) (saved : SavedSubmission)
    : SavedSubmission :=
  with_last_error (Some message) (with_hold_reason (Some reason) (with_status Held saved)).

Definition fails (message : string) (class : FailureClass) (saved : SavedSubmission)
    : option FailureClass * SavedSubmission :=
  (Some class, with_last_error (Some message) saved).

(** Takes Circle's withdrawal ID from a 409 reply; [None] is success. *)
Definition read_conflict (saved : SavedSubmission) : option FailureClass * SavedSubmission :=
  let conflict :=
    body ← last_response saved; response ← json_conflict body; cr_conflict response in
  let no_id := fails "conflict has no withdrawal ID yet" (Transient "conflict_without_id") saved in
  match conflict with
  | None => no_id
  | Some conflict =>
      if match wc_burn_note_id conflict with Some id => negb (matches_note saved id) | None => false end
      then fails "conflict names another burn note" (Integrity "wrong_burn") saved
      else
        match wc_withdrawal_id conflict with
        | Some id =>
            if is_blank id then no_id
            else if negb (is_well_formed_id id)
            then fails "conflict names a malformed withdrawal ID"
                   (Integrity "malformed_withdrawal_id") saved
            else (None, with_withdrawal_id (Some id) saved)
        | None => no_id
        end
  end.

(** The withdrawal a reply with the expected status carries. *)
Definition read_withdrawal (lookup : bool) (body : bytes)
    : result (string * FailureClass) (option WithdrawalResponse) :=
  if lookup then Ok (json_withdrawal body)
  else
    match json_withdrawals body with
    | Some [] => Ok None
    | Some [w] => Ok (Some w)
    | Some _ => Err ("response contains extra withdrawals"%string, Integrity "extra_withdrawals")
    | None => Ok None
    end.

(** The reply names the saved withdrawal. *)
Definition identifies (saved : SavedSubmission) (w : WithdrawalResponse) : bool :=
  is_well_formed_id (wr_withdrawal_id w)
  && matches_note saved (wr_burn_note_id w)
  && match wr_transfer_spec_hashes w with
     | [hash] => bool_decide (parse_b256 hash = Some (transfer_spec_hash saved))
     | _ => false
     end
  && match withdrawal_id saved with
     | Some id => bool_decide (id = wr_withdrawal_id w)
     | None => true
     end.

(** The status of a withdrawal that names the saved one. *)
Definition read_status (saved : SavedSubmission) (w : WithdrawalResponse)
    : option FailureClass * SavedSubmission :=
  let saved := with_withdrawal_id (Some (wr_withdrawal_id w)) saved in
  let named (s : string) := bool_decide (wr_status w = s) in
  if named "created" || named "verified" || named "confirmed" then (None, with_status Submitted saved)
  else if named "finalized" then (None, with_status Finalized saved)
  else if named "expired" then (None, with_status Expired saved)
  else if named "failed" then
    (Some (Actionable "withdrawal_failed"),
     with_status Failed (with_last_error (wr_failure_reason w) saved))
  else fails "Circle returned an unknown withdrawal status" (Transient "unknown_status") saved.

(** Records Circle's reply: the failure it amounts to, if any, and the request it leaves. *)
Definition read_response (saved : SavedSubmission) (response : RawResponse)
    : option FailureClass * SavedSubmission :=
  let lookup := bool_decide (is_Some (withdrawal_id saved)) in
  if negb (rr_status response =? (if lookup then OK else CREATED)) then
    if negb lookup && (rr_status response =? BAD_REQUEST) then
      (Some (Actionable "withdrawal_held"),
       hold HttpRejected "HTTP response needs operator review" saved)
    else
      fails ("Circle returned HTTP " +:+ status_display (rr_status response))%string
        (if rr_status response =? TOO_MANY_REQUESTS then Transient "rate_limited"
         else Transient "unexpected_status") saved
  else
    match read_withdrawal lookup (rr_body response) with
    | Err (message, class) => fails message class saved
    | Ok None =>
        fails "Circle returned an incomplete or malformed response" (Transient "invalid_response")
          saved
    | Ok (Some w) =>
        if negb (identifies saved w) then
          fails "response does not identify the saved withdrawal" (Integrity "wrong_withdrawal")
            saved
        else read_status saved w
    end.

(** What [send_saved_request] does with Circle's answer: the reply or failure, the request with
    the answer recorded, and whether Circle asked the attester to slow down. *)
Definition record_answer (saved : SavedSubmission) (answer : result CircleError RawResponse)
    : result FailureClass RawResponse * SavedSubmission * bool :=
  let keep (limited : bool) (response : RawResponse) :=
    (Ok response,
     with_reply (Some (rr_status response)) (Some (rr_body response)) None saved, limited) in
  match answer with
  | Ok response => keep false response
  | Err (RateLimited (Some body) _) =>
      keep true {| rr_status := TOO_MANY_REQUESTS; rr_body := body |}
  | Err error =>
      (Err (failure error), with_reply None None (Some (circle_error_text error)) saved,
       is_rate_limited error)
  end.

(** ** Diagnostics of a withdrawal that is not the saved one *)

Definition MAX_DIAGNOSTIC_BYTES : Z := 16384.
Definition unavailable (reason : string) : Value :=
  VObject [("unavailable"%string, VString reason)].
Definition string_or_null (s : option string) : Value :=
  match s with Some s => VString s | None => VNull end.
Definition too_long (b : bytes) : bool := MAX_DIAGNOSTIC_BYTES <? Z.of_nat (length b).

Definition reported_withdrawal (saved : SavedSubmission) : option WithdrawalResponse :=
  body ← last_response saved;
  if too_long body then None
  else if bool_decide (is_Some (withdrawal_id saved)) then json_withdrawal body
  else json_one_withdrawal body.

Definition reported_value (saved : SavedSubmission) (response : WithdrawalResponse) : Value :=
  let id_valid := is_well_formed_id (wr_withdrawal_id response) in
  let hashes :=
    match collect (fun hash => ok_or (parse_b256 hash) tt) (wr_transfer_spec_hashes response) with
    | Ok l => Some (to_hex <$> l)
    | Err _ => None
    end in
  let known := ["created"; "verified"; "confirmed"; "finalized"; "expired"; "failed"]%string in
  VObject
    [("withdrawalId"%string, VString (if id_valid then wr_withdrawal_id response else "malformed"));
     ("burnTxId"%string, string_or_null (to_hex <$> parse_b256 (wr_burn_note_id response)));
     ("status"%string,
      VString (if bool_decide (wr_status response ∈ known) then wr_status response else "unknown"));
     ("transferSpecHashes"%string,
      match hashes with Some l => VArray (VString <$> l) | None => VNull end);
     ("transferSpecHashesMalformed"%string, VBool (bool_decide (hashes = None)));
     ("transferSpecHashCount"%string,
      VNumber (list_str (to_decimal (Z.of_nat (length (wr_transfer_spec_hashes response))))));
     ("checks"%string, VObject
        [("withdrawalIdValid"%string, VBool id_valid);
         ("burnNoteMatches"%string, VBool (matches_note saved (wr_burn_note_id response)));
         ("singleTransferSpecHash"%string,
          VBool (Nat.eqb (length (wr_transfer_spec_hashes response)) 1));
         ("transferSpecHashMatches"%string,
          VBool (bool_decide ((head (wr_transfer_spec_hashes response) ≫= parse_b256)
                              = Some (transfer_spec_hash saved))));
         ("withdrawalIdMatches"%string,
          VBool (match withdrawal_id saved with
                 | Some id => bool_decide (id = wr_withdrawal_id response)
                 | None => true
                 end))])].

Definition identity_diagnostics (saved : SavedSubmission) : Value :=
  VObject
    [("expectedBurnTxId"%string, VString (note_id_to_hex (note_id saved)));
     ("expectedWithdrawalId"%string, string_or_null (withdrawal_id saved));
     ("expectedTransferSpecHash"%string, VString (to_hex (transfer_spec_hash saved)));
     ("savedUnsignedIntent"%string,
      if too_long (body saved) then unavailable "saved request exceeds diagnostic limit"
      else default (unavailable "saved unsigned request is malformed")
             (json_saved_intent (body saved)));
     ("reported"%string,
      match reported_withdrawal saved with
      | Some response => reported_value saved response
      | None => unavailable "response is malformed or exceeds diagnostic limit"
      end)].

(** The fingerprint a repeated mismatch is recognised by. *)
Definition mismatch_fingerprint (saved : SavedSubmission) : B256 :=
  keccak256 (str_bytes (json_text (identity_diagnostics saved))).

(** The mismatches already logged, after an outcome. *)
Definition update_mismatches (m : gmap NoteId B256) (saved : SavedSubmission)
    (failure : option FailureClass) : gmap NoteId B256 :=
  if bool_decide (failure = Some (Integrity "wrong_withdrawal"))
  then <[note_id saved := mismatch_fingerprint saved]> m
  else if match status saved with Finalized | Expired | Failed | Held => true | _ => false end
          || (bool_decide (failure = None) && bool_decide (status saved = Submitted))
          || bool_decide (failure = Some (Transient "unknown_status"))
  then delete (note_id saved) m
  else m.

(** ** What reading a reply keeps *)

(** The request itself: everything an answer never changes. *)
Definition same_saved_request (a b : SavedSubmission) : Prop :=
  note_id b = note_id a /\ sub_endpoint b = sub_endpoint a /\ body b = body a /\
  transfer_spec_hash b = transfer_spec_hash a.

#[export] Instance same_saved_request_refl : Reflexive same_saved_request.
Proof. by intros a. Qed.
#[export] Instance same_saved_request_trans : Transitive same_saved_request.
Proof. intros a b c (?&?&?&?) (?&?&?&?). split_and!; congruence. Qed.

(** A recorded answer leaves the decision as it was. *)
Definition answered (a b : SavedSubmission) : Prop :=
  same_saved_request a b /\ status b = status a /\ withdrawal_id b = withdrawal_id a.

(** An outcome is of the same request, keeps a known withdrawal ID, and holds only without one. *)
Definition decides (a b : SavedSubmission) : Prop :=
  same_saved_request a b /\ (forall w, withdrawal_id a = Some w -> withdrawal_id b = Some w) /\
  (status b = Held -> withdrawal_id b = None).

Lemma record_answer_answered saved answer reply recorded limited :
  record_answer saved answer = (reply, recorded, limited) ->
  answered saved recorded /\
  (forall r, reply = Ok r -> limited = (rr_status r =? TOO_MANY_REQUESTS) \/ limited = false).
Proof.
  unfold record_answer. destruct answer as [r|[| | | | | | |[b|] e]]; intros [= <- <- <-];
    (split; [done|]); intros r0 Hr; simplify_eq; [by right|by left].
Qed.

Lemma decides_answered a b c : answered a b -> decides b c -> decides a c.
Proof.
  intros (Hs & _ & Hw) (Hs' & Hw' & Hh). split; [by etrans|]. split; [|done].
  intros w Ha. apply Hw'. congruence.
Qed.

Lemma answered_decides a b : status a <> Held -> answered a b -> decides a b.
Proof. intros Hst (Hs & He & Hw). split; [done|]. split; congruence. Qed.

Lemma read_response_decides saved response f saved' :
  status saved <> Held -> read_response saved response = (f, saved') -> decides saved saved'.
Proof.
  intros Hst. unfold read_response.
  assert (Hfail : forall m c, decides saved (snd (fails m c saved)))
    by (intros m c; split; [done|by split]).
  destruct (negb (rr_status response =? _)).
  - destruct (negb (bool_decide _) && _) eqn:Hb; [|intros [= <- <-]; apply (Hfail _ (Transient ""))].
    intros [= <- <-]. split; [done|]. bool_prop. apply eq_None_not_Some in H2.
    split; simpl; [congruence|done].
  - destruct (read_withdrawal _ _) as [[w|]|[m c]]; [|intros [= <- <-]; apply (Hfail _ (Transient ""))..].
    destruct (negb (identifies saved w)) eqn:Hi; [intros [= <- <-]; apply (Hfail _ (Transient ""))|].
    assert (Hw : forall i, withdrawal_id saved = Some i -> Some (wr_withdrawal_id w) = Some i).
    { intros i Hi'. unfold identifies in Hi. rewrite Hi' in Hi. bool_prop. congruence. }
    unfold read_status. repeat case_match; intros [= <- <-]; (split; [done|]); split; simpl; naive_solver.
Qed.

Lemma read_conflict_Some saved f saved' :
  read_conflict saved = (Some f, saved') -> answered saved saved'.
Proof. unfold read_conflict. repeat case_match; by intros [= <- <-]. Qed.

Lemma read_conflict_None saved saved' :
  read_conflict saved = (None, saved') ->
  exists id, is_well_formed_id id = true /\ saved' = with_withdrawal_id (Some id) saved.
Proof.
  unfold read_conflict, fails. intros Hr. repeat case_match; try discriminate Hr.
  all: injection Hr as <-; bool_prop; eauto.
Qed.
End submission.
