(* ===== verification/Admin.v ===== *)
(** The admin socket (admin.rs, admin/client.rs): requests, their validation, the errors a client
    sees, and what the listener does with the attester's answer. *)
From S2P Require Import Prelude Text Foreign Types.
From Stdlib Require Import Ascii.
Local Open Scope Z_scope.

Definition REQUEST_LIMIT : Z := 16384.
Definition MAX_CONNECTIONS : Z := 16.

Inductive Request : Type :=
| RequestHolds (after : option string)
| RequestRelease (note_id : string) (expected_event_seq : Z) (circle_not_accepted : bool).

Record ErrorBody := { eb_code : string; eb_message : string }.
Inductive Reply (T : Type) : Type := ReplyOk (value : T) | ReplyError (e : ErrorBody).
Arguments ReplyOk {T} value.
Arguments ReplyError {T} e.

Record HoldsPage := {
  hp_faucet_account_id : string;
  hp_trusted_anchor_block : Z;
  hp_trusted_anchor_commitment : string;
  hp_holds : list HoldEntry;
  hp_next_after : option string;
}.
Record Released := { released_burns : Z; released_withdrawals : Z }.

(** A store operation the attester runs for the listener; its reply channel is the answer it
    returns. *)
Inductive Operation : Type :=
| OpList (after : option NoteId)
| OpRelease (selection : ReleaseSelection).

(** A queued command: its operation, and whether it is abandoned when the attester takes it (its
    deadline has passed or the listener dropped the reply receiver). *)
Record Command := { cmd_operation : Operation; cmd_abandoned : bool }.

Inductive AdminError : Type :=
| InvalidInput (message : string)
| RequestTooLarge
| Stopping
| QueueFull
| AdminUnavailable
| ReplyTimeout
| AdminRelease (e : ReleaseError).

(** serde_json's decoder of a request line. *)
Class AdminJson := { json_request : bytes -> option Request }.

(** What reading one line from the socket came to. *)
Inductive ReadLine : Type := ReadCancelled | ReadTimedOut | ReadFailed | ReadDone (line : bytes).
Definition read_request `{AdminJson} (read : ReadLine) : result AdminError Request :=
  match read with
  | ReadCancelled => Err Stopping
  | ReadTimedOut => Err (InvalidInput "request not received in time")
  | ReadFailed => Err (InvalidInput "invalid request")
  | ReadDone line =>
      if REQUEST_LIMIT <? Z.of_nat (length line) then Err RequestTooLarge
      else ok_or (json_request line) (InvalidInput "invalid request")
  end.

(** What became of a command: its [try_send], and what its reply channel then gave before the
    deadline. *)
Inductive Sent : Type := SentOk | SentFull | SentClosed.
Inductive Received (T : Type) : Type :=
| ReceivedTimeout
| ReceivedClosed
| ReceivedAnswer (r : result ReleaseError T).
Arguments ReceivedTimeout {T}.
Arguments ReceivedClosed {T}.
Arguments ReceivedAnswer {T} r.

Definition dispatch {T} (cancelled : bool) (sent : Sent) (received : Received T)
    : result AdminError T :=
  if cancelled then Err Stopping
  else
    match sent with
    | SentFull => Err QueueFull
    | SentClosed => Err AdminUnavailable
    | SentOk =>
        match received with
        | ReceivedTimeout => Err ReplyTimeout
        | ReceivedClosed => Err AdminUnavailable
        | ReceivedAnswer r => map_err AdminRelease r
        end
    end.

Section admin.
Context `{MidenLib}.

Definition parse_note_id (value : string) : result string NoteId :=
  let? id := ok_or (note_id_try_from_hex value) "invalid note ID"%string in
  ensure (bool_decide (note_id_to_string id = value)) "note ID must use canonical lowercase hex" ;?
  Ok id.

Definition admin_error_body (e : AdminError) : ErrorBody :=
  let body code message := {| eb_code := code; eb_message := message |} in
  match e with
  | InvalidInput message => body "invalid_input"%string message
  | RequestTooLarge => body "request_too_large"%string "request exceeds 16 KiB"%string
  | Stopping => body "stopping"%string "attester is stopping"%string
  | QueueFull => body "queue_full"%string "command was not admitted"%string
  | AdminUnavailable => body "unavailable"%string "attester is unavailable"%string
  | ReplyTimeout => body "reply_timeout"%string
      "outcome may be unknown; list holds again before selecting another release"%string
  | AdminRelease ReleaseInvalid => body "invalid_input"%string "invalid hold selection"%string
  | AdminRelease (NotHeld note_id) => body "hold_not_found"%string
      ("no hold for note " +:+ note_id_to_string note_id +:+ "; list holds to find it")%string
  | AdminRelease ReleaseConflict => body "hold_changed"%string
      "list holds again before selecting a release"%string
  | AdminRelease CircleCheck => body "circle_check_required"%string
      "check Circle and assert non-acceptance for the held withdrawal"%string
  | AdminRelease (ReleaseStore _) => body "store_failed"%string "attester store failed"%string
  end.

(** The operation a request queues, or the error it is answered with at once. *)
Definition handle_request (request : Request) : result AdminError Operation :=
  match request with
  | RequestHolds after =>
      match transpose (parse_note_id <$> after) with
      | Ok after => Ok (OpList after)
      | Err _ => Err (InvalidInput "invalid page cursor")
      end
  | RequestRelease note_id expected_event_seq circle_not_accepted =>
      match parse_note_id note_id with
      | Ok note_id =>
          if 0 <? expected_event_seq
          then Ok (OpRelease {| sel_note_id := note_id;
                                sel_expected_event_seq := expected_event_seq;
                                sel_circle_not_accepted := circle_not_accepted |})
          else Err (InvalidInput "invalid hold selection")
      | Err _ => Err (InvalidInput "invalid hold selection")
      end
  end.

Definition encode {T} (r : result AdminError T) : Reply T :=
  match r with Ok value => ReplyOk value | Err e => ReplyError (admin_error_body e) end.

(** ** The command-line client *)

Definition parse_cursor (value : string) : result string string :=
  parse_note_id value ;? Ok value.

(** [str::rsplit_once(':')]: the text before and after the last colon. *)
Fixpoint split_once (l : list ascii) : option (list ascii * list ascii) :=
  match l with
  | [] => None
  | a :: l =>
      if bool_decide (a = ":"%char) then Some ([], l)
      else match split_once l with Some (x, y) => Some (a :: x, y) | None => None end
  end.
Definition rsplit_once (s : string) : option (string * string) :=
  match split_once (rev (str_list s)) with
  | Some (after, before) => Some (list_str (rev before), list_str (rev after))
  | None => None
  end.

(** [str::parse::<i64>]: an optional sign and decimal digits, in range. *)
Definition parse_i64 (s : string) : option Z :=
  let unsigned (l : list ascii) :=
    if bool_decide (l = []) || negb (forallb is_ascii_digit l) then None else Some (digits_value l) in
  let ranged (v : Z) := if (- (i64_max + 1) <=? v) && (v <=? i64_max) then Some v else None in
  match str_list s with
  | "-"%char :: l => unsigned l ≫= (fun v => ranged (- v))
  | "+"%char :: l => unsigned l ≫= ranged
  | l => unsigned l ≫= ranged
  end.

Definition parse_selection (value : string) : result string (string * Z) :=
  let? parts := ok_or (rsplit_once value) "hold must be NOTE_ID:EVENT_SEQ"%string in
  let? id := parse_cursor parts.1 in
  let? revision := ok_or (parse_i64 parts.2) "event sequence must be a positive integer"%string in
  ensure (0 <? revision) "event sequence must be positive" ;?
  Ok (id, revision).
End admin.
