(* ===== verification/Attester.v ===== *)
(** The attester (attester.rs, submission.rs): startup, discovery, the withdrawal cycle and the run
    loop, as state passing over the store, the configuration and the outside world. *)
From S2P Require Import Prelude Text Telemetry Foreign Wire Types Burn Store Config Verify Circle.
From S2P Require Import Signer Submission Admin.
Local Open Scope Z_scope.

(** ** The outside world *)

Record ScanLimits := { latest_committed_block : BlockNumber; proof_lag_block : BlockNumber }.
Inductive ChainError : Type := ChainUnavailable | Rpc.

(** The Miden node (chain.rs). *)
Class ChainReader `{MidenLib} (W : Type) := {
  chain_check_connection : W -> result ChainError unit * W;
  chain_account_exists : AccountId -> W -> result ChainError bool * W;
  chain_scan_limits : W -> result ChainError ScanLimits * W;
  chain_block_by_number : BlockNumber -> W -> result ChainError SignedBlock * W;
}.
(** [SystemTime::now] in nanoseconds since the epoch, and SQLite's [unixepoch()] in seconds. *)
Class Clock (W : Type) := { system_now : W -> Z * W; unixepoch : W -> Z * W }.

Inductive TryRecv : Type := RecvCommand (c : Command) | RecvEmpty | RecvDisconnected.
(** The admin inbox and its shutdown token; the commands that arrive while the attester pauses, in
    order, with [None] when the listener stops; and the service's own shutdown token. *)
Class Inbox (W : Type) := {
  admin_cancelled : W -> bool * W;
  inbox_try_recv : W -> TryRecv * W;
  inbox_while_paused : Z -> W -> list (option Command) * W;
  shutdown_cancelled : W -> bool * W;
}.

(** One call to Circle, and the answer to an admin command. *)
Inductive CircleCall : Type :=
| CallPrepare (id : NoteId)
| CallPost (saved : SavedSubmission)
| CallGet (saved : SavedSubmission) (id : string).
Inductive AdminAnswer : Type :=
| AnswerList (r : result ReleaseError HoldsPage)
| AnswerRelease (r : result ReleaseError Released).

(** What the attester did, with the store as it was on disk when it did it. A call to Circle also
    keeps whether Circle answered 429. *)
Inductive Action `{MidenLib} : Type :=
| Called (call : CircleCall) (on_disk : Store) (limited : bool)
| Saved (block : SignedBlock) (on_disk : Store)
| Answered (operation : Operation) (answer : AdminAnswer).

Inductive DiscoverError : Type := Chain (e : ChainError) | ChainDiverged | DiscoverStore (e : StoreError).
#[export] Instance DiscoverError_Classified : Classified DiscoverError := fun e =>
  match e with
  | Chain _ => Transient "chain_read"
  | ChainDiverged => Integrity "chain_diverged"
  | DiscoverStore _ => Actionable "store"
  end.

(** What stops a cycle, by the context it is given. *)
Inductive CycleError : Type :=
| DiscoveryStopped (e : DiscoverError)
| SnapshotStopped (e : StoreError)
| RecoveryStopped (e : SubmitError)
| SubmissionStopped (e : SubmitError)
| PollingStopped (e : SubmitError).

Record CycleReport := {
  report_discover : result DiscoverError unit;
  report_submit : result SubmitError unit;
}.

(** [MAX_RATE_LIMITED_PAUSE] in nanoseconds: 60 s. *)
Definition MAX_RATE_LIMITED_PAUSE : Z := 60 * NANOS.
Definition ADMIN_COMMANDS_PER_CHECKPOINT : nat := 8.

Record Attester `{MidenLib} (W : Type) := {
  at_config : Config;
  at_store : Store;
  at_signers : SignerPair;
  at_node_tip : option BlockNumber;
  at_admin : bool;
  at_logged_mismatches : gmap NoteId B256;
  at_rate_limited : bool;
  at_world : W;
  at_trace : list Action;
}.
Arguments at_config {_ W} _.
Arguments at_store {_ W} _.
Arguments at_signers {_ W} _.
Arguments at_node_tip {_ W} _.
Arguments at_admin {_ W} _.
Arguments at_logged_mismatches {_ W} _.
Arguments at_rate_limited {_ W} _.
Arguments at_world {_ W} _.
Arguments at_trace {_ W} _.

(** An attester method: it may fail, and what it changed before that stays changed. *)
Definition run `{MidenLib} (W E A : Type) : Type := Attester W -> result E A * Attester W.

Section monad.
Context `{MidenLib} {W : Type}.
Definition done {E A} (a : A) : run W E A := fun s => (Ok a, s).
Definition throw {E A} (e : E) : run W E A := fun s => (Err e, s).
Definition and_then {E A B} (m : run W E A) (k : A -> run W E B) : run W E B := fun s =>
  match m s with
  | (Ok a, s) => k a s
  | (Err e, s) => (Err e, s)
  end.
(** The value of a fallible step, for code that goes on after an error. *)
Definition attempt {E E' A} (m : run W E A) : run W E' (result E A) := fun s =>
  let '(r, s) := m s in (Ok r, s).
Definition convert {E F A} (f : E -> F) (m : run W E A) : run W F A := fun s =>
  let '(r, s) := m s in (map_err f r, s).
Definition lift {E A} (r : result E A) : run W E A := fun s => (r, s).
Definition gets {E A} (f : Attester W -> A) : run W E A := fun s => (Ok (f s), s).

Definition put_store (st : Store) (s : Attester W) : Attester W :=
  {| at_config := at_config s; at_store := st; at_signers := at_signers s;
     at_node_tip := at_node_tip s; at_admin := at_admin s;
     at_logged_mismatches := at_logged_mismatches s; at_rate_limited := at_rate_limited s;
     at_world := at_world s; at_trace := at_trace s |}.
Definition put_world (w : W) (s : Attester W) : Attester W :=
  {| at_config := at_config s; at_store := at_store s; at_signers := at_signers s;
     at_node_tip := at_node_tip s; at_admin := at_admin s;
     at_logged_mismatches := at_logged_mismatches s; at_rate_limited := at_rate_limited s;
     at_world := w; at_trace := at_trace s |}.
Definition put_node_tip (tip : option BlockNumber) (s : Attester W) : Attester W :=
  {| at_config := at_config s; at_store := at_store s; at_signers := at_signers s;
     at_node_tip := tip; at_admin := at_admin s;
     at_logged_mismatches := at_logged_mismatches s; at_rate_limited := at_rate_limited s;
     at_world := at_world s; at_trace := at_trace s |}.
Definition put_admin (on : bool) (s : Attester W) : Attester W :=
  {| at_config := at_config s; at_store := at_store s; at_signers := at_signers s;
     at_node_tip := at_node_tip s; at_admin := on;
     at_logged_mismatches := at_logged_mismatches s; at_rate_limited := at_rate_limited s;
     at_world := at_world s; at_trace := at_trace s |}.
Definition put_mismatches (m : gmap NoteId B256) (s : Attester W) : Attester W :=
  {| at_config := at_config s; at_store := at_store s; at_signers := at_signers s;
     at_node_tip := at_node_tip s; at_admin := at_admin s; at_logged_mismatches := m;
     at_rate_limited := at_rate_limited s; at_world := at_world s; at_trace := at_trace s |}.
Definition put_rate_limited (b : bool) (s : Attester W) : Attester W :=
  {| at_config := at_config s; at_store := at_store s; at_signers := at_signers s;
     at_node_tip := at_node_tip s; at_admin := at_admin s;
     at_logged_mismatches := at_logged_mismatches s; at_rate_limited := b;
     at_world := at_world s; at_trace := at_trace s |}.
Definition push_action (a : Action) (s : Attester W) : Attester W :=
  {| at_config := at_config s; at_store := at_store s; at_signers := at_signers s;
     at_node_tip := at_node_tip s; at_admin := at_admin s;
     at_logged_mismatches := at_logged_mismatches s; at_rate_limited := at_rate_limited s;
     at_world := at_world s; at_trace := a :: at_trace s |}.

Definition modify {E} (f : Attester W -> Attester W) : run W E unit := fun s => (Ok tt, f s).
Definition trace {E} (a : Action) : run W E unit := modify (push_action a).
(** Asks the outside world. *)
Definition world {E A} (f : W -> A * W) : run W E A := fun s =>
  let '(a, w) := f (at_world s) in (Ok a, put_world w s).
Definition read_store {E A} (f : Store -> result E A) : run W E A := fun s => (f (at_store s), s).
(** Runs one database transaction. *)
Definition transact {E A} (m : tx Store E A) : run W E A := fun s =>
  match m (at_store s) with
  | Ok (a, st) => (Ok a, put_store st s)
  | Err e => (Err e, s)
  end.
End monad.
Notation "'let*' x ':=' e 'in' k" := (and_then e (fun x => k))
  (at level 10, x pattern, e at level 200, k at level 200) : attester_scope.
Notation "e ';*' k" := (and_then e (fun _ => k))
  (at level 100, k at level 200, right associativity) : attester_scope.

Section attester.
Context `{MidenLib, WebLib, JsonLib, EthLib, KeyLib} {W : Type}.
Context `{!CircleApi W, !ChainReader W, !SignerApi W, !Clock W, !Inbox W}.

(** A transaction that records an event at SQLite's clock. *)
Definition transact_now {E A} (m : Z -> tx Store E A) : run W E A :=
  let* now := world unixepoch in transact (m now).

(** ** Admin commands *)

(** One hold past the page means another page follows; the last hold shown is its cursor. *)
Definition holds_page_reply (config : Config) (holds : list HoldEntry) : HoldsPage :=
  let more := Nat.ltb HOLDS_PAGE (length holds) in
  let shown := if more then take HOLDS_PAGE holds else holds in
  {| hp_faucet_account_id := account_id_to_hex (cfg_faucet_account_id config);
     hp_trusted_anchor_block := cfg_trusted_anchor_block config;
     hp_trusted_anchor_commitment := word_to_hex (cfg_trusted_anchor_commitment config);
     hp_holds := shown;
     hp_next_after := if more then he_note_id <$> last shown else None |}.

Definition handle_admin {E} (command : Command) : run W E unit :=
  let* cancelled := world admin_cancelled in
  if cancelled || cmd_abandoned command then done tt
  else
    match cmd_operation command with
    | OpList after =>
        let* config := gets at_config in
        let* holds := attempt (read_store (fun st => holds_page st after)) in
        trace (Answered (cmd_operation command)
          (AnswerList (map_err ReleaseStore (map_ok (holds_page_reply config) holds))))
    | OpRelease selection =>
        let* released := attempt (transact_now (fun now => release_checked now selection)) in
        trace (Answered (cmd_operation command)
          (AnswerRelease (map_ok (fun counts => {| released_burns := counts.1;
                                                   released_withdrawals := counts.2 |}) released)))
    end.

Fixpoint admin_commands {E} (n : nat) : run W E unit :=
  match n with
  | O => done tt
  | S n =>
      let* cancelled := world admin_cancelled in
      if cancelled : bool then done tt
      else
        let* received := world inbox_try_recv in
        match received with
        | RecvEmpty => done tt
        | RecvDisconnected => modify (put_admin false)
        | RecvCommand command => handle_admin command ;* admin_commands n
        end
  end.

(** Handles the commands already queued, up to [ADMIN_COMMANDS_PER_CHECKPOINT]. *)
Definition admin_checkpoint {E} : run W E unit :=
  let* attached := gets at_admin in
  let* cancelled := world admin_cancelled in
  if negb attached || cancelled then done tt
  else admin_commands ADMIN_COMMANDS_PER_CHECKPOINT.

(** ** Circle's withdrawal limit *)

Definition retry_deadline (limit : WithdrawalLimit) (now : Z) : result StoreError Z :=
  map_err StoreContext (retry_at limit now).

(** A limit waiter blocks later burns until its wait ends. *)
Definition limit_allows (id : NoteId) : run W StoreError bool :=
  let* wait := read_store first_limit_wait in
  match wait with
  | None => done true
  | Some wait =>
      if negb (bool_decide (lw_note_id wait = id)) then
        let* block := read_store (fun st => burn_creation_block st id) in
        done (bool_decide (bytes_lt (block :: id) (lw_creation_block wait :: lw_note_id wait)))
      else
        let* now := world system_now in
        (if 0 <=? now then done tt
         else throw (StoreContext "system clock is before the Unix epoch")) ;*
        let* retry_at := lift (ok_or (try_from_max u64_max (lw_retry_at wait)) INVALID) in
        if as_secs now <? retry_at then done false
        else
          let* config := gets at_config in
          let* policy := lift (ok_or (cfg_withdrawal_limit config)
                                 (StoreContext "withdrawal limit settings are missing")) in
          let* next := lift (retry_deadline policy now) in
          transact (advance_limit_retry id next) ;*
          done true
  end.

(** Makes the burn wait when Circle's reply is a withdrawal-limit rejection, and returns whether
    it was one. *)
Definition wait_for_withdrawal_limit (id : NoteId) (status : Z) (body : bytes)
    (submission : option (SavedSubmission * SubmissionAttempt)) : run W SubmitError bool :=
  let* config := gets at_config in
  match cfg_withdrawal_limit config with
  | None => done false
  | Some policy =>
      if negb (is_withdrawal_limit status body (wl_message_prefix policy)) then done false
      else
        let* now := world system_now in
        let* retry_at := convert SubmitStore (lift (retry_deadline policy now)) in
        convert SubmitStore
          (transact_now (fun now => record_limit_rejection now id retry_at body submission)) ;*
        done true
  end.

(** ** Saved submissions (submission.rs) *)

(** Sends the request, or looks it up once Circle's ID is known. The result is Circle's reply or
    the failure, with the request that records it. *)
Definition send_saved_request {E} (saved : SavedSubmission)
    : run W E (result FailureClass RawResponse * SavedSubmission) :=
  let* on_disk := gets at_store in
  let call :=
    match withdrawal_id saved with
    | Some id => CallGet saved id
    | None => CallPost saved
    end in
  let* answer := world (match withdrawal_id saved with
                        | Some id => circle_get_withdrawal saved id
                        | None => circle_post_submission saved
                        end) in
  let '(reply, recorded, limited) := record_answer saved answer in
  trace (Called call on_disk limited) ;*
  modify (fun s => put_rate_limited (at_rate_limited s || limited) s) ;*
  done (reply, recorded).

(** Saves the request's latest outcome. *)
Definition save_outcome (saved : SavedSubmission) (failure : option FailureClass)
    : run W SubmitError unit :=
  modify (fun s => put_mismatches (update_mismatches (at_logged_mismatches s) saved failure) s) ;*
  convert SubmitStore (transact_now (fun now => update_submission_outcome now saved)).

(** The end of an attempt: reads the reply, if there is one, and saves the outcome. *)
Definition finish_submission (saved : SavedSubmission) (response : result FailureClass RawResponse)
    : run W SubmitError unit :=
  match response with
  | Ok reply => let '(failure, saved) := read_response saved reply in save_outcome saved failure
  | Err failure => save_outcome saved (Some failure)
  end.

(** After a 409: saves Circle's ID before checking it with GET. *)
Definition resolve_conflict (saved : SavedSubmission) : run W SubmitError unit :=
  match read_conflict saved with
  | (Some failure, saved) => save_outcome saved (Some failure)
  | (None, saved) =>
      save_outcome saved None ;*
      let* sent := send_saved_request saved in
      let '(response, saved) := sent in
      finish_submission saved response
  end.

Definition advance_submission (saved : SavedSubmission) (attempt_ : SubmissionAttempt)
    : run W SubmitError unit :=
  let* limited := gets at_rate_limited in
  if limited : bool then done tt
  else
    let* sent := send_saved_request saved in
    let '(response, saved) := sent in
    let fresh := bool_decide (withdrawal_id saved = None) in
    let* waits :=
      match response with
      | Ok reply =>
          if fresh
          then wait_for_withdrawal_limit (note_id saved) (rr_status reply) (rr_body reply)
                 (Some (saved, attempt_))
          else done false
      | Err _ => done false
      end in
    if waits : bool then done tt
    else if fresh && match response with
                     | Ok reply => rr_status reply =? CONFLICT_STATUS
                     | Err _ => false
                     end then
      resolve_conflict saved
    else finish_submission saved response.

Definition submit_signed_withdrawal (withdrawal : SignedWithdrawal) : run W SubmitError unit :=
  let* config := gets at_config in
  let* endpoint :=
    lift (map_err InvalidRequest (submission_endpoint (cfg_circle_api_base_url config))) in
  let* saved := lift (ok_or (signed_submission withdrawal endpoint) Encoding) in
  convert SubmitStore (read_store (fun st => submission st (note_id saved))) ;*
  convert SubmitStore (transact_now (fun now => save_submission now saved)) ;*
  advance_submission saved First.

Fixpoint advance_submissions (submissions : list SavedSubmission) : run W SubmitError unit :=
  match submissions with
  | [] => done tt
  | saved :: submissions =>
      admin_checkpoint ;*
      let* limited := gets at_rate_limited in
      if limited : bool then done tt
      else
        let* allowed :=
          if bool_decide (withdrawal_id saved = None)
          then convert SubmitStore (limit_allows (note_id saved))
          else done true in
        if allowed : bool
        then advance_submission saved Recovery ;* advance_submissions submissions
        else advance_submissions submissions
  end.

(** ** Fresh withdrawals *)

(** Asks Circle to prepare the withdrawal; a 429 is noted for the cycle. *)
Definition prepare_withdrawal (burn : DiscoveredBurn) (forwarding_fee : Z)
    : run W SubmitError UnverifiedPrepareResponse :=
  let* on_disk := gets at_store in
  let* prepared := world (circle_prepare_withdrawal burn forwarding_fee) in
  let limited := match prepared with Err e => is_rate_limited e | Ok _ => false end in
  trace (Called (CallPrepare (db_note_id burn)) on_disk limited) ;*
  modify (fun s => put_rate_limited (at_rate_limited s || limited) s) ;*
  lift (map_err Prepare prepared).

Definition withdraw (burn : DiscoveredBurn) : run W SubmitError unit :=
  let* config := gets at_config in
  let* forwarding_fee :=
    lift (ok_or (forwarding_max_fee config (dest_domain (db_items burn)))
            (Verification UnsupportedDestination)) in
  let* prepared := prepare_withdrawal burn forwarding_fee in
  let* verified := lift (map_err Verification (verify prepared burn config)) in
  let* signers := gets at_signers in
  let* signed := world (sign verified signers) in
  let* signed := lift (map_err Signing signed) in
  submit_signed_withdrawal signed.

(** A failure that is not fatal holds the burn when it calls for a hold. *)
Definition hold_failed (burn : DiscoveredBurn) (error : SubmitError) : run W SubmitError unit :=
  let '(hold, response, _) := burn_hold_of error in
  match hold with
  | Some reason =>
      convert SubmitStore
        (transact_now (fun now => hold_burn now (db_note_id burn) reason response))
  | None => done tt
  end ;*
  throw error.

Definition attempt_withdrawal (burn : DiscoveredBurn) : run W SubmitError unit :=
  let* outcome := attempt (withdraw burn) in
  match outcome with
  | Ok _ => done tt
  | Err error =>
      if is_fatal error then throw error
      else
        let* waits :=
          match error with
          | Prepare (UnexpectedPrepareStatus status body) =>
              wait_for_withdrawal_limit (db_note_id burn) status body None
          | _ => done false
          end in
        if waits : bool then done tt else hold_failed burn error
  end.

(** Withdraws the burns in order; [first_error] is the first failure that is not fatal. *)
Fixpoint submit_burns (burns : list DiscoveredBurn) (first_error : option SubmitError)
    : run W SubmitError (result SubmitError unit) :=
  let finished := done (match first_error with None => Ok tt | Some e => Err e end) in
  match burns with
  | [] => finished
  | burn :: burns =>
      admin_checkpoint ;*
      let* limited := gets at_rate_limited in
      if limited : bool then finished
      else
        let* allowed := convert SubmitStore (limit_allows (db_note_id burn)) in
        if negb allowed then finished
        else
          let* outcome := attempt (attempt_withdrawal burn) in
          match outcome with
          | Ok _ => submit_burns burns first_error
          | Err error =>
              if is_fatal error then throw error
              else submit_burns burns
                     (Some (match first_error with None => error | Some e => e end))
          end
  end.
Definition submit_withdrawals (burns : list DiscoveredBurn)
    : run W SubmitError (result SubmitError unit) := submit_burns burns None.

(** ** Discovery *)

(** The block's burn notes that are not recorded yet. *)
Fixpoint new_burn_notes (notes : list (OutputNote_ PublicOutputNote)) (block_num : BlockNumber)
    (faucet : AccountId) (store : Store) : list BurnCandidate :=
  match notes with
  | [] => []
  | note :: notes =>
      let rest := new_burn_notes notes block_num faucet store in
      match note with
      | NotPublic => rest
      | Public note =>
          match BurnCandidate_new note block_num faucet with
          | Err _ => rest
          | Ok candidate => if note_known store (bc_note_id candidate) then rest else candidate :: rest
          end
      end
  end.

(** The recorded candidates that the input notes of the faucet's transactions consume. *)
Fixpoint consumed_burns (nullifiers : list Nullifier) (block_num : BlockNumber) (store : Store)
    : result StoreError (list DiscoveredBurn) :=
  match nullifiers with
  | [] => Ok []
  | nullifier :: nullifiers =>
      let? candidate := candidate_by_nullifier store nullifier in
      let? rest := consumed_burns nullifiers block_num store in
      Ok (match candidate with
          | None => rest
          | Some candidate => into_discovered candidate block_num :: rest
          end)
  end.

Definition faucet_nullifiers (block : SignedBlock) (faucet : AccountId) : list Nullifier :=
  concat (tx_input_nullifiers
    <$> List.filter (fun t => bool_decide (tx_account_id t = faucet)) (block_transactions block)).

Definition find_burns_in_block (block : SignedBlock) (faucet : AccountId) (store : Store)
    : result StoreError (list BurnCandidate * list DiscoveredBurn) :=
  let block_num := header_block_num (block_header block) in
  let notes := snd <$> concat (block_output_note_batches block) in
  let candidates := new_burn_notes notes block_num faucet store in
  let? burns := consumed_burns (faucet_nullifiers block faucet) block_num store in
  Ok (candidates, burns).

(** Records one authenticated block in a single store transaction. *)
Definition save_block (block : SignedBlock) : run W DiscoverError unit :=
  let* config := gets at_config in
  let* on_disk := gets at_store in
  let* found := convert DiscoverStore
    (read_store (find_burns_in_block block (cfg_faucet_account_id config))) in
  convert DiscoverStore
    (transact (save_scan_progress (fst found) (snd found) (block_header block))) ;*
  trace (Saved block on_disk).

Definition fetch_and_verify_block (block_num : BlockNumber) (last_verified_header : BlockHeader)
    : run W DiscoverError SignedBlock :=
  let* fetched := world (chain_block_by_number block_num) in
  let* block := lift (map_err Chain fetched) in
  if negb (header_block_num (block_header block) =? block_num)
     || negb (block_validate block (Some last_verified_header))
  then throw ChainDiverged
  else done block.

(** Fails with a divergence when the node's block at the checkpoint's height is another block. *)
Definition check_checkpoint (checkpoint : BlockHeader) : run W DiscoverError unit :=
  let* fetched := world (chain_block_by_number (header_block_num checkpoint)) in
  let* block := lift (map_err Chain fetched) in
  if negb (bool_decide (header_commitment (block_header block) = header_commitment checkpoint))
  then throw ChainDiverged
  else done tt.

Definition at_checkpoint (st : Store) : result StoreError BlockHeader :=
  let? c := checkpoint st in ok_or c INVALID.

(** [block_range]: [start..=end]. *)
Definition block_range (start end_ : BlockNumber) : list BlockNumber :=
  seqZ start (end_ - start + 1).

Fixpoint scan_blocks (blocks : list BlockNumber) (last_verified_header : BlockHeader)
    : run W DiscoverError unit :=
  match blocks with
  | [] => done tt
  | block_num :: blocks =>
      admin_checkpoint ;*
      let* block := fetch_and_verify_block block_num last_verified_header in
      save_block block ;*
      scan_blocks blocks (block_header block)
  end.

Definition discover_burns : run W DiscoverError BlockNumber :=
  modify (put_node_tip None) ;*
  let* last_verified_header := convert DiscoverStore (read_store at_checkpoint) in
  let* limits := world chain_scan_limits in
  let* scan_limits := lift (map_err Chain limits) in
  let tip := latest_committed_block scan_limits in
  modify (put_node_tip (Some tip)) ;*
  let* config := gets at_config in
  let last := header_block_num last_verified_header in
  if tip <? last then
    if last =? cfg_trusted_anchor_block config
    then done (proof_lag_block scan_limits)
    else throw ChainDiverged
  else if tip =? last then
    check_checkpoint last_verified_header ;* done (proof_lag_block scan_limits)
  else
    scan_blocks (block_range (last + 1) tip) last_verified_header ;*
    done (proof_lag_block scan_limits).

(** ** The cycle *)

(** Successful discovery returns the proof-lag height; a chain read failure lets recovery and
    polling go on without new burns; any other failure stops the cycle. *)
Definition discovery_outcome (discover : result DiscoverError BlockNumber)
    : result (Failure CycleError) (option BlockNumber * result DiscoverError unit) :=
  match discover with
  | Ok proof_lag_block => Ok (Some proof_lag_block, Ok tt)
  | Err (Chain _ as error) => Ok (None, Err error)
  | Err error => Err (mkFailure (failure error) (DiscoveryStopped error))
  end.

Definition ready_burns (proof_lag_block : BlockNumber) (config : Config) (st : Store)
    : result StoreError (list DiscoveredBurn) :=
  burns_ready_for_withdrawal st proof_lag_block (cfg_minimum_finality_depth_blocks config).

Definition snapshot_submissions (st : Store)
    : result StoreError (list SavedSubmission * list SavedSubmission) :=
  let? to_recover := submissions_to_recover st in
  let? to_poll := submissions_to_poll st in
  Ok (to_recover, to_poll).

Definition stopping {E A} (f : E -> CycleError) (m : run W E A) : run W (Failure CycleError) A :=
  convert (fun e => mkFailure (Actionable "store") (f e)) m.

Definition cycle : run W (Failure CycleError) CycleReport :=
  let* discovered := attempt discover_burns in
  let* outcome := lift (discovery_outcome discovered) in
  let '(proof_lag_block, discover) := outcome in
  let* config := gets at_config in
  let* snapshot := stopping SnapshotStopped (read_store snapshot_submissions) in
  let '(to_recover, to_poll) := snapshot in
  let* fresh_burns :=
    match proof_lag_block with
    | Some block => stopping SnapshotStopped (read_store (ready_burns block config))
    | None => done []
    end in
  stopping RecoveryStopped (advance_submissions to_recover) ;*
  let* submit := stopping SubmissionStopped (submit_withdrawals fresh_burns) in
  stopping PollingStopped (advance_submissions to_poll) ;*
  done {| report_discover := discover; report_submit := submit |}.

(** ** Progress and the run loop *)

(** The fields of the cycle's span. *)
Record CycleProgress := {
  cp_block_number : BlockNumber;
  cp_tip_number : option BlockNumber;
  cp_tip_stale_duration_secs : Z;
  cp_progress : Progress;
  cp_oldest_age_blocks : Z;
  cp_first_limit_wait : option (string * Z);
}.

Definition record_progress : run W StoreError CycleProgress :=
  let* verified := read_store at_checkpoint in
  let* p := read_store (fun st => Ok (progress st)) in
  let* now := world system_now in
  let* tip := gets at_node_tip in
  let* wait := read_store first_limit_wait in
  done {| cp_block_number := header_block_num verified;
          cp_tip_number := tip;
          cp_tip_stale_duration_secs :=
            saturating_sub (if 0 <=? now then as_secs now else 0) (header_timestamp verified);
          cp_progress := p;
          cp_oldest_age_blocks :=
            match oldest_unfinished_burn p with
            | None => 0
            | Some block => saturating_sub (header_block_num verified) block
            end;
          cp_first_limit_wait :=
            (fun wait => (note_id_to_hex (lw_note_id wait), lw_retry_at wait)) <$> wait |}.

(** The class the cycle's span is marked failed with, if any, and the error that ends the run,
    which is a diverged chain. *)
Definition finish_cycle (outcome : result (Failure CycleError) CycleReport)
    (progress : result StoreError CycleProgress)
    : option FailureClass * result CycleError unit :=
  match outcome with
  | Ok report =>
      match report_discover report with
      | Ok _ => (if is_ok progress then None else Some (Actionable "store"), Ok tt)
      | Err error => (Some (failure error), Ok tt)
      end
  | Err stopped =>
      (Some (failure_class stopped),
       match failure_error stopped with
       | DiscoveryStopped ChainDiverged => Err (failure_error stopped)
       | _ => Ok tt
       end)
  end.

Definition traced_cycle : run W CycleError unit :=
  let* outcome := attempt cycle in
  let* progress := attempt record_progress in
  lift (snd (finish_cycle outcome progress)).

(** The pause after a cycle, from the one before it and the poll interval. *)
Definition next_pause (rate_limited : bool) (pause poll_interval : Z) : Z :=
  if rate_limited
  then Z.max (Z.min (saturating_mul duration_max pause 2) MAX_RATE_LIMITED_PAUSE) poll_interval
  else poll_interval.

(** The commands that arrive during a pause. *)
Fixpoint handle_paused {E} (commands : list (option Command)) : run W E unit :=
  match commands with
  | [] => done tt
  | Some command :: commands => handle_admin command ;* handle_paused commands
  | None :: _ => modify (put_admin false)
  end.

(** [run]: cycles until the service is shut down or the chain diverges. [fuel] bounds the number
    of cycles observed; [done false] is a run that is still going. *)
Fixpoint run_cycles (fuel : nat) (pause : Z) : run W CycleError bool :=
  match fuel with
  | O => done false
  | S fuel =>
      let* stop := world shutdown_cancelled in
      if stop : bool then modify (put_admin false) ;* done true
      else
        admin_checkpoint ;*
        modify (put_rate_limited false) ;*
        traced_cycle ;*
        let* config := gets at_config in
        let* limited := gets at_rate_limited in
        let pause := next_pause limited pause (cfg_poll_interval config) in
        let* attached := gets at_admin in
        let* commands := world (inbox_while_paused pause) in
        (if attached : bool then handle_paused commands else done tt) ;*
        run_cycles fuel pause
  end.

(** ** Startup *)

Inductive StartError : Type :=
| StartContext (text : string)
| StartChain (text : string) (e : ChainError)
| StartCircle (e : CircleError)
| StartStore (e : StoreError)
| StartDiscover (text : string) (e : DiscoverError).

(** The configured anchor is the requested, self-consistent pinned block. *)
Definition is_pinned (block : SignedBlock) (anchor : TrustedAnchor) : bool :=
  (header_block_num (block_header block) =? ta_block_num anchor)
  && bool_decide (header_commitment (block_header block) = ta_commitment anchor)
  && block_validate block None.

Definition config_anchor (config : Config) : TrustedAnchor :=
  {| ta_block_num := cfg_trusted_anchor_block config;
     ta_commitment := cfg_trusted_anchor_commitment config |}.

Definition new_attester (config : Config) (signers : SignerPair) (store : Store) (w : W)
    : Attester W :=
  {| at_config := config; at_store := store; at_signers := signers; at_node_tip := None;
     at_admin := false; at_logged_mismatches := ∅; at_rate_limited := false; at_world := w;
     at_trace := [] |}.

(** What [start] learns before it opens the store: the pinned block. *)
Definition preflight (config : Config) (signers : SignerPair) (w : W)
    : result StartError SignedBlock * W :=
  let '(connected, w) := chain_check_connection w in
  match connected with
  | Err e => (Err (StartChain "failed to connect to the Miden node" e), w)
  | Ok _ =>
      let '(exists_, w) := chain_account_exists (cfg_faucet_account_id config) w in
      match exists_ with
      | Err e => (Err (StartChain "failed to check the configured faucet account" e), w)
      | Ok false => (Err (StartContext "configured faucet account does not exist"), w)
      | Ok true =>
          let '(fetched, w) := chain_block_by_number (cfg_trusted_anchor_block config) w in
          match fetched with
          | Err e => (Err (StartChain "failed to load the configured trusted anchor" e), w)
          | Ok block =>
              if negb (is_pinned block (config_anchor config))
              then (Err (StartContext "configured trusted anchor is not the requested, self-consistent pinned block"), w)
              else
                match check_expected signers (cfg_expected_signing_public_keys_hex config) with
                | Err text => (Err (StartContext text), w)
                | Ok _ =>
                    let '(answers, w) := circle_check_connection w in
                    (map_err StartCircle (answers ;? Ok block), w)
                end
          end
      end
  end.

(** Opens the store; waits from an earlier configuration need the limit settings. *)
Definition open_store (config : Config) (on_disk : option Store) : result StartError Store :=
  let? store := map_err StartStore
    (open_or_create on_disk (cfg_faucet_account_id config) (config_anchor config)) in
  (match cfg_withdrawal_limit config with
   | Some _ => Ok tt
   | None =>
       let? wait := map_err StartStore (first_limit_wait store) in
       ensure (bool_decide (wait = None)) (StartContext
         "store has withdrawals waiting for Circle's withdrawal limit; start with --withdrawal-limit-message-prefix and --withdrawal-limit-retry-interval")
   end) ;?
  Ok store.

Definition start (config : Config) (signers : SignerPair) (on_disk : option Store) (w : W)
    : result StartError (Attester W) :=
  let '(found, w) := preflight config signers w in
  let? block := found in
  let? store := open_store config on_disk in
  let? saved := map_err StartStore (checkpoint store) in
  let attester := new_attester config signers store w in
  let '(checked, attester) :=
    match saved with
    | Some header =>
        convert (StartDiscover "failed to check the saved checkpoint against the Miden node")
          (check_checkpoint header) attester
    | None =>
        convert (StartDiscover "failed to save the trusted anchor as the first checkpoint")
          (save_block block) attester
    end in
  checked ;? Ok attester.

(** ** The service *)

(** Takes commands from the admin listener from now on. *)
Definition attach_admin (s : Attester W) : Attester W := put_admin true s.

(** The started service (service.rs): the admin listener is attached when it is configured, and
    the first pause is the poll interval. *)
Definition service_run (fuel : nat) (s : Attester W) : result CycleError bool * Attester W :=
  run_cycles fuel (cfg_poll_interval (at_config s))
    (match cfg_admin (at_config s) with Some _ => attach_admin s | None => s end).
End attester.
