(* ===== verification/Chain.v ===== *)
(** Reading the Miden node (chain.rs): the attester's [ChainReader] over a node's RPC calls. The RPC
    client is miden-client's; its errors keep what chain.rs looks at. *)
From S2P Require Import Prelude Text Telemetry Foreign Wire Types Burn Store Config Verify Circle Signer.
From S2P Require Import Submission Admin Attester.
Local Open Scope Z_scope.

Inductive NodeEndpoint : Type := GetAccount | OtherEndpoint.
Inductive RequestKind : Type := BadArgument | OtherKind.
Inductive EndpointDetail : Type := AccountNotFound | AccountNotPublic | OtherDetail.
(** A failed call: a request the node answered with an error, with the detail it gave, or another
    failure. *)
Inductive NodeError : Type :=
| NodeRequest (endpoint : NodeEndpoint) (kind : RequestKind) (detail : option EndpointDetail)
| NodeOther.

(** [RpcError::endpoint_error]. *)
Definition endpoint_error (e : NodeError) : option EndpointDetail :=
  match e with NodeRequest _ _ detail => detail | NodeOther => None end.

(** The calls: the node's committed tip, an account, the end of the proven chain synced from a block,
    and a block without its proof. *)
Class NodeRpc `{MidenLib} (W : Type) := {
  get_status_unversioned : W -> result NodeError BlockNumber * W;
  get_account : AccountId -> W -> result NodeError unit * W;
  sync_chain_mmr : BlockNumber -> W -> result NodeError BlockNumber * W;
  get_block_by_number : BlockNumber -> W -> result NodeError SignedBlock * W;
}.

Definition is_missing_account (e : NodeError) : bool :=
  match endpoint_error e with Some (AccountNotFound | AccountNotPublic) => true | _ => false end
  || match e with NodeRequest GetAccount BadArgument None => true | _ => false end.

Section reader.
Context `{MidenLib} {W : Type} `{!NodeRpc W}.

Definition rpc {A B} (f : A -> B) (call : W -> result NodeError A * W) (w : W) : result ChainError B * W :=
  let '(r, w) := call w in (map_err (fun _ => Rpc) (map_ok f r), w).

Definition check_connection : W -> result ChainError unit * W := rpc (fun _ => tt) get_status_unversioned.

Definition account_exists (account_id : AccountId) (w : W) : result ChainError bool * W :=
  let '(r, w) := get_account account_id w in
  (match r with
   | Ok _ => Ok true
   | Err e => if is_missing_account e then Ok false else Err Rpc
   end, w).

Definition scan_limits (w : W) : result ChainError ScanLimits * W :=
  match get_status_unversioned w with
  | (Err _, w) => (Err Rpc, w)
  | (Ok chain_tip, w) =>
      rpc (fun block_to => {| latest_committed_block := chain_tip; proof_lag_block := block_to |})
        (sync_chain_mmr 0) w
  end.

Definition block_by_number (block_num : BlockNumber) : W -> result ChainError SignedBlock * W :=
  rpc id (get_block_by_number block_num).

#[export] Instance MidenChainReader : ChainReader W := {|
  chain_check_connection := check_connection;
  chain_account_exists := account_exists;
  chain_scan_limits := scan_limits;
  chain_block_by_number := block_by_number;
|}.
End reader.

(** Startup takes an account for missing only on the node's word for it: its typed answer, or the
    untyped one of a node that leaves the detail out. Every other failure is one of the call. *)
Lemma account_missing_iff `{MidenLib} {W} `{!NodeRpc W} id (w w' : W) :
  account_exists id w = (Ok false, w') <->
  exists e, get_account id w = (Err e, w') /\
    (endpoint_error e = Some AccountNotFound \/ endpoint_error e = Some AccountNotPublic \/
     e = NodeRequest GetAccount BadArgument None).
Proof.
  unfold account_exists. destruct (get_account id w) as [[u|e] w1].
  - split; [done|]. by intros (e & [= ] & _).
  - split.
    + destruct (is_missing_account e) eqn:He; intros [= <-]. exists e. split; [done|].
      destruct e as [[] [] [[]|]|]; simpl in *; naive_solver.
    + intros (e' & [= <- <-] & He). by destruct e as [[] [] [[]|]|]; simpl in *; naive_solver.
Qed.
