(* ===== verification/AttesterLogic.v ===== *)
(** A Hoare logic for the attester's methods, and the invariant of a cycle: the store moves by the store's
    own steps, the work still queued stays valid, and what was done is on record; every method keeps it. *)
From S2P Require Import Prelude Text Telemetry Foreign Wire Types Burn Store StoreFacts StoreInv.
From S2P Require Import StoreWf StoreScan StoreReads Config Verify Circle Signer Submission Admin.
From S2P Require Import Attester.

Local Open Scope Z_scope.

(** ** Triples *)

Section triples.
Context `{MidenLib} {W : Type}.
Implicit Types s : Attester W.

Definition hoare {E A} (P : Attester W -> Prop) (m : run W E A)
    (Q : result E A -> Attester W -> Prop) : Prop := forall s, P s -> Q (m s).1 (m s).2.

(** The step keeps [P], whatever it returns. *)
Definition safe {E A} (P : Attester W -> Prop) (m : run W E A) : Prop := hoare P m (fun _ => P).

Lemma hoare_bind {E A B} P (m : run W E A) (k : A -> run W E B) R Q :
  hoare P m R -> (forall a, hoare (R (Ok a)) (k a) Q) ->
  (forall e s, R (Err e) s -> Q (Err e) s) -> hoare P (and_then m k) Q.
Proof.
  intros Hm Hk He s Hs. unfold and_then. specialize (Hm s Hs).
  destruct (m s) as [[a|e] s']; simpl in *; [by apply Hk|by apply He].
Qed.

Lemma safe_bind {E A B} P (m : run W E A) (k : A -> run W E B) :
  safe P m -> (forall a, safe P (k a)) -> safe P (and_then m k).
Proof. intros Hm Hk. eapply hoare_bind; [done|done|done]. Qed.

Lemma hoare_after {E A B} P (m : run W E A) (k : A -> run W E B) Q :
  safe P m -> (forall a, hoare P (k a) Q) -> (forall e s, P s -> Q (Err e) s) ->
  hoare P (and_then m k) Q.
Proof. intros. by eapply hoare_bind. Qed.

Lemma hoare_conseq {E A} (P P' : Attester W -> Prop) (m : run W E A) (Q Q' : result E A -> Attester W -> Prop) :
  hoare P' m Q' -> (forall s, P s -> P' s) -> (forall r s, Q' r s -> Q r s) -> hoare P m Q.
Proof. intros Hm HP HQ s Hs. by apply HQ, Hm, HP. Qed.

Lemma hoare_convert {E F A} P (f : E -> F) (m : run W E A) Q :
  hoare P m (fun r => Q (map_err f r)) -> hoare P (convert f m) Q.
Proof. intros Hm s Hs. specialize (Hm s Hs). unfold convert. by destruct (m s). Qed.

Lemma hoare_attempt {E E' A} P (m : run W E A) (Q : result E' (result E A) -> Attester W -> Prop) :
  hoare P m (fun r => Q (Ok r)) -> hoare P (attempt m) Q.
Proof. intros Hm s Hs. specialize (Hm s Hs). unfold attempt. by destruct (m s). Qed.

Lemma safe_convert {E F A} P (f : E -> F) (m : run W E A) : safe P m -> safe P (convert f m).
Proof. intros. by apply hoare_convert. Qed.
Lemma safe_attempt {E E' A} P (m : run W E A) : safe P m -> safe (E := E') P (attempt m).
Proof. intros. by apply hoare_attempt. Qed.
Lemma safe_done {E A} P (a : A) : safe (E := E) P (done a).
Proof. by intros s. Qed.
Lemma safe_throw {E A} P (e : E) : safe (A := A) P (throw e).
Proof. by intros s. Qed.
Lemma safe_lift {E A} P (r : result E A) : safe P (lift r).
Proof. by intros s. Qed.
Lemma safe_gets {E A} P (f : Attester W -> A) : safe (E := E) P (gets f).
Proof. by intros s. Qed.
Lemma safe_read {E A} P (f : Store -> result E A) : safe P (read_store f).
Proof. by intros s. Qed.
Lemma safe_world {E A} (P : Attester W -> Prop) (f : W -> A * W) :
  (forall s w, P s -> P (put_world w s)) -> safe (E := E) P (world f).
Proof. intros HP s Hs. unfold world. destruct (f (at_world s)). by apply HP. Qed.
Lemma safe_modify {E} (P : Attester W -> Prop) (f : Attester W -> Attester W) :
  (forall s, P s -> P (f s)) -> safe (E := E) P (modify f).
Proof. intros HP s Hs. by apply HP. Qed.

(** What was read holds of the state afterwards. *)
Lemma hoare_gets {E A} P (f : Attester W -> A) :
  hoare (E := E) P (gets f) (fun r s => P s /\ r = Ok (f s)).
Proof. by intros s. Qed.
Lemma hoare_read {E A} P (f : Store -> result E A) :
  hoare P (read_store f) (fun r s => P s /\ r = f (at_store s)).
Proof. by intros s. Qed.
Lemma hoare_read_convert {E F A} P (g : E -> F) (f : Store -> result E A) :
  hoare P (convert g (read_store f)) (fun r s => P s /\ r = map_err g (f (at_store s))).
Proof. by intros s. Qed.
Lemma hoare_lift {E A} P (r : result E A) : hoare P (lift r) (fun r' s => P s /\ r' = r).
Proof. by intros s. Qed.
Lemma hoare_world {E A} (P : Attester W -> Prop) (f : W -> A * W) :
  (forall s w, P s -> P (put_world w s)) ->
  hoare (E := E) P (world f) (fun r s => P s /\ exists a, r = Ok a).
Proof. intros HP s Hs. unfold world. destruct (f (at_world s)). simpl. eauto. Qed.
Lemma hoare_transact {E A} (P : Attester W -> Prop) (m : tx Store E A) (Q : result E A -> Attester W -> Prop) :
  (forall s a st, P s -> m (at_store s) = Ok (a, st) -> Q (Ok a) (put_store st s)) ->
  (forall s e, P s -> m (at_store s) = Err e -> Q (Err e) s) -> hoare P (transact m) Q.
Proof.
  intros Hok Herr s Hs. unfold transact.
  destruct (m (at_store s)) as [[a st]|e] eqn:Hm; [by apply Hok|by apply Herr].
Qed.
(** A case split on a boolean read from the state. *)
Lemma hoare_pure {E A} (P : Attester W -> Prop) (m : run W E A) Q (φ : Prop) :
  (forall s, P s -> φ) -> (φ -> hoare P m Q) -> hoare P m Q.
Proof. intros Hφ Hm s Hs. apply Hm; [by eapply Hφ|done]. Qed.
End triples.

(** ** Queued work *)

(** A unit of work of a cycle: a saved submission to advance, on its first attempt or a later one,
    or a burn to withdraw. *)
Inductive Item : Type :=
| Pending (attempt_ : SubmissionAttempt) (saved : SavedSubmission)
| Fresh (id : NoteId).
Definition item_id (i : Item) : NoteId :=
  match i with Pending _ saved => note_id saved | Fresh id => id end.

Section work.
Context `{ML : MidenLib, WL : WebLib, JL : JsonLib}.
Context `{!MidenLaws, !WebLaws}.
Implicit Types st : Store.

(** A saved submission is its row, still undecided, with nothing recorded since its authorization
    when this is its first attempt; a burn is still eligible. *)
Definition item_ok (st : Store) (i : Item) : Prop :=
  match i with
  | Pending attempt_ saved =>
      (exists row, submissions st !! note_id saved = Some row /\
        saved = saved_of (note_id saved) row /\
        (s_status row = Submitting \/ s_status row = Submitted)) /\
      (attempt_ = First -> just_authorized st (note_id saved))
  | Fresh id => eligible st id
  end.

Definition work_ok (work : list Item) (st : Store) : Prop :=
  NoDup (item_id <$> work) /\ Forall (item_ok st) work.

Lemma item_touches id st st' i :
  touches id st st' -> item_id i <> id -> item_ok st i -> item_ok st' i.
Proof.
  intros Ht Hne. destruct i as [a saved|j]; simpl in *.
  - destruct (history_grows_other _ _ _ _ Hne (to_history _ _ _ Ht)) as [_ Hf].
    unfold just_authorized. by rewrite (to_submissions _ _ _ Ht), Hf.
  - rewrite !eligible_row. by rewrite (to_burns _ _ _ Ht), (to_submissions _ _ _ Ht).
Qed.

Lemma work_touches id st st' work :
  touches id st st' -> id ∉ item_id <$> work -> work_ok work st -> work_ok work st'.
Proof.
  intros Ht Hid [Hnd Hok]. split; [done|]. rewrite Forall_forall in *. intros i Hi.
  eapply item_touches; [done| |by apply Hok]. intros <-. destruct Hid. by apply list_elem_of_fmap_2.
Qed.

Lemma work_cons i work st : work_ok (i :: work) st -> work_ok work st /\ item_ok st i /\ item_id i ∉ item_id <$> work.
Proof.
  intros [Hnd Hok]. simpl in Hnd. apply NoDup_cons in Hnd as [? ?]. apply Forall_cons in Hok as [? ?].
  by repeat split.
Qed.

(** An admin release never touches queued work: its notes are not held. *)
Lemma release_work anchor now id flag st counts st' work :
  store_wf anchor st -> release_hold now id flag st = Ok (counts, st') ->
  work_ok work st -> work_ok work st'.
Proof.
  intros Hwf Hr Hw. eapply work_touches; [by eapply release_touches| |done].
  intros (i & -> & Hi)%list_elem_of_fmap. destruct Hw as [_ Hok]. rewrite Forall_forall in Hok.
  specialize (Hok _ Hi). pose proof (wf_note _ _ Hwf (item_id i)) as Hnk.
  apply release_hold_Ok in Hr as [(Hh & _)|(_ & Hrel & _)].
  - unfold burn_is_held in Hh. destruct (burns st !! item_id i) as [b|] eqn:Hb; [|done]. bool_prop.
    destruct Hh as [c Hc]. destruct (nk_hold _ _ _ _ _ Hnk _ _ eq_refl Hc) as (_ & _ & _ & Hna & _).
    destruct i as [a saved|j]; simpl in *.
    + destruct Hok as ((row & Hrow & _ & Hst) & _). specialize (Hna _ Hrow). destruct Hst; congruence.
    + apply eligible_row in Hok as (b' & Hb' & _ & Hn & _). congruence.
  - apply withdrawal_releasable_row in Hrel as (s & Hs & Hst & _). destruct i as [a saved|j]; simpl in *.
    + destruct Hok as ((row & Hrow & _ & Hst') & _). rewrite Hs in Hrow. injection Hrow as <-. destruct Hst'; congruence.
    + apply eligible_row in Hok as (b' & _ & _ & _ & Hna). specialize (Hna _ Hs). congruence.
Qed.

(** Moving a retry time changes nothing that queued work depends on. *)
Lemma advance_work id a st st' work :
  advance_limit_retry id a st = Ok (tt, st') -> work_ok work st -> work_ok work st'.
Proof.
  unfold advance_limit_retry. intros Hr [Hnd Hok]. inv_ok. split; [done|].
  eapply Forall_impl; [exact Hok|]. intros [a' saved|j]; simpl; [done|]. rewrite !eligible_row. simpl.
  intros (b & Hb & Hc & Hh & Hn). destruct (decide (j = id)) as [->|Hne].
  - rewrite lookup_insert_eq. eexists. split; [done|]. simplify_eq. done.
  - rewrite lookup_insert_ne by done. eauto.
Qed.

(** ** The record of what was done *)

(** A submission goes out only while its exact request is on disk, undecided and without an ID. *)
Definition written_ahead (a : Action) : Prop :=
  match a with
  | Called (CallPost saved) st _ => exists row, submissions st !! note_id saved = Some row /\
      s_endpoint row = sub_endpoint saved /\ s_body row = body saved /\
      s_transfer_spec_hash row = transfer_spec_hash saved /\ s_withdrawal_id row = None /\
      s_status row = Submitting
  | _ => True
  end.

(** The blocks saved, newest first. *)
Definition saved_blocks (tr : list Action) : list SignedBlock :=
  omap (fun a => match a with Saved b _ => Some b | _ => None end) tr.

(** Whether each call to Circle was answered 429, newest first. *)
Definition limited_calls (tr : list Action) : list bool :=
  omap (fun a => match a with Called _ _ limited => Some limited | _ => None end) tr.

(** Since [tr0]: every POST was on disk first, and only the last call can have met a 429. *)
Definition trace_ok (tr0 : list Action) (limited : bool) (tr : list Action) : Prop :=
  exists seg, tr = seg ++ tr0 /\ Forall written_ahead seg /\
    Forall (eq false) (tail (limited_calls seg)) /\
    (limited = false -> Forall (eq false) (limited_calls seg)).

Lemma trace_ok_refl tr limited : trace_ok tr limited tr.
Proof. exists []. by repeat split. Qed.

Lemma trace_ok_other tr0 limited tr a :
  match a with Called _ _ _ => False | _ => True end ->
  trace_ok tr0 limited tr -> trace_ok tr0 limited (a :: tr).
Proof.
  intros Ha (seg & -> & Hw & Ht & Hl). exists (a :: seg). destruct a; [done|..].
  all: split; [done|]; split; [by constructor|]; by split.
Qed.

Lemma trace_ok_call tr0 tr call st limited :
  written_ahead (Called call st limited) -> trace_ok tr0 false tr ->
  trace_ok tr0 limited (Called call st limited :: tr).
Proof.
  intros Ha (seg & -> & Hw & Ht & Hl). exists (Called call st limited :: seg).
  split; [done|]. split; [by constructor|]. specialize (Hl eq_refl). split; [done|].
  intros ->. by constructor.
Qed.
End work.

Section inv.
Context `{ML : MidenLib, WL : WebLib, JL : JsonLib, EL : EthLib, KL : KeyLib}.
Context `{!MidenLaws, !WebLaws} {W : Type}.
Context `{!CircleApi W, !ChainReader W, !SignerApi W, !Clock W, !Inbox W}.
Implicit Types s : Attester W.

(** Where the cycle started: its configuration, anchor, store and trace. *)
Context (config : Config) (anchor : TrustedAnchor) (st0 : Store) (tr0 : list Action).

(** What a method must leave alone: the checkpoint with the blocks saved since the cycle started
    and, while [fr_quiet], the absence of a 429 in this cycle. *)
Record Frame := { fr_scanned : BlockHeader * list SignedBlock; fr_quiet : bool }.

Record inv (hdr : Frame) (work : list Item) (s : Attester W) : Prop := {
  iv_config : at_config s = config;
  iv_faucet : store_faucet (at_store s) = cfg_faucet_account_id config;
  iv_wf : store_wf anchor (at_store s);
  iv_steps : star (store_step anchor) st0 (at_store s);
  iv_checkpoint : checkpoint (at_store s) = Ok (Some (fr_scanned hdr).1);
  iv_blocks : saved_blocks (at_trace s) = (fr_scanned hdr).2 ++ saved_blocks tr0;
  iv_work : work_ok work (at_store s);
  iv_trace : trace_ok tr0 (at_rate_limited s) (at_trace s);
  iv_quiet : fr_quiet hdr = true -> at_rate_limited s = false;
}.

(** ** Changes of state *)

Lemma inv_world hdr work s w : inv hdr work s -> inv hdr work (put_world w s).
Proof. by intros []. Qed.
Lemma inv_admin hdr work s b : inv hdr work s -> inv hdr work (put_admin b s).
Proof. by intros []. Qed.
Lemma inv_tip hdr work s b : inv hdr work s -> inv hdr work (put_node_tip b s).
Proof. by intros []. Qed.
Lemma inv_mismatches hdr work s m : inv hdr work s -> inv hdr work (put_mismatches m s).
Proof. by intros []. Qed.
Lemma inv_quiet hdr work s a :
  match a with Answered _ _ => True | _ => False end ->
  inv hdr work s -> inv hdr work (push_action a s).
Proof. intros Ha []. split; try done; simpl; [by destruct a|]. apply trace_ok_other; [by destruct a|done]. Qed.
Lemma inv_tail hdr i work s : inv hdr (i :: work) s -> inv hdr work s.
Proof. intros []. split; try done. by eapply work_cons. Qed.

(** A step of the store on one note. *)
Lemma inv_step hdr work work' s id st :
  inv hdr work s -> store_step anchor (at_store s) st -> touches id (at_store s) st ->
  work_ok work' st -> inv hdr work' (put_store st s).
Proof.
  intros [Hc Hf Hwf Hst Hck Hbl Hw Htr Hq] Hstep Ht Hw'. split; simpl; try done.
  - by rewrite (to_faucet _ _ _ Ht).
  - by eapply store_step_wf.
  - eauto with runs.
  - unfold checkpoint, load_checkpoint in *. by rewrite (to_state _ _ _ Ht).
Qed.

(** A step on the note of the first item finishes it. *)
Lemma inv_finish hdr i work s st :
  inv hdr (i :: work) s -> store_step anchor (at_store s) st -> touches (item_id i) (at_store s) st ->
  inv hdr work (put_store st s).
Proof.
  intros Hi Hstep Ht. eapply inv_step; [done..|].
  destruct (work_cons _ _ _ (iv_work _ _ _ Hi)) as (Hw & _ & Hni). by eapply work_touches.
Qed.

(** ** Building blocks *)

Lemma safe_world_inv {E A} hdr work (f : W -> A * W) : safe (E := E) (inv hdr work) (world f).
Proof. apply safe_world. intros. by apply inv_world. Qed.
Lemma hoare_world_inv {E A} hdr work (f : W -> A * W) :
  hoare (E := E) (inv hdr work) (world f) (fun r s => inv hdr work s /\ exists a, r = Ok a).
Proof. apply hoare_world. intros. by apply inv_world. Qed.

Lemma hoare_transact_now {E A} hdr work (m : Z -> tx Store E A) Q :
  (forall now s a st, inv hdr work s -> m now (at_store s) = Ok (a, st) -> Q (Ok a) (put_store st s)) ->
  (forall s e, inv hdr work s -> Q (Err e) s) ->
  hoare (inv hdr work) (transact_now m) Q.
Proof.
  intros Hok Herr. eapply hoare_bind; [apply hoare_world_inv| |].
  - intros now. apply hoare_transact; intros s; intros.
    + destruct_and!. by eapply Hok.
    + destruct_and!. by apply Herr.
  - intros e s [_ [a ?]]. done.
Qed.

(** ** Admin commands *)

Lemma safe_handle_admin {E} hdr work command :
  safe (E := E) (inv hdr work) (handle_admin command).
Proof.
  unfold handle_admin. apply safe_bind; [apply safe_world_inv|]. intros cancelled.
  destruct (cancelled || cmd_abandoned command); [apply safe_done|].
  destruct (cmd_operation command) as [after|sel].
  - apply safe_bind; [apply safe_gets|]. intros c. apply safe_bind; [apply safe_attempt, safe_read|].
    intros r. apply safe_modify. intros s. by apply inv_quiet.
  - apply safe_bind; [apply safe_attempt|].
    + apply hoare_transact_now; [|done]. intros now s counts st Hi Hr.
      unfold release_checked in Hr. inv_ok.
      eapply (inv_step hdr work work); [done| | |].
      * by eapply step_release.
      * by eapply release_touches.
      * eapply release_work; [apply (iv_wf _ _ _ Hi)|done|apply (iv_work _ _ _ Hi)].
    + intros r. apply safe_modify. intros s. by apply inv_quiet.
Qed.

Lemma safe_admin_commands {E} hdr work n : safe (E := E) (inv hdr work) (admin_commands n).
Proof.
  induction n as [|n IH]; simpl; [apply safe_done|].
  apply safe_bind; [apply safe_world_inv|]. intros [|]; [apply safe_done|].
  apply safe_bind; [apply safe_world_inv|]. intros [c| |].
  - apply safe_bind; [apply safe_handle_admin|]. done.
  - apply safe_done.
  - apply safe_modify. intros. by apply inv_admin.
Qed.

Lemma safe_admin_checkpoint {E} hdr work : safe (E := E) (inv hdr work) admin_checkpoint.
Proof.
  unfold admin_checkpoint. apply safe_bind; [apply safe_gets|]. intros attached.
  apply safe_bind; [apply safe_world_inv|]. intros cancelled.
  destruct (negb attached || cancelled); [apply safe_done|apply safe_admin_commands].
Qed.

Lemma safe_handle_paused {E} hdr work commands :
  safe (E := E) (inv hdr work) (handle_paused commands).
Proof.
  induction commands as [|[c|] commands IH]; simpl; [apply safe_done| |].
  - apply safe_bind; [apply safe_handle_admin|done].
  - apply safe_modify. intros. by apply inv_admin.
Qed.

(** ** The withdrawal limit *)

Lemma safe_limit_allows hdr work id : safe (inv hdr work) (limit_allows id).
Proof.
  unfold limit_allows. apply safe_bind; [apply safe_read|]. intros [wait|]; [|apply safe_done].
  destruct (negb (bool_decide (lw_note_id wait = id))).
  { apply safe_bind; [apply safe_read|]. intros. apply safe_done. }
  apply safe_bind; [apply safe_world_inv|]. intros now.
  apply safe_bind; [by destruct (0 <=? now); [apply safe_done|apply safe_throw]|]. intros _.
  apply safe_bind; [apply safe_lift|]. intros retry.
  destruct (as_secs now <? retry); [apply safe_done|].
  apply safe_bind; [apply safe_gets|]. intros c. apply safe_bind; [apply safe_lift|]. intros policy.
  apply safe_bind; [apply safe_lift|]. intros next. apply safe_bind; [|intros; apply safe_done].
  apply hoare_transact; [|done]. intros s [] st Hi Hr.
  eapply (inv_step hdr work work); [done|by eapply step_advance|by eapply advance_touches|].
  eapply advance_work; [done|apply (iv_work _ _ _ Hi)].
Qed.

(** A limit rejection finishes the item whose request was rejected. *)
Lemma hoare_wait_for_limit hdr i work id status body submission :
  item_id i = id -> (submission = None -> i = Fresh id) ->
  (forall saved, submission = Some (saved, First) -> exists base, i = Pending First base) ->
  hoare (inv hdr (i :: work)) (wait_for_withdrawal_limit id status body submission)
    (fun r s => (r = Ok false /\ inv hdr (i :: work) s) \/ (r <> Ok false /\ inv hdr work s)).
Proof.
  intros Hid Hsub Hfirst. unfold wait_for_withdrawal_limit.
  eapply hoare_bind; [apply hoare_gets| |by intros e s [_ ?]]. intros c.
  destruct (cfg_withdrawal_limit c) as [policy|]; [|intros s [? _]; left; done].
  destruct (negb _); [intros s [? _]; left; done|].
  eapply (hoare_conseq _ (inv hdr (i :: work)) _ _ (fun r s => r <> Ok false /\ inv hdr work s));
    [|by intros s [? _]|by intros r s Hq; right].
  assert (Herr : forall e s, inv hdr (i :: work) s -> (Err e : result SubmitError bool) <> Ok false /\ inv hdr work s)
    by (intros e s Hi; split; [done|by eapply inv_tail]).
  apply hoare_after; [apply safe_world_inv| |done]. intros now.
  apply hoare_after; [apply safe_convert, safe_lift| |done]. intros retry.
  eapply (hoare_bind _ _ _ (fun r s => inv hdr work s)); [| |by intros e s Hi].
  2: { intros _ s Hi. by split. }
  apply hoare_convert, hoare_transact_now.
  - intros now' s [] st Hi Hr. eapply inv_finish; [done| |by rewrite Hid; eapply limit_touches].
    destruct (work_cons _ _ _ (iv_work _ _ _ Hi)) as (_ & Hok & _). eapply step_limit; [| |done].
    + intros ->. by specialize (Hsub eq_refl) as ->.
    + intros saved Hs. destruct (Hfirst _ Hs) as [base ->]. simpl in *. subst id. by apply Hok.
  - intros s e Hi. by eapply inv_tail.
Qed.
End inv.
