(* ===== verification/AttesterSubmit.v ===== *)
(** The submission phase keeps the invariant: every saved request is on disk before it is sent, each
    queued item is finished by its own attempt, and nothing is sent to Circle after a 429. *)
From S2P Require Import Prelude Text Telemetry Foreign Wire Types Burn Store StoreFacts.
From S2P Require Import StoreInv StoreWf StoreScan StoreReads Config Verify Circle Signer.
From S2P Require Import Submission Admin Attester AttesterLogic.
Local Open Scope Z_scope.

Section submit.
Context `{ML : MidenLib, WL : WebLib, JL : JsonLib, EL : EthLib, KL : KeyLib}.
Context `{!MidenLaws, !WebLaws} {W : Type}.
Context `{!CircleApi W, !ChainReader W, !SignerApi W, !Clock W, !Inbox W}.
Context (config : Config) (anchor : TrustedAnchor) (st0 : Store) (tr0 : list Action).
Implicit Types s : Attester W.
Abbreviation inv := (inv config anchor st0 tr0).
(** No 429 yet in this cycle, or perhaps one. *)
Abbreviation quiet h := {| fr_scanned := h; fr_quiet := true |}.
Abbreviation loud h := {| fr_scanned := h; fr_quiet := false |}.

Lemma inv_loud h work s : inv (quiet h) work s -> inv (loud h) work s.
Proof. by intros []. Qed.
Lemma inv_quieten h work s : inv (loud h) work s -> at_rate_limited s = false -> inv (quiet h) work s.
Proof. by intros []. Qed.

(** An undecided request without an ID is still being sent. *)
Lemma submitting_row st id row :
  store_wf anchor st -> submissions st !! id = Some row -> s_withdrawal_id row = None ->
  s_status row = Submitting \/ s_status row = Submitted -> s_status row = Submitting.
Proof.
  intros Hwf Hrow Hn [?|Hst]; [done|].
  destruct (nk_sub_valid _ _ _ _ _ (wf_note _ _ Hwf id) _ Hrow) as (Hv & _).
  apply validate_submission_Ok in Hv as (_ & _ & _ & _ & Hv). unfold validate_submission_outcome in Hv.
  simpl in Hv. rewrite Hst, Hn in Hv. simpl in Hv. rewrite orb_true_r in Hv. done.
Qed.

Lemma inv_call h work s at_ saved limited :
  inv (quiet h) (Pending at_ saved :: work) s ->
  inv (loud h) (Pending at_ saved :: work)
    (put_rate_limited (at_rate_limited s || limited)
      (push_action (Called match withdrawal_id saved with
                           | Some id => CallGet saved id
                           | None => CallPost saved
                           end (at_store s) limited) s)).
Proof.
  intros Hi. pose proof (iv_wf _ _ _ _ _ _ _ Hi) as Hwf. rewrite (iv_quiet _ _ _ _ _ _ _ Hi eq_refl).
  destruct (work_cons _ _ _ (iv_work _ _ _ _ _ _ _ Hi)) as (_ & [(row & Hrow & He & Hst) _] & _).
  destruct Hi as [Hc Hfa _ Hs Hck Hbl Hw Htr Hq]. split; try done. simpl. rewrite (Hq eq_refl) in Htr.
  apply trace_ok_call; [|done]. destruct (withdrawal_id saved) as [w|] eqn:Hid; simpl; [done|].
  exists row. split; [done|]. rewrite He in *. simpl in *. split_and!; try done.
  eapply submitting_row; done.
Qed.

(** Sending a queued request records the answer and nothing else. *)
Lemma hoare_send h work at_ saved :
  hoare (E := SubmitError) (inv (quiet h) (Pending at_ saved :: work)) (send_saved_request saved)
    (fun r s => inv (loud h) (Pending at_ saved :: work) s /\ exists reply recorded,
       r = Ok (reply, recorded) /\ answered saved recorded /\
       (forall rr, reply = Ok rr -> rr_status rr <> TOO_MANY_REQUESTS ->
          inv (quiet h) (Pending at_ saved :: work) s)).
Proof.
  intros s Hi. unfold send_saved_request, and_then, gets, world, trace, modify, done. simpl.
  destruct (match withdrawal_id saved with Some _ => _ | None => _ end (at_world s)) as [answer w] eqn:Ha.
  destruct (record_answer saved answer) as [[reply recorded] limited] eqn:Hr. simpl.
  apply record_answer_answered in Hr as [Hans Hlim].
  assert (Hi' : inv (quiet h) (Pending at_ saved :: work) (put_world w s)) by (by apply inv_world).
  pose proof (inv_call h work _ at_ saved limited Hi') as Hcall. split; [done|].
  exists reply, recorded. split; [done|]. split; [done|]. intros rr -> Hne. apply inv_quieten; [done|].
  simpl. rewrite (iv_quiet _ _ _ _ _ _ _ Hi eq_refl). simpl.
  destruct (Hlim rr eq_refl) as [->| ->]; [|done]. by apply Z.eqb_neq.
Qed.

(** Saving an outcome finishes the item; while the request is undecided it can stay queued. *)
Lemma hoare_save_outcome hdr work at_ saved o f :
  decides saved o ->
  hoare (inv hdr (Pending at_ saved :: work)) (save_outcome o f)
    (fun r s => inv hdr work s /\
       (r = Ok tt -> status o = Submitting \/ status o = Submitted -> inv hdr (Pending Recovery o :: work) s)).
Proof.
  intros ((Hn & He & Hb & Ht) & Hw & Hh). unfold save_outcome.
  apply hoare_after; [by apply safe_modify; intros; apply inv_mismatches| |].
  2: { intros e s Hi. split; [by eapply inv_tail|done]. }
  intros []. apply hoare_convert, hoare_transact_now.
  2: { intros s e Hi. split; [by eapply inv_tail|done]. }
  intros now s [] st Hi Hr.
  destruct (work_cons _ _ _ (iv_work _ _ _ _ _ _ _ Hi)) as (Hwork & [(row & Hrow & Hsv & Hact) _] & Hni).
  assert (Hfol : follows row o).
  { unfold follows. rewrite He, Hb, Ht. rewrite Hsv in Hw |- *. by split_and!. }
  rewrite <-Hn in Hrow.
  assert (Hstep : store_step anchor (at_store s) st) by (by eapply step_outcome).
  pose proof (outcome_touches _ _ _ _ Hr) as Htouch. simpl. split.
  - eapply inv_finish; [done|done|]. simpl. by rewrite <-Hn.
  - intros _ Hst. eapply inv_step; [done..|].
    pose proof (work_touches _ _ _ work Htouch) as Hwt. rewrite Hn in Hwt. specialize (Hwt Hni Hwork).
    destruct Hwt as [Hnd Hok]. split; [simpl; rewrite Hn; by constructor|]. constructor; [|done].
    split; [|done]. exists (outcome_row o row). simpl. split_and!; [| |done].
    + apply update_outcome_Ok in Hr as (_ & row' & st1 & st2 & Hrow' & -> & Hst2 & ->).
      rewrite Hrow in Hrow'. injection Hrow' as <-.
      destruct Hst2 as [[-> _]|(? & ? & _ & _ & _ & _ & _ & ->)]; destruct (clears (status o));
        simpl; by rewrite lookup_insert_eq.
    + destruct Hfol as (F1 & F2 & F3 & _). destruct o; unfold saved_of; simpl in *. by rewrite F1, F2, F3.
Qed.

Lemma hoare_finish hdr work at_ base saved response :
  status base <> Held -> answered base saved ->
  hoare (inv hdr (Pending at_ base :: work)) (finish_submission saved response) (fun _ => inv hdr work).
Proof.
  intros Hst Hans. unfold finish_submission. destruct response as [reply|f].
  - destruct (read_response saved reply) as [f o] eqn:Hr.
    eapply hoare_conseq; [apply hoare_save_outcome|done|by intros r s [? _]].
    eapply decides_answered; [done|]. eapply read_response_decides; [|done].
    destruct Hans as (_ & -> & _). done.
  - eapply hoare_conseq; [apply hoare_save_outcome|done|by intros r s [? _]].
    by apply answered_decides.
Qed.

Lemma queued_status hdr work at_ saved s : inv hdr (Pending at_ saved :: work) s -> status saved = Submitting \/ status saved = Submitted.
Proof.
  intros Hi. destruct (work_cons _ _ _ (iv_work _ _ _ _ _ _ _ Hi)) as (_ & [(row & _ & -> & ?) _] & _). done.
Qed.

(** The send of a queued request, by what it leaves. *)
Lemma hoare_send_then {A} h work at_ saved (k : result FailureClass RawResponse * SavedSubmission -> run W SubmitError A) Q :
  (forall reply recorded, answered saved recorded ->
     hoare (fun s => inv (loud h) (Pending at_ saved :: work) s /\
              (forall rr, reply = Ok rr -> rr_status rr <> TOO_MANY_REQUESTS ->
                 inv (quiet h) (Pending at_ saved :: work) s))
       (k (reply, recorded)) Q) ->
  hoare (inv (quiet h) (Pending at_ saved :: work)) (and_then (send_saved_request saved) k) Q.
Proof.
  intros Hk. eapply hoare_bind; [apply hoare_send| |].
  - intros [reply recorded].
    eapply (hoare_pure _ _ _ (answered saved recorded)); [by intros s (_ & ? & ? & [= -> ->] & ? & _)|].
    intros Ha. eapply hoare_conseq; [by apply Hk| |done].
    intros s (Hi & ? & ? & [= <- <-] & _ & Hq). by split.
  - by intros e s (_ & ? & ? & ? & _).
Qed.

Lemma hoare_resolve h work at_ base saved :
  answered base saved -> withdrawal_id saved = None ->
  status base = Submitting \/ status base = Submitted ->
  hoare (inv (quiet h) (Pending at_ base :: work)) (resolve_conflict saved) (fun _ => inv (loud h) work).
Proof.
  intros Hans Hid Hst. assert (Hnh : status base <> Held) by (by destruct Hst as [->| ->]).
  unfold resolve_conflict. destruct (read_conflict saved) as [[f|] o] eqn:Hc.
  - apply read_conflict_Some in Hc.
    eapply hoare_conseq; [apply (hoare_save_outcome (quiet h) work at_ base)|done|by intros r s [? _]; apply inv_loud].
    eapply decides_answered; [done|]. apply answered_decides; [|done]. destruct Hans as (_ & -> & _). done.
  - apply read_conflict_None in Hc as (w & _ & ->). set (o := with_withdrawal_id (Some w) saved).
    assert (Hdec : decides base o).
    { eapply decides_answered; [done|]. split; [done|]. split; simpl; [congruence|].
      destruct Hans as (_ & Hs & _). rewrite Hs. done. }
    assert (Hso : status o = status base) by apply Hans.
    eapply hoare_bind; [by apply (hoare_save_outcome (quiet h) work at_ base o)| |].
    + intros []. eapply (hoare_conseq _ (inv (quiet h) (Pending Recovery o :: work)) _ _ (fun _ => inv (loud h) work)); [| |done].
      * apply hoare_send_then. intros reply rec Ha.
        eapply hoare_conseq; [apply (hoare_finish (loud h) work Recovery o)|by intros s [? _]|done]; [|done].
        by rewrite Hso.
      * intros s [_ Hq]. apply Hq; [done|]. by rewrite Hso.
    + intros e s [? _]. by apply inv_loud.
Qed.

(** What follows a reply, in a frame that is quiet unless the reply was a 429. *)
Lemma hoare_reply fr h work base saved reply at_ :
  fr = quiet h \/ fr = loud h /\ rr_status reply <> CONFLICT_STATUS ->
  answered base saved -> status base = Submitting \/ status base = Submitted ->
  hoare (inv fr (Pending at_ base :: work))
    (let fresh := bool_decide (withdrawal_id saved = None) in
     let* waits :=
       (if fresh
        then wait_for_withdrawal_limit (note_id saved) (rr_status reply) (rr_body reply)
               (Some (saved, at_))
        else done false) in
     if waits : bool then done tt
     else if fresh && (rr_status reply =? CONFLICT_STATUS) then resolve_conflict saved
     else finish_submission saved (Ok reply))
    (fun _ => inv (loud h) work).
Proof.
  intros Hfr Hans Hst. assert (Hnh : status base <> Held) by (by destruct Hst as [->| ->]).
  assert (Hloud : forall work s, inv fr work s -> inv (loud h) work s).
  { destruct Hfr as [->|[-> _]]; [|done]. intros w s. apply inv_loud. }
  cbv zeta. eapply (hoare_bind _ _ _ (fun r s =>
    (r = Ok false /\ inv fr (Pending at_ base :: work) s) \/ (r <> Ok false /\ inv fr work s))).
  - destruct (bool_decide _); [|intros s Hi; by left].
    apply hoare_wait_for_limit; [|done|intros ? [= _ ->]; by eexists]. simpl. symmetry. apply Hans.
  - intros [|].
    { intros s [[? _]|[_ Hi]]; [done|]. by apply Hloud. }
    eapply (hoare_conseq _ (inv fr (Pending at_ base :: work)) _ _ (fun _ => inv (loud h) work));
      [|by intros s [[_ ?]|[? _]]|done].
    destruct (bool_decide _ && _) eqn:Hc.
    + bool_prop. destruct Hfr as [->|[_ Hne]]; [|congruence]. by apply hoare_resolve.
    + eapply hoare_conseq; [by apply (hoare_finish fr work at_ base)|done|]. intros r s. apply Hloud.
  - intros e s [[? _]|[_ Hi]]; [done|]. by apply Hloud.
Qed.

(** One attempt at a queued request finishes it for this cycle. *)
Lemma hoare_advance h work base at_ :
  hoare (inv (loud h) (Pending at_ base :: work)) (advance_submission base at_) (fun _ => inv (loud h) work).
Proof.
  unfold advance_submission. eapply hoare_bind; [apply hoare_gets| |by intros e s [_ ?]].
  intros [|]; [intros s [Hi _]; by eapply inv_tail|].
  eapply (hoare_conseq _ (inv (quiet h) (Pending at_ base :: work)) _ _ (fun _ => inv (loud h) work));
    [|intros s [Hi [= Hl]]; by apply inv_quieten|done].
  apply (hoare_pure _ _ _ (status base = Submitting \/ status base = Submitted));
    [intros s; apply queued_status|]. intros Hst. apply hoare_send_then. intros [reply|f] saved Hans.
  - destruct (decide (rr_status reply = TOO_MANY_REQUESTS)) as [He|Hne].
    + eapply hoare_conseq; [apply (hoare_reply (loud h) h work base saved reply at_)|by intros s [? _]|done]; [|done|done].
      right. by rewrite He.
    + eapply hoare_conseq; [apply (hoare_reply (quiet h) h work base saved reply at_); [by left|done|done]| |done].
      intros s [_ Hq]. by apply (Hq reply).
  - cbv zeta. rewrite andb_false_r.
    eapply hoare_conseq; [apply (hoare_finish (loud h) work at_ base saved (Err f))|by intros s [? _]|done]; [|done].
    by destruct Hst as [->| ->].
Qed.

Lemma inv_drop fr a b s : inv fr (a ++ b) s -> inv fr b s.
Proof. induction a as [|i a IH]; simpl; [done|]. intros Hi. by eapply IH, inv_tail. Qed.

Lemma hoare_advance_all h l rest :
  hoare (inv (loud h) ((Pending Recovery <$> l) ++ rest)) (advance_submissions l) (fun _ => inv (loud h) rest).
Proof.
  induction l as [|saved l IH]; simpl; [by intros s|].
  set (work := Pending Recovery saved :: (Pending Recovery <$> l) ++ rest).
  assert (Hdrop : forall s, inv (loud h) work s -> inv (loud h) rest s).
  { intros s Hi. by apply (inv_drop _ (Pending Recovery saved :: (Pending Recovery <$> l))). }
  apply hoare_after; [apply safe_admin_checkpoint| |intros e s; apply Hdrop]. intros _.
  apply hoare_after; [apply safe_gets| |intros e s; apply Hdrop]. intros [|]; [intros s; apply Hdrop|].
  apply hoare_after; [| |intros e s; apply Hdrop].
  { destruct (bool_decide _); [apply safe_convert, safe_limit_allows|apply safe_done]. }
  intros [|].
  - eapply hoare_bind; [apply hoare_advance|intros u; exact IH|]. intros e s Hi. eapply inv_drop, Hi.
  - eapply hoare_conseq; [exact IH| |done]. intros s Hi. by eapply inv_tail.
Qed.

(** ** Only the store stops a cycle *)

Definition fatal_only {A} (m : run W SubmitError A) : Prop :=
  forall s e, (m s).1 = Err e -> is_fatal e = true.

Lemma fatal_bind {A B} (m : run W SubmitError A) (k : A -> run W SubmitError B) :
  fatal_only m -> (forall a, fatal_only (k a)) -> fatal_only (and_then m k).
Proof.
  intros Hm Hk s e. unfold and_then. specialize (Hm s). destruct (m s) as [[a|x] s']; [apply Hk|].
  simpl. intros [= ->]. by apply Hm.
Qed.
Lemma fatal_convert {A} (m : run W StoreError A) : fatal_only (convert SubmitStore m).
Proof. intros s e. unfold convert. destruct (m s) as [[a|x] s']; simpl; by intros [= <-]. Qed.
Lemma fatal_done {A} (a : A) : fatal_only (done a).
Proof. by intros s e. Qed.
Lemma fatal_gets {A} (f : Attester W -> A) : fatal_only (gets f).
Proof. by intros s e. Qed.
Lemma fatal_modify f : fatal_only (modify f).
Proof. by intros s e. Qed.
Lemma fatal_world {A} (f : W -> A * W) : fatal_only (world f).
Proof. intros s e. unfold world. by destruct (f (at_world s)). Qed.

Lemma fatal_send saved : fatal_only (send_saved_request saved).
Proof.
  unfold send_saved_request. apply fatal_bind; [apply fatal_gets|]. intros st.
  apply fatal_bind; [apply fatal_world|]. intros answer.
  destruct (record_answer saved answer) as [[reply rec] lim].
  apply fatal_bind; [apply fatal_modify|]. intros _. apply fatal_bind; [apply fatal_modify|].
  intros _. apply fatal_done.
Qed.
Lemma fatal_save_outcome o f : fatal_only (save_outcome o f).
Proof. apply fatal_bind; [apply fatal_modify|]. intros _. apply fatal_convert. Qed.
Lemma fatal_finish saved response : fatal_only (finish_submission saved response).
Proof.
  unfold finish_submission. destruct response as [r|f]; [|apply fatal_save_outcome].
  destruct (read_response saved r). apply fatal_save_outcome.
Qed.
Lemma fatal_wait id status body submission :
  fatal_only (wait_for_withdrawal_limit id status body submission).
Proof.
  unfold wait_for_withdrawal_limit. apply fatal_bind; [apply fatal_gets|]. intros c.
  destruct (cfg_withdrawal_limit c); [|apply fatal_done]. destruct (negb _); [apply fatal_done|].
  apply fatal_bind; [apply fatal_world|]. intros now. apply fatal_bind; [apply fatal_convert|].
  intros r. apply fatal_bind; [apply fatal_convert|]. intros _. apply fatal_done.
Qed.

Lemma fatal_advance saved attempt_ : fatal_only (advance_submission saved attempt_).
Proof.
  unfold advance_submission. apply fatal_bind; [apply fatal_gets|]. intros [|]; [apply fatal_done|].
  apply fatal_bind; [apply fatal_send|]. intros [response rec]. cbv zeta. apply fatal_bind.
  { destruct response; [|apply fatal_done]. destruct (bool_decide _); [apply fatal_wait|apply fatal_done]. }
  intros [|]; [apply fatal_done|]. destruct (_ && _); [|apply fatal_finish].
  unfold resolve_conflict. destruct (read_conflict rec) as [[f|] o]; [apply fatal_save_outcome|].
  apply fatal_bind; [apply fatal_save_outcome|]. intros _. apply fatal_bind; [apply fatal_send|].
  intros [reply o']. apply fatal_finish.
Qed.

(** ** Fresh withdrawals *)

(** An attempt that fails without a store error leaves its burn eligible. *)
Definition attempted (h : BlockHeader * list SignedBlock) (id : NoteId) (work : list Item) (r : result SubmitError unit)
    (s : Attester W) : Prop :=
  match r with
  | Err e => if is_fatal e then inv (loud h) work s else inv (loud h) (Fresh id :: work) s
  | Ok _ => inv (loud h) work s
  end.

Lemma hoare_fatal {A} P (m : run W SubmitError A) (Q : Attester W -> Prop) R :
  fatal_only m -> hoare P m (fun _ => Q) ->
  (forall r s, Q s -> (forall e, r = Err e -> is_fatal e = true) -> R r s) -> hoare P m R.
Proof. intros Hf Hm HR s Hs. apply HR; [by apply Hm|]. intros e. apply Hf. Qed.

Lemma signed_submission_fields sw endpoint saved :
  signed_submission sw endpoint = Some saved ->
  note_id saved = vw_note_id (sw_verified sw) /\ sub_endpoint saved = endpoint /\
  transfer_spec_hash saved = vw_transfer_spec_hash (sw_verified sw) /\
  saved = saved_of (note_id saved) {|
    s_endpoint := endpoint; s_body := body saved;
    s_transfer_spec_hash := vw_transfer_spec_hash (sw_verified sw); s_status := Submitting;
    s_withdrawal_id := None; s_hold_reason := None; s_last_http_status := None;
    s_last_response := None; s_last_error := None |}.
Proof.
  unfold signed_submission. destruct (sw_signatures sw) as [a b].
  destruct (json_submission _ _ _ _) as [bd|]; simpl; [|done]. by intros [= <-].
Qed.

Lemma hoare_submit_signed h id work sw :
  vw_note_id (sw_verified sw) = id -> length (vw_transfer_spec_hash (sw_verified sw)) = 32%nat ->
  hoare (inv (loud h) (Fresh id :: work)) (submit_signed_withdrawal sw) (attempted h id work).
Proof.
  intros Hid Hlen. unfold submit_signed_withdrawal.
  eapply hoare_bind; [apply hoare_gets| |by intros e s [_ ?]]. intros c.
  eapply (hoare_conseq _ (inv (loud h) (Fresh id :: work)) _ _ (attempted h id work)); [|by intros s [? _]|done].
  eapply hoare_bind; [apply hoare_lift| |].
  2: { intros e s [Hi He]. unfold submission_endpoint in He. by destruct (url_join _ _); simplify_eq/=. }
  intros endpoint. eapply hoare_bind; [apply hoare_lift| |].
  2: { intros e s [[Hi _] He]. by destruct (signed_submission _ _); simplify_eq/=. }
  intros saved.
  eapply (hoare_pure _ _ _ (signed_submission sw endpoint = Some saved /\ url_parse endpoint = Some endpoint)).
  { intros s [[_ He] Hs]. unfold submission_endpoint in He.
    destruct (signed_submission sw endpoint); simplify_eq/=. split; [done|].
    destruct (url_join _ _) eqn:Hj; simplify_eq/=. by eapply url_join_parse. }
  intros [Hs Hurl]. apply signed_submission_fields in Hs as (Hn & He & Ht & Hsv).
  eapply (hoare_conseq _ (inv (loud h) (Fresh id :: work)) _ _ (attempted h id work)); [|by intros s [[? _] _]|done].
  eapply hoare_fatal; [|apply hoare_after|].
  { apply fatal_bind; [apply fatal_convert|]. intros _. apply fatal_bind; [apply fatal_convert|].
    intros _. apply fatal_advance. }
  { apply safe_convert, safe_read. }
  3: { intros [u|e] s Hq Hf; [exact Hq|]. simpl. by rewrite Hf. }
  2: { intros e s Hi. by eapply inv_tail. }
  intros _. eapply hoare_bind; [apply hoare_convert, hoare_transact_now| |].
  { intros now s a st Hi Hr.
    instantiate (1 := fun r s => match r with Ok _ => inv (loud h) (Pending First saved :: work) s
                                 | Err _ => inv (loud h) work s end). simpl. destruct a.
    destruct (work_cons _ _ _ (iv_work _ _ _ _ _ _ _ Hi)) as (Hw & Hel & Hni). simpl in Hel, Hni.
    rewrite <-Hid, <-Hn in Hel, Hni.
    pose proof (save_touches _ _ _ _ Hr) as Htouch.
    eapply inv_step; [done| |done|].
    - eapply step_save; [done| | |done]; [by rewrite He|by rewrite Ht].
    - pose proof (work_touches _ _ _ _ Htouch Hni Hw) as [Hnd Hok].
      split; [simpl; by constructor|]. constructor; [|done].
      apply save_submission_Ok in Hr as (_ & _ & b & e & row & _ & -> & Hen & _ & Hek & ->).
      split.
      + eexists. simpl. rewrite lookup_insert_eq. split; [done|]. rewrite He, Ht. split; [done|by left].
      + intros _. exists e. simpl. unfold of_note at 1. by rewrite bool_decide_eq_true_2. }
  { intros s e Hi. by eapply inv_tail. }
  - intros u. apply hoare_advance.
  - done.
Qed.

(** The reply of [prepare_withdrawal] is on record; without a 429 the cycle stays quiet. *)
Lemma inv_prepare h work s id limited :
  inv (quiet h) work s ->
  inv (loud h) work (put_rate_limited (at_rate_limited s || limited)
                       (push_action (Called (CallPrepare id) (at_store s) limited) s)).
Proof.
  intros Hi. rewrite (iv_quiet _ _ _ _ _ _ _ Hi eq_refl). destruct Hi as [Hc Hfa Hwf Hs Hck Hbl Hw Htr Hq].
  split; try done. simpl. rewrite (Hq eq_refl) in Htr. by apply trace_ok_call.
Qed.

Lemma verify_Ok_fields reply burn v :
  verify reply burn config = Ok v ->
  vw_note_id v = db_note_id burn /\ length (vw_transfer_spec_hash v) = 32%nat.
Proof.
  unfold verify. intros Hr. inv_ok. destruct (_ : IntentFields * HookData) as [intent hook]. inv_ok.
  split; [done|]. simpl.
  match goal with E : TransferSpec_hash _ = Ok _ |- _ => unfold TransferSpec_hash in E end. inv_ok.
  apply keccak256_length.
Qed.

Lemma sign_verified v pair (w : W) sw w' : sign v pair w = (Ok sw, w') -> sw_verified sw = v.
Proof.
  unfold sign. destruct (signer_sign_digest _ _ w) as [[a|] w1]; [|done].
  destruct (signer_sign_digest _ _ w1) as [[b|] w2]; simpl; [|done]. by intros [= <- _].
Qed.

Lemma hoare_prepare h work burn fee :
  hoare (inv (quiet h) work) (prepare_withdrawal burn fee)
    (fun r s => inv (loud h) work s /\ forall e, r = Err e -> is_fatal e = false).
Proof.
  intros s Hi. unfold prepare_withdrawal, and_then, gets, world, trace, modify, lift. simpl.
  destruct (circle_prepare_withdrawal burn fee (at_world s)) as [prepared w]. simpl. split.
  - apply (inv_prepare h work (put_world w s)). by apply inv_world.
  - intros e He. by destruct prepared; simplify_eq/=.
Qed.

(** Any failure that is not the store's leaves the burn as it was. *)
Lemma hoare_lift_nonfatal {A B} h work id (r : result SubmitError A) (k : A -> run W SubmitError B)
    (Q : result SubmitError B -> Attester W -> Prop) :
  (forall e, r = Err e -> is_fatal e = false) ->
  (forall e s, is_fatal e = false -> inv (loud h) (Fresh id :: work) s -> Q (Err e) s) ->
  (forall a, r = Ok a -> hoare (inv (loud h) (Fresh id :: work)) (k a) Q) ->
  hoare (inv (loud h) (Fresh id :: work)) (and_then (lift r) k) Q.
Proof. intros He HQ Hk s Hi. unfold and_then, lift. destruct r as [a|e]; [by apply Hk|]. apply HQ; auto. Qed.

Lemma hoare_withdraw h work burn :
  hoare (inv (quiet h) (Fresh (db_note_id burn) :: work)) (withdraw burn)
    (attempted h (db_note_id burn) work).
Proof.
  set (id := db_note_id burn). unfold withdraw.
  assert (Hnf : forall e s, is_fatal e = false -> inv (loud h) (Fresh id :: work) s ->
    attempted h id work (Err e) s) by (intros e s He Hi; simpl; by rewrite He).
  eapply hoare_bind; [apply hoare_gets| |by intros e s [_ ?]]. intros c.
  eapply (hoare_pure _ _ _ (c = config)); [by intros s [Hi [= ->]]; apply (iv_config _ _ _ _ _ _ _ Hi)|].
  intros ->.
  eapply hoare_bind; [apply hoare_lift| |].
  2: { intros e s [[Hi _] He]. apply Hnf; [|by apply inv_loud]. by destruct (forwarding_max_fee _ _); simplify_eq/=. }
  intros fee. eapply (hoare_bind _ _ _ (fun r s => inv (loud h) (Fresh id :: work) s /\
    forall e, r = Err e -> is_fatal e = false)).
  { eapply hoare_conseq; [apply hoare_prepare|by intros s [[? _] _]|done]. }
  2: { intros e s [Hi He]. apply Hnf; auto. }
  intros prepared.
  eapply (hoare_conseq _ (inv (loud h) (Fresh id :: work)) _ _ (attempted h id work)); [|by intros s [? _]|done].
  apply hoare_lift_nonfatal; [|done|].
  { intros e He. by destruct (verify _ _ _); simplify_eq/=. }
  intros v Hv. assert (verify prepared burn config = Ok v) as [Hvn Hvh]%verify_Ok_fields
    by (by destruct (verify _ _ _); simplify_eq/=).
  eapply hoare_bind; [apply hoare_gets| |by intros e s [_ ?]]. intros pair.
  eapply (hoare_bind _ _ _ (fun r s => inv (loud h) (Fresh id :: work) s /\ exists signed,
     r = Ok signed /\ forall sw, signed = Ok sw -> sw_verified sw = v)).
  { intros s [Hi _]. unfold world. destruct (sign v pair (at_world s)) as [signed w] eqn:Hs. simpl.
    split; [by apply inv_world|]. exists signed. split; [done|]. intros sw ->. by eapply sign_verified. }
  2: { by intros e s (_ & ? & ? & _). }
  intros signed. eapply (hoare_pure _ _ _ (forall sw, signed = Ok sw -> sw_verified sw = v)).
  { by intros s (_ & ? & [= <-] & ?). }
  intros Hsv. eapply (hoare_conseq _ (inv (loud h) (Fresh id :: work)) _ _ (attempted h id work)); [|by intros s [? _]|done].
  apply hoare_lift_nonfatal; [|done|].
  { intros e He. by destruct signed; simplify_eq/=. }
  intros sw Hsw. assert (sw_verified sw = v) as <- by (apply Hsv; by destruct signed; simplify_eq/=).
  by apply hoare_submit_signed.
Qed.

(** A hold finishes the burn; its error is reported on. *)
Lemma hoare_hold_failed h work burn error :
  hoare (inv (loud h) (Fresh (db_note_id burn) :: work)) (hold_failed burn error)
    (fun _ => inv (loud h) work).
Proof.
  unfold hold_failed. destruct (burn_hold_of error) as [[hold response] message].
  eapply (hoare_bind _ _ _ (fun _ => inv (loud h) work)); [|by intros u s ?|done].
  destruct hold as [reason|]; [|intros s Hi; by eapply inv_tail].
  apply hoare_convert, hoare_transact_now.
  - intros now s [] st Hi Hr. eapply inv_finish; [done| |by eapply hold_touches].
    eapply step_hold; [|done]. by destruct (work_cons _ _ _ (iv_work _ _ _ _ _ _ _ Hi)) as (_ & ? & _).
  - intros s e Hi. by eapply inv_tail.
Qed.

Lemma hoare_attempt_withdrawal h work burn :
  hoare (inv (quiet h) (Fresh (db_note_id burn) :: work)) (attempt_withdrawal burn)
    (fun _ => inv (loud h) work).
Proof.
  set (id := db_note_id burn). unfold attempt_withdrawal.
  eapply (hoare_bind _ _ _ (fun r s => match r with Ok r' => attempted h id work r' s | Err _ => False end));
    [apply hoare_attempt; exact (hoare_withdraw h work burn)| |done].
  intros [[]|error]; simpl; [by intros s|]. destruct (is_fatal error) eqn:Hf; [by intros s|].
  eapply (hoare_bind _ _ _ (fun r s =>
    (r = Ok false /\ inv (loud h) (Fresh id :: work) s) \/ (r <> Ok false /\ inv (loud h) work s))).
  - assert (Hno : hoare (E := SubmitError) (inv (loud h) (Fresh id :: work)) (done false)
      (fun r s => (r = Ok false /\ inv (loud h) (Fresh id :: work) s) \/ (r <> Ok false /\ inv (loud h) work s)))
      by (intros s ?; by left).
    repeat case_match; try exact Hno. by apply hoare_wait_for_limit.
  - intros [|].
    + by intros s [[Hx _]|[_ Hx]].
    + eapply hoare_conseq; [apply (hoare_hold_failed h work)| |done]. by intros s [[_ ?]|[? _]].
  - by intros e s [[Hx _]|[_ Hx]].
Qed.

Lemma hoare_submit_burns h burns rest first_error :
  hoare (inv (loud h) ((Fresh <$> (db_note_id <$> burns)) ++ rest)) (submit_burns burns first_error)
    (fun _ => inv (loud h) rest).
Proof.
  revert first_error. induction burns as [|burn burns IH]; intros first_error; [by intros s|].
  cbn [submit_burns fmap list_fmap app]. set (work := Fresh (db_note_id burn) :: _).
  assert (Hdrop : forall s, inv (loud h) work s -> inv (loud h) rest s).
  { intros s Hi. by apply (inv_drop _ (Fresh <$> (db_note_id <$> burn :: burns))). }
  apply hoare_after; [apply safe_admin_checkpoint| |intros e s; apply Hdrop]. intros _.
  eapply hoare_bind; [apply hoare_gets| |by intros e s [_ ?]].
  intros [|]; [intros s [Hi _]; by apply Hdrop|].
  eapply (hoare_conseq _ (inv (quiet h) work) _ _ (fun _ => inv (loud h) rest));
    [|intros s [Hi [= Hl]]; by apply inv_quieten|done].
  assert (Hdrop' : forall s, inv (quiet h) work s -> inv (loud h) rest s) by (intros s Hi; by apply Hdrop, inv_loud).
  apply hoare_after; [apply safe_convert, safe_limit_allows| |intros e s; apply Hdrop'].
  intros [|]; [|intros s; apply Hdrop'].
  eapply (hoare_bind _ _ _ (fun _ => inv (loud h) ((Fresh <$> (db_note_id <$> burns)) ++ rest))).
  - apply hoare_attempt, hoare_attempt_withdrawal.
  - intros [[]|error]; [apply IH|]. destruct (is_fatal error); [|apply IH].
    intros s Hi. eapply inv_drop, Hi.
  - intros e s Hi. eapply inv_drop, Hi.
Qed.
End submit.
