(* ===== verification/AttesterCycle.v ===== *)
(** Discovery authenticates each block against the one before it, and a whole cycle moves the store
    only by the store's own steps, whatever it returns. *)
From S2P Require Import Prelude Text Telemetry Foreign Wire Types Burn Store StoreFacts.
From S2P Require Import StoreInv StoreWf StoreScan StoreReads Config Verify Circle Signer.
From S2P Require Import Submission Admin Attester AttesterLogic AttesterSubmit.
Local Open Scope Z_scope.

(** ** Chains of blocks *)

Section chain.
Context `{MidenLib}.

(** The header the newest of [blocks] leaves, after [start]. *)
Definition last_header (start : BlockHeader) (blocks : list SignedBlock) : BlockHeader :=
  match blocks with [] => start | b :: _ => block_header b end.

(** Newest first: each block is the next height and validates against the header before it. *)
Fixpoint chained (start : BlockHeader) (blocks : list SignedBlock) : Prop :=
  match blocks with
  | [] => True
  | b :: blocks =>
      block_validate b (Some (last_header start blocks)) = true /\
      header_block_num (block_header b) = header_block_num (last_header start blocks) + 1 /\
      chained start blocks
  end.
End chain.

Section cycle.
Context `{ML : MidenLib, WL : WebLib, JL : JsonLib, EL : EthLib, KL : KeyLib}.
Context `{!MidenLaws, !WebLaws} {W : Type}.
Context `{!CircleApi W, !ChainReader W, !SignerApi W, !Clock W, !Inbox W}.
Context (config : Config) (anchor : TrustedAnchor) (st0 : Store) (tr0 : list Action).
Implicit Types s : Attester W.
Abbreviation inv := (inv config anchor st0 tr0).
Abbreviation quiet h := {| fr_scanned := h; fr_quiet := true |}.
Abbreviation loud h := {| fr_scanned := h; fr_quiet := false |}.

(** ** What a block yields *)

Lemma new_burn_notes_ok notes num faucet st :
  Forall (fun c => BurnCandidate_new (bc_note c) (bc_creation_block c) faucet = Ok c /\
                   bc_creation_block c = num)
    (new_burn_notes notes num faucet st).
Proof.
  induction notes as [|[n|] notes IH]; simpl; [constructor| |done].
  destruct (BurnCandidate_new n num faucet) as [c|e] eqn:Hc; [|done].
  destruct (note_known st (bc_note_id c)); [done|]. constructor; [|done].
  by pose proof (BurnCandidate_new_note _ _ _ _ Hc) as [-> ->].
Qed.

Lemma into_discovered_new faucet c num :
  BurnCandidate_new (bc_note c) (bc_creation_block c) faucet = Ok c ->
  DiscoveredBurn_new (db_note (into_discovered c num)) (db_creation_block (into_discovered c num))
    (db_consumption_block (into_discovered c num)) faucet = Ok (into_discovered c num).
Proof. intros Hc. unfold DiscoveredBurn_new. simpl. by rewrite Hc. Qed.

Lemma consumed_burns_ok st us num ds :
  store_wf anchor st -> consumed_burns us num st = Ok ds ->
  Forall (fun b => DiscoveredBurn_new (db_note b) (db_creation_block b) (db_consumption_block b)
                     (store_faucet st) = Ok b /\ 0 <= db_creation_block b) ds.
Proof.
  intros Hwf. revert ds. induction us as [|u us IH]; intros ds; simpl; [intros [= <-]; constructor|].
  intros Hr. inv_ok.
  match goal with E : candidate_by_nullifier _ _ = Ok ?oc |- _ =>
    pose proof (candidate_by_nullifier_Ok anchor _ _ _ Hwf E) as Hc; destruct oc as [c|] end.
  - constructor; [|by apply IH]. destruct (Hc c eq_refl). split; [by apply into_discovered_new|done].
  - by apply IH.
Qed.

(** ** Saving a block *)

Lemma found_scan_ok st block faucet cs ds :
  store_wf anchor st -> store_faucet st = faucet ->
  (forall h, checkpoint st = Ok (Some h) -> header_block_num h <= header_block_num (block_header block)) ->
  ta_block_num anchor <= header_block_num (block_header block) ->
  find_burns_in_block block faucet st = Ok (cs, ds) -> scan_ok anchor st cs ds (block_header block).
Proof.
  intros Hwf <- Hck Hanc Hf. unfold find_burns_in_block in Hf.
  destruct (consumed_burns _ _ _) as [ds'|] eqn:Hds; simpl in Hf; [|done]. injection Hf as <- ->.
  apply consumed_burns_ok in Hds; [|done].
  pose proof (new_burn_notes_ok (snd <$> concat (block_output_note_batches block))
    (header_block_num (block_header block)) (store_faucet st) st) as Hcs.
  pose proof (header_block_num_range (block_header block)) as Hrange. split_and!; [|done|done|lia..].
  eapply Forall_impl; [exact Hcs|]. simpl. intros c [Hn Hb]. split; [done|lia].
Qed.

Lemma checkpoint_anchor st h :
  store_wf anchor st -> checkpoint st = Ok (Some h) -> ta_block_num anchor <= header_block_num h.
Proof.
  intros Hwf (row & bts & Hrow & Hbts & Hd)%checkpoint_Some.
  destruct (so_checkpoint _ _ (wf_state _ _ Hwf) _ _ Hrow Hbts) as (h' & Hd' & Ha & _).
  rewrite Hd in Hd'. by injection Hd' as <-.
Qed.

Lemma hoare_save_block h bs q block :
  header_block_num h <= header_block_num (block_header block) ->
  hoare (inv {| fr_scanned := (h, bs); fr_quiet := q |} []) (save_block block)
    (fun r s => match r with
       | Ok _ => inv {| fr_scanned := (block_header block, block :: bs); fr_quiet := q |} [] s
       | Err _ => inv {| fr_scanned := (h, bs); fr_quiet := q |} [] s
       end).
Proof.
  intros Hle s Hi. unfold save_block, and_then, gets, convert, read_store, transact, trace, modify. simpl.
  rewrite (iv_config _ _ _ _ _ _ _ Hi).
  destruct (find_burns_in_block _ _ _) as [[cs ds]|e] eqn:Hf; simpl; [|done].
  destruct (save_scan_progress cs ds _ _) as [[[] st]|e] eqn:Hs; simpl; [|done].
  destruct Hi as [Hc Hfa Hwf Hst Hck Hbl Hw Htr Hq]. simpl in *.
  apply found_scan_ok in Hf as Hok; [|done|done| |].
  2: { intros h' Hh'. rewrite Hck in Hh'. by injection Hh' as <-. }
  2: { pose proof (checkpoint_anchor _ _ Hwf Hck). lia. }
  assert (Hstep : store_step anchor (at_store s) st) by (by eapply step_scan).
  eapply save_scan_progress_Ok in Hs as (st1 & row & Hsc & Hrow & ->); [|done..].
  split; simpl; try done.
  - destruct Hsc as [(_ & _ & _ & _ & ->) _ _ _ _]. done.
  - by eapply store_step_wf.
  - eauto with runs.
  - apply checkpoint_Some. eexists _, _. split; [done|]. split; [done|]. apply header_decode_encode.
  - unfold saved_blocks in *. simpl. by rewrite Hbl.
  - by split; constructor.
  - by apply trace_ok_other.
Qed.

(** ** Discovery *)

Definition discovered (h0 : BlockHeader) (q : bool) (s : Attester W) : Prop :=
  exists bs, inv {| fr_scanned := (last_header h0 bs, bs); fr_quiet := q |} [] s /\ chained h0 bs.

Lemma hoare_fetch {fr} num h :
  hoare (inv fr []) (fetch_and_verify_block num h)
    (fun r s => inv fr [] s /\ forall b, r = Ok b ->
       header_block_num (block_header b) = num /\ block_validate b (Some h) = true).
Proof.
  intros s Hi. unfold fetch_and_verify_block, and_then, world, lift.
  destruct (chain_block_by_number num (at_world s)) as [[b|e] w]; simpl.
  - destruct (_ || _) eqn:Hc; simpl; (split; [by apply inv_world|]); [done|].
    intros b' [= <-]. by bool_prop.
  - split; [by apply inv_world|done].
Qed.

Lemma hoare_scan_blocks h0 bs q k :
  0 <= k -> chained h0 bs ->
  hoare (inv {| fr_scanned := (last_header h0 bs, bs); fr_quiet := q |} [])
    (scan_blocks (seqZ (header_block_num (last_header h0 bs) + 1) k) (last_header h0 bs))
    (fun r s => discovered h0 q s).
Proof.
  intros Hk. revert bs. pattern k. apply natlike_ind; [|clear k Hk|done].
  { intros bs Hch s Hi. exists bs. done. }
  intros k Hk IH bs Hch. rewrite seqZ_cons by lia. cbn [scan_blocks].
  assert (Hsame : forall s, inv {| fr_scanned := (last_header h0 bs, bs); fr_quiet := q |} [] s ->
    discovered h0 q s) by (intros s Hi; by exists bs).
  apply hoare_after; [apply safe_admin_checkpoint| |intros e s; apply Hsame]. intros _.
  eapply hoare_bind; [apply hoare_fetch| |by intros e s [Hi _]; apply Hsame]. intros b.
  eapply (hoare_pure _ _ _ _); [intros s [_ Hb]; exact (Hb b eq_refl)|]. intros [Hn Hv].
  eapply (hoare_conseq _ (inv {| fr_scanned := (last_header h0 bs, bs); fr_quiet := q |} []) _ _
    (fun _ => discovered h0 q)); [|by intros s [? _]|done].
  eapply hoare_bind; [apply (hoare_save_block _ bs q b); lia| |].
  - intros u. change (block_header b) with (last_header h0 (b :: bs)).
    replace (Z.succ (header_block_num (last_header h0 bs) + 1)) with
      (header_block_num (last_header h0 (b :: bs)) + 1) by (simpl; lia).
    replace (Z.pred (Z.succ k)) with k by lia. apply IH. by split_and!.
  - intros e s. apply Hsame.
Qed.

Lemma at_checkpoint_inv h bs q work s :
  inv {| fr_scanned := (h, bs); fr_quiet := q |} work s -> at_checkpoint (at_store s) = Ok h.
Proof. intros Hi. unfold at_checkpoint. pose proof (iv_checkpoint _ _ _ _ _ _ _ Hi) as ->. done. Qed.

Lemma safe_check_checkpoint fr h : safe (inv fr []) (check_checkpoint h).
Proof.
  unfold check_checkpoint. apply safe_bind; [apply safe_world_inv|]. intros f.
  apply safe_bind; [apply safe_lift|]. intros b.
  destruct (negb _); [apply safe_throw|apply safe_done].
Qed.

Lemma hoare_discover h0 q :
  hoare (inv {| fr_scanned := (h0, []); fr_quiet := q |} []) discover_burns
    (fun _ => discovered h0 q).
Proof.
  set (fr := {| fr_scanned := (h0, []); fr_quiet := q |}).
  assert (Hsame : forall s, inv fr [] s -> discovered h0 q s) by (intros s Hi; by exists []).
  unfold discover_burns.
  apply hoare_after; [by apply safe_modify; intros; apply inv_tip| |intros e s; apply Hsame]. intros _.
  eapply hoare_bind; [apply hoare_read_convert| |intros e s [Hi _]; by apply Hsame]. intros h.
  eapply (hoare_pure _ _ _ (h = h0)).
  { intros s [Hi He]. by rewrite (at_checkpoint_inv h0 [] q [] s Hi) in He; simplify_eq/=. }
  intros ->. eapply (hoare_conseq _ (inv fr []) _ _ (fun _ => discovered h0 q)); [|by intros s [? _]|done].
  apply hoare_after; [apply safe_world_inv| |intros e s; apply Hsame]. intros limits.
  apply hoare_after; [apply safe_lift| |intros e s; apply Hsame]. intros lim. cbv zeta.
  apply hoare_after; [by apply safe_modify; intros; apply inv_tip| |intros e s; apply Hsame]. intros _.
  apply hoare_after; [apply safe_gets| |intros e s; apply Hsame]. intros c.
  destruct (Z.ltb_spec (latest_committed_block lim) (header_block_num h0)).
  { destruct (_ =? _); intros s; apply Hsame. }
  destruct (Z.eqb_spec (latest_committed_block lim) (header_block_num h0)).
  { apply hoare_after; [apply safe_check_checkpoint| |intros e' s; apply Hsame]. intros _ s. apply Hsame. }
  eapply (hoare_bind _ _ _ (fun _ => discovered h0 q)); [|by intros u s|done].
  unfold block_range. apply (hoare_scan_blocks h0 [] q); [lia|done].
Qed.

(** ** The work of a cycle *)

Lemma snapshot_work st to_recover to_poll :
  store_wf anchor st -> snapshot_submissions st = Ok (to_recover, to_poll) ->
  forall ready, NoDup (db_note_id <$> ready) -> Forall (eligible st) (db_note_id <$> ready) ->
  work_ok ((Pending Recovery <$> to_recover) ++ (Fresh <$> (db_note_id <$> ready)) ++ (Pending Recovery <$> to_poll)) st.
Proof.
  intros Hwf Hsnap ready Hnd Hel. unfold snapshot_submissions, submissions_to_recover, submissions_to_poll in Hsnap.
  rewrite !(select_submissions_wf anchor) in Hsnap by done. simpl in Hsnap. injection Hsnap as <- <-.
  assert (Hrow : forall status saved,
    saved ∈ ((fun r => saved_of r.1 r.2) <$> List.filter (submission_selected None (Some status)) (submission_rows st)) ->
    exists row, submissions st !! note_id saved = Some row /\ saved = saved_of (note_id saved) row /\
      s_status row = status).
  { intros status saved ([i r] & -> & [Hin Hsel]%elem_of_filter_list)%list_elem_of_fmap. simpl.
    apply elem_of_submission_rows in Hin. exists r. unfold submission_selected in Hsel. simpl in Hsel.
    by bool_prop. }
  assert (Hids : forall status, NoDup (note_id <$> ((fun r => saved_of r.1 r.2) <$>
    List.filter (submission_selected None (Some status)) (submission_rows st)))).
  { intros status. rewrite <-list_fmap_compose.
    eapply sublist_NoDup; [exact (submission_rows_NoDup st)|]. apply fmap_sublist, sublist_filter. }
  set (rec := _ <$> List.filter (submission_selected None (Some Submitting)) _).
  set (poll := _ <$> List.filter (submission_selected None (Some Submitted)) _).
  split.
  - rewrite !fmap_app, <-!list_fmap_compose. change (item_id ∘ Pending Recovery) with note_id.
    change (item_id ∘ Fresh) with (fun id : NoteId => id). apply NoDup_app. split; [apply Hids|]. split.
    { intros id Hin [Hf|Hp]%elem_of_app.
      - apply list_elem_of_fmap in Hin as (sv & -> & (row & Hr & _ & Hs)%Hrow).
        rewrite Forall_forall in Hel. specialize (Hel (note_id sv)).
        rewrite eligible_row in Hel. destruct Hel as (b & _ & _ & _ & Hna).
        { apply list_elem_of_fmap in Hf as (x & Hx & ?). apply list_elem_of_fmap. eauto. }
        specialize (Hna _ Hr). congruence.
      - apply list_elem_of_fmap in Hin as (sv & -> & (row & Hr & _ & Hs)%Hrow).
        apply list_elem_of_fmap in Hp as (sv' & He & (row' & Hr' & _ & Hs')%Hrow).
        rewrite He in Hr. congruence. }
    apply NoDup_app. split; [exact Hnd|]. split; [|apply Hids].
    intros id Hf (sv & -> & (row & Hr & _ & Hs)%Hrow)%list_elem_of_fmap.
    rewrite Forall_forall in Hel. specialize (Hel (note_id sv)).
    rewrite eligible_row in Hel. destruct Hel as (b & _ & _ & _ & Hna).
    { apply list_elem_of_fmap in Hf as (x & Hx & ?). apply list_elem_of_fmap. eauto. }
    specialize (Hna _ Hr). congruence.
  - rewrite !Forall_app, !Forall_fmap. split; [|split].
    + apply Forall_forall. intros sv (row & ? & ? & ?)%Hrow. split; [simpl; eauto|done].
    + rewrite Forall_fmap in Hel. exact Hel.
    + apply Forall_forall. intros sv (row & ? & ? & ?)%Hrow. split; [simpl; eauto|done].
Qed.

Lemma ready_burns_ok block c st ready :
  store_wf anchor st -> ready_burns block c st = Ok ready ->
  NoDup (db_note_id <$> ready) /\ Forall (eligible st) (db_note_id <$> ready).
Proof.
  intros Hwf. unfold ready_burns, burns_ready_for_withdrawal. intros Hr. inv_ok.
  destruct (_ : option BlockHeader) as [h|]; [|inv_ok; split; constructor].
  destruct (checked_sub _ _) as [last|]; [|inv_ok; split; constructor]. inv_ok.
  match goal with E : load_burns _ _ = Ok _ |- _ => apply (load_burns_ids anchor) in E as [Hnd Hel]; [|done] end.
  subst. split.
  - eapply sublist_NoDup; [exact Hnd|]. apply fmap_sublist, sublist_filter.
  - rewrite Forall_fmap in *. apply Forall_forall. intros d [Hd _]%elem_of_filter_list.
    rewrite Forall_forall in Hel. by apply Hel.
Qed.

Lemma inv_rework fr work work' s : inv fr work s -> work_ok work' (at_store s) -> inv fr work' s.
Proof. by intros []. Qed.

(** The phases after discovery, over the queued work. *)
Lemma hoare_phases h to_recover ready to_poll discover :
  hoare (inv (loud h) ((Pending Recovery <$> to_recover) ++ (Fresh <$> (db_note_id <$> ready)) ++ (Pending Recovery <$> to_poll)))
    (stopping RecoveryStopped (advance_submissions to_recover) ;*
     let* submit := stopping SubmissionStopped (submit_withdrawals ready) in
     stopping PollingStopped (advance_submissions to_poll) ;*
     done {| report_discover := discover; report_submit := submit |})
    (fun _ => inv (loud h) []).
Proof.
  eapply (hoare_bind _ _ _ (fun _ => inv (loud h) ((Fresh <$> (db_note_id <$> ready)) ++ (Pending Recovery <$> to_poll)))).
  - apply hoare_convert, hoare_advance_all.
  - intros u. eapply (hoare_bind _ _ _ (fun _ => inv (loud h) (Pending Recovery <$> to_poll))).
    + apply hoare_convert, hoare_submit_burns.
    + intros submit. eapply (hoare_bind _ _ _ (fun _ => inv (loud h) [])); [|by intros v s ?|done].
      apply hoare_convert. pose proof (hoare_advance_all config anchor st0 tr0 h to_poll []) as Hp.
      by rewrite app_nil_r in Hp.
    + intros e s Hi. eapply inv_drop. rewrite app_nil_r. exact Hi.
  - intros e s Hi. eapply inv_drop. rewrite app_nil_r. exact Hi.
Qed.

Lemma discovered_loud h0 q s : discovered h0 q s -> discovered h0 false s.
Proof. intros (bs & Hi & Hc). exists bs. split; [|done]. by destruct q; [apply inv_loud|]. Qed.

Lemma hoare_cycle h0 :
  hoare (inv (quiet (h0, [])) []) cycle (fun _ => discovered h0 false).
Proof.
  unfold cycle. eapply (hoare_bind _ _ _ (fun _ => discovered h0 true)).
  { apply hoare_attempt, hoare_discover. }
  2: { intros e s. apply discovered_loud. }
  intros r. apply hoare_after; [apply safe_lift| |intros e s; apply discovered_loud].
  intros [lag discover]. apply hoare_after; [apply safe_gets| |intros e s; apply discovered_loud].
  intros c s0 Hs0. pose proof Hs0 as (bs & Hi0 & Hch). revert s0 Hs0 Hi0. intros s0 _ Hi0.
  (* The rest runs on the scanned store, which it reads before anything changes. *)
  assert (Hrest : forall s, inv (loud (last_header h0 bs, bs)) [] s -> discovered h0 false s).
  { intros s Hi. by exists bs. }
  unfold and_then at 1, stopping at 1, convert, read_store at 1.
  destruct (snapshot_submissions (at_store s0)) as [[to_recover to_poll]|e] eqn:Hsnap; simpl;
    [|by apply Hrest, inv_loud].
  assert (Hgo : forall ready, NoDup (db_note_id <$> ready) ->
    Forall (eligible (at_store s0)) (db_note_id <$> ready) ->
    discovered h0 false ((stopping RecoveryStopped (advance_submissions to_recover) ;*
      let* submit := stopping SubmissionStopped (submit_withdrawals ready) in
      stopping PollingStopped (advance_submissions to_poll) ;*
      done {| report_discover := discover; report_submit := submit |}) s0).2).
  { intros ready Hnd Hel. apply Hrest.
    apply (hoare_phases (last_header h0 bs, bs) to_recover ready to_poll discover).
    apply (inv_rework _ []); [by apply inv_loud|].
    apply snapshot_work; [apply (iv_wf _ _ _ _ _ _ _ Hi0)|done..]. }
  unfold and_then at 1. destruct lag as [block|]; [|apply (Hgo []); constructor].
  unfold stopping at 1, convert, read_store. cbn beta.
  destruct (ready_burns block c (at_store s0)) as [ready|e] eqn:Hr; simpl;
    [|by apply Hrest, inv_loud].
  apply ready_burns_ok in Hr as [Hnd Hel]; [by apply Hgo|apply (iv_wf _ _ _ _ _ _ _ Hi0)].
Qed.
End cycle.
