(* ===== verification/AttesterRun.v ===== *)
(** The running service: between cycles the attester is at rest, every cycle and pause keeps it so,
    and its store only moves by the store's own steps. *)
From S2P Require Import Prelude Text Telemetry Foreign Wire Types Burn Store StoreFacts.
From S2P Require Import StoreInv StoreWf StoreScan StoreReads Config Verify Circle Signer.
From S2P Require Import Submission Admin Attester AttesterLogic AttesterSubmit.
From S2P Require Import AttesterCycle.
Local Open Scope Z_scope.

Section rest.
Context `{ML : MidenLib, WL : WebLib, JL : JsonLib, EL : EthLib, KL : KeyLib}.
Context `{!MidenLaws, !WebLaws} {W : Type}.
Context `{!CircleApi W, !ChainReader W, !SignerApi W, !Clock W, !Inbox W}.
Context (config : Config) (anchor : TrustedAnchor).
Implicit Types s : Attester W.

(** An attester between cycles. *)
Record at_rest (s : Attester W) : Prop := {
  ar_config : at_config s = config;
  ar_faucet : store_faucet (at_store s) = cfg_faucet_account_id config;
  ar_wf : store_wf anchor (at_store s);
  ar_checkpoint : exists h, checkpoint (at_store s) = Ok (Some h);
  ar_written : Forall written_ahead (at_trace s);
}.

(** From one resting state to the next, the store takes its own steps. *)
Definition moves (s s' : Attester W) : Prop :=
  at_rest s' /\ star (store_step anchor) (at_store s) (at_store s').

Lemma moves_trans s1 s2 s3 : moves s1 s2 -> moves s2 s3 -> moves s1 s3.
Proof. intros [_ H12] [Hr H23]. split; [done|]. by eapply star_trans. Qed.

Lemma inv_start s h q :
  at_rest s -> checkpoint (at_store s) = Ok (Some h) -> (q = true -> at_rate_limited s = false) ->
  inv config anchor (at_store s) (at_trace s) {| fr_scanned := (h, []); fr_quiet := q |} [] s.
Proof.
  intros [] Hh Hq. split; try done; [constructor|by split; constructor|apply trace_ok_refl].
Qed.

Lemma inv_rest s s' fr work :
  at_rest s -> inv config anchor (at_store s) (at_trace s) fr work s' -> moves s s'.
Proof.
  intros Hr Hi. split; [|apply (iv_steps _ _ _ _ _ _ _ Hi)]. split.
  - apply (iv_config _ _ _ _ _ _ _ Hi).
  - apply (iv_faucet _ _ _ _ _ _ _ Hi).
  - apply (iv_wf _ _ _ _ _ _ _ Hi).
  - eexists. apply (iv_checkpoint _ _ _ _ _ _ _ Hi).
  - destruct (iv_trace _ _ _ _ _ _ _ Hi) as (seg & -> & Hw & _). apply Forall_app.
    split; [done|apply (ar_written _ Hr)].
Qed.

Lemma rest_safe {E A} (m : run W E A) s :
  (forall st0 tr0 fr, safe (inv config anchor st0 tr0 fr []) m) -> at_rest s -> moves s (m s).2.
Proof.
  intros Hm Hr. destruct (ar_checkpoint _ Hr) as [h Hh].
  eapply inv_rest; [done|]. apply Hm. by apply (inv_start s h false).
Qed.

Lemma rest_same s s' :
  at_config s' = at_config s -> at_store s' = at_store s -> at_trace s' = at_trace s ->
  at_rest s -> moves s s'.
Proof. intros Hc Hs Ht []. split; [split; by rewrite ?Hc, ?Hs, ?Ht|rewrite Hs; constructor]. Qed.

(** ** Cycles *)

(** A cycle from a quiet rest: the store's steps, a chain of authenticated blocks, and no call to
    Circle after a 429. *)
Definition cycle_done (s s' : Attester W) : Prop :=
  moves s s' /\ trace_ok (at_trace s) (at_rate_limited s') (at_trace s') /\
  exists h bs, checkpoint (at_store s) = Ok (Some h) /\ chained h bs /\
    checkpoint (at_store s') = Ok (Some (last_header h bs)) /\
    saved_blocks (at_trace s') = bs ++ saved_blocks (at_trace s).

Lemma rest_cycle s :
  at_rest s -> at_rate_limited s = false -> cycle_done s (cycle s).2.
Proof.
  intros Hr Hf. destruct (ar_checkpoint _ Hr) as [h Hh].
  pose proof (hoare_cycle config anchor (at_store s) (at_trace s) h s) as (bs & Hi & Hc).
  { by apply inv_start. }
  split; [by eapply inv_rest|]. split; [apply (iv_trace _ _ _ _ _ _ _ Hi)|].
  exists h, bs. split; [done|]. split; [done|]. split.
  - apply (iv_checkpoint _ _ _ _ _ _ _ Hi).
  - apply (iv_blocks _ _ _ _ _ _ _ Hi).
Qed.

Lemma rest_progress s : at_rest s -> moves s (attempt (E' := CycleError) record_progress s).2.
Proof.
  intros Hr. apply rest_same; [| | |done]; unfold attempt, record_progress, and_then, read_store, world, gets, done;
    destruct (at_checkpoint (at_store s)) as [h|e]; simpl; try done;
    destruct (system_now (at_world s)) as [now w]; simpl; by destruct (first_limit_wait (at_store s)).
Qed.

Lemma rest_traced_cycle s :
  at_rest s -> at_rate_limited s = false -> moves s (traced_cycle s).2.
Proof.
  intros Hr Hf. destruct (rest_cycle s Hr Hf) as [Hm _].
  unfold traced_cycle, and_then at 1, attempt at 1. destruct (cycle s) as [outcome s1]. simpl in *.
  eapply moves_trans; [exact Hm|]. pose proof (rest_progress s1 (proj1 Hm)) as Hp.
  unfold and_then, lift. destruct (attempt record_progress s1) as [[p|e] s2]; exact Hp.
Qed.

Lemma moves_bind {E A B} (m : run W E A) (k : A -> run W E B) s :
  moves s (m s).2 -> (forall a s', moves s s' -> (m s) = (Ok a, s') -> moves s' (k a s').2) ->
  moves s (and_then m k s).2.
Proof.
  intros Hm Hk. unfold and_then. destruct (m s) as [[a|e] s'] eqn:Hs; simpl in *; [|done].
  eapply moves_trans; [done|]. by apply Hk.
Qed.

Lemma moves_refl s : at_rest s -> moves s s.
Proof. intros. split; [done|constructor]. Qed.

Lemma moves_world {E A} (f : W -> A * W) s : at_rest s -> moves s (world (E := E) f s).2.
Proof. intros. unfold world. destruct (f (at_world s)). by apply rest_same. Qed.

(** ** The run loop *)

Lemma rest_run fuel pause s : at_rest s -> moves s (run_cycles fuel pause s).2.
Proof.
  revert pause s. induction fuel as [|fuel IH]; intros pause s Hr; [by apply moves_refl|].
  cbn [run_cycles]. apply moves_bind; [by apply moves_world|]. intros stop s1 [Hr1 _] _.
  destruct stop.
  { apply moves_bind; [by apply rest_same|]. intros u s2 [? _] _. by apply moves_refl. }
  apply moves_bind.
  { apply rest_safe; [|done]. intros. apply safe_admin_checkpoint. }
  intros u s2 [Hr2 _] _. apply moves_bind; [by apply rest_same|]. intros v s3 [Hr3 _] Hs3.
  apply moves_bind.
  { apply rest_traced_cycle; [done|]. unfold modify in Hs3. by simplify_eq. }
  intros x s4 [Hr4 _] _. apply moves_bind; [by apply moves_refl|]. intros c s5 [Hr5 _] _.
  apply moves_bind; [by apply moves_refl|]. intros limited s6 [Hr6 _] _. cbv zeta.
  apply moves_bind; [by apply moves_refl|]. intros attached s7 [Hr7 _] _.
  apply moves_bind; [by apply moves_world|]. intros commands s8 [Hr8 _] _.
  apply moves_bind.
  { destruct attached; [|by apply moves_refl]. apply rest_safe; [|done]. intros. apply safe_handle_paused. }
  intros y s9 [Hr9 _] _. by apply IH.
Qed.

Lemma rest_service fuel s : at_rest s -> moves s (service_run fuel s).2.
Proof.
  intros Hr. unfold service_run. destruct (cfg_admin _); [|by apply rest_run].
  assert (moves s (attach_admin s)) as Ha by by apply rest_same.
  eapply moves_trans; [exact Ha|]. apply rest_run, Ha.
Qed.
End rest.

Section start.
Context `{ML : MidenLib, WL : WebLib, JL : JsonLib, EL : EthLib, KL : KeyLib}.
Context `{!MidenLaws, !WebLaws} {W : Type}.
Context `{!CircleApi W, !ChainReader W, !SignerApi W, !Clock W, !Inbox W}.

(** ** Startup *)

Lemma preflight_pinned config signers (w w' : W) block :
  preflight config signers w = (Ok block, w') -> is_pinned block (config_anchor config) = true.
Proof.
  unfold preflight. destruct (chain_check_connection w) as [[u|e] w1]; [|done].
  destruct (chain_account_exists _ w1) as [[[]|e] w2]; [|done..].
  destruct (chain_block_by_number _ w2) as [[b|e] w3]; [|done].
  destruct (is_pinned b _) eqn:Hp; [|done]. simpl.
  destruct (check_expected _ _); [|done]. destruct (circle_check_connection w3) as [[v|e] w4]; simpl; [|done].
  by intros [= <- _].
Qed.

(** The store a path can hold: one the service left. *)
Definition on_disk_ok (anchor : TrustedAnchor) (on_disk : option Store) : Prop :=
  match on_disk with Some st => store_wf anchor st | None => True end.

Lemma open_store_wf config on_disk st :
  on_disk_ok (config_anchor config) on_disk -> open_store config on_disk = Ok st ->
  store_wf (config_anchor config) st /\ store_faucet st = cfg_faucet_account_id config /\
  st = default (initialize_store (cfg_faucet_account_id config) (config_anchor config)) on_disk.
Proof.
  intros Hd Hr. unfold open_store in Hr. inv_ok. simplify_eq/=.
  match goal with E : open_or_create _ _ _ = Ok _ |- _ => rename E into Ho end.
  destruct on_disk as [st0|]; simpl in *.
  2: { injection Ho as <-. split; [apply initialize_wf|done]. }
  unfold open_existing in Ho. inv_ok.
  match goal with E : validate_store _ _ _ = Ok _ |- _ => rename E into Hv end.
  unfold validate_store in Hv. inv_ok. bool_prop.
  destruct (so_row _ _ (wf_state _ _ Hd)) as (row & Hrow & Hf & _). simplify_eq.
  assert (store_faucet st0 = cfg_faucet_account_id config) as <- by congruence.
  by destruct st0.
Qed.

Lemma start_rest config signers on_disk (w : W) s :
  on_disk_ok (config_anchor config) on_disk -> start config signers on_disk w = Ok s ->
  at_rest config (config_anchor config) s /\
  star (store_step (config_anchor config))
    (default (initialize_store (cfg_faucet_account_id config) (config_anchor config)) on_disk) (at_store s).
Proof.
  intros Hd Hr. unfold start in Hr. destruct (preflight config signers w) as [found w1] eqn:Hp.
  apply rbind_Ok in Hr as (block & -> & Hr). apply preflight_pinned in Hp.
  apply rbind_Ok in Hr as (st & Ho & Hr). apply open_store_wf in Ho as (Hwf & Hf & <-); [|done].
  apply rbind_Ok in Hr as (saved & Hck & Hr). apply map_err_Ok in Hck.
  unfold is_pinned in Hp. bool_prop. destruct saved as [h|].
  - unfold convert in Hr.
    assert (Hrest : at_rest config (config_anchor config) (new_attester config signers st w1))
      by (split; try done; by eexists).
    pose proof (rest_safe _ _ (check_checkpoint h) _
      (fun st0 tr0 fr => safe_check_checkpoint config (config_anchor config) st0 tr0 fr h) Hrest) as Hm.
    destruct (check_checkpoint h _) as [[u|e] s1]; simpl in *; [|done]. injection Hr as <-. exact Hm.
  - unfold convert, save_block, and_then, gets, convert, read_store, transact, trace, modify in Hr. simpl in Hr.
    destruct (find_burns_in_block _ _ _) as [[cs ds]|e] eqn:Hfb; simpl in Hr; [|done].
    destruct (save_scan_progress cs ds _ _) as [[[] st']|e] eqn:Hs; simpl in Hr; [|done].
    injection Hr as <-. simpl.
    apply (found_scan_ok (config_anchor config)) in Hfb as Hok; [|done|done| |].
    2: { intros h Hh. congruence. }
    2: { match goal with E : header_block_num _ = _ |- _ => rewrite E end. simpl. lia. }
    assert (Hstep : store_step (config_anchor config) st st') by (by eapply step_scan).
    split; [|auto with runs]. split; simpl; try done.
    + eapply save_scan_progress_Ok in Hs as (st1 & row & [(_ & _ & _ & _ & Hsf) _ _ _ _] & _ & ->);
        [|done..]. simpl. by rewrite Hsf.
    + by eapply store_step_wf.
    + eapply save_scan_progress_Ok in Hs as (st1 & row & _ & _ & ->); [|done..].
      eexists. apply checkpoint_Some. eexists _, _. split; [done|]. split; [done|]. apply header_decode_encode.
    + by repeat constructor.
Qed.
End start.
