(* ===== verification/Sample.v ===== *)
(** Concrete instances of the model's parameters, with their laws, and runs of the attester over them. *)
From S2P Require Import Prelude Text Telemetry Foreign Wire Types Burn Store StoreFacts.
From S2P Require Import StoreInv StoreWf StoreScan StoreReads Config Verify Circle Signer.
From S2P Require Import Submission Admin Attester AttesterLogic AttesterSubmit.
From S2P Require Import AttesterCycle AttesterRun.
From Stdlib Require Import Ascii.
Local Open Scope Z_scope.

Definition sample_faucet : AccountId := [7].
Definition all_bytes (b : bytes) : bool := forallb (fun x => bool_decide (is_byte x)) b.
Definition left_pad (n : nat) (x : Z) (b : bytes) : bytes := repeat x (n - length b) ++ b.

(** A note is one character: it fixes the note's ID, its nullifier, its amount and its
    destination. *)
Inductive SampleAttachment : Type := Routing | Withdrawal (domain : Z).
Record SampleBlock := { sb_num : Z; sb_notes : list ascii; sb_spent : list ascii }.
#[local] Instance ascii_eq_dec : EqDecision ascii := ascii_dec.

Definition sample_note_id (a : ascii) : NoteId := left_pad 32 0 [code a].
Definition sample_nullifier (a : ascii) : Nullifier := left_pad 32 1 [code a].
Definition sample_amount (a : ascii) : Z := code a * 1000000.

#[export] Instance sample_miden : MidenLib := {|
  PublicOutputNote := ascii;
  Attachment := SampleAttachment;
  Asset := Z;
  BurnItems := Z;
  BlockHeader := Z;
  SignedBlock := SampleBlock;
  note_id_of := sample_note_id;
  note_nullifier := sample_nullifier;
  note_to_bytes := fun a => [code a];
  note_read := fun b => match b with [x] => Some (ascii_of_N (Z.to_N x)) | _ => None end;
  note_sender := fun a => [9];
  note_script_root := fun a => [1];
  note_num_attachments := fun a => 2;
  note_find_attachment := fun a s => if s =? 1 then Some Routing else None;
  note_attachments := fun a => [Routing; Withdrawal 0];
  note_assets := fun a => [sample_amount a];
  note_storage_items := fun a => [sample_amount a];
  xreserve_burn_script_root := [1];
  network_account_target_scheme := 1;
  xreserve_burn_withdrawal_attachment_scheme := 2;
  attachment_scheme := fun x => match x with Routing => 1 | Withdrawal _ => 2 end;
  network_account_target := fun x => match x with Routing => Some sample_faucet | _ => None end;
  xusdc_burn_items := fun x => match x with Withdrawal d => Some d | _ => None end;
  dest_domain := fun d => d;
  dest_recipient := fun d => repeat 17 32;
  asset_is_fungible := fun a => true;
  asset_faucet_id := fun a => sample_faucet;
  asset_as_elements := fun a => [a];
  asset_amount := fun a => a;
  account_id_bytes32 := left_pad 32 0;
  miden_domain := 10001;
  usdcx_decimals := 6;
  asset_amount_new := fun v => if v <=? i64_max then Some v else None;
  account_id_from_hex := of_hex;
  account_id_to_hex := to_hex;
  word_parse := of_hex;
  word_to_hex := to_hex;
  endpoint_try_from := Some;
  canonical_word := fun b => all_bytes b && Nat.eqb (length b) 32;
  canonical_account_id := all_bytes;
  note_id_to_hex := to_hex;
  note_id_to_string := to_hex;
  note_id_try_from_hex := fun s =>
    match of_hex s with Some b => if Nat.eqb (length b) 32 then Some b else None | None => None end;
  note_id_order := fun b => b;
  header_block_num := wrap 32;
  header_commitment := be_bytes 32;
  header_timestamp := fun h => 0;
  header_encode := fun h => [h];
  header_decode := fun b => match b with [h] => Some h | _ => None end;
  block_header := sb_num;
  block_output_note_batches := fun b => [(fun a => (0, Public a)) <$> sb_notes b];
  block_transactions := fun b =>
    [{| tx_account_id := sample_faucet; tx_input_nullifiers := sample_nullifier <$> sb_spent b |}];
  block_validate := fun b parent => match parent with None => true | Some h => sb_num b =? h + 1 end;
|}.

Lemma sample_word_bytes x a :
  0 <= x < 256 -> all_bytes (left_pad 32 x [code a]) && Nat.eqb (length (left_pad 32 x [code a])) 32 = true.
Proof.
  intros Hx. apply andb_true_iff. split; [|done]. unfold all_bytes, left_pad.
  rewrite forallb_app. apply andb_true_iff. split.
  - apply forallb_forall. intros y ->%repeat_spec. by apply bool_decide_eq_true_2.
  - simpl. rewrite bool_decide_eq_true_2; [done|]. apply code_range.
Qed.

Lemma all_bytes_Forall b : all_bytes b = true -> Forall is_byte b.
Proof.
  unfold all_bytes. rewrite forallb_forall, Forall_forall. intros Hb x Hx%list_elem_of_In.
  specialize (Hb x Hx). by bool_prop.
Qed.

#[export] Instance sample_miden_laws : MidenLaws.
Proof.
  split.
  - intros a. simpl. unfold code. by rewrite N2Z.id, ascii_N_embedding.
  - intros a. exact (sample_word_bytes 0 a ltac:(lia)).
  - intros a. exact (sample_word_bytes 1 a ltac:(lia)).
  - simpl. intros id Hid. bool_prop. rewrite of_to_hex by by apply all_bytes_Forall.
    match goal with E : Nat.eqb _ _ = true |- _ => by rewrite E end.
  - done.
  - intros h. simpl. unfold wrap, u32_max. pose proof (Z.mod_pos_bound h (2 ^ 32)). lia.
Qed.

(** URLs live under one host. *)
Definition sample_host : string := "https://circle".
Definition fixed_hex (n : nat) (s : string) : option bytes :=
  match of_hex s with Some b => if Nat.eqb (length b) n then Some b else None | None => None end.
Definition sample_hash (b : bytes) : B256 :=
  be_bytes 32 (foldl (fun acc x => (acc * 257 + x + 1) mod 2 ^ 256) 0 b).

#[export] Instance sample_web : WebLib := {|
  url_parse := Some;
  url_scheme := fun u => if starts_with (str_list u) (str_list "https://") then "https"%string else ""%string;
  url_has_host := fun u => starts_with (str_list u) (str_list sample_host);
  url_path := fun u => list_str (drop (length (str_list sample_host)) (str_list u));
  url_join := fun u s => Some (sample_host +:+ s)%string;
  url_push_segment := fun u s => Some (u +:+ "/" +:+ s)%string;
  status_code_ok := fun c => (100 <=? c) && (c <=? 999);
  status_display := fun c => list_str (to_decimal c);
  parse_b256 := fixed_hex 32;
  parse_address := fixed_hex 20;
  parse_hex_bytes := of_hex;
  keccak256 := sample_hash;
|}.

Lemma fixed_hex_length n s b : fixed_hex n s = Some b -> length b = n.
Proof.
  unfold fixed_hex. destruct (of_hex s); [|done]. destruct (Nat.eqb_spec (length l) n); [|done].
  by intros [= <-].
Qed.

#[export] Instance sample_web_laws : WebLaws.
Proof.
  split.
  - done.
  - intros b. exact (be_bytes_length 32 _).
  - intros s b. apply fixed_hex_length.
  - intros s b. apply fixed_hex_length.
  - intros c Hc. apply andb_true_iff. split; apply Z.leb_le; lia.
Qed.

(** ** Circle's replies *)

Definition bytes_str (b : bytes) : string := list_str ((fun x => ascii_of_N (Z.to_N x)) <$> b).

Lemma bytes_str_bytes s : bytes_str (str_bytes s) = s.
Proof.
  unfold bytes_str, str_bytes. rewrite <-list_fmap_compose.
  assert (Hid : forall l : list ascii, ((fun x => ascii_of_N (Z.to_N x)) ∘ code) <$> l = l).
  { induction l as [|a l IH]; simpl; [done|]. f_equal; [|done]. unfold code. by rewrite N2Z.id, ascii_N_embedding. }
  by rewrite Hid, list_str_list.
Qed.

Definition sample_withdrawal_id : string := "00000000-0000-0000-0000-000000000001".
(** The body's text decides what it decodes as. *)
Definition sample_reply (status : string) (note : NoteId) (hash : B256) : WithdrawalResponse :=
  {| wr_withdrawal_id := sample_withdrawal_id; wr_burn_note_id := to_hex note; wr_status := status;
     wr_transfer_spec_hashes := [to_hex hash]; wr_failure_reason := None |}.

(** A reply body is a status word, ["@"], the note's hex and the hash's hex. *)
Definition reply_body (status : string) (note : NoteId) (hash : B256) : bytes :=
  str_bytes (status +:+ "@" +:+ to_hex note +:+ to_hex hash).
Fixpoint split_at (l : list ascii) : option (list ascii * list ascii) :=
  match l with
  | [] => None
  | a :: l => if bool_decide (a = "@"%char) then Some ([], l)
              else match split_at l with Some (x, y) => Some (a :: x, y) | None => None end
  end.
Definition read_sample (b : bytes) : option WithdrawalResponse :=
  match split_at (str_list (bytes_str b)) with
  | Some (status, rest) =>
      note ← of_hex (list_str (take 66 rest));
      hash ← of_hex (list_str (drop 66 rest));
      Some (sample_reply (list_str status) note hash)
  | None => None
  end.

#[export] Instance sample_json : JsonLib := {|
  json_value := fun b =>
    if bool_decide (bytes_str b = "limit") then
      Some (VObject [("message"%string, VString "Withdrawal limit reached")])
    else if bool_decide (bytes_str b = "refused") then
      Some (VObject [("message"%string, VString "Bad request")])
    else None;
  json_withdrawal := read_sample;
  json_withdrawals := fun b => match read_sample b with Some w => Some [w] | None => None end;
  json_conflict := fun b => None;
  json_prepare := fun b => None;
  json_saved_burn_tx_id := fun b => Some (bytes_str b);
  json_saved_intent := fun b => None;
  json_one_withdrawal := read_sample;
  json_text := fun v => "{}"%string;
  json_submission := fun intent s1 s2 id => Some (str_bytes id);
|}.

#[export] Instance sample_json_laws : JsonLaws.
Proof. split. simpl. intros intent s1 s2 id body [= <-]. by rewrite bytes_str_bytes. Qed.

#[export] Instance sample_circle_json : CircleJson := {|
  json_prepare_request := fun b => str_bytes (pq_salt b);
|}.

#[export] Instance sample_eth : EthLib := {|
  cctp_decode := fun b => None;
  cctp_encode := fun c => [];
  redeposit_decode := fun b => None;
  redeposit_encode := fun c => [];
  signing_hash := fun i => be_bytes 32 (value (spec i) + maxFee i);
|}.

#[export] Instance sample_keys : KeyLib := {|
  sec1_valid := fun k => Nat.eqb (length k) 33;
  address_from_public_key := fun k => drop 13 k;
  public_key_from_der := Some;
  EcdsaSignature := bytes;
  ecdsa_from_der := Some;
  ecdsa_normalize_s := fun s => None;
  ecdsa_verify_prehash := fun k d s => bool_decide (s = d);
  ecdsa_trial_recovery := fun k d s => Some (false, false);
  signature_text := fun s y => to_hex s;
|}.

(** ** A scripted world *)

Record SampleWorld := {
  w_now : Z;
  w_tip : Z;
  w_blocks : list SampleBlock;
  w_prepare : list (result CircleError UnverifiedPrepareResponse);
  w_post : list (result CircleError RawResponse);
  w_get : list (result CircleError RawResponse);
  w_commands : list Command;
}.
Definition pop {A} (l : list A) (d : A) : A * list A := match l with [] => (d, []) | a :: l => (a, l) end.

(** A scripted reply the client would pass on; any other reads as a malformed one. *)
Definition passed (r : result CircleError RawResponse) : result CircleError RawResponse :=
  match r with
  | Ok reply =>
      if negb (rr_status reply =? TOO_MANY_REQUESTS) && status_code_ok (rr_status reply)
         && (Z.of_nat (length (rr_body reply)) <=? MAX_RESPONSE_BODY_BYTES)
      then r else Err InvalidResponse
  | Err _ => r
  end.
Lemma passed_ok r : reply_ok (passed r).
Proof.
  destruct r as [reply|]; simpl; [|done]. destruct (_ && _) eqn:Hp; simpl; [|done].
  apply andb_true_iff in Hp as [Hp Hb%Z.leb_le]. apply andb_true_iff in Hp as [Hn Hs].
  apply negb_true_iff, Z.eqb_neq in Hn. split; [exact Hn|]. split; [exact Hs|exact Hb].
Qed.

#[export] Instance sample_circle : CircleApi SampleWorld := {|
  circle_check_connection := fun w => (Ok tt, w);
  circle_prepare_withdrawal := fun burn fee w =>
    let '(r, l) := pop (w_prepare w) (Err Unavailable) in
    (r, {| w_now := w_now w; w_tip := w_tip w; w_blocks := w_blocks w; w_prepare := l;
           w_post := w_post w; w_get := w_get w; w_commands := w_commands w |});
  circle_post_submission := fun saved w =>
    let '(r, l) := pop (w_post w) (Err Unavailable) in
    (passed r, {| w_now := w_now w; w_tip := w_tip w; w_blocks := w_blocks w; w_prepare := w_prepare w;
           w_post := l; w_get := w_get w; w_commands := w_commands w |});
  circle_get_withdrawal := fun saved id w =>
    let '(r, l) := pop (w_get w) (Err Unavailable) in
    (passed r, {| w_now := w_now w; w_tip := w_tip w; w_blocks := w_blocks w; w_prepare := w_prepare w;
           w_post := w_post w; w_get := l; w_commands := w_commands w |});
|}.

#[export] Instance sample_circle_laws : CircleLaws SampleWorld.
Proof.
  split; intros; simpl; [destruct (pop (w_post w) _)|destruct (pop (w_get w) _)]; apply passed_ok.
Qed.

#[export] Instance sample_chain : ChainReader SampleWorld := {|
  chain_check_connection := fun w => (Ok tt, w);
  chain_account_exists := fun a w => (Ok true, w);
  chain_scan_limits := fun w => (Ok {| latest_committed_block := w_tip w; proof_lag_block := w_tip w |}, w);
  chain_block_by_number := fun n w =>
    (match List.find (fun b => sb_num b =? n) (w_blocks w) with Some b => Ok b | None => Err Rpc end, w);
|}.

#[export] Instance sample_signers : SignerApi SampleWorld := {|
  signer_public_key := fun h w => (Ok (left_pad 33 2 (str_bytes h)), w);
  signer_sign_digest := fun h d w => (Ok h, w);
|}.

#[export] Instance sample_clock : Clock SampleWorld := {|
  system_now := fun w => (w_now w, w);
  unixepoch := fun w => (w_now w / NANOS, w);
|}.

#[export] Instance sample_inbox : Inbox SampleWorld := {|
  admin_cancelled := fun w => (false, w);
  inbox_try_recv := fun w =>
    match w_commands w with
    | [] => (RecvEmpty, w)
    | c :: l => (RecvCommand c,
        {| w_now := w_now w; w_tip := w_tip w; w_blocks := w_blocks w; w_prepare := w_prepare w;
           w_post := w_post w; w_get := w_get w; w_commands := l |})
    end;
  inbox_while_paused := fun d w => ([], w);
  shutdown_cancelled := fun w => (false, w);
|}.

(** ** A sample configuration *)

Definition sample_config : Config := {|
  cfg_admin := Some "/run/attester/admin.sock";
  cfg_kms := {| kms_region := "us"; kms_key_arns := ("k1", "k2"); kms_operation_timeout := NANOS |};
  cfg_miden_rpc_url := "https://node";
  cfg_circle_request_timeout := NANOS;
  cfg_faucet_account_id := sample_faucet;
  cfg_circle_api_base_url := sample_host;
  cfg_max_withdrawal_fee := 1100000;
  cfg_max_withdrawal_fee_bps := 3;
  cfg_cctp_forwarding := {| cf_max_fee := 500000; cf_forwarder := repeat 5 20; cf_token_messenger := repeat 6 20 |};
  cfg_xreserve_deposit_max_fee := None;
  cfg_poll_interval := NANOS;
  cfg_withdrawal_limit :=
    Some {| wl_message_prefix := "Withdrawal limit"; wl_retry_interval := 300 * NANOS |};
  cfg_trusted_anchor_block := 10;
  cfg_trusted_anchor_commitment := be_bytes 32 10;
  cfg_minimum_finality_depth_blocks := 1;
  cfg_expected_signing_public_keys_hex :=
    [to_hex (left_pad 33 2 (str_bytes "k1")); to_hex (left_pad 33 2 (str_bytes "k2"))];
  cfg_store_path := "store.db";
|}.
Definition sample_anchor : TrustedAnchor := config_anchor sample_config.

(** ** A sample withdrawal: note "A", burned for Ethereum, over the direct route *)

Definition note_A : ascii := "A"%char.
Definition sample_intent : BurnIntent := {|
  bi_max_block_height := "1000000";
  bi_max_fee := "4350";
  bi_spec := {|
    ts_version := 1; ts_source_domain := 26; ts_destination_domain := 0;
    ts_source_contract := to_hex (repeat 33 32); ts_destination_contract := to_hex (repeat 34 32);
    ts_source_token := to_hex (into_word ARC_USDC); ts_destination_token := to_hex (repeat 35 32);
    ts_source_depositor := to_hex (repeat 36 32); ts_destination_recipient := to_hex (repeat 17 32);
    ts_source_signer := to_hex (repeat 36 32); ts_destination_caller := to_hex B256_ZERO;
    ts_value := "64995650"; ts_salt := to_hex (sample_note_id note_A);
    ts_hook_data := {|
      hd_remote_domain := 10001;
      hd_remote_depositor := to_hex (left_pad 32 0 [9]);
      hd_remote_token := to_hex (left_pad 32 0 sample_faucet);
      hd_forwarding_contract_address := to_hex address_zero;
      hd_forwarding_calldata := "0x" |} |} |}.

Definition sample_parsed : option (IntentFields * HookData) :=
  match parse_intent sample_intent with Ok p => Some p | Err _ => None end.
Definition sample_prepared : UnverifiedPrepareResponse :=
  match sample_parsed with
  | Some (i, _) =>
      {| pr_batches := [{| pb_burn_intents := [sample_intent];
           pb_encoded := match BurnIntent_encode i with Ok b => to_hex b | Err _ => "" end;
           pb_message_hash_to_sign := to_hex (signing_hash i) |}] |}
  | None => {| pr_batches := [] |}
  end.
Definition sample_spec_hash : B256 :=
  match sample_parsed with
  | Some (i, _) => match TransferSpec_hash (spec i) with Ok h => h | Err _ => [] end
  | None => []
  end.
Definition sample_burn : DiscoveredBurn :=
  {| db_note := note_A; db_creation_block := 11; db_consumption_block := 12; db_items := 0;
     db_amount := sample_amount note_A |}.

Definition sample_chain_blocks : list SampleBlock :=
  [{| sb_num := 10; sb_notes := []; sb_spent := [] |};
   {| sb_num := 11; sb_notes := ["A"%char; "B"%char]; sb_spent := [] |};
   {| sb_num := 12; sb_notes := []; sb_spent := ["A"%char] |};
   {| sb_num := 13; sb_notes := []; sb_spent := [] |}].

(** A world whose Circle prepares note A and gives this answer to the submission. *)
Definition sample_world (post : list (result CircleError RawResponse))
    (get : list (result CircleError RawResponse)) : SampleWorld :=
  {| w_now := 1000 * NANOS; w_tip := 13; w_blocks := sample_chain_blocks;
     w_prepare := [Ok sample_prepared]; w_post := post; w_get := get; w_commands := [] |}.
Definition accepted : result CircleError RawResponse :=
  Ok {| rr_status := 201; rr_body := reply_body "created" (sample_note_id note_A) sample_spec_hash |}.
Definition finalized : result CircleError RawResponse :=
  Ok {| rr_status := 200; rr_body := reply_body "finalized" (sample_note_id note_A) sample_spec_hash |}.
Definition sample_pair : SignerPair :=
  {| sp_signers := ("k1", "k2");
     sp_public_keys := (left_pad 33 2 (str_bytes "k1"), left_pad 33 2 (str_bytes "k2")) |}.

Definition sample_start (w : SampleWorld) : result StartError (Attester SampleWorld) :=
  start sample_config sample_pair None w.
(** The attester after startup and [n] cycles. *)
Definition sample_run (n : nat) (w : SampleWorld) : option (Attester SampleWorld) :=
  match sample_start w with
  | Ok s => Some (run_cycles n (cfg_poll_interval sample_config) s).2
  | Err _ => None
  end.
Definition sample_status (s : option (Attester SampleWorld)) (a : ascii) : option SubmissionStatus :=
  s ← s; row ← submissions (at_store s) !! sample_note_id a; Some (s_status row).

Example sample_verifies : is_ok (verify sample_prepared sample_burn sample_config) = true.
Proof. vm_compute. reflexivity. Qed.
Example sample_starts : is_ok (sample_start (sample_world [] [])) = true.
Proof. vm_compute. reflexivity. Qed.
Example sample_submits : sample_status (sample_run 1 (sample_world [accepted] [])) note_A = Some Submitted.
Proof. vm_compute. reflexivity. Qed.
Example sample_finalizes :
  sample_status (sample_run 2 (sample_world [accepted] [finalized])) note_A = Some Finalized.
Proof. vm_compute. reflexivity. Qed.

(** The attester [start] leaves on an empty path in world [w], or in a dead state if it fails. *)
Definition sample_started (w : SampleWorld) : Attester SampleWorld :=
  match sample_start w with
  | Ok s => s
  | Err _ => new_attester sample_config sample_pair (initialize_store sample_faucet sample_anchor) w
  end.
(** After [n] more cycles. *)
Definition sample_after (n : nat) (w : SampleWorld) : Attester SampleWorld :=
  (service_run n (sample_started w)).2.

(** Circle refuses note A's first submission; a later operator release lets it be sent again. *)
Definition refused_reply : result CircleError RawResponse :=
  Ok {| rr_status := 400; rr_body := str_bytes "refused" |}.
(** Circle's withdrawal limit. *)
Definition limit_reached : result CircleError RawResponse :=
  Ok {| rr_status := 400; rr_body := str_bytes "limit" |}.
Definition rate_limited : result CircleError RawResponse := Ok {| rr_status := 429; rr_body := [] |}.

Definition world_accepts : SampleWorld := sample_world [accepted] [finalized].
Definition world_refuses : SampleWorld := sample_world [refused_reply] [].
Definition world_limits : SampleWorld := sample_world [limit_reached] [].

Lemma world_accepts_starts : is_ok (sample_start world_accepts) = true.
Proof. vm_compute. reflexivity. Qed.
Lemma world_refuses_starts : is_ok (sample_start world_refuses) = true.
Proof. vm_compute. reflexivity. Qed.
Lemma world_limits_starts : is_ok (sample_start world_limits) = true.
Proof. vm_compute. reflexivity. Qed.

Lemma sample_start_Ok w :
  is_ok (sample_start w) = true ->
  start sample_config sample_pair None w = Ok (sample_started w).
Proof. unfold sample_started, sample_start. by destruct (start _ _ _ _). Qed.

(** Every store of a sample run is reached from the empty one by the store's own steps. *)
Lemma sample_reachable n w :
  is_ok (sample_start w) = true ->
  star (store_step sample_anchor) (initialize_store sample_faucet sample_anchor)
    (at_store (sample_after n w)).
Proof.
  intros Hs%sample_start_Ok.
  destruct (start_rest sample_config sample_pair None w (sample_started w) I Hs) as [Hr H1].
  eapply star_trans; [exact H1|]. apply (rest_service _ _ n _ Hr).
Qed.
