(* ===== verification/ServiceProps.v ===== *)
(** Properties of the running service: what is on disk when a withdrawal goes out, what a store can
    hold after any run or crash, what a cycle authenticates, and when a run ends. *)
From S2P Require Import Prelude Text Telemetry Foreign Wire Types Burn Store StoreFacts.
From S2P Require Import StoreInv StoreWf StoreScan StoreReads Config Verify Circle Signer.
From S2P Require Import Submission Admin Attester AttesterLogic AttesterSubmit.
From S2P Require Import AttesterCycle AttesterRun Sample.
Local Open Scope Z_scope.

Section service.
Context `{ML : MidenLib, WL : WebLib, JL : JsonLib, EL : EthLib, KL : KeyLib}.

(** What the store's path can hold when the service starts: nothing, or a store some sequence of
    committed transactions left there. A crash leaves such a store too. *)
Definition recorded (config : Config) (on_disk : option Store) : Prop :=
  match on_disk with
  | None => True
  | Some st =>
      star (store_step (config_anchor config))
        (initialize_store (cfg_faucet_account_id config) (config_anchor config)) st
  end.

(** The configured faucet and anchor are an [AccountId], a block number and a [Word]. *)
Record pins_canonical (config : Config) : Prop := {
  pin_faucet : canonical_account_id (cfg_faucet_account_id config) = true;
  pin_block : 0 <= cfg_trusted_anchor_block config <= u32_max;
  pin_commitment : canonical_word (cfg_trusted_anchor_commitment config) = true;
}.

Context `{!MidenLaws, !WebLaws} {W : Type}.
Context `{!CircleApi W, !ChainReader W, !SignerApi W, !Clock W, !Inbox W}.
Implicit Types s : Attester W.

Lemma recorded_ok config on_disk :
  recorded config on_disk -> on_disk_ok (config_anchor config) on_disk.
Proof. destruct on_disk; [|done]. apply reachable_wf. Qed.

Lemma recorded_start config signers on_disk (w : W) s :
  recorded config on_disk -> start config signers on_disk w = Ok s ->
  at_rest config (config_anchor config) s /\ recorded config (Some (at_store s)).
Proof.
  intros Hd Hs. destruct (start_rest config signers on_disk w s) as [Hr Hst]; [|done|].
  { by apply recorded_ok. }
  split; [done|]. eapply star_trans; [|exact Hst]. destruct on_disk; [exact Hd|constructor].
Qed.

Lemma recorded_run config signers on_disk (w : W) s fuel :
  recorded config on_disk -> start config signers on_disk w = Ok s ->
  at_rest config (config_anchor config) (service_run fuel s).2 /\
  recorded config (Some (at_store (service_run fuel s).2)).
Proof.
  intros Hd Hs. destruct (recorded_start _ _ _ _ _ Hd Hs) as [Hr Hst].
  destruct (rest_service config (config_anchor config) fuel s Hr) as [Hr' Hst'].
  split; [done|]. by eapply star_trans.
Qed.

(** C1. Write ahead: at every POST of a withdrawal to Circle, in any run of the service from any
    store it can have left and against any node, Circle, signers and operator, the store on disk
    already holds that exact request (endpoint, body and spec hash), as one still being sent and
    without a withdrawal ID. *)
Theorem service_writes_ahead config signers on_disk (w : W) s fuel saved st limited :
  recorded config on_disk -> start config signers on_disk w = Ok s ->
  Called (CallPost saved) st limited ∈ at_trace (service_run fuel s).2 ->
  exists row, submissions st !! note_id saved = Some row /\
    s_endpoint row = sub_endpoint saved /\ s_body row = body saved /\
    s_transfer_spec_hash row = transfer_spec_hash saved /\ s_withdrawal_id row = None /\
    s_status row = Submitting.
Proof.
  intros Hd Hs Hin. destruct (recorded_run _ _ _ _ _ fuel Hd Hs) as [Hr _].
  pose proof (ar_written _ _ _ Hr) as Hw. rewrite Forall_forall in Hw. by apply (Hw _ Hin).
Qed.

(** C5. Refinement: however many cycles the service runs, its store is reached from an empty one
    by the abstract store's own steps, and the service can open it again, unchanged. *)
Theorem service_refines_store config signers on_disk (w : W) s fuel :
  pins_canonical config -> recorded config on_disk -> start config signers on_disk w = Ok s ->
  let st := at_store (service_run fuel s).2 in
  star (store_step (config_anchor config))
    (initialize_store (cfg_faucet_account_id config) (config_anchor config)) st /\
  open_or_create (Some st) (cfg_faucet_account_id config) (config_anchor config) = Ok st.
Proof.
  intros [] Hd Hs st. destruct (recorded_run _ _ _ _ _ fuel Hd Hs) as [Hr Hst].
  split; [exact Hst|]. pose proof (ar_faucet _ _ _ Hr) as Hf. fold st in Hf. rewrite <-Hf.
  apply open_existing_wf; [apply (ar_wf _ _ _ Hr)| |done..]. by rewrite Hf.
Qed.

(** A cycle as the run loop starts it. *)
Lemma recorded_cycle config signers on_disk (w : W) s fuel :
  recorded config on_disk -> start config signers on_disk w = Ok s ->
  let s1 := put_rate_limited false (service_run fuel s).2 in
  cycle_done config (config_anchor config) s1 (cycle s1).2.
Proof.
  intros Hd Hs s1. destruct (recorded_run _ _ _ _ _ fuel Hd Hs) as [Hr _].
  apply rest_cycle; [|done]. by destruct Hr.
Qed.
(** C12. A 429 from Circle ends the cycle's calls: of the calls a cycle makes, only the last one
    (the newest, which heads the trace) can have been answered 429. *)
Theorem cycle_stops_at_429 config signers on_disk (w : W) s fuel :
  recorded config on_disk -> start config signers on_disk w = Ok s ->
  let s1 := put_rate_limited false (service_run fuel s).2 in
  exists seg, at_trace (cycle s1).2 = seg ++ at_trace s1 /\
    Forall (eq false) (tail (limited_calls seg)) /\
    (at_rate_limited (cycle s1).2 = false -> Forall (eq false) (limited_calls seg)).
Proof.
  intros Hd Hs s1. destruct (recorded_cycle _ _ _ _ _ fuel Hd Hs) as (_ & Ht & _).
  destruct Ht as (seg & He & _ & Htl & Hl). by exists seg.
Qed.

(** C11. A cycle only saves blocks that form a chain on from the saved checkpoint: each is the next
    height and validates against the header before it; the new checkpoint is the last of them. *)
Theorem cycle_authenticates config signers on_disk (w : W) s fuel :
  recorded config on_disk -> start config signers on_disk w = Ok s ->
  let s1 := put_rate_limited false (service_run fuel s).2 in
  exists header blocks, checkpoint (at_store s1) = Ok (Some header) /\
    saved_blocks (at_trace (cycle s1).2) = blocks ++ saved_blocks (at_trace s1) /\
    chained header blocks /\
    checkpoint (at_store (cycle s1).2) = Ok (Some (last_header header blocks)).
Proof.
  intros Hd Hs s1. destruct (recorded_cycle _ _ _ _ _ fuel Hd Hs) as (_ & _ & h & bs & ? & ? & ? & ?).
  by exists h, bs.
Qed.
End service.

(** ** When a run ends *)

Section ends.
Context `{ML : MidenLib, WL : WebLib, JL : JsonLib, EL : EthLib, KL : KeyLib} {W : Type}.
Context `{!CircleApi W, !ChainReader W, !SignerApi W, !Clock W, !Inbox W}.
Implicit Types s : Attester W.

(** The method cannot fail. *)
Definition never {E A} (m : run W E A) : Prop := forall s, exists a, (m s).1 = Ok a.

Lemma never_bind {E A B} (m : run W E A) (k : A -> run W E B) :
  never m -> (forall a, never (k a)) -> never (and_then m k).
Proof.
  intros Hm Hk s. unfold and_then. destruct (Hm s) as [a Ha]. destruct (m s) as [r s'].
  simpl in Ha. subst. apply Hk.
Qed.
Lemma never_world {E A} (f : W -> A * W) : never (E := E) (world f).
Proof. intros s. unfold world. destruct (f (at_world s)). by eexists. Qed.
Lemma never_attempt {E E' A} (m : run W E A) : never (E := E') (attempt m).
Proof. intros s. unfold attempt. destruct (m s). by eexists. Qed.

Lemma never_handle {E} c : never (E := E) (handle_admin c).
Proof.
  apply never_bind; [apply never_world|]. intros b. destruct (b || _); [by intros s; eexists|].
  destruct (cmd_operation c); [apply never_bind; [by intros s; eexists|intros config]|].
  all: apply never_bind; [apply never_attempt|]; intros r s; by eexists.
Qed.

Lemma never_commands {E} n : never (E := E) (admin_commands n).
Proof.
  induction n as [|n IH]; [by intros s; eexists|]. apply never_bind; [apply never_world|].
  intros b. destruct b; [by intros s; eexists|]. apply never_bind; [apply never_world|].
  intros [c| |]; [|by intros s; eexists..]. apply never_bind; [apply never_handle|done].
Qed.

Lemma never_checkpoint {E} : never (E := E) admin_checkpoint.
Proof.
  apply never_bind; [by intros s; eexists|]. intros a. apply never_bind; [apply never_world|].
  intros b. destruct (negb a || b); [by intros s; eexists|]. apply never_commands.
Qed.

Lemma never_paused {E} cs : never (E := E) (handle_paused cs).
Proof.
  induction cs as [|[c|] cs IH]; [by intros s; eexists| |by intros s; eexists].
  apply never_bind; [apply never_handle|done].
Qed.

Lemma traced_cycle_Err s e : (traced_cycle s).1 = Err e -> e = DiscoveryStopped ChainDiverged.
Proof.
  unfold traced_cycle, and_then, attempt, lift. destruct (cycle s) as [outcome s1].
  destruct (record_progress s1) as [p s2]. simpl. unfold finish_cycle.
  destruct outcome as [r|[c e']]; simpl; repeat case_match; simpl; congruence.
Qed.

Lemma never_Ok {E A B} (m : run W E A) (k : A -> run W E B) s e :
  never m -> (and_then m k s).1 = Err e -> exists a s', m s = (Ok a, s') /\ (k a s').1 = Err e.
Proof.
  intros Hm. unfold and_then. destruct (Hm s) as [a Ha]. destruct (m s) as [r s'] eqn:Hms.
  simpl in Ha. subst. eauto.
Qed.
(** C32. A run ends with an error only because the chain diverged, and a cycle ends it exactly when
    that is what stopped the cycle; every other failure is retried by the next cycle. *)
Theorem run_ends_only_on_divergence :
  (forall fuel pause s e, (run_cycles fuel pause s).1 = Err e -> e = DiscoveryStopped ChainDiverged) /\
  (forall s e, (traced_cycle s).1 = Err e <->
     e = DiscoveryStopped ChainDiverged /\
     exists stopped, (cycle s).1 = Err stopped /\ failure_error stopped = e).
Proof.
  split.
  - induction fuel as [|fuel IH]; intros pause s e; [done|]. cbn [run_cycles].
    intros (stop & s1 & _ & Hr)%never_Ok; [|apply never_world]. destruct stop; [done|].
    apply never_Ok in Hr as (u & s2 & _ & Hr); [|apply never_checkpoint].
    apply never_Ok in Hr as (v & s3 & _ & Hr); [|by intros ?; eexists].
    unfold and_then at 1 in Hr. destruct (traced_cycle s3) as [[c|e'] s4] eqn:Hc; simpl in Hr.
    2: { injection Hr as <-. apply (traced_cycle_Err s3). by rewrite Hc. }
    apply never_Ok in Hr as (x & s5 & _ & Hr); [|by intros ?; eexists].
    apply never_Ok in Hr as (y & s6 & _ & Hr); [|by intros ?; eexists].
    apply never_Ok in Hr as (z & s7 & _ & Hr); [|by intros ?; eexists].
    apply never_Ok in Hr as (cs & s8 & _ & Hr); [|apply never_world].
    apply never_Ok in Hr as (q & s9 & _ & Hr); [|destruct z; [apply never_paused|by intros ?; eexists]].
    by apply IH in Hr.
  - intros s e. split.
    + intros He. pose proof (traced_cycle_Err _ _ He) as ->. split; [done|].
      unfold traced_cycle, and_then, attempt, lift in He. destruct (cycle s) as [outcome s1].
      destruct (record_progress s1) as [p s2]. destruct outcome as [r|stopped]; simpl in *.
      * by destruct (report_discover r).
      * exists stopped. split; [done|]. by repeat case_match; simplify_eq/=.
    + intros [-> (stopped & Hs & He)]. unfold traced_cycle, and_then, attempt, lift.
      destruct (cycle s) as [outcome s1]. simpl in Hs. subst outcome.
      destruct (record_progress s1) as [p s2]. simpl. by rewrite He.
Qed.
End ends.

(** While Circle keeps answering 429, the pause doubles from the poll interval up to 60 s, and is
    never shorter than the poll interval; a cycle without a 429 resets it. *)
Theorem rate_limited_backoff poll_interval n :
  0 < poll_interval ->
  Nat.iter n (fun pause => next_pause true pause poll_interval) poll_interval =
    Z.max (Z.min (2 ^ Z.of_nat n * poll_interval) MAX_RATE_LIMITED_PAUSE) poll_interval /\
  forall pause, next_pause false pause poll_interval = poll_interval.
Proof.
  intros Hp. split; [|done]. induction n as [|n IH]; [simpl; lia|].
  rewrite Nat.iter_succ, IH. unfold next_pause, saturating_mul.
  rewrite Nat2Z.inj_succ, Z.pow_succ_r by lia.
  assert (MAX_RATE_LIMITED_PAUSE <= duration_max) by (unfold MAX_RATE_LIMITED_PAUSE, duration_max; vm_compute; done).
  assert (0 < 2 ^ Z.of_nat n) by (apply Z.pow_pos_nonneg; lia). nia.
Qed.

(** ** Witnesses *)

(** The runs are evaluated by [vm_compute] only. *)
#[local] Strategy opaque [service_run run_cycles cycle start sample_started].

Lemma sample_recorded n w :
  is_ok (sample_start w) = true -> recorded sample_config (Some (at_store (sample_after n w))).
Proof. apply sample_reachable. Qed.

Lemma sample_pins : pins_canonical sample_config.
Proof. by split; vm_compute. Qed.

(** Note A's accepted submission, as the run sends it, and the store it finds on disk. *)
Definition first_post (l : list Action) : option (SavedSubmission * Store * bool) :=
  head (omap (fun a => match a with
                       | Called (CallPost saved) st limited => Some (saved, st, limited)
                       | _ => None
                       end) l).
Definition sample_post : SavedSubmission * Store * bool :=
  default (saved_of [] {| s_endpoint := ""; s_body := []; s_transfer_spec_hash := []; s_status := Held;
                          s_withdrawal_id := None; s_hold_reason := None; s_last_http_status := None;
                          s_last_response := None; s_last_error := None |},
           initialize_store sample_faucet sample_anchor, false)
    (first_post (at_trace (sample_after 1 world_accepts))).

Lemma elem_of_first_post l saved st limited :
  first_post l = Some (saved, st, limited) -> Called (CallPost saved) st limited ∈ l.
Proof.
  unfold first_post. induction l as [|a l IH]; simpl; [done|].
  destruct a as [[id|sv|sv id] st' lim|b st'|o r]; simpl; try (intros H%IH; set_solver).
  intros [= -> -> ->]. set_solver.
Qed.

Lemma some_default {A} (d : A) o : match o with Some _ => true | None => false end = true -> o = Some (default d o).
Proof. by destruct o. Qed.

Lemma sample_first_post :
  first_post (at_trace (sample_after 1 world_accepts)) = Some sample_post.
Proof. apply some_default. vm_compute. reflexivity. Qed.

Lemma sample_post_called :
  Called (CallPost sample_post.1.1) sample_post.1.2 sample_post.2
    ∈ at_trace (service_run 1 (sample_started world_accepts)).2.
Proof.
  apply elem_of_first_post. fold (sample_after 1 world_accepts). rewrite sample_first_post. by destruct sample_post as [[]].
Qed.

Lemma service_writes_ahead_witness :
  exists row, submissions sample_post.1.2 !! note_id sample_post.1.1 = Some row /\
    s_endpoint row = sub_endpoint sample_post.1.1 /\ s_body row = body sample_post.1.1 /\
    s_transfer_spec_hash row = transfer_spec_hash sample_post.1.1 /\ s_withdrawal_id row = None /\
    s_status row = Submitting.
Proof.
  exact (service_writes_ahead sample_config sample_pair None world_accepts
    (sample_started world_accepts) 1 sample_post.1.1
    sample_post.1.2 sample_post.2 I (sample_start_Ok _ world_accepts_starts) sample_post_called).
Defined.

Lemma service_refines_store_witness :
  open_or_create (Some (at_store (sample_after 2 world_accepts))) sample_faucet sample_anchor =
    Ok (at_store (sample_after 2 world_accepts)).
Proof.
  exact (proj2 (service_refines_store sample_config sample_pair None world_accepts
    (sample_started world_accepts) 2 sample_pins I
    (sample_start_Ok _ world_accepts_starts))).
Defined.

(** The cycle whose POST meets a 429. *)
Definition world_rate_limited : SampleWorld :=
  {| w_now := 1000 * NANOS; w_tip := 13; w_blocks := sample_chain_blocks;
     w_prepare := [Ok sample_prepared]; w_post := [Err (RateLimited None None)]; w_get := [];
     w_commands := [] |}.
Lemma world_rate_limited_starts : is_ok (sample_start world_rate_limited) = true.
Proof. vm_compute. reflexivity. Qed.

Lemma cycle_stops_at_429_witness :
  let s1 := put_rate_limited false (sample_after 0 world_rate_limited) in
  at_rate_limited (cycle s1).2 = true /\
  length (limited_calls (at_trace (cycle s1).2)) = 2%nat /\
  exists seg, at_trace (cycle s1).2 = seg ++ at_trace s1 /\
    Forall (eq false) (tail (limited_calls seg)) /\
    (at_rate_limited (cycle s1).2 = false -> Forall (eq false) (limited_calls seg)).
Proof.
  split; [vm_compute; reflexivity|]. split; [vm_compute; reflexivity|].
  exact (cycle_stops_at_429 sample_config sample_pair None world_rate_limited
    (sample_started world_rate_limited) 0 I
    (sample_start_Ok _ world_rate_limited_starts)).
Defined.

Lemma cycle_authenticates_witness :
  let s1 := put_rate_limited false (sample_after 0 world_accepts) in
  length (saved_blocks (at_trace (cycle s1).2)) = 4%nat /\
  exists header blocks, checkpoint (at_store s1) = Ok (Some header) /\
    saved_blocks (at_trace (cycle s1).2) = blocks ++ saved_blocks (at_trace s1) /\
    chained header blocks /\
    checkpoint (at_store (cycle s1).2) = Ok (Some (last_header header blocks)).
Proof.
  split; [vm_compute; reflexivity|].
  exact (cycle_authenticates sample_config sample_pair None world_accepts
    (sample_started world_accepts) 0 I
    (sample_start_Ok _ world_accepts_starts)).
Defined.

(** The node falls back behind the checkpoint. *)
Definition world_diverged : SampleWorld :=
  {| w_now := 1000 * NANOS; w_tip := 11; w_blocks := sample_chain_blocks; w_prepare := [];
     w_post := []; w_get := []; w_commands := [] |}.
Lemma run_ends_only_on_divergence_witness :
  (run_cycles 1 NANOS (put_world world_diverged (sample_after 1 world_accepts))).1 =
    Err (DiscoveryStopped ChainDiverged) /\
  forall e, (run_cycles 1 NANOS (put_world world_diverged (sample_after 1 world_accepts))).1 = Err e ->
    e = DiscoveryStopped ChainDiverged.
Proof.
  split; [vm_compute; reflexivity|]. intros e He.
  exact (proj1 run_ends_only_on_divergence 1%nat NANOS _ e He).
Defined.

Lemma rate_limited_backoff_witness :
  Nat.iter 4 (fun pause => next_pause true pause (5 * NANOS)) (5 * NANOS) = 60 * NANOS.
Proof.
  rewrite (proj1 (rate_limited_backoff (5 * NANOS) 4 ltac:(vm_compute; reflexivity))).
  vm_compute. reflexivity.
Defined.
