(* ===== verification/StoreProps.v ===== *)
(** Properties of the durable store: its history and recorded burns only grow, no withdrawal is
    authorized over an open one, an operator's release cannot act on a hold that changed, and each
    operation decides exactly when it should. *)
From S2P Require Import Prelude Text Foreign Wire Types Burn Store StoreFacts StoreInv.
From S2P Require Import StoreWf StoreScan StoreAuth StoreReads.
Local Open Scope Z_scope.

Section props.
Context `{ML : MidenLib, WL : WebLib, JL : JsonLib}.
Context `{!MidenLaws, !WebLaws}.
Context (faucet : AccountId) (anchor : TrustedAnchor).
Implicit Types st : Store.

(** The stores a service can leave on disk. *)
Definition reachable (st : Store) : Prop :=
  star (store_step anchor) (initialize_store faucet anchor) st.

Lemma reachable_store_wf st : reachable st -> store_wf anchor st.
Proof. apply reachable_wf. Qed.

(** ** The history *)

(** C19. The history is append-only and burns are never lost: whatever steps follow, every older
    history row stays, newer rows carry larger sequence numbers, and every recorded burn keeps its
    nullifier, note and creation block, and its consumption block once it has one. *)
Theorem history_and_burns_persist st st' :
  reachable st -> star (store_step anchor) st st' ->
  (exists newer, events st' = newer ++ events st /\
     Forall (fun e => sequence st < e_seq e <= sequence st') newer) /\
  forall id b, burns st !! id = Some b -> exists b', burns st' !! id = Some b' /\
    b_nullifier b' = b_nullifier b /\ b_note b' = b_note b /\
    b_creation_block b' = b_creation_block b /\
    (forall k, b_consumption_block b = Some k -> b_consumption_block b' = Some k).
Proof.
  intros Hr%reachable_store_wf Hs.
  destruct (star_rel (store_step anchor) (store_wf anchor)
    (fun a b => history_extends a b /\ burns_kept a b) st st') as [Hwf [[_ (newer & He & Hf)] Hb]];
    [| | |done|done|].
  - split; [apply history_extends_refl|apply burns_kept_refl].
  - intros x y z [??] [??]. split; [by eapply history_extends_trans|by eapply burns_kept_trans].
  - intros x y Hx Hxy. split; [by eapply store_step_wf|].
    split; [by eapply step_history|by eapply step_burns].
  - split; [|exact Hb]. exists newer. split; [done|]. destruct (wf_history _ _ Hwf) as [_ Hall].
    rewrite He in Hall. apply Forall_app in Hall as [Hall _].
    rewrite Forall_forall in *. intros e Hin. specialize (Hf e Hin). specialize (Hall e Hin). lia.
Qed.

(** C7. No withdrawal is authorized twice: between two authorizations of the same note the store
    passed through a state [x] in which the first one's request was still saved, and from which one
    step closed it: Circle's answer let the request expire, Circle refused it for the withdrawal
    limit on its first attempt, with no answer recorded before, or an operator released the held,
    rejected request stating that Circle had not accepted it. A limit answer to a recovery resend
    closes nothing. *)
Theorem authorized_once st newer second between first older :
  reachable st -> events st = newer ++ second :: between ++ first :: older ->
  e_kind first = Authorized -> e_kind second = Authorized -> e_note_id second = e_note_id first ->
  exists x y e after before,
    reachable x /\ closing (e_note_id first) x y /\ star (store_step anchor) y st /\
    between = after ++ e :: before /\ events x = before ++ first :: older /\
    events y = e :: events x /\
    exists row, submissions x !! e_note_id first = Some row /\ s_status row <> Expired /\
      e_body first = Some (s_body row).
Proof.
  intros Hr He Hf Hs Hid. rewrite app_comm_cons, app_assoc in He.
  destruct (reachable_auth _ _ _ Hr _ _ _ He Hf)
    as [[_ Hq]|(x & y & e & after & before & Hx & Hb & Hc & Hy & Hsince & Hex & Hey & Hne & Hq)].
  { destruct (Hq second); [set_solver|done..]. }
  destruct (split_quiet (e_note_id first) newer second between after e before) as [mid ->]; [done..|].
  exists x, y, e, mid, before. by split_and!.
Qed.

(** ** Operator releases *)

Lemma revision_positive st id n : store_wf anchor st -> revision st id = Some n -> 0 < n.
Proof.
  intros Hwf. pose proof (wf_history _ _ Hwf) as Hok. rewrite revision_newest by done.
  destruct (List.find _ (events st)) as [e|] eqn:Hf; [|done]. intros [= <-].
  apply find_some in Hf as [Hin%list_elem_of_In _]. destruct Hok as [_ Hall].
  rewrite Forall_forall in Hall. by apply Hall.
Qed.

(** An operator releases only the hold that was reviewed: once the hold of a note has changed
    (its kind, reason, recorded answer), a release that expects the reviewed revision fails. *)
Theorem changed_hold_refused now selection st st' :
  reachable st -> star (store_step anchor) st st' ->
  revision st (sel_note_id selection) = Some (sel_expected_event_seq selection) ->
  hold_view st' (sel_note_id selection) <> hold_view st (sel_note_id selection) ->
  release_checked now selection st' = Err ReleaseConflict.
Proof.
  intros Hr%reachable_store_wf Hs Hrev Hne. set (id := sel_note_id selection) in *.
  destruct (star_rel (store_step anchor) (store_wf anchor) hold_follows st st') as [Hwf Hh]; [| | |done|done|].
  - intros x i. split; [lia|done].
  - apply hold_follows_trans.
  - intros x y Hx Hxy. split; [by eapply store_step_wf|by eapply step_holds].
  - destruct (Hh id) as [Hle Heq]. unfold rev_no in *. rewrite Hrev in *. simpl in *.
    pose proof (revision_positive _ _ _ Hr Hrev) as Hpos.
    destruct (revision st' id) as [rev|] eqn:Hrev'; simpl in *; [|lia].
    unfold release_checked, tbind, tlift, tget. fold id.
    destruct (Z.ltb_spec 0 (sel_expected_event_seq selection)); [|lia]. simpl. rewrite Hrev'.
    destruct (Z.eqb_spec rev (sel_expected_event_seq selection)); [|done].
    destruct Hne. by apply Heq.
Qed.

Lemma release_eligible now id circle_not_accepted counts st st' :
  store_wf anchor st -> release_hold now id circle_not_accepted st = Ok (counts, st') -> eligible st' id.
Proof.
  intros Hwf Hs. pose proof (wf_note _ _ Hwf id) as Hnk. apply eligible_row.
  apply release_hold_Ok in Hs as [(Hb & _ & e & He & _ & _ & ->)|(Hb & Hw & _ & _ & e & He & _ & _ & ->)];
    unfold burn_is_held in Hb; simpl.
  - destruct (burns st !! id) as [b|] eqn:Hbr; [|done]. bool_prop. destruct Hb as [c Hc].
    destruct (nk_hold _ _ _ _ _ Hnk _ _ eq_refl Hc) as (_ & Hcons & _ & Hna & _).
    rewrite lookup_alter_eq, Hbr. simpl. eexists. by split_and!.
  - apply withdrawal_releasable_row in Hw as (s & Hsub & _).
    destruct (nk_sub_burn _ _ _ _ _ Hnk _ Hsub) as (b & Hbr & Hcons). rewrite Hbr in Hb. bool_prop.
    exists b. split; [done|]. split; [done|]. split; [by apply eq_None_not_Some|].
    rewrite lookup_delete_eq. by intros ?.
Qed.
Lemma release_reachable now id circle_not_accepted counts st st' :
  reachable st -> release_hold now id circle_not_accepted st = Ok (counts, st') -> reachable st'.
Proof. intros Hr Hs. eapply star_trans; [exact Hr|]. apply star_one. by eapply step_release. Qed.
Lemma release_history now id circle_not_accepted counts st st' :
  release_hold now id circle_not_accepted st = Ok (counts, st') ->
  exists e, events st' = e :: events st /\ e_note_id e = id.
Proof.
  intros [(_ & _ & e & He & _ & _ & ->)|(_ & _ & _ & _ & e & He & _ & _ & ->)]%release_hold_Ok; by exists e.
Qed.

(** C21. A release puts the burn back in the queue and changes nothing else. The note is eligible
    for withdrawal again and one history row was added. Either its burn was held, and then that row
    lost its hold and kept every other column, the limit retry time included, and no submission
    changed; or its rejected submission was held and the operator stated that Circle had not
    accepted it, and then that submission is gone and no burn row changed. The checkpoint, the
    faucet and every other note's rows are as they were. *)
Theorem release_requeues now id circle_not_accepted counts st st' :
  reachable st -> release_hold now id circle_not_accepted st = Ok (counts, st') ->
  reachable st' /\ eligible st' id /\
  attester_state st' = attester_state st /\ store_faucet st' = store_faucet st /\
  exists e, events st' = e :: events st /\ sequence st' = sequence st + 1 /\
    e_note_id e = id /\ e_seq e = sequence st + 1 /\
    ((counts = (1, 0) /\ e_kind e = BurnReleased /\ submissions st' = submissions st /\
      exists b b', burns st !! id = Some b /\ is_Some (b_hold_reason b) /\
        burns st' = <[id := b']> (burns st) /\ b_hold_reason b' = None /\
        b_nullifier b' = b_nullifier b /\ b_note b' = b_note b /\
        b_creation_block b' = b_creation_block b /\
        b_consumption_block b' = b_consumption_block b /\ b_retry_at b' = b_retry_at b) \/
     (counts = (0, 1) /\ e_kind e = OperatorRelease /\ circle_not_accepted = true /\
      burns st' = burns st /\ submissions st' = delete id (submissions st) /\
      exists row, submissions st !! id = Some row /\ s_status row = Held /\
        s_hold_reason row = Some HttpRejected /\ s_withdrawal_id row = None)).
Proof.
  intros Hr Hs. split; [by eapply release_reachable|].
  split; [by eapply release_eligible; [apply reachable_store_wf|]|].
  apply release_hold_Ok in Hs as [(Hb & -> & e & He & Hseq & Hk & ->)
    |(_ & Hw%withdrawal_releasable_row & -> & -> & e & He & Hseq & Hk & ->)].
  - unfold burn_is_held in Hb. destruct (burns st !! id) as [b|] eqn:Hid; [|done]. bool_prop.
    do 2 (split; [done|]). exists e. do 4 (split; [done|]). left. do 3 (split; [done|]).
    exists b, (set_hold None b). simpl. rewrite (alter_some _ _ _ b) by done. by split_and!.
  - do 2 (split; [done|]). exists e. do 4 (split; [done|]). right. by split_and!.
Qed.
(** ** Saving a request *)

(** An expired request has a withdrawal ID, so it may be replaced. *)
Lemma expired_has_id st id row :
  store_wf anchor st -> submissions st !! id = Some row -> s_status row = Expired ->
  is_Some (s_withdrawal_id row).
Proof.
  intros Hwf Hrow He. destruct (nk_sub_valid _ _ _ _ _ (wf_note _ _ Hwf _) _ Hrow) as (Hv & _).
  apply validate_submission_Ok in Hv as (_ & _ & _ & _ & Hv). unfold validate_submission_outcome in Hv.
  simpl in Hv. rewrite He in Hv. destruct (s_withdrawal_id row); [by eexists|].
  simpl in Hv. by rewrite orb_true_r in Hv.
Qed.

(** C20. A request is saved exactly when it is valid, its burn is recorded, and the burn has no
    submission that is still being sent, accepted, held, failed or final. It then stands, in place
    of any expired one, as a request being sent without a withdrawal ID, and the history gains the
    note's authorization. *)
Theorem save_submission_iff now saved st :
  reachable st ->
  ((exists st', save_submission now saved st = Ok (tt, st')) <->
   validate_submission saved = Ok tt /\ is_Some (burns st !! note_id saved) /\
   forall row, submissions st !! note_id saved = Some row -> s_status row = Expired) /\
  forall st', save_submission now saved st = Ok (tt, st') ->
    (exists row, submissions st' = <[note_id saved := row]> (submissions st) /\
       s_endpoint row = sub_endpoint saved /\ s_body row = body saved /\
       s_transfer_spec_hash row = transfer_spec_hash saved /\ s_status row = Submitting /\
       s_withdrawal_id row = None) /\
    burns st' = burns st /\
    exists e, events st' = e :: events st /\ e_note_id e = note_id saved /\ e_kind e = Authorized.
Proof.
  intros Hr%reachable_store_wf. split; [split|].
  - intros [st' (Hv & Hold & b & e & row & Hb & _)%save_submission_Ok]. split_and!; [done|by eexists|].
    intros old Ho. by apply Hold.
  - intros (Hv & [b Hb] & Hna). unfold save_submission, tbind, tlift, tget, tput. rewrite Hv. simpl.
    assert (match submissions st !! note_id saved with
            | Some old => bool_decide (s_status old = Expired) && bool_decide (is_Some (s_withdrawal_id old))
            | None => true
            end = true) as ->.
    { destruct (submissions st !! note_id saved) as [old|] eqn:Ho; [|done].
      pose proof (Hna _ eq_refl) as He. pose proof (expired_has_id _ _ _ Hr Ho He).
      by rewrite !bool_decide_eq_true_2. }
    simpl. unfold record_event. simpl. rewrite Hb. eauto.
  - intros st' (_ & _ & b & e & row & Hb & Hrow & He & _ & Hk & ->)%save_submission_Ok.
    split; [exists row; by subst row|]. split; [done|]. by exists e.
Qed.

(** ** Recording an outcome *)

Lemma outcome_row_again o row : outcome_row o (outcome_row o row) = outcome_row o row.
Proof. done. Qed.

Lemma clear_retry_again id st : clear_retry id (clear_retry id st) = clear_retry id st.
Proof.
  unfold clear_retry, set_burns. simpl. f_equal. apply map_eq. intros i.
  destruct (decide (i = id)) as [->|Hne]; [|by rewrite !lookup_alter_ne].
  rewrite !lookup_alter_eq. by destruct (burns st !! id).
Qed.

Lemma latest_outcome_ext st st' id : events st' = events st -> latest_outcome st' id = latest_outcome st id.
Proof. intros He. unfold latest_outcome. by rewrite He. Qed.

Lemma repeats_ext st st' o c : events st' = events st -> repeats_latest_outcome st' o c = repeats_latest_outcome st o c.
Proof. intros He. unfold repeats_latest_outcome. by rewrite (latest_outcome_ext st st'). Qed.

(** After an outcome, the latest outcome on record repeats it. *)
Lemma outcome_repeats now o st st' :
  store_wf anchor st -> update_submission_outcome now o st = Ok (tt, st') ->
  repeats_latest_outcome st' o (circle_status (last_response o)) = true.
Proof.
  intros Hwf. unfold update_submission_outcome. intros Hr. inv_ok.
  match goal with E : submissions st !! _ = Some ?r |- _ => rename r into row end.
  set (st1 := set_submissions _ st) in *. set (c := circle_status (last_response o)) in *.
  match goal with E : (if ?b then _ else _) st1 = Ok (_, ?s) |- _ =>
    rename s into st2; rename E into Hev; assert (Hst : events st' = events st2) by (destruct (status o); inv_ok; done);
    rewrite (repeats_ext st2 st') by done; clear Hst; destruct b eqn:Hrep end.
  - unfold tret in Hev. by injection Hev as _ <-.
  - unfold record_event in Hev. destruct (burns st1 !! note_id o) as [b|]; [|done]. injection Hev as _ <-.
    unfold repeats_latest_outcome. rewrite latest_outcome_replay.
    2: { simpl. apply history_ok_cons; [done|apply (wf_sequence _ _ Hwf)|apply (wf_history _ _ Hwf)]. }
    simpl events. rewrite replay_own by done. simpl. rewrite lookup_insert_eq. simpl.
    by rewrite !bool_decide_eq_true_2.
Qed.

(** Recording the same outcome again changes nothing at all: the history gains no row, and
    every table stays as it was. *)
Theorem outcome_idempotent now now' o st st' :
  reachable st -> update_submission_outcome now o st = Ok (tt, st') ->
  update_submission_outcome now' o st' = Ok (tt, st').
Proof.
  intros Hr%reachable_store_wf Hu. pose proof (outcome_repeats _ _ _ _ Hr Hu) as Hrep.
  apply update_outcome_Ok in Hu as (Hv & row & st1 & st2 & Hrow & -> & Hst2 & Hst').
  assert (Hs2 : submissions st2 = <[note_id o := outcome_row o row]> (submissions st)).
  { by destruct Hst2 as [(-> & _)|(b & e & _ & _ & _ & _ & _ & ->)]. }
  assert (Hs' : submissions st' = submissions st2) by (subst st'; by destruct (clears (status o))).
  assert (Hput : set_submissions (<[note_id o := outcome_row o (outcome_row o row)]> (submissions st')) st' = st').
  { rewrite Hs', Hs2, outcome_row_again, insert_insert_eq, <-Hs2, <-Hs'. by destruct st'. }
  unfold update_submission_outcome, tbind, tlift, tget, tput. rewrite Hv. simpl.
  rewrite Hs' at 1. rewrite Hs2, lookup_insert_eq. simpl. rewrite Hput, Hrep. simpl.
  subst st'. destruct (status o); simpl; try done; by rewrite clear_retry_again.
Qed.
End props.
