(* ===== verification/StoreQueries.v ===== *)
(** Properties of the store's queries: which burns are offered for withdrawal and in which order,
    how the progress counters account for every burn, and that the pages of the hold listing cover
    every hold once. *)
From S2P Require Import Prelude Text Foreign Wire Types Burn Store StoreFacts StoreInv.
From S2P Require Import StoreWf StoreScan StoreAuth StoreReads StoreProps.
Local Open Scope Z_scope.

(** Sorting and filtering of decoded rows, through the relation of a row and what it decodes to. *)
Lemma Forall2_sorted {A B} (R : A -> B -> Prop) (P : A -> A -> Prop) (Q : B -> B -> Prop) l k :
  (forall a a' b b', R a b -> R a' b' -> P a a' -> Q b b') ->
  Forall2 R l k -> StronglySorted P l -> StronglySorted Q k.
Proof.
  intros Himp HF. induction HF as [|a b l k Hab HF IH]; intros Hs; [constructor|].
  inversion Hs as [|? ? Hs' Hall]; subst. constructor; [by apply IH|].
  rewrite Forall_forall in Hall. apply Forall_forall. intros b' Hb'. apply list_elem_of_lookup in Hb' as [i Hi].
  destruct (Forall2_lookup_r _ _ _ _ _ HF Hi) as (a' & Ha' & Hab').
  eapply Himp; [done..|]. apply Hall. by eapply list_elem_of_lookup_2.
Qed.

Section queries.
Context `{ML : MidenLib, WL : WebLib, JL : JsonLib}.
Context `{!MidenLaws, !WebLaws}.
Context (faucet : AccountId) (anchor : TrustedAnchor).
Implicit Types st : Store.
Abbreviation reachable := (reachable faucet anchor).

(** ** Burns ready for withdrawal *)

(** The order burns are withdrawn in: by creation block, then by note ID. *)
Definition burn_before (d e : DiscoveredBurn) : Prop :=
  bytes_lt (db_creation_block d :: db_note_id d) (db_creation_block e :: db_note_id e).

Lemma load_burns_exact st :
  store_wf anchor st ->
  exists ds, load_burns st false = Ok ds /\ StronglySorted burn_before ds /\
    (forall d, d ∈ ds -> exists b, burns st !! db_note_id d = Some b /\ row_burn (db_note_id d) b d) /\
    (forall id, eligible st id <-> exists d, d ∈ ds /\ db_note_id d = id).
Proof.
  intros Hwf. destruct (load_burns_wf anchor st false Hwf) as (ds & Hl & HF). exists ds.
  split; [done|]. split; [|split].
  - eapply Forall2_sorted; [|exact HF|apply StronglySorted_filter, burn_rows_sorted].
    intros [i b] [j c] d e [(Hd & _ & Hdc & _) _] [(He & _ & Hec & _) _]. simpl in *.
    unfold key_lt, burn_key, burn_before. simpl. congruence.
  - intros d Hd. apply list_elem_of_lookup in Hd as [i Hi].
    destruct (Forall2_lookup_r _ _ _ _ _ HF Hi) as ([id b] & Hr & [Hrow _]). simpl in *.
    apply list_elem_of_lookup_2, elem_of_filter_list in Hr as [Hr%elem_of_burn_rows _].
    pose proof Hrow as (<- & _). by exists b.
  - intros id. split.
    + intros (b & Hb & Hsel). assert (Hr : (id, b) ∈ List.filter (burn_selected st false) (burn_rows st)).
      { apply elem_of_filter_list. by rewrite elem_of_burn_rows. }
      apply list_elem_of_lookup in Hr as [i Hi].
      destruct (Forall2_lookup_l _ _ _ _ _ HF Hi) as (d & Hd & [(Hid & _) _]).
      exists d. split; [by eapply list_elem_of_lookup_2|done].
    + intros (d & Hd & <-). apply (load_burns_ids anchor) in Hl as [_ Hel]; [|done].
      rewrite Forall_forall in Hel. by apply Hel, list_elem_of_fmap_2.
Qed.

(** C22. What is offered for withdrawal: on a store that has scanned to [header], the query always
    succeeds and lists, once each and in creation order, exactly the burns that are consumed, not
    held, without a submission other than an expired one, proven by the prover's lag and final by
    the configured depth. *)
Theorem ready_burns_exact st header proof_lag depth :
  reachable st -> checkpoint st = Ok (Some header) -> 0 <= depth ->
  exists ready, burns_ready_for_withdrawal st proof_lag depth = Ok ready /\
    StronglySorted burn_before ready /\
    forall id, (exists d, d ∈ ready /\ db_note_id d = id) <->
      exists b k, burns st !! id = Some b /\ b_consumption_block b = Some k /\
        b_hold_reason b = None /\
        (forall row, submissions st !! id = Some row -> s_status row = Expired) /\
        k <= proof_lag /\ k + depth <= header_block_num header.
Proof.
  intros Hr%reachable_store_wf Hck Hd. destruct (load_burns_exact st Hr) as (ds & Hl & Hs & Hrow & Hel).
  unfold burns_ready_for_withdrawal. rewrite Hck. simpl.
  destruct (checked_sub (header_block_num header) depth) as [last|] eqn:Hsub.
  - apply checked_sub_Some in Hsub as [-> Hle]. rewrite Hl. simpl. eexists. split; [done|].
    split; [by apply StronglySorted_filter|]. intros id. split.
    + intros (d & [Hin Hk]%elem_of_filter_list & <-). bool_prop.
      destruct (proj2 (Hel (db_note_id d)) ltac:(by exists d)) as (b & Hb & Hsel).
      destruct (Hrow _ Hin) as (b' & Hb' & _ & _ & _ & Hc). rewrite Hb in Hb'. injection Hb' as <-.
      exists b, (db_consumption_block d). split_and!; try done; [| |lia|lia].
      * assert (eligible st (db_note_id d)) as (b' & Hb' & _ & Hh & _)%eligible_row by (by exists b).
        by rewrite Hb in Hb'; injection Hb' as <-.
      * assert (eligible st (db_note_id d)) as (_ & _ & _ & _ & Hn)%eligible_row by (by exists b). done.
    + intros (b & k & Hb & Hk & Hh & Hn & Hlag & Hdep).
      assert (eligible st id) as Hid.
      { apply eligible_row. exists b. split_and!; [done|by eexists|done|done]. }
      apply Hel in Hid as (d & Hin & Hid). exists d. split; [|done]. apply elem_of_filter_list.
      split; [done|]. destruct (Hrow _ Hin) as (b' & Hb' & _ & _ & _ & Hc). rewrite Hid in Hb'.
      simplify_eq. apply Z.leb_le. lia.
  - exists []. split; [done|]. split; [constructor|]. intros id. split; [intros (d & Hin & _); set_solver|].
    intros (b & k & Hb & Hk & _ & _ & _ & Hdep). exfalso. unfold checked_sub in Hsub.
    destruct (Z.leb_spec depth (header_block_num header)); [done|].
    destruct (nk_decodes _ _ _ _ _ (wf_note _ _ Hr id) _ Hb) as (_ & Hc & Hk'). specialize (Hk' _ Hk). lia.
Qed.

(** ** Progress *)

Lemma count_cons {A} (p : A -> bool) a l : count p (a :: l) = (if p a then 1 else 0) + count p l.
Proof. unfold count. simpl. destruct (p a); simpl; lia. Qed.

Lemma count_ext {A} (p q : A -> bool) l : (forall a, a ∈ l -> p a = q a) -> count p l = count q l.
Proof.
  induction l as [|a l IH]; intros He; [done|]. rewrite !count_cons, He, IH by set_solver. done.
Qed.

Lemma count_perm {A} (p : A -> bool) l k : l ≡ₚ k -> count p l = count p k.
Proof. induction 1; rewrite ?count_cons; lia. Qed.

(** Submissions can be counted over the burns they belong to. *)
Lemma count_submissions st p :
  store_wf anchor st ->
  status_count st p =
    count (fun r => match submissions st !! r.1 with Some s => p (s_status s) | None => false end)
      (map_to_list (burns st)).
Proof.
  intros Hwf. unfold status_count.
  set (l := List.filter (fun r : NoteId * BurnRow => bool_decide (is_Some (submissions st !! r.1))) (map_to_list (burns st))).
  assert (Hl : forall q, (forall r, q r = true -> is_Some (submissions st !! r.1)) ->
                 count q (map_to_list (burns st)) = count q l).
  { intros q Hq. unfold l. generalize (map_to_list (burns st)) as m. induction m as [|r m IH]; [done|].
    simpl. rewrite count_cons, IH. destruct (bool_decide _) eqn:Hb; [by rewrite count_cons|].
    destruct (q r) eqn:Hqr; [|done]. apply Hq in Hqr. by bool_prop. }
  rewrite Hl by (intros r Hr; destruct (submissions st !! r.1); [by eexists|done]).
  assert (Hperm : (map_to_list (submissions st)).*1 ≡ₚ l.*1).
  { apply NoDup_Permutation.
    - apply NoDup_fst_map_to_list.
    - eapply sublist_NoDup; [apply (NoDup_fst_map_to_list (burns st))|]. apply fmap_sublist, sublist_filter.
    - intros id. rewrite !list_elem_of_fmap. split.
      + intros ([i s] & -> & Hs%elem_of_map_to_list).
        destruct (nk_sub_burn _ _ _ _ _ (wf_note _ _ Hwf i) _ Hs) as (b & Hb & _).
        exists (i, b). split; [done|]. apply elem_of_filter_list. simpl. rewrite elem_of_map_to_list, Hs.
        by rewrite bool_decide_eq_true_2.
      + intros ([i b] & -> & [Hb Hs]%elem_of_filter_list). simpl in *. bool_prop.
        destruct Hs as [s Hs]. exists (i, s). by rewrite elem_of_map_to_list. }
  set (q := fun id => match submissions st !! id with Some s => p (s_status s) | None => false end).
  assert (Hfst : forall A (m : list (NoteId * A)), count (fun r => q r.1) m = count q m.*1).
  { intros A m. induction m as [|r m IH]; [done|]. simpl. by rewrite !count_cons, IH. }
  transitivity (count (fun r : NoteId * SubmissionRow => q r.1) (map_to_list (submissions st))).
  - apply count_ext. intros [i s] Hs%elem_of_map_to_list. unfold q. simpl. by rewrite Hs.
  - rewrite Hfst, (count_perm _ _ _ Hperm), <-Hfst. done.
Qed.

Lemma min_opt_spec l :
  match min_opt l with
  | None => l = []
  | Some m => m ∈ l /\ forall x, x ∈ l -> m <= x
  end.
Proof.
  induction l as [|x l IH]; simpl; [done|]. destruct (min_opt l) as [m|].
  - destruct IH as [Hin Hle]. split; [destruct (Z.min_spec x m) as [[? ->]|[? ->]]; set_solver|].
    intros y [->|Hy]%elem_of_cons; [lia|]. specialize (Hle y Hy). lia.
  - subst l. split; [set_solver|]. intros y [->|Hy]%elem_of_cons; [lia|set_solver].
Qed.

Lemma oldest_unfinished st :
  match min_opt (omap (fun r => b_consumption_block r.2)
                   (List.filter (unfinished st) (map_to_list (burns st)))) with
  | None => count (unfinished st) (map_to_list (burns st)) = 0
  | Some k =>
      (exists id b, burns st !! id = Some b /\ unfinished st (id, b) = true /\
         b_consumption_block b = Some k) /\
      forall id b k', burns st !! id = Some b -> unfinished st (id, b) = true ->
        b_consumption_block b = Some k' -> k <= k'
  end.
Proof.
  pose proof (min_opt_spec (omap (fun r => b_consumption_block r.2)
    (List.filter (unfinished st) (map_to_list (burns st))))) as Hm.
  destruct (min_opt _) as [k|].
  - destruct Hm as [([id b] & [Hb%elem_of_map_to_list Hu]%elem_of_filter_list & Hk)%list_elem_of_omap Hle].
    split; [by exists id, b|]. intros i c k' Hc Hu' Hk'. apply Hle. apply list_elem_of_omap.
    exists (i, c). split; [|done]. apply elem_of_filter_list. by rewrite elem_of_map_to_list.
  - unfold count. destruct (List.filter (unfinished st) _) as [|[id b] l] eqn:Hf; [done|].
    assert (Hu : (id, b) ∈ List.filter (unfinished st) (map_to_list (burns st))) by (rewrite Hf; set_solver).
    apply elem_of_filter_list in Hu as [_ Hu]. unfold unfinished in Hu. bool_prop. simpl in *.
    by destruct (b_consumption_block b); [|match goal with E : is_Some None |- _ => by destruct E end].
Qed.

(** The progress counters account for every consumed burn exactly once: it is held, or its
    withdrawal is held, failed or finalized, or it is unfinished; and the oldest unfinished burn is
    the least consumption block among the unfinished, if there is one. *)
Theorem progress_accounts st :
  reachable st ->
  (count (fun r => bool_decide (is_Some (b_consumption_block r.2))) (map_to_list (burns st)) =
    burns_held (progress st) + withdrawals_held (progress st) + withdrawals_failed (progress st)
    + status_count st (fun s => bool_decide (s = Finalized)) + burns_unfinished (progress st)) /\
  match oldest_unfinished_burn (progress st) with
  | None => burns_unfinished (progress st) = 0
  | Some k =>
      (exists id b, burns st !! id = Some b /\ unfinished st (id, b) = true /\
         b_consumption_block b = Some k) /\
      forall id b k', burns st !! id = Some b -> unfinished st (id, b) = true ->
        b_consumption_block b = Some k' -> k <= k'
  end.
Proof.
  intros Hwf%reachable_store_wf. split; [|apply oldest_unfinished]. simpl. rewrite !(count_submissions st) by done.
  assert (Hin : Forall (fun r => burns st !! r.1 = Some r.2) (map_to_list (burns st))).
  { rewrite Forall_forall. intros [i b] Hb. by apply elem_of_map_to_list. }
  induction (map_to_list (burns st)) as [|[id b] l IH]; [done|]. apply Forall_cons in Hin as [Hb Hin].
  rewrite !count_cons, (IH Hin). simpl in *. clear IH Hin.
  pose proof (wf_note _ _ Hwf id) as Hnk. 
  assert (Hu : unfinished st (id, b) =
    bool_decide (is_Some (b_consumption_block b)) && bool_decide (b_hold_reason b = None)
    && match submissions st !! id with
       | None => true
       | Some s => match s_status s with Held | Failed | Finalized => false | _ => true end
       end) by done.
  rewrite Hu. clear Hu.
  destruct (b_hold_reason b) as [c|] eqn:Hh.
  - destruct (nk_hold _ _ _ _ _ Hnk _ _ Hb Hh) as (_ & Hc & _ & Hna & _).
    rewrite (bool_decide_eq_true_2 (is_Some (b_consumption_block b))) by done.
    rewrite (bool_decide_eq_true_2 (is_Some (Some c))) by (by eexists).
    rewrite (bool_decide_eq_false_2 (Some c = None)) by done.
    destruct (submissions st !! id) as [s|]; simpl; [rewrite (Hna s eq_refl); simpl|]; lia.
  - rewrite (bool_decide_eq_false_2 (is_Some None)) by (by intros []).
    rewrite (bool_decide_eq_true_2 (None = None)) by done.
    destruct (submissions st !! id) as [s|] eqn:Hs; simpl.
    + destruct (nk_sub_burn _ _ _ _ _ Hnk _ eq_refl) as (b' & Hb' & Hc). simplify_eq.
      rewrite bool_decide_eq_true_2 by done. destruct (s_status s); simpl; lia.
    + destruct (bool_decide (is_Some (b_consumption_block b))); simpl; lia.
Qed.
End queries.
