(* ===== verification/AdminSocket.v ===== *)
(** The live admin socket (admin.rs, admin/client.rs): binding it, the client's exchange, and the
    listener, its connections and the attester's inbox as one transition system with a clock. *)
From S2P Require Import Prelude Text Foreign Wire Types Burn Store StoreFacts Config Verify Circle Signer Admin Attester.
From Stdlib Require Import Ascii.
Local Open Scope Z_scope.

(** Durations, in milliseconds. *)
Definition COMMAND_WAIT : Z := 60000.
Definition REQUEST_WAIT : Z := 10000.
Definition CONNECTION_WAIT : Z := 70000.
Definition CLEANUP_WAIT : Z := 5000.
(** The commands the inbox holds. *)
Definition INBOX : nat := 16.

(** ** Binding the socket *)

(** What inspecting the path gave, and what connecting to the socket there came to within a second;
    [ConnectPending] did not finish. *)
Inductive Inspected : Type := PathAbsent | PathFailed | PathFound (is_socket : bool).
Inductive Connect : Type :=
| ConnectRefused | Connected | ConnectWouldBlock | ConnectFailed | ConnectPending.

(** What is done to the path, and whether it succeeded. *)
Inductive FileOp : Type := RemoveSocket | BindSocket | SetMode (mode : Z).

Definition file_op (op : FileOp) (error : string) (done : bool) : result string unit * list FileOp :=
  (ensure done error, [op]).
Definition file_then (first : result string unit * list FileOp)
    (next : result string unit * list FileOp) : result string unit * list FileOp :=
  match first with
  | (Ok _, ops) => (next.1, ops ++ next.2)
  | (Err e, ops) => (Err e, ops)
  end.

Definition remove_stale_socket (path : Inspected) (connect : Connect) (removed : bool)
    : result string unit * list FileOp :=
  match path with
  | PathAbsent => (Ok tt, [])
  | PathFailed => (Err "cannot inspect admin socket path"%string, [])
  | PathFound false => (Err "admin socket path exists and is not a socket"%string, [])
  | PathFound true =>
      match connect with
      | ConnectRefused => file_op RemoveSocket "cannot remove stale admin socket" removed
      | Connected => (Err "another attester is serving the admin socket"%string, [])
      | ConnectFailed => (Err "cannot check the existing admin socket"%string, [])
      | ConnectWouldBlock | ConnectPending =>
          (Err "another process holds the admin socket but is not accepting connections"%string, [])
      end
  end.

(** [Server::bind]. *)
Definition server_bind (path : Inspected) (connect : Connect) (removed bound restricted : bool)
    : result string unit * list FileOp :=
  file_then (remove_stale_socket path connect removed)
    (file_then (file_op BindSocket "cannot bind admin socket" bound)
       (file_op (SetMode 384) "cannot restrict admin socket permissions" restricted)).

(** ** Messages *)

(** A reply line: a page, the counts of a release, or an error. *)
Inductive ReplyBody : Type :=
| BodyPage (page : HoldsPage)
| BodyReleased (counts : Released)
| BodyError (e : ErrorBody).

(** serde_json over the requests and replies, beside the request decoder. *)
Class AdminWire `{AdminJson} := {
  json_of_request : Request -> bytes;
  json_of_reply : ReplyBody -> bytes;
  json_page : bytes -> option (Reply HoldsPage);
  json_released : bytes -> option (Reply Released);
}.

(** A line ends with a newline. *)
Definition line (json : bytes) : bytes := json ++ [10].

(** A message is one JSON object: a part of its line that decodes is the message itself. *)
Class AdminWireLaws `{AdminWire} : Prop := {
  read_request_part r part r' :
    part `prefix_of` line (json_of_request r) -> json_request part = Some r' -> r' = r;
  read_released_part body part reply :
    part `prefix_of` line (json_of_reply body) -> json_released part = Some reply ->
    body = match reply with ReplyOk counts => BodyReleased counts | ReplyError e => BodyError e end;
  read_page_part body part reply :
    part `prefix_of` line (json_of_reply body) -> json_page part = Some reply ->
    body = match reply with ReplyOk page => BodyPage page | ReplyError e => BodyError e end;
}.

(** ** The client *)

Definition REPLY_LIMIT : Z := 262144.

(** How the exchange's calls ended: the reply was read to the end, or one of them failed. *)
Inductive Exchanged : Type :=
| NotConnected
| WaitedOut
| CallFailed
| ReadToEnd (reply : bytes).

Inductive ExchangeError : Type :=
| NoSocket
| ReplyTimedOut
| ReplyLost
| ReplyOverLimit
| InvalidReply
| RequestFailed (e : ErrorBody).

Definition exchange_message (e : ExchangeError) : string :=
  match e with
  | NoSocket => "cannot connect to the admin socket"
  | ReplyTimedOut => "admin reply timed out; list holds before selecting another release"
  | ReplyLost => "admin reply lost; list holds before selecting another release"
  | ReplyOverLimit => "admin reply exceeds limit; list holds before selecting another release"
  | InvalidReply => "invalid admin reply"
  | RequestFailed e => "admin request failed (" +:+ eb_code e +:+ "): " +:+ eb_message e
  end.

Definition exchange {T} (decode : bytes -> option (Reply T)) (x : Exchanged) : result ExchangeError T :=
  match x with
  | NotConnected => Err NoSocket
  | WaitedOut => Err ReplyTimedOut
  | CallFailed => Err ReplyLost
  | ReadToEnd reply =>
      let reply := take (Z.to_nat (REPLY_LIMIT + 1)) reply in
      ensure (Z.of_nat (length reply) <=? REPLY_LIMIT) ReplyOverLimit ;?
      let? reply := ok_or (decode reply) InvalidReply in
      match reply with ReplyOk value => Ok value | ReplyError e => Err (RequestFailed e) end
  end.

(** What the operator asks for on the command line. *)
Inductive AdminOperation : Type :=
| CliHolds (after : option string)
| CliReleaseHolds (hold : string * Z) (circle_not_accepted : bool).

Definition client_request (operation : AdminOperation) : Request :=
  match operation with
  | CliHolds after => RequestHolds after
  | CliReleaseHolds hold circle_not_accepted => RequestRelease hold.1 hold.2 circle_not_accepted
  end.

Definition number (v : Z) : string := list_str (to_decimal v).
Definition tab : string := String (ascii_of_nat 9) "".

Definition hold_line (hold : HoldEntry) : string :=
  he_note_id hold +:+ tab +:+ he_kind hold +:+ tab +:+ he_reason hold +:+ tab
  +:+ default "-" (number <$> he_http_status hold) +:+ tab
  +:+ default "-" (he_circle_message hold) +:+ tab +:+ "event_seq=" +:+ number (he_event_seq hold).
Definition page_lines (page : HoldsPage) : list string :=
  ["faucet " +:+ hp_faucet_account_id page;
   "trusted anchor " +:+ number (hp_trusted_anchor_block page) +:+ " "
     +:+ hp_trusted_anchor_commitment page]
  ++ (hold_line <$> hp_holds page)
  ++ match hp_next_after page with Some after => ["next_after=" +:+ after] | None => [] end.
Definition released_lines (released : Released) : list string :=
  ["released burns=" +:+ number (released_burns released) +:+ " withdrawals="
     +:+ number (released_withdrawals released) +:+ " (release committed; payout is not confirmed)"].

(** [client::run], with what is printed. *)
Definition client_run `{AdminWire} (operation : AdminOperation) (x : Exchanged)
    : result ExchangeError (list string) :=
  match operation with
  | CliHolds _ => map_ok page_lines (exchange json_page x)
  | CliReleaseHolds _ _ => map_ok released_lines (exchange json_released x)
  end.

(** ** The maintenance commands (service.rs, attester.rs) *)

(** [Hold]'s [Display]. *)
Definition hold_to_string `{MidenLib} (hold : Hold) : string :=
  note_id_to_string (hold_note_id hold) +:+ tab +:+ hold_kind hold +:+ tab +:+ hold_reason_text hold +:+ tab
  +:+ default "-" (number <$> hold_http_status hold) +:+ tab +:+ default "-" (hold_circle_message hold).

(** The path's store, [None] where the file cannot be opened. *)
Section maintenance.
Context `{ML : MidenLib, WL : WebLib, JL : JsonLib, AW : AdminWire}.

Definition open_store_at (on_disk : option Store) (faucet : AccountId) (block : BlockNumber) (commitment : Word)
    : result StoreError Store :=
  let? st := ok_or on_disk StoreQuery in
  open_existing st faucet {| ta_block_num := block; ta_commitment := commitment |}.
Definition list_holds (on_disk : option Store) (faucet : AccountId) (block : BlockNumber) (commitment : Word)
    : result StoreError (list Hold) :=
  let? st := open_store_at on_disk faucet block commitment in holds st.
Definition offline_release_holds (now : Z) (on_disk : option Store) (faucet : AccountId) (block : BlockNumber)
    (commitment : Word) (ids : list NoteId) : result ReleaseError ((Z * Z) * Store) :=
  let? st := map_err ReleaseStore (open_store_at on_disk faucet block commitment) in release_holds now ids st.

Record ReleaseHoldsArgs := {
  rh_faucet_account_id : string;
  rh_trusted_anchor_block : BlockNumber;
  rh_trusted_anchor_commitment : string;
  rh_note_id : list string;
  rh_note_ids_file : option string;
}.
Inductive Maintenance : Type :=
| MaintainAdmin (operation : AdminOperation)
| MaintainReleaseHolds (args : ReleaseHoldsArgs).
Inductive MaintenanceError : Type :=
| MaintainExchange (e : ExchangeError)
| MaintainArgument (e : string)
| MaintainListing (e : StoreError)
| MaintainRelease (e : ReleaseError).
(** What the command prints, and what it logs. *)
Inductive Maintained : Type := PrintedLines (lines : list string) | ReleasedOffline (burns withdrawals : Z).

(** The note IDs of the command line and of the file, the reading of which gives its lines. *)
Definition named_notes (read_file : string -> option (list string)) (args : ReleaseHoldsArgs)
    : result string (list NoteId) :=
  let? lines := match rh_note_ids_file args with
                | None => Ok None
                | Some file => map_ok Some (ok_or (read_file file)
                    (String.append "failed to read note IDs from " file))
                end in
  parse_note_ids (rh_note_id args) lines.

(** [run_command]: its outcome, and the store the path holds after it. *)
Definition run_release_holds (now : Z) (read_file : string -> option (list string)) (on_disk : option Store)
    (args : ReleaseHoldsArgs) : result MaintenanceError (Maintained * option Store) :=
  let? faucet := map_err MaintainArgument (parse_faucet_account_id (rh_faucet_account_id args)) in
  let? commitment :=
    map_err MaintainArgument (parse_trusted_anchor_commitment (rh_trusted_anchor_commitment args)) in
  let block := rh_trusted_anchor_block args in
  match rh_note_id args, rh_note_ids_file args with
  | [], None =>
      let? found := map_err MaintainListing (list_holds on_disk faucet block commitment) in
      Ok (PrintedLines (hold_to_string <$> found), on_disk)
  | _, _ =>
      let? ids := map_err MaintainArgument (named_notes read_file args) in
      let? released := map_err MaintainRelease (offline_release_holds now on_disk faucet block commitment ids) in
      Ok (ReleasedOffline released.1.1 released.1.2, Some released.2)
  end.
Definition run_command (now : Z) (read_file : string -> option (list string)) (x : Exchanged)
    (on_disk : option Store) (command : Maintenance) : result MaintenanceError Maintained * option Store :=
  match command with
  | MaintainAdmin operation =>
      (map_ok PrintedLines (map_err MaintainExchange (client_run operation x)), on_disk)
  | MaintainReleaseHolds args =>
      match run_release_holds now read_file on_disk args with
      | Ok (done, on_disk) => (Ok done, on_disk)
      | Err e => (Err e, on_disk)
      end
  end.
End maintenance.

(** ** The listener and its connections *)

(** A connection, from the connect of its client to the end of what the client can read. The reply
    channel of a waiting one is empty until the attester's answer is sent; the time is that of the
    accept. *)
Inductive Phase : Type :=
| Backlogged
| Reading (opened : Z)
| Waiting (opened deadline : Z) (cell : option AdminAnswer)
| Answering (opened : Z) (reply : ReplyBody)
| Ended (got : bytes).
Record Conn := { cn_line : bytes; cn_phase : Phase }.

(** A queued command, by the connection that waits for it. *)
Record Queued := { q_conn : nat; q_operation : Operation; q_deadline : Z }.

(** The listener: when it stopped, the tasks it has not reaped, and every connection there was. *)
Record Serving := {
  sv_stopped : option Z;
  sv_served : gset nat;
  sv_conns : gmap nat Conn;
}.

(** One command the attester ran: SQLite's clock, and the store before and after it. *)
Record Executed `{MidenLib} := {
  ex_conn : nat;
  ex_operation : Operation;
  ex_now : Z;
  ex_before : Store;
  ex_answer : AdminAnswer;
  ex_after : Store;
}.

(** The attester's side: the inbox ([None] once closed), the command it is running, its store, and
    the commands it ran, newest first. *)
Record Core `{MidenLib} := {
  co_inbox : option (list Queued);
  co_running : option Queued;
  co_store : Store;
  co_log : list Executed;
}.

Record AdminWorld `{MidenLib} := {
  aw_now : Z;
  aw_shutdown : bool;
  aw_serving : Serving;
  aw_core : Core;
}.

Definition phase_of (sv : Serving) (n : nat) : option Phase := cn_phase <$> sv_conns sv !! n.
Definition set_phase (n : nat) (ph : Phase) (sv : Serving) : Serving :=
  {| sv_stopped := sv_stopped sv; sv_served := sv_served sv;
     sv_conns := alter (fun c => {| cn_line := cn_line c; cn_phase := ph |}) n (sv_conns sv) |}.

(** The reply that refuses a request, and the reply that carries the attester's answer. *)
Definition reply_body `{MidenLib} {T} (body : T -> ReplyBody) (r : result AdminError T) : ReplyBody :=
  match encode r with ReplyOk value => body value | ReplyError e => BodyError e end.
Definition refusal `{MidenLib} (e : AdminError) : ReplyBody := BodyError (admin_error_body e).
Definition answer_reply `{MidenLib} (a : AdminAnswer) : ReplyBody :=
  match a with
  | AnswerList r => reply_body BodyPage (dispatch false SentOk (ReceivedAnswer r))
  | AnswerRelease r => reply_body BodyReleased (dispatch false SentOk (ReceivedAnswer r))
  end.

(** ** Serving one connection *)

(** [handle] and [dispatch] up to the queue: what the connection does next, and the inbox. *)
Definition queue_command `{MidenLib} (now : Z) (stopped : bool) (n : nat) (opened : Z)
    (operation : Operation) (inbox : option (list Queued)) : Phase * option (list Queued) :=
  if stopped then (Answering opened (refusal Stopping), inbox)
  else
    match inbox with
    | None => (Answering opened (refusal AdminUnavailable), inbox)
    | Some queue =>
        if Nat.leb INBOX (length queue) then (Answering opened (refusal QueueFull), inbox)
        else
          let deadline := now + COMMAND_WAIT in
          (Waiting opened deadline None,
           Some (queue ++ [{| q_conn := n; q_operation := operation; q_deadline := deadline |}]))
    end.

(** [serve] from the end of its read to the queue. *)
Definition receive_request `{MidenLib, AdminJson} (now : Z) (stopped : bool) (n : nat) (opened : Z)
    (read : ReadLine) (inbox : option (list Queued)) : Phase * option (list Queued) :=
  match rbind (read_request read) handle_request with
  | Err e => (Answering opened (refusal e), inbox)
  | Ok operation => queue_command now stopped n opened operation inbox
  end.

(** How the read of a connection's line can end: with a part of it, by a stop, by its timeout or by
    an error of the socket. *)
Definition read_ends (now : Z) (stopped : bool) (opened : Z) (sent : bytes) (read : ReadLine) : Prop :=
  match read with
  | ReadCancelled => stopped = true
  | ReadTimedOut => opened + REQUEST_WAIT <= now
  | ReadFailed => True
  | ReadDone part => part `prefix_of` take (Z.to_nat (REQUEST_LIMIT + 1)) sent
  end.

(** ** The attester's side *)

(** The connection still holds the reply channel of its command. *)
Definition awaited (sv : Serving) (n : nat) : bool :=
  match phase_of sv n with Some (Waiting _ _ _) => true | _ => false end.

(** The command as the attester sees it when it takes it. *)
Definition taken (now : Z) (sv : Serving) (q : Queued) : Command :=
  {| cmd_operation := q_operation q;
     cmd_abandoned := (q_deadline q <=? now) || negb (awaited sv (q_conn q)) |}.

(** The head of [Attester::handle_admin]: the command runs, or is dropped unanswered. *)
Definition take_command (cancelled : bool) (now : Z) (sv : Serving) (q : Queued) : option Queued :=
  if cancelled || cmd_abandoned (taken now sv q) then None else Some q.

Section listener.
Context `{ML : MidenLib, WL : WebLib, JL : JsonLib, AJ : AdminJson, AW : !AdminWire}.
Context (config : Config) (anchor : TrustedAnchor).

(** The rest of [Attester::handle_admin]: the operation on the store. *)
Definition run_operation (now : Z) (operation : Operation) (st : Store) : AdminAnswer * Store :=
  match operation with
  | OpList after =>
      (AnswerList (map_err ReleaseStore (map_ok (holds_page_reply config) (holds_page st after))), st)
  | OpRelease selection =>
      match release_checked now selection st with
      | Ok (counts, st') =>
          (AnswerRelease (Ok {| released_burns := counts.1; released_withdrawals := counts.2 |}), st')
      | Err e => (AnswerRelease (Err e), st)
      end
  end.

Definition execute (now : Z) (q : Queued) (co : Core) : Executed :=
  let ran := run_operation now (q_operation q) (co_store co) in
  {| ex_conn := q_conn q; ex_operation := q_operation q; ex_now := now; ex_before := co_store co;
     ex_answer := ran.1; ex_after := ran.2 |}.

(** A oneshot reaches a connection that still waits. *)
Definition deliver (n : nat) (answer : AdminAnswer) (sv : Serving) : Serving :=
  match phase_of sv n with
  | Some (Waiting opened deadline None) => set_phase n (Waiting opened deadline (Some answer)) sv
  | _ => sv
  end.

Definition ran (e : Executed) (co : Core) : Core :=
  {| co_inbox := co_inbox co; co_running := None; co_store := ex_after e; co_log := e :: co_log co |}.

(** What a connection whose socket closes leaves its client: what it was already given. *)
Definition cut (c : Conn) : Conn :=
  match cn_phase c with
  | Ended _ => c
  | _ => {| cn_line := cn_line c; cn_phase := Ended [] |}
  end.

(** [Server::run] drops its listener: connections it did not accept are reset. *)
Definition reset_backlog (c : Conn) : Conn :=
  match cn_phase c with Backlogged => {| cn_line := cn_line c; cn_phase := Ended [] |} | _ => c end.

(** No command of the connection is queued or running: its reply channel's sender is dropped. *)
Definition sender_dropped (co : Core) (n : nat) : Prop :=
  (forall q, co_running co = Some q -> q_conn q <> n) /\
  (forall queue q, co_inbox co = Some queue -> q ∈ queue -> q_conn q <> n).

(** The task of a connection is dropped: its time is up, or the listener has waited for it after
    stopping. *)
Definition time_is_up (now : Z) (stopped : option Z) (ph : Phase) : bool :=
  match ph with
  | Reading opened | Waiting opened _ _ | Answering opened _ =>
      (opened + CONNECTION_WAIT <=? now)
      || match stopped with Some at_time => at_time + CLEANUP_WAIT <=? now | None => false end
  | Backlogged | Ended _ => false
  end.

#[local] Abbreviation world now shutdown serving core :=
  {| aw_now := now; aw_shutdown := shutdown; aw_serving := serving; aw_core := core |}.
#[local] Abbreviation core inbox running store log :=
  {| co_inbox := inbox; co_running := running; co_store := store; co_log := log |}.

(** Steps of clients and of the listener ([Server::run], [serve]). *)
Inductive serving_step (now : Z) (shutdown : bool) (co : Core) (sv : Serving)
    : Serving -> option (list Queued) -> Prop :=
| client_connects n sent :
    sv_stopped sv = None -> sv_conns sv !! n = None ->
    serving_step now shutdown co sv
      {| sv_stopped := None; sv_served := sv_served sv;
         sv_conns := <[n := {| cn_line := sent; cn_phase := Backlogged |}]> (sv_conns sv) |}
      (co_inbox co)
| listener_accepts n :
    sv_stopped sv = None -> phase_of sv n = Some Backlogged ->
    Z.of_nat (size (sv_served sv)) < MAX_CONNECTIONS ->
    serving_step now shutdown co sv
      (set_phase n (Reading now)
         {| sv_stopped := None; sv_served := {[n]} ∪ sv_served sv; sv_conns := sv_conns sv |})
      (co_inbox co)
| listener_reaps n got :
    phase_of sv n = Some (Ended got) ->
    serving_step now shutdown co sv
      {| sv_stopped := sv_stopped sv; sv_served := sv_served sv ∖ {[n]}; sv_conns := sv_conns sv |}
      (co_inbox co)
| connection_reads n c opened read ph inbox :
    sv_conns sv !! n = Some c -> cn_phase c = Reading opened ->
    read_ends now (bool_decide (is_Some (sv_stopped sv))) opened (cn_line c) read ->
    receive_request now (bool_decide (is_Some (sv_stopped sv))) n opened read (co_inbox co) = (ph, inbox) ->
    serving_step now shutdown co sv (set_phase n ph sv) inbox
| connection_answered n opened deadline answer :
    phase_of sv n = Some (Waiting opened deadline (Some answer)) ->
    serving_step now shutdown co sv (set_phase n (Answering opened (answer_reply answer)) sv) (co_inbox co)
| connection_times_out n opened deadline :
    phase_of sv n = Some (Waiting opened deadline None) -> deadline <= now ->
    serving_step now shutdown co sv (set_phase n (Answering opened (refusal ReplyTimeout)) sv) (co_inbox co)
| connection_unavailable n opened deadline :
    phase_of sv n = Some (Waiting opened deadline None) -> sender_dropped co n ->
    serving_step now shutdown co sv (set_phase n (Answering opened (refusal AdminUnavailable)) sv) (co_inbox co)
| connection_writes n opened reply got :
    phase_of sv n = Some (Answering opened reply) ->
    got `prefix_of` line (json_of_reply reply) ->
    serving_step now shutdown co sv (set_phase n (Ended got) sv) (co_inbox co)
| connection_cut n ph :
    phase_of sv n = Some ph -> time_is_up now (sv_stopped sv) ph = true ->
    serving_step now shutdown co sv (set_phase n (Ended []) sv) (co_inbox co)
| listener_stops :
    sv_stopped sv = None -> shutdown = true ->
    serving_step now shutdown co sv
      {| sv_stopped := Some now; sv_served := sv_served sv; sv_conns := reset_backlog <$> sv_conns sv |}
      (co_inbox co).

(** One step of the process: time passes, a shutdown is asked for, a client or the listener moves,
    the attester takes a command, runs it, works on something else or closes its inbox, or the
    process dies, having committed the command it was running or not. *)
Inductive admin_step (w : AdminWorld) : AdminWorld -> Prop :=
| time_passes d :
    0 <= d -> admin_step w (world (aw_now w + d) (aw_shutdown w) (aw_serving w) (aw_core w))
| shutdown_asked : admin_step w (world (aw_now w) true (aw_serving w) (aw_core w))
| serving_moves sv inbox :
    let co := aw_core w in
    serving_step (aw_now w) (aw_shutdown w) co (aw_serving w) sv inbox ->
    admin_step w (world (aw_now w) (aw_shutdown w) sv
                    (core inbox (co_running co) (co_store co) (co_log co)))
| attester_takes q queue :
    let co := aw_core w in
    co_inbox co = Some (q :: queue) -> co_running co = None ->
    admin_step w (world (aw_now w) (aw_shutdown w) (aw_serving w)
      (core (Some queue) (take_command (aw_shutdown w) (aw_now w) (aw_serving w) q)
         (co_store co) (co_log co)))
| attester_runs unix q :
    let co := aw_core w in
    let e := execute unix q co in
    co_running co = Some q ->
    admin_step w (world (aw_now w) (aw_shutdown w)
      (deliver (ex_conn e) (ex_answer e) (aw_serving w)) (ran e co))
| attester_works st :
    let co := aw_core w in
    co_running co = None -> star (store_step anchor) (co_store co) st ->
    admin_step w (world (aw_now w) (aw_shutdown w) (aw_serving w)
      (core (co_inbox co) None st (co_log co)))
| attester_stops :
    let co := aw_core w in
    co_running co = None ->
    admin_step w (world (aw_now w) (aw_shutdown w) (aw_serving w)
      (core None None (co_store co) (co_log co)))
| process_dies unix committed :
    let co := aw_core w in
    let sv := aw_serving w in
    admin_step w (world (aw_now w) true
      {| sv_stopped := Some (default (aw_now w) (sv_stopped sv)); sv_served := sv_served sv;
         sv_conns := cut <$> sv_conns sv |}
      match co_running co with
      | Some q => if committed : bool then let e := execute unix q co in
                    core None None (ex_after e) (e :: co_log co)
                  else core None None (co_store co) (co_log co)
      | None => core None None (co_store co) (co_log co)
      end).

(** A bound socket over a store, before anyone connects. *)
Definition admin_started (now : Z) (st : Store) : AdminWorld :=
  world now false {| sv_stopped := None; sv_served := ∅; sv_conns := ∅ |} (core (Some []) None st []).

(** ** What a client can see *)

(** How the calls of a client's exchange can have ended: it reads the reply to the end only once its
    connection has ended. *)
Definition client_sees (w : AdminWorld) (n : nat) (x : Exchanged) : Prop :=
  match x with
  | NotConnected => sv_conns (aw_serving w) !! n = None
  | WaitedOut | CallFailed => True
  | ReadToEnd got => phase_of (aw_serving w) n = Some (Ended got)
  end.
End listener.

(** ** The attester's side refines [Attester::handle_admin] *)

Section refines.
Context `{ML : MidenLib, WL : WebLib, JL : JsonLib, EL : EthLib, KL : KeyLib, AJ : AdminJson} {W : Type}.
Context `{!CircleApi W, !ChainReader W, !SignerApi W, !Clock W, !Inbox W}.

(** A command dropped by [take_command] changes nothing; any other is answered by [run_operation] at
    the store's clock. *)
Lemma handle_admin_refines {E} now sv q (s : Attester W) :
  exists unix w,
    handle_admin (E := E) (taken now sv q) s =
    (Ok tt, put_world w
       match take_command (admin_cancelled (at_world s)).1 now sv q with
       | None => s
       | Some q =>
           let '(answer, st) := run_operation (at_config s) unix (q_operation q) (at_store s) in
           push_action (Answered (q_operation q) answer) (put_store st s)
       end).
Proof.
  unfold handle_admin, take_command, and_then, world, gets. destruct (admin_cancelled (at_world s)) as [b w] eqn:Hc.
  cbn [fst]. destruct (b || _) eqn:Hd; [by exists 0, w|]. destruct q as [n [after|selection] deadline]; simpl in *.
  - exists 0, w. by destruct s.
  - unfold attempt, transact_now, and_then, world, transact. simpl.
    destruct (unixepoch w) as [unix w2]. exists unix, w2. simpl.
    by destruct (release_checked unix selection (at_store s)) as [[counts st]|e], s.
Qed.
End refines.
