(* ===== verification/AdminProps.v ===== *)
(** Properties of the operator's interface: paging through the holds, selecting one, and what the
    queue answers. *)
From S2P Require Import Prelude Text Telemetry Foreign Wire Types Burn Store StoreFacts.
From S2P Require Import StoreInv StoreWf StoreScan StoreReads StoreProps StoreQueries.
From S2P Require Import Config Verify Circle Signer Submission Admin Attester.
From Stdlib Require Import Ascii.
Local Open Scope Z_scope.

(** ** Generic *)

Lemma NoDup_omap_ids {A B} (f : NoteId * A -> option B) (g : B -> NoteId) l :
  (forall r b, f r = Some b -> g b = r.1) -> NoDup l.*1 -> NoDup (g <$> omap f l).
Proof.
  intros Hf. induction l as [|r l IH]; simpl; [constructor|]. intros [Hr Hnd]%NoDup_cons.
  destruct (f r) as [b|] eqn:Hb; simpl; [|auto]. constructor; [|auto].
  rewrite (Hf _ _ Hb). intros (b' & Hg & (r' & Hin & Hb')%list_elem_of_omap)%list_elem_of_fmap.
  destruct Hr. rewrite Hg, (Hf _ _ Hb'). by apply list_elem_of_fmap_2.
Qed.

(** In a strictly increasing list, the elements past [x] are those that follow it. *)
Lemma filter_past {A} (key : A -> bytes) l1 x l2 :
  StronglySorted (key_lt key) (l1 ++ x :: l2) ->
  List.filter (fun r => bool_decide (bytes_lt (key x) (key r))) (l1 ++ x :: l2) = l2.
Proof.
  induction l1 as [|y l1 IH]; simpl; intros Hs; inversion Hs as [|? ? Hs' Hall]; subst;
    rewrite Forall_forall in Hall.
  - rewrite bool_decide_eq_false_2 by apply bytes_lt_irrefl. clear Hs Hs'.
    induction l2 as [|y l2 IH]; simpl; [done|].
    rewrite bool_decide_eq_true_2 by (apply Hall; set_solver). f_equal. apply IH.
    intros z Hz. apply Hall. set_solver.
  - rewrite bool_decide_eq_false_2; [by apply IH|]. intros Hlt.
    assert (Hyx : bytes_lt (key y) (key x)) by (apply Hall; set_solver).
    exact (bytes_lt_irrefl _ (bytes_lt_trans _ _ _ Hlt Hyx)).
Qed.

Lemma StronglySorted_key {A} (key : A -> bytes) l :
  StronglySorted (key_lt key) l -> StronglySorted bytes_lt (key <$> l).
Proof. induction 1; constructor; [done|]. by apply Forall_fmap. Qed.

Section holds.
Context `{ML : MidenLib, WL : WebLib, JL : JsonLib}.
Context `{!MidenLaws, !WebLaws}.
Context (faucet : AccountId) (anchor : TrustedAnchor).
Implicit Types st : Store.
Abbreviation reachable := (reachable faucet anchor).

(** ** The rows of the listing *)

(** The note's burn or its withdrawal is held. *)
Definition held_note (st : Store) (id : NoteId) : Prop :=
  (exists b, burns st !! id = Some b /\ is_Some (b_hold_reason b)) \/
  (exists s, submissions st !! id = Some s /\ s_status s = Held).

Lemma elem_of_held_burn_rows st r :
  r ∈ held_burn_rows st <-> exists b reason, burns st !! hr_note_id r = Some b /\
    b_hold_reason b = Some reason /\
    r = {| hr_note_id := hr_note_id r; hr_kind := "burn"; hr_burn_reason := Some reason;
           hr_withdrawal_reason := None; hr_http_status := (held_answer st (hr_note_id r)).1;
           hr_response := (held_answer st (hr_note_id r)).2 |}.
Proof.
  unfold held_burn_rows. rewrite list_elem_of_omap. split.
  - intros ([id b] & Hb%elem_of_map_to_list & Hr). destruct (b_hold_reason b) as [c|] eqn:Hc; [|done].
    destruct (held_answer st id) as [h resp] eqn:Ha. injection Hr as <-. simpl. exists b, c.
    by rewrite Ha.
  - intros (b & c & Hb & Hc & ->). simpl in *. exists (hr_note_id r, b).
    rewrite elem_of_map_to_list, Hc. split; [done|]. by destruct (held_answer st (hr_note_id r)).
Qed.

Lemma elem_of_held_withdrawal_rows st r :
  r ∈ held_withdrawal_rows st <-> exists s, submissions st !! hr_note_id r = Some s /\
    s_status s = Held /\
    r = {| hr_note_id := hr_note_id r; hr_kind := "withdrawal"; hr_burn_reason := None;
           hr_withdrawal_reason := s_hold_reason s; hr_http_status := s_last_http_status s;
           hr_response := s_last_response s |}.
Proof.
  unfold held_withdrawal_rows. rewrite list_elem_of_omap. split.
  - intros ([id s] & Hs%elem_of_map_to_list & Hr). destruct (decide _) as [Hh|]; [|done].
    injection Hr as <-. by exists s.
  - intros (s & Hs & Hh & ->). simpl in *. exists (hr_note_id r, s).
    rewrite elem_of_map_to_list. split; [done|]. by rewrite decide_True.
Qed.

Lemma elem_of_hold_rows st id : (exists r, r ∈ hold_rows st /\ hr_note_id r = id) <-> held_note st id.
Proof.
  unfold hold_rows. setoid_rewrite elem_of_order_by. setoid_rewrite elem_of_app. split.
  - intros (r & [Hr|Hr] & <-).
    + apply elem_of_held_burn_rows in Hr as (b & c & Hb & Hc & _). left. exists b. by rewrite Hc.
    + apply elem_of_held_withdrawal_rows in Hr as (s & Hs & Hh & _). right. by exists s.
  - intros [(b & Hb & [c Hc])|(s & Hs & Hh)].
    + eexists. split; [left; apply elem_of_held_burn_rows|]; [|]; cycle 1.
      * instantiate (1 := {| hr_note_id := id; hr_kind := "burn"; hr_burn_reason := Some c;
          hr_withdrawal_reason := None; hr_http_status := (held_answer st id).1;
          hr_response := (held_answer st id).2 |}). done.
      * by exists b, c.
    + eexists. split; [right; apply elem_of_held_withdrawal_rows|]; [|]; cycle 1.
      * instantiate (1 := {| hr_note_id := id; hr_kind := "withdrawal"; hr_burn_reason := None;
          hr_withdrawal_reason := s_hold_reason s; hr_http_status := s_last_http_status s;
          hr_response := s_last_response s |}). done.
      * by exists s.
Qed.

Lemma hold_rows_sorted st : store_wf anchor st -> StronglySorted (key_lt hr_note_id) (hold_rows st).
Proof.
  intros Hwf. apply order_by_strict. rewrite fmap_app. apply NoDup_app. split_and!.
  - apply NoDup_omap_ids; [|apply NoDup_fst_map_to_list]. intros [id b] r. simpl.
    destruct (b_hold_reason b); [|done]. destruct (held_answer st id). by intros [= <-].
  - intros id (r & -> & Hr%elem_of_held_burn_rows)%list_elem_of_fmap
      (r' & Hid & Hr'%elem_of_held_withdrawal_rows)%list_elem_of_fmap.
    destruct Hr as (b & c & Hb & Hc & _), Hr' as (s & Hs & Hh & _). rewrite <-Hid in Hs.
    destruct (nk_hold _ _ _ _ _ (wf_note _ _ Hwf _) _ _ Hb Hc) as (_ & _ & _ & Hna & _).
    specialize (Hna _ Hs). congruence.
  - apply NoDup_omap_ids; [|apply NoDup_fst_map_to_list]. intros [id s] r. simpl.
    destruct (decide _); [|done]. by intros [= <-].
Qed.

(** ** Entries *)

(** The entry the operator sees for a row. *)
Definition shows (st : Store) (r : HoldRow) (e : HoldEntry) : Prop :=
  he_note_id e = note_id_to_string (hr_note_id r) /\ he_kind e = hr_kind r /\
  he_http_status e = hr_http_status r /\ revision st (hr_note_id r) = Some (he_event_seq e) /\
  canonical_word (hr_note_id r) = true.

Lemma held_has_event st id : store_wf anchor st -> held_note st id -> is_Some (List.find (of_note id) (events st)).
Proof.
  intros Hwf [(b & Hb & [c Hc])|(s & Hs & Hh)]; pose proof (wf_note _ _ Hwf id) as Hnk.
  - by destruct (nk_hold _ _ _ _ _ Hnk _ _ Hb Hc) as (_ & _ & _ & _ & Hf).
  - pose proof (nk_sub_status _ _ _ _ _ Hnk _ Hs) as Hst. rewrite Hh in Hst.
    destruct (replay_outcome id (events st)) as [e|] eqn:Hr; [|done]. clear Hst.
    revert Hr. generalize (events st) as evs. induction evs as [|x evs IH]; simpl; [done|].
    destruct (of_note id x); [by eexists|]. exact IH.
Qed.

Lemma hold_entry_wf st r :
  store_wf anchor st -> r ∈ hold_rows st -> exists e, hold_entry st r = Ok e /\ shows st r e.
Proof.
  intros Hwf Hr. assert (Hheld : held_note st (hr_note_id r)) by (apply elem_of_hold_rows; by exists r).
  destruct (held_has_event _ _ Hwf Hheld) as [ev Hev].
  assert (Hrev : revision st (hr_note_id r) = Some (e_seq ev)).
  { rewrite revision_newest by apply (wf_history _ _ Hwf). by rewrite Hev. }
  pose proof (revision_positive anchor _ _ _ Hwf Hrev) as Hpos.
  assert (Hid : canonical_word (hr_note_id r) = true).
  { destruct Hheld as [(b & Hb & _)|(s & Hs & _)]; [by eapply (burn_id_canonical anchor st)|].
    destruct (nk_sub_burn _ _ _ _ _ (wf_note _ _ Hwf _) _ Hs) as (b & Hb & _).
    by eapply (burn_id_canonical anchor st). }
  unfold hold_entry, shows. rewrite Hrev, Hid. simpl.
  destruct (Z.ltb_spec 0 (e_seq ev)); [|lia]. simpl. unfold decode_word. rewrite Hid. simpl.
  unfold hold_rows in Hr. rewrite elem_of_order_by, elem_of_app in Hr. destruct Hr as [Hr|Hr].
  - apply elem_of_held_burn_rows in Hr as (b & c & Hb & Hc & ->). simpl in *.
    destruct (nk_hold _ _ _ _ _ (wf_note _ _ Hwf _) _ _ Hb Hc) as ([reason ->] & _). simpl.
    eexists. split; [reflexivity|]. by split_and!.
  - apply elem_of_held_withdrawal_rows in Hr as (s & Hs & Hh & ->). simpl in *.
    eexists. split; [reflexivity|]. by split_and!.
Qed.
(** ** Pages *)

(** The operator lists from [after], then follows the cursor of each page: each request goes
    through the endpoint's parser, the query and the reply. *)
Fixpoint list_all (config : Config) (fuel : nat) (after : option string) (st : Store)
    : option (list HoldEntry) :=
  match fuel with
  | O => None
  | S fuel =>
      match handle_request (RequestHolds after) with
      | Ok (OpList id) =>
          match holds_page st id with
          | Ok holds =>
              let reply := holds_page_reply config holds in
              match hp_next_after reply with
              | None => Some (hp_holds reply)
              | Some cursor => app (hp_holds reply) <$> list_all config fuel (Some cursor) st
              end
          | Err _ => None
          end
      | _ => None
      end
  end.

Lemma cursor_parses id :
  canonical_word id = true ->
  handle_request (RequestHolds (Some (note_id_to_string id))) = Ok (OpList (Some id)).
Proof.
  intros Hid. simpl. unfold parse_note_id. rewrite note_id_hex_string by done. simpl.
  by rewrite bool_decide_eq_true_2.
Qed.

Lemma list_all_step config st fuel after :
  list_all config (S fuel) after st =
  match handle_request (RequestHolds after) with
  | Ok (OpList id) =>
      match holds_page st id with
      | Ok holds =>
          match hp_next_after (holds_page_reply config holds) with
          | None => Some (hp_holds (holds_page_reply config holds))
          | Some cursor =>
              app (hp_holds (holds_page_reply config holds)) <$> list_all config fuel (Some cursor) st
          end
      | Err _ => None
      end
  | _ => None
  end.
Proof. done. Qed.

(** One page of the rows that remain: all of them, or the first 100 and a cursor to the last. *)
Lemma page_of config st rest :
  store_wf anchor st -> (forall r, r ∈ rest -> r ∈ hold_rows st) ->
  exists holds, collect (hold_entry st) (take (HOLDS_PAGE + 1) rest) = Ok holds /\
    ((hp_next_after (holds_page_reply config holds) = None /\
      Forall2 (shows st) rest (hp_holds (holds_page_reply config holds))) \/
     (exists l1 x l2, rest = l1 ++ x :: l2 /\ canonical_word (hr_note_id x) = true /\
      hp_next_after (holds_page_reply config holds) = Some (note_id_to_string (hr_note_id x)) /\
      Forall2 (shows st) (l1 ++ [x]) (hp_holds (holds_page_reply config holds)))).
Proof.
  intros Hwf Hin.
  destruct (collect_choose (hold_entry st) (shows st) (take (HOLDS_PAGE + 1) rest)) as (holds & Hc & HF).
  { intros r Hr%elem_of_take. apply hold_entry_wf; [done|]. destruct Hr as (i & Hi & _).
    apply Hin. by eapply list_elem_of_lookup_2. }
  exists holds. split; [done|]. pose proof (Forall2_length _ _ _ HF) as Hlen.
  unfold holds_page_reply. simpl hp_next_after. simpl hp_holds.
  destruct (Nat.ltb_spec HOLDS_PAGE (length holds)) as [Hlt|Hge].
  - right. assert (Hrest : (HOLDS_PAGE < length rest)%nat) by (rewrite length_take in Hlen; lia).
    destruct (lookup_lt_is_Some_2 rest (HOLDS_PAGE - 1)%nat) as [x Hx]; [unfold HOLDS_PAGE in *; lia|].
    exists (take (HOLDS_PAGE - 1) rest), x, (drop HOLDS_PAGE rest).
    assert (Htake : take HOLDS_PAGE rest = take (HOLDS_PAGE - 1) rest ++ [x]).
    { change HOLDS_PAGE with (S (HOLDS_PAGE - 1)) at 1. by apply take_S_r. }
    assert (HF' : Forall2 (shows st) (take HOLDS_PAGE rest) (take HOLDS_PAGE holds)).
    { apply (Forall2_take _ _ _ HOLDS_PAGE) in HF. by rewrite take_take, Nat.min_l in HF by lia. }
    rewrite Htake in HF'. split; [|split; [|split; [|done]]].
    + rewrite <-(take_drop HOLDS_PAGE rest) at 1. by rewrite Htake, <-app_assoc.
    + apply Forall2_app_inv_l in HF' as (h1 & h2 & _ & HFx & _).
      inversion HFx as [|? ? ? ? Hs]; subst. apply Hs.
    + apply Forall2_app_inv_l in HF' as (h1 & h2 & _ & HFx & ->).
      inversion HFx as [|? e ? ? Hs HFn]; subst. inversion HFn; subst. rewrite last_snoc. simpl.
      f_equal. apply Hs.
  - left. split; [done|]. rewrite take_ge in HF; [done|].
    rewrite length_take in Hlen. unfold HOLDS_PAGE in *. lia.
Qed.

Lemma list_all_from config st fuel pre rest after :
  store_wf anchor st -> hold_rows st = pre ++ rest -> (length rest < fuel)%nat ->
  match after with
  | None => pre = []
  | Some cursor => exists l x, pre = l ++ [x] /\ canonical_word (hr_note_id x) = true /\
      cursor = note_id_to_string (hr_note_id x)
  end ->
  exists entries, list_all config fuel after st = Some entries /\ Forall2 (shows st) rest entries.
Proof.
  intros Hwf. revert pre rest after. induction fuel as [|fuel IH]; [lia|]. intros pre rest after Hrows Hlen Hafter.
  assert (Hreq : exists id, handle_request (RequestHolds after) = Ok (OpList id) /\
    List.filter (after_cursor id) (hold_rows st) = rest).
  { pose proof (hold_rows_sorted st Hwf) as Hs. destruct after as [cursor|].
    - destruct Hafter as (l & x & -> & Hx & ->). exists (Some (hr_note_id x)).
      split; [by apply cursor_parses|]. rewrite Hrows, <-app_assoc in *. by apply filter_past.
    - subst pre. exists None. split; [done|]. rewrite Hrows. simpl. clear.
      induction rest as [|r rest IH]; [done|]. simpl. by rewrite IH. }
  destruct Hreq as (id & Hreq & Hfilter). rewrite list_all_step, Hreq. unfold holds_page. rewrite Hfilter.
  destruct (page_of config st rest Hwf) as (holds & -> & [[Hn HF]|(l1 & x & l2 & -> & Hx & Hn & HF)]).
  { intros r Hr. rewrite Hrows. set_solver. }
  - rewrite Hn. eauto.
  - rewrite Hn. destruct (IH (pre ++ l1 ++ [x]) l2 (Some (note_id_to_string (hr_note_id x)))) as (es & -> & HF').
    + by rewrite Hrows, <-!app_assoc.
    + rewrite length_app in Hlen. simpl in Hlen. lia.
    + exists (pre ++ l1), x. by rewrite <-app_assoc.
    + simpl. eexists. split; [reflexivity|].
      replace (l1 ++ x :: l2) with ((l1 ++ [x]) ++ l2) by (by rewrite <-app_assoc). by apply Forall2_app.
Qed.

(** C26. Paging is complete: following the cursors from the first page, with more requests than
    holds, never fails and shows every held note exactly once, in increasing order of note ID, each
    with its current revision. *)
Theorem holds_pages_complete config st fuel :
  reachable st -> (length (hold_rows st) < fuel)%nat ->
  exists entries ids, list_all config fuel None st = Some entries /\
    StronglySorted bytes_lt ids /\ (forall id, id ∈ ids <-> held_note st id) /\
    Forall2 (fun id e => he_note_id e = note_id_to_string id /\
               revision st id = Some (he_event_seq e)) ids entries.
Proof.
  intros Hwf%reachable_store_wf Hlen.
  destruct (list_all_from config st fuel [] (hold_rows st) None Hwf eq_refl Hlen eq_refl) as (es & He & HF).
  exists es, (hr_note_id <$> hold_rows st). split; [done|]. split; [|split].
  - apply StronglySorted_key, hold_rows_sorted, Hwf.
  - intros id. rewrite <-elem_of_hold_rows, list_elem_of_fmap. naive_solver.
  - apply Forall2_fmap_l. eapply Forall2_impl; [exact HF|]. intros r e (Hid & _ & _ & Hrev & _). done.
Qed.
(** ** Releasing *)

(** A held withdrawal is one Circle refused without giving it an ID. *)
Lemma held_withdrawal_releasable st id s :
  store_wf anchor st -> submissions st !! id = Some s -> s_status s = Held ->
  withdrawal_releasable st id = true.
Proof.
  intros Hwf Hs Hh. pose proof (wf_note _ _ Hwf id) as Hnk. unfold withdrawal_releasable. rewrite Hs.
  rewrite (nk_sub_held _ _ _ _ _ Hnk _ Hs Hh), Hh.
  destruct (nk_sub_valid _ _ _ _ _ Hnk _ Hs) as (Hv & _).
  apply validate_submission_Ok in Hv as (_ & _ & _ & _ & Hv). unfold validate_submission_outcome in Hv.
  simpl in Hv. rewrite Hh in Hv. by destruct (s_hold_reason s) as [[]|].
Qed.

(** A release that succeeds selects a held note at its current revision. *)
Lemma release_checked_Ok now st selection counts st' :
  store_wf anchor st -> release_checked now selection st = Ok (counts, st') ->
  let id := sel_note_id selection in
  held_note st id /\ revision st id = Some (sel_expected_event_seq selection) /\
  ((exists s, submissions st !! id = Some s /\ s_status s = Held) ->
     sel_circle_not_accepted selection = true).
Proof.
  intros Hwf Hr id. unfold release_checked in Hr. fold id in Hr. inv_ok.
  match goal with E : match revision st id with _ => _ end = Ok ?r |- _ =>
    destruct (revision st id) as [rev|] eqn:Hrev; [injection E as ->|by destruct (_ || _)] end.
  bool_prop.
  match goal with E : release_hold _ _ _ _ = Ok _ |- _ =>
    apply release_hold_Ok in E as [(Hb & _)|(Hb & Hw & Hflag & _)] end.
  + unfold burn_is_held in Hb. destruct (burns st !! id) as [b|] eqn:Hbr; [|done]. bool_prop.
    destruct Hb as [c Hc]. split; [left; exists b; by rewrite Hc|]. split; [by f_equal|].
    intros (s & Hs & Hh). destruct (nk_hold _ _ _ _ _ (wf_note _ _ Hwf id) _ _ Hbr Hc) as (_ & _ & _ & Hna & _).
    specialize (Hna _ Hs). congruence.
  + apply withdrawal_releasable_row in Hw as (s & Hs & Hh & _). split; [right; by exists s|].
    split; [by f_equal|done].
Qed.

(** C27. Releases are exact: a release succeeds if and only if the note is held, the selection names
    its current revision and, when it is a withdrawal that is held, the operator asserts that
    Circle has not accepted it. *)
Theorem release_exact now st selection :
  reachable st ->
  let id := sel_note_id selection in
  (exists counts st', release_checked now selection st = Ok (counts, st')) <->
  (held_note st id /\ revision st id = Some (sel_expected_event_seq selection) /\
   ((exists s, submissions st !! id = Some s /\ s_status s = Held) ->
      sel_circle_not_accepted selection = true)).
Proof.
  intros Hwf%reachable_store_wf id. split.
  { intros (counts & st' & Hr). by eapply release_checked_Ok. }
  unfold release_checked. fold id.
  intros (Hheld & Hrev & Hflag). pose proof (revision_positive anchor _ _ _ Hwf Hrev) as Hpos.
  unfold tbind, tlift, tget. destruct (Z.ltb_spec 0 (sel_expected_event_seq selection)); [|lia]. simpl.
  rewrite Hrev, Z.eqb_refl. simpl.
  unfold release_hold, tbind, tlift, tget, tput, tret, tmap_err.
  destruct (burn_is_held st id) eqn:Hb.
  - unfold burn_is_held in Hb. destruct (burns st !! id) as [b|] eqn:Hbr; [|done].
    unfold record_event. rewrite Hbr. simpl. eauto.
  - destruct Hheld as [(b & Hbr & Hc)|(s & Hs & Hh)].
    { unfold burn_is_held in Hb. rewrite Hbr in Hb. by bool_prop. }
    rewrite (held_withdrawal_releasable st id s Hwf Hs Hh), Hflag by (by exists s). simpl.
    destruct (nk_sub_burn _ _ _ _ _ (wf_note _ _ Hwf id) _ Hs) as (b & Hbr & _).
    unfold record_event. rewrite Hbr. simpl. rewrite Hs. simpl. eauto.
Qed.
End holds.

(** ** The selection on the command line *)

Lemma split_once_app l r :
  Forall (fun a => a <> ":"%char) l -> split_once (l ++ ":"%char :: r) = Some (l, r).
Proof.
  induction 1 as [|a l Ha Hl IH]; [done|]. cbn [app split_once].
  by rewrite bool_decide_eq_false_2, IH.
Qed.

Lemma decimal_digits_nonempty fuel v acc : acc <> [] -> decimal_digits fuel v acc <> [].
Proof.
  revert v acc; induction fuel as [|fuel IH]; intros v acc Ha; [done|]. cbn [decimal_digits].
  case_match; [done|]. by apply IH.
Qed.
Lemma decimal_digits_some fuel v acc : decimal_digits (S fuel) v acc <> [].
Proof. cbn [decimal_digits]. case_match; [done|]. by apply decimal_digits_nonempty. Qed.
Lemma to_decimal_nonempty v : to_decimal v <> [].
Proof. exact (decimal_digits_some 77 v []). Qed.

Lemma digit_not a : is_ascii_digit a = true -> a <> ":"%char /\ a <> "-"%char /\ a <> "+"%char.
Proof. intros Ha. split_and!; intros ->; vm_compute in Ha; discriminate Ha. Qed.

Lemma parse_i64_digits l v :
  l <> [] -> Forall (fun a => is_ascii_digit a = true) l -> digits_value l = v -> 0 <= v <= i64_max ->
  parse_i64 (list_str l) = Some v.
Proof.
  intros Hne Hd Hval Hv. unfold parse_i64. rewrite str_list_str.
  assert (Hall : forallb is_ascii_digit l = true).
  { apply forallb_forall. rewrite Forall_forall in Hd. intros a Ha%list_elem_of_In. by apply Hd. }
  assert (Hu : (if bool_decide (l = []) || negb (forallb is_ascii_digit l) then None else Some (digits_value l)) = Some v).
  { rewrite Hall, bool_decide_eq_false_2 by done. simpl. by rewrite Hval. }
  destruct l as [|a l]; [done|]. apply Forall_cons in Hd as [Ha _].
  destruct (digit_not a Ha) as (_ & Hm & Hp). clear Hall Ha.
  assert (Hr : (if (- (i64_max + 1) <=? v) && (v <=? i64_max) then Some v else None) = Some v).
  { destruct (Z.leb_spec (- (i64_max + 1)) v), (Z.leb_spec v i64_max); done || lia. }
  destruct a as [[] [] [] [] [] [] [] []]; try done; rewrite Hu; exact Hr.
Qed.

Lemma to_decimal_all_digits v : 0 <= v -> Forall (fun a => is_ascii_digit a = true) (to_decimal v).
Proof. intros. by apply decimal_digits_digit. Qed.

Lemma parse_i64_decimal v : 0 <= v <= i64_max -> parse_i64 (list_str (to_decimal v)) = Some v.
Proof.
  intros Hv. assert (H78 : i64_max < 10 ^ 78) by (by vm_compute).
  apply parse_i64_digits; [apply to_decimal_nonempty|apply to_decimal_all_digits; lia| |done].
  apply to_decimal_value. lia.
Qed.

(** What the operator copies from the listing is what is released: the text NOTE_ID:EVENT_SEQ of
    a listed hold parses back to that note and revision, and the request made from it queues exactly
    that selection. *)
Theorem selection_roundtrip `{ML : MidenLib} `{!MidenLaws} id seq circle_not_accepted :
  canonical_word id = true -> 0 < seq <= i64_max ->
  parse_selection (note_id_to_string id +:+ ":" +:+ list_str (to_decimal seq)) =
    Ok (note_id_to_string id, seq) /\
  handle_request (RequestRelease (note_id_to_string id) seq circle_not_accepted) =
    Ok (OpRelease {| sel_note_id := id; sel_expected_event_seq := seq;
                     sel_circle_not_accepted := circle_not_accepted |}).
Proof.
  intros Hid Hseq.
  assert (Hparse : parse_note_id (note_id_to_string id) = Ok id).
  { unfold parse_note_id. rewrite note_id_hex_string by done. simpl. by rewrite bool_decide_eq_true_2. }
  split.
  2: { simpl. rewrite Hparse. by destruct (Z.ltb_spec 0 seq); [|lia]. }
  assert (Hrev : forall a b : string, rev (str_list (a +:+ ":" +:+ b)) = rev (str_list b) ++ ":"%char :: rev (str_list a)).
  { intros a b. rewrite !str_list_app, !rev_app_distr, <-app_assoc. done. }
  unfold parse_selection, rsplit_once. rewrite Hrev, str_list_str, split_once_app.
  2: { pose proof (to_decimal_all_digits seq ltac:(lia)) as Hd. rewrite Forall_forall in Hd.
       apply Forall_forall. intros a Ha. apply digit_not, Hd. by apply list_elem_of_In, in_rev, list_elem_of_In. }
  simpl. rewrite !rev_involutive, list_str_list. unfold parse_cursor. rewrite Hparse. simpl.
  rewrite parse_i64_decimal by lia. simpl. by destruct (Z.ltb_spec 0 seq); [|lia].
Qed.
