(* ===== verification/AdminLive.v ===== *)
(** The live admin socket's invariant, and what an operator can conclude from the reply to a release,
    whatever else goes through the socket and however it stops or crashes. *)
From S2P Require Import Prelude Text Foreign Wire Types Burn Store StoreFacts.
From S2P Require Import StoreInv StoreWf StoreScan StoreReads StoreProps StoreQueries.
From S2P Require Import Config Verify Circle Signer Submission Admin Attester AdminSocket AdminProps.
Local Open Scope Z_scope.

(** ** Generic *)

Lemma NoDup_submseteq_down {A} (l k : list A) : l ⊆+ k -> NoDup k -> NoDup l.
Proof.
  intros (k' & ->)%submseteq_Permutation. by intros (? & _ & _)%NoDup_app.
Qed.

Section live.
Context `{ML : MidenLib, WL : WebLib, JL : JsonLib, AJ : AdminJson, AW : !AdminWire}.
Context `{!MidenLaws, !WebLaws, !AdminWireLaws}.
Context (config : Config) (faucet : AccountId) (anchor : TrustedAnchor).
#[local] Abbreviation reachable := (reachable faucet anchor).
#[local] Abbreviation admin_step := (admin_step config anchor).
Implicit Types co : Core.
Implicit Types sv : Serving.
Implicit Types w : AdminWorld.

(** ** What is known of each connection *)

(** The commands the attester was ever given and did not drop, by connection: queued, running, run. *)
Definition commands co : list (nat * Operation) :=
  ((fun q => (q_conn q, q_operation q)) <$> default [] (co_inbox co))
  ++ ((fun q => (q_conn q, q_operation q)) <$> option_list (co_running co))
  ++ ((fun e => (ex_conn e, ex_operation e)) <$> co_log co).
Definition idle co (n : nat) : Prop := n ∉ (commands co).*1.

(** The attester ran the connection's command, with this answer. *)
Definition ran_with co (n : nat) (answer : AdminAnswer) : Prop :=
  exists e, e ∈ co_log co /\ ex_conn e = n /\ ex_answer e = answer.

(** What a reply says is so: a refused command is nowhere, and an answer is the attester's. Only a
    timeout leaves it open. *)
Definition told co (n : nat) (reply : ReplyBody) : Prop :=
  (exists e, e <> ReplyTimeout /\ reply = refusal e /\ idle co n) \/
  reply = refusal ReplyTimeout \/
  (exists answer, ran_with co n answer /\ reply = answer_reply answer).

Definition phase_ok co (n : nat) (ph : Phase) : Prop :=
  match ph with
  | Backlogged | Reading _ => idle co n
  | Waiting _ _ None => forall e, e ∈ co_log co -> ex_conn e <> n
  | Waiting _ _ (Some answer) => ran_with co n answer
  | Answering _ reply => told co n reply
  | Ended got => got = [] \/ exists reply, told co n reply /\ got `prefix_of` line (json_of_reply reply)
  end.

(** An operation a connection's bytes asked for. *)
Definition asked (sent : bytes) (operation : Operation) : Prop :=
  exists part request, part `prefix_of` sent /\ json_request part = Some request /\
    handle_request request = Ok operation.

(** A record of what the attester ran is true to the store. *)
Definition true_record (e : Executed) : Prop :=
  reachable (ex_before e) /\
  run_operation config (ex_now e) (ex_operation e) (ex_before e) = (ex_answer e, ex_after e).

Record live (sv : Serving) co : Prop := {
  live_once : NoDup (commands co).*1;
  live_asked n operation : (n, operation) ∈ commands co ->
    exists c, sv_conns sv !! n = Some c /\ asked (cn_line c) operation;
  live_phase n c : sv_conns sv !! n = Some c -> phase_ok co n (cn_phase c);
  live_log e : e ∈ co_log co -> true_record e;
  live_store : reachable (co_store co);
}.

(** ** How it is kept *)

(** What is known of a connection stays so when no command of its is added and the log grows. *)
Definition settles co co' (n : nat) : Prop :=
  (idle co n -> idle co' n) /\ (forall e, e ∈ co_log co -> e ∈ co_log co').

Lemma settles_ran co co' n a : settles co co' n -> ran_with co n a -> ran_with co' n a.
Proof. intros [_ Hl] (e & He & Hn). exists e. by split; [apply Hl|]. Qed.
Lemma settles_told co co' n reply : settles co co' n -> told co n reply -> told co' n reply.
Proof.
  intros Hs [(e & ? & ? & Hi)|[?|(a & Ha & ?)]]; [left|by right; left|right; right].
  - exists e. split_and!; [done..|]. by apply Hs.
  - exists a. split; [by eapply settles_ran|done].
Qed.

(** So a phase stays as known, apart from one that waits for a command that ran. *)
Lemma settles_phase co co' n ph :
  settles co co' n ->
  (match ph with Waiting _ _ None => forall e, e ∈ co_log co' -> ex_conn e = n -> e ∈ co_log co | _ => True end) ->
  phase_ok co n ph -> phase_ok co' n ph.
Proof.
  intros Hs Hw.
  destruct ph as [|o|o d [a|]|o r|got]; simpl in *; [apply Hs|apply Hs|by apply settles_ran|eauto|by apply settles_told|].
  intros [?|(r & Hr & Hp)]; [by left|right]. exists r. eauto using settles_told.
Qed.

(** Commands that are dropped. *)
Lemma sub_settles co co' n :
  commands co' ⊆+ commands co -> co_log co' = co_log co -> settles co co' n.
Proof.
  intros Hc Hl. split; [|by rewrite Hl]. intros Hi (p & -> & Hp)%list_elem_of_fmap. apply Hi.
  apply list_elem_of_fmap_2. by eapply elem_of_submseteq.
Qed.

Lemma idle_running co n q : co_running co = Some q -> q_conn q = n -> ~ idle co n.
Proof.
  intros Hq <- Hi. apply Hi. apply (list_elem_of_fmap_2 fst _ (q_conn q, q_operation q)).
  unfold commands. rewrite Hq, !elem_of_app. right. left. apply list_elem_of_here.
Qed.

(** A connection whose phase changes to one that is so. *)
Lemma live_set_phase sv co n ph :
  live sv co -> phase_ok co n ph -> live (set_phase n ph sv) co.
Proof.
  intros [] Hph. split; try done.
  - intros m op Hm. destruct (live_asked0 m op Hm) as (c & Hc & Ha). simpl.
    destruct (decide (m = n)) as [->|Hne].
    + rewrite lookup_alter_eq, Hc. simpl. by eexists.
    + rewrite lookup_alter_ne by done. by exists c.
  - intros m c. simpl. destruct (decide (m = n)) as [->|Hne].
    + rewrite lookup_alter_eq. intros (c' & _ & ->)%fmap_Some. exact Hph.
    + rewrite lookup_alter_ne by done. apply live_phase0.
Qed.

(** Connections that keep what they sent, in phases that are so. *)
Lemma live_map sv sv' co (f : Conn -> Conn) :
  sv_conns sv' = f <$> sv_conns sv -> (forall c, cn_line (f c) = cn_line c) ->
  (forall n c, phase_ok co n (cn_phase c) -> phase_ok co n (cn_phase (f c))) ->
  live sv co -> live sv' co.
Proof.
  intros Hsv Hl Hph []. split; try done; rewrite Hsv.
  - intros n op Hn. destruct (live_asked0 n op Hn) as (c & Hc & Ha). exists (f c).
    rewrite lookup_fmap, Hc, Hl. done.
  - intros n c. rewrite lookup_fmap. intros (c' & Hc' & ->)%fmap_Some. eauto.
Qed.

Lemma live_same sv sv' co : sv_conns sv' = sv_conns sv -> live sv co -> live sv' co.
Proof. intros Hsv. apply (live_map _ _ _ id); [by rewrite map_fmap_id|done|done]. Qed.

Lemma live_drop sv co co' :
  live sv co -> commands co' ⊆+ commands co -> co_log co' = co_log co -> reachable (co_store co') ->
  live sv co'.
Proof.
  intros [] Hc Hlog Hst. split; try done.
  - eapply NoDup_submseteq_down, live_once0. by apply fmap_submseteq.
  - intros n op Hn. apply live_asked0. by eapply elem_of_submseteq.
  - intros n c Hn. eapply settles_phase; [by apply sub_settles| |by apply live_phase0].
    rewrite Hlog. by destruct (cn_phase c) as [| |? ? [|]| |].
  - rewrite Hlog. exact live_log0.
Qed.

Lemma live_idle_unknown sv co n : live sv co -> sv_conns sv !! n = None -> idle co n.
Proof.
  intros [] Hn Hin. apply list_elem_of_fmap in Hin as ([m op] & -> & Hin).
  destruct (live_asked0 _ _ Hin) as (c & Hc & _). simpl in Hn. congruence.
Qed.

Lemma phase_of_Some sv n ph :
  phase_of sv n = Some ph -> exists c, sv_conns sv !! n = Some c /\ cn_phase c = ph.
Proof. unfold phase_of. by intros (c & ? & ->)%fmap_Some; exists c. Qed.

Lemma live_phase_of sv co n ph : live sv co -> phase_of sv n = Some ph -> phase_ok co n ph.
Proof. intros Hl (c & Hc & <-)%phase_of_Some. by apply (live_phase _ _ Hl). Qed.

Lemma idle_told co n e : idle co n -> e <> ReplyTimeout -> told co n (refusal e).
Proof. intros Hi He. left. by exists e. Qed.

Lemma admin_error_told co n read e :
  idle co n -> rbind (read_request read) handle_request = Err e -> told co n (refusal e).
Proof.
  intros Hi He. apply idle_told; [done|]. intros ->. unfold read_request in He.
  destruct read; simplify_eq/=. case_match; simplify_eq/=. destruct (json_request line) as [[after|id seq flag]|]; simplify_eq/=.
  - by destruct (transpose _).
  - destruct (parse_note_id id); [|done]. by destruct (0 <? seq).
Qed.

Lemma idle_not_ran co n e : idle co n -> e ∈ co_log co -> ex_conn e <> n.
Proof.
  intros Hi He <-. apply Hi. apply (list_elem_of_fmap_2 fst _ (ex_conn e, ex_operation e)).
  unfold commands. rewrite !elem_of_app. right. right.
  by apply (list_elem_of_fmap_2 (fun e => (ex_conn e, ex_operation e))).
Qed.

(** The command a connection queues. *)
Lemma live_queue sv co n c opened deadline operation queue :
  live sv co -> sv_conns sv !! n = Some c -> idle co n -> asked (cn_line c) operation ->
  co_inbox co = Some queue ->
  live (set_phase n (Waiting opened deadline None) sv)
    {| co_inbox := Some (queue ++ [{| q_conn := n; q_operation := operation; q_deadline := deadline |}]);
       co_running := co_running co; co_store := co_store co; co_log := co_log co |}.
Proof.
  intros Hlive Hc Hi Ha Hq. set (co' := Build_Core _ _ _ _ _).
  assert (Hcmd : commands co' ≡ₚ (n, operation) :: commands co).
  { unfold commands, co'. rewrite Hq. simpl. rewrite fmap_app, <-app_assoc. simpl.
    symmetry. apply Permutation_middle. }
  assert (Hother : forall m, m <> n -> settles co co' m).
  { intros m Hm. split; [|done]. intros Him. unfold idle. rewrite Hcmd. simpl. by apply not_elem_of_cons. }
  destruct Hlive. split; [| | |done|done].
  - rewrite Hcmd. simpl. by constructor.
  - intros m op. rewrite Hcmd. intros [[= -> ->]|Hm]%elem_of_cons.
    + eexists. simpl. by rewrite lookup_alter_eq, Hc.
    + destruct (live_asked0 _ _ Hm) as (c' & Hc' & Ha'). simpl. destruct (decide (m = n)) as [->|Hne].
      * rewrite lookup_alter_eq, Hc'. by eexists.
      * rewrite lookup_alter_ne by done. by exists c'.
  - intros m c'. simpl. destruct (decide (m = n)) as [->|Hne].
    + rewrite lookup_alter_eq, Hc. intros [= <-]. simpl. intros e He. by eapply idle_not_ran.
    + rewrite lookup_alter_ne by done. intros Hm. eapply settles_phase; [by apply Hother| |by apply live_phase0].
      by destruct (cn_phase c') as [| |? ? [|]| |].
Qed.

Lemma core_eta co :
  {| co_inbox := co_inbox co; co_running := co_running co; co_store := co_store co;
     co_log := co_log co |} = co.
Proof. by destruct co. Qed.

Lemma live_reads sv co n c now opened read ph inbox stopped :
  live sv co -> sv_conns sv !! n = Some c -> cn_phase c = Reading opened ->
  read_ends now stopped opened (cn_line c) read ->
  receive_request now stopped n opened read (co_inbox co) = (ph, inbox) ->
  live (set_phase n ph sv)
    {| co_inbox := inbox; co_running := co_running co; co_store := co_store co; co_log := co_log co |}.
Proof.
  intros Hlive Hc Hph Hread Hr. unfold receive_request in Hr.
  assert (Hi : idle co n) by (pose proof (live_phase _ _ Hlive _ _ Hc) as Hp; by rewrite Hph in Hp).
  destruct (rbind (read_request read) handle_request) as [op|e] eqn:Hop.
  2: { injection Hr as <- <-. rewrite core_eta. apply live_set_phase; [done|]. by eapply admin_error_told. }
  unfold queue_command in Hr. destruct stopped.
  { injection Hr as <- <-. rewrite core_eta. apply live_set_phase; [done|]. by apply idle_told. }
  destruct (co_inbox co) as [queue|] eqn:Hq.
  2: { injection Hr as <- <-. rewrite <-Hq, core_eta. apply live_set_phase; [done|]. by apply idle_told. }
  destruct (Nat.leb INBOX (length queue)).
  { injection Hr as <- <-. rewrite <-Hq, core_eta. apply live_set_phase; [done|]. by apply idle_told. }
  injection Hr as <- <-. eapply live_queue; try done.
  apply rbind_Ok in Hop as (request & Hreq & Hop). unfold read_request in Hreq. destruct read as [| | |part]; try done.
  destruct (REQUEST_LIMIT <? Z.of_nat (length part)); [done|].
  apply ok_or_Ok in Hreq. exists part, request. split_and!; [|done..].
  simpl in Hread. etrans; [exact Hread|]. apply prefix_take.
Qed.

Lemma live_serving now shutdown co sv sv' inbox :
  live sv co -> serving_step now shutdown co sv sv' inbox ->
  live sv' {| co_inbox := inbox; co_running := co_running co; co_store := co_store co; co_log := co_log co |}.
Proof.
  intros Hlive Hs. destruct Hs; try rewrite core_eta.
  - (* connects *)
    pose proof (live_idle_unknown _ _ _ Hlive H3) as Hi. destruct Hlive. split; try done; simpl.
    + intros m op Hm. destruct (live_asked0 _ _ Hm) as (c & Hc & Ha). exists c.
      rewrite lookup_insert_ne; [done|]. intros ->. congruence.
    + intros m c. rewrite lookup_insert_Some. intros [[<- <-]|[_ Hm]]; [exact Hi|by apply live_phase0].
  - (* accepts *)
    apply live_set_phase; [by apply (live_same sv)|]. exact (live_phase_of _ _ _ _ Hlive H3).
  - (* reaps *)
    by apply (live_same sv).
  - by eapply live_reads.
  - (* answered *)
    apply live_set_phase; [done|]. right. right. exists answer. split; [|done].
    exact (live_phase_of _ _ _ _ Hlive H2).
  - (* times out *)
    apply live_set_phase; [done|]. by right; left.
  - (* unavailable *)
    apply live_set_phase; [done|]. apply idle_told; [|done].
    pose proof (live_phase_of _ _ _ _ Hlive H2) as Hlog. destruct H3 as [Hr Hq]. simpl in Hlog.
    unfold idle, commands. rewrite !fmap_app, !not_elem_of_app, <-!list_fmap_compose.
    split_and!; intros (x & -> & Hx)%list_elem_of_fmap; simpl in *.
    + destruct (co_inbox co) as [queue|]; [|by apply elem_of_nil in Hx]. by eapply Hq.
    + destruct (co_running co) as [q|]; simpl in Hx; [|by apply elem_of_nil in Hx].
      apply elem_of_cons in Hx as [->|Hx%elem_of_nil]; [|done]. by eapply Hr.
    + by eapply Hlog.
  - (* writes *)
    apply live_set_phase; [done|]. right. exists reply. split; [|done].
    exact (live_phase_of _ _ _ _ Hlive H2).
  - (* cut *)
    apply live_set_phase; [done|]. by left.
  - (* stops *)
    eapply (live_map _ _ _ reset_backlog); [done| | |done].
    + intros c. unfold reset_backlog. by destruct (cn_phase c).
    + intros n c. unfold reset_backlog. destruct (cn_phase c) eqn:Hc; rewrite ?Hc; simpl; auto.
Qed.

(** ** The attester's steps *)

Lemma run_operation_reachable now operation st answer st' :
  reachable st -> run_operation config now operation st = (answer, st') -> reachable st'.
Proof.
  intros Hst. destruct operation as [after|selection]; simpl; [by intros [= _ <-]|].
  destruct (release_checked now selection st) as [[counts st1]|e] eqn:Hr; [|by intros [= _ <-]].
  intros [= _ <-]. unfold release_checked in Hr. inv_ok. eapply star_trans; [exact Hst|].
  apply star_one. by eapply step_release.
Qed.

Lemma execute_true now q co :
  reachable (co_store co) -> let e := execute config now q co in
  true_record e /\ reachable (ex_after e) /\ ex_conn e = q_conn q /\ ex_operation e = q_operation q.
Proof.
  intros Hst. unfold execute. destruct (run_operation _ _ _ _) as [answer st] eqn:Hr. simpl.
  split_and!; try done. by eapply run_operation_reachable.
Qed.

(** The running command is logged. *)
Lemma live_ran sv co q now inbox (e := execute config now q co) :
  live sv co -> co_running co = Some q -> inbox = co_inbox co \/ inbox = None ->
  let co' := {| co_inbox := inbox; co_running := None; co_store := ex_after e; co_log := e :: co_log co |} in
  (forall opened deadline, phase_of sv (ex_conn e) <> Some (Waiting opened deadline None)) ->
  live sv co'.
Proof.
  intros Hlive Hq Hin co' Hph.
  destruct (execute_true now q co (live_store _ _ Hlive)) as (Htrue & Hreach & Hconn & Hop). fold e in Htrue, Hreach, Hconn, Hop.
  assert (Hcmd : commands co' ⊆+ commands co).
  { unfold commands, co'. simpl. rewrite Hq. simpl. destruct Hin as [->| ->]; [done|].
    simpl. by apply submseteq_inserts_l. }
  assert (Hs : forall n, settles co co' n).
  { intros n. split; [|simpl; set_solver]. intros Hi (p & -> & Hp)%list_elem_of_fmap. apply Hi.
    apply list_elem_of_fmap_2. by eapply elem_of_submseteq. }
  destruct Hlive. split.
  - eapply NoDup_submseteq_down, live_once0. by apply fmap_submseteq.
  - intros n op Hn. apply live_asked0. by eapply elem_of_submseteq.
  - intros n c Hc. eapply settles_phase; [apply Hs| |by apply live_phase0].
    destruct (cn_phase c) as [| |o d [|]| |] eqn:Hp; try done.
    intros e' [->|?]%elem_of_cons Hn; [|done]. destruct (Hph o d). unfold phase_of. by rewrite Hn, Hc, <-Hp.
  - intros e' [->|?]%elem_of_cons; [done|]. by apply live_log0.
  - done.
Qed.

(** The answer reaches the connection that waits for it. *)
Lemma live_runs sv co q now (e := execute config now q co) :
  live sv co -> co_running co = Some q -> live (deliver (ex_conn e) (ex_answer e) sv) (ran e co).
Proof.
  intros Hlive Hq. unfold deliver, ran.
  destruct (phase_of sv (ex_conn e)) as [[|o|o d [a|]|o r|got]|] eqn:Hph;
    try (apply live_ran; [done|done|by left|intros ? ?; fold e; congruence]).
  set (co' := Build_Core _ _ _ _ _).
  assert (Hcut : live (set_phase (ex_conn e) (Ended []) sv) co').
  { apply live_ran; [|done|by left|].
    - apply live_set_phase; [done|]. by left.
    - intros o' d'. fold e. unfold phase_of. simpl. rewrite lookup_alter_eq.
      by destruct (sv_conns sv !! q_conn q). }
  apply (live_same (set_phase (ex_conn e) (Waiting o d (Some (ex_answer e))) (set_phase (ex_conn e) (Ended []) sv))).
  - simpl. apply map_eq. intros m. destruct (decide (m = q_conn q)) as [->|Hne].
    + rewrite !lookup_alter_eq. by destruct (sv_conns sv !! q_conn q).
    + by rewrite !lookup_alter_ne.
  - apply live_set_phase; [done|]. exists e. split_and!; [|done..]. apply list_elem_of_here.
Qed.

Lemma live_dies sv sv' co : sv_conns sv' = cut <$> sv_conns sv -> live sv co -> live sv' co.
Proof.
  intros Hsv. apply (live_map _ _ _ cut); [done| |].
  - intros c. unfold cut. by destruct (cn_phase c).
  - intros n c. unfold cut. destruct (cn_phase c) eqn:Hc; rewrite ?Hc; simpl; auto.
Qed.

Lemma cut_waits sv sv' n opened deadline :
  sv_conns sv' = cut <$> sv_conns sv -> phase_of sv' n <> Some (Waiting opened deadline None).
Proof.
  intros Hsv. unfold phase_of. rewrite Hsv, lookup_fmap. destruct (sv_conns sv !! n) as [c|]; [|done].
  simpl. unfold cut. destruct (cn_phase c) eqn:Hc; rewrite ?Hc; simpl; congruence.
Qed.

Lemma live_step w w' :
  live (aw_serving w) (aw_core w) -> admin_step w w' -> live (aw_serving w') (aw_core w').
Proof.
  intros Hlive Hs. destruct Hs; simpl; try done.
  - by eapply live_serving.
  - (* takes *)
    eapply live_drop; [exact Hlive| |done|apply Hlive]. unfold commands. simpl. subst co. rewrite H2, H3. simpl.
    unfold take_command. destruct (_ || _); simpl; [by apply submseteq_cons|].
    by rewrite Permutation_middle.
  - by apply live_runs.
  - (* works *)
    eapply live_drop; [exact Hlive| |done|]; simpl.
    + unfold commands. subst co. rewrite H2. reflexivity.
    + eapply star_trans; [exact (live_store _ _ Hlive)|exact H3].
  - (* stops *)
    eapply live_drop; [exact Hlive| |done|apply Hlive]. unfold commands. simpl. subst co. rewrite H2. simpl.
    by apply submseteq_inserts_l.
  - (* dies *)
    destruct (co_running co) as [q|] eqn:Hq; [destruct committed|].
    + apply live_ran; [by eapply live_dies|done|by right|]. intros. by eapply cut_waits.
    + eapply live_drop; [by eapply live_dies| |done|apply Hlive]. unfold commands. simpl. fold co.
      by do 2 apply submseteq_inserts_l.
    + eapply live_drop; [by eapply live_dies| |done|apply Hlive]. unfold commands. simpl. fold co.
      by do 2 apply submseteq_inserts_l.
Qed.

Lemma live_started now st : reachable st -> live (aw_serving (admin_started now st)) (aw_core (admin_started now st)).
Proof.
  intros Hst. split; simpl; [constructor|intros ? ? []%elem_of_nil|by intros ? ?|by intros ? ?%elem_of_nil|done].
Qed.

Lemma live_run now st w :
  reachable st -> star admin_step (admin_started now st) w -> live (aw_serving w) (aw_core w).
Proof.
  intros Hst Hrun. eapply (star_inv _ (fun w => live (aw_serving w) (aw_core w))); [|exact Hrun|by apply live_started].
  intros. by eapply live_step.
Qed.

(** ** Connections only move on *)

Definition stage (ph : Phase) : nat :=
  match ph with Backlogged | Reading _ => 0 | Waiting _ _ _ => 1 | Answering _ _ => 2 | Ended _ => 3 end.
Definition onward (ph ph' : Phase) : Prop :=
  (stage ph <= stage ph')%nat /\ forall got, ph = Ended got -> ph' = Ended got.
#[local] Instance onward_preorder : PreOrder onward.
Proof.
  split.
  - by intros ph.
  - intros ph1 ph2 ph3 [Hs1 He1] [Hs2 He2]. split; [lia|auto].
Qed.
Definition conns_onward sv sv' : Prop :=
  forall n c, sv_conns sv !! n = Some c ->
    exists c', sv_conns sv' !! n = Some c' /\ cn_line c' = cn_line c /\ onward (cn_phase c) (cn_phase c').
#[local] Instance conns_onward_preorder : PreOrder conns_onward.
Proof.
  split.
  - intros sv n c Hc. by exists c.
  - intros sv1 sv2 sv3 H1' H2' n c Hc. destruct (H1' n c Hc) as (c2 & Hc2 & Hl2 & Ho2).
    destruct (H2' n c2 Hc2) as (c3 & Hc3 & Hl3 & Ho3). exists c3. split_and!; [done|congruence|by etrans].
Qed.

Lemma set_phase_onward sv n ph ph' :
  phase_of sv n = Some ph -> onward ph ph' -> conns_onward sv (set_phase n ph' sv).
Proof.
  intros (c & Hc & <-)%phase_of_Some Ho m c' Hc'. simpl. destruct (decide (m = n)) as [->|Hne].
  - rewrite lookup_alter_eq, Hc. eexists. split; [done|]. by simplify_eq.
  - rewrite lookup_alter_ne by done. by exists c'.
Qed.
Lemma map_onward sv sv' (f : Conn -> Conn) :
  sv_conns sv' = f <$> sv_conns sv ->
  (forall c, cn_line (f c) = cn_line c /\ onward (cn_phase c) (cn_phase (f c))) -> conns_onward sv sv'.
Proof. intros Hsv Hf n c Hc. exists (f c). rewrite Hsv, lookup_fmap, Hc. split; [done|apply Hf]. Qed.

Lemma onward_stage ph ph' : (stage ph < stage ph')%nat -> onward ph ph'.
Proof. intros Hs. split; [lia|]. intros got ->. destruct ph'; simpl in Hs; lia. Qed.

Lemma serving_onward now shutdown co sv sv' inbox :
  serving_step now shutdown co sv sv' inbox -> conns_onward sv sv'.
Proof.
  intros Hs. destruct Hs.
  all: try (eapply set_phase_onward; [eassumption|apply onward_stage; simpl; lia]).
  - intros m c Hc. exists c. simpl. rewrite lookup_insert_ne by congruence. done.
  - apply (set_phase_onward {| sv_stopped := None; sv_served := {[n]} ∪ sv_served sv; sv_conns := sv_conns sv |} n
      Backlogged (Reading now)); [done|]. by split.
  - intros m c Hc. by exists c.
  - unfold receive_request, queue_command in H5. eapply set_phase_onward; [unfold phase_of; rewrite H2; simpl; by rewrite H3|].
    apply onward_stage. repeat case_match; simplify_eq/=; lia.
  - eapply set_phase_onward; [done|]. destruct ph; try discriminate; apply onward_stage; simpl; lia.
  - eapply (map_onward _ _ reset_backlog); [done|]. intros [l ph]. unfold reset_backlog. simpl.
    destruct ph; simpl; split; try done. apply onward_stage. simpl. lia.
Qed.

Lemma step_onward w w' : admin_step w w' -> conns_onward (aw_serving w) (aw_serving w').
Proof.
  intros Hs. destruct Hs; simpl; try reflexivity.
  - by eapply serving_onward.
  - unfold deliver. destruct (phase_of _ _) as [[|o|o d [a|]|o r|got]|] eqn:Hph; try reflexivity.
    eapply set_phase_onward; [done|]. by split.
  - eapply (map_onward _ _ cut); [done|]. intros [l ph]. unfold cut. simpl.
    destruct ph; simpl; split; try done; apply onward_stage; simpl; lia.
Qed.

Lemma run_onward w w' : star admin_step w w' -> conns_onward (aw_serving w) (aw_serving w').
Proof. induction 1 as [|x y z Hxy _ IH]; [reflexivity|]. etrans; [by apply step_onward|exact IH]. Qed.

(** ** What was released *)

Definition release_of (e : Executed) : option Released :=
  match ex_answer e with AnswerRelease (Ok counts) => Some counts | _ => None end.
(** The releases the attester committed for a connection. *)
Definition released co (n : nat) : list Executed :=
  List.filter (fun e => bool_decide (ex_conn e = n) && bool_decide (is_Some (release_of e))) (co_log co).

(** A release of what the operator selected: the note was held, at the reviewed revision, and the
    operator asserted what a held withdrawal needs. *)
Definition as_reviewed (hold : string * Z) (circle_not_accepted : bool) (e : Executed) : Prop :=
  exists id, parse_note_id hold.1 = Ok id /\ reachable (ex_before e) /\
    held_note (ex_before e) id /\ revision (ex_before e) id = Some hold.2 /\
    ((exists s, submissions (ex_before e) !! id = Some s /\ s_status s = Held) ->
       circle_not_accepted = true).

Lemma filter_conn (f : Executed -> bool) log n :
  NoDup (ex_conn <$> log) ->
  let out := List.filter (fun e => bool_decide (ex_conn e = n) && f e) log in
  ((forall e, e ∈ log -> ex_conn e <> n) /\ out = []) \/
  (exists e, e ∈ log /\ ex_conn e = n /\ out = if f e then [e] else []).
Proof.
  induction log as [|e log IH]; simpl; [left; split; [by intros ? ?%elem_of_nil|done]|].
  intros [He Hnd]%NoDup_cons. specialize (IH Hnd). case_bool_decide as Hn; simpl.
  - right. exists e. split; [apply list_elem_of_here|]. split; [done|].
    assert (Hrest : List.filter (fun e => bool_decide (ex_conn e = n) && f e) log = []).
    { destruct IH as [[_ ->]|(e' & He' & Hn' & _)]; [done|]. destruct He. rewrite Hn, <-Hn'.
      by apply list_elem_of_fmap_2. }
    rewrite Hrest. by destruct (f e).
  - destruct IH as [[Hno ->]|(e' & He' & Hn' & ->)].
    + left. split; [|done]. intros e' [->|?]%elem_of_cons; auto.
    + right. exists e'. split; [by apply list_elem_of_further|]. done.
Qed.

Lemma live_log_once sv co : live sv co -> NoDup (ex_conn <$> co_log co).
Proof.
  intros [Hnd _ _ _ _]. unfold commands in Hnd. rewrite !fmap_app, <-!list_fmap_compose in Hnd.
  apply NoDup_app in Hnd as (_ & _ & Hnd). by apply NoDup_app in Hnd as (_ & _ & Hnd).
Qed.

(** A connection is answered with at most one command run for it. *)
Lemma released_ran sv co n answer :
  live sv co -> ran_with co n answer ->
  exists e, ex_answer e = answer /\ released co n = if bool_decide (is_Some (release_of e)) then [e] else [].
Proof.
  intros Hlive (e & He & Hn & Ha). exists e. split; [done|]. unfold released.
  destruct (filter_conn (fun e => bool_decide (is_Some (release_of e))) (co_log co) n (live_log_once _ _ Hlive))
    as [[Hno _]|(e' & He' & Hn' & ->)]; [by destruct (Hno e)|].
  replace e' with e; [done|].
  pose proof (live_log_once _ _ Hlive) as Hnd. apply list_elem_of_lookup in He as (i & Hi), He' as (j & Hj).
  assert (i = j) as ->; [|congruence].
  eapply (NoDup_lookup (ex_conn <$> co_log co)); [done| |]; rewrite list_lookup_fmap.
  - by rewrite Hi.
  - rewrite Hj. simpl. congruence.
Qed.

Lemma released_idle co n : idle co n -> released co n = [].
Proof.
  intros Hi. unfold released. assert (Hno : forall e, e ∈ co_log co -> ex_conn e <> n) by (intros; by eapply idle_not_ran).
  revert Hno. induction (co_log co) as [|e log IH]; [done|]. intros Hno. simpl.
  rewrite bool_decide_eq_false_2 by (apply Hno, list_elem_of_here). simpl. apply IH.
  intros e' He'. apply Hno. by apply list_elem_of_further.
Qed.

Lemma released_once sv co n : live sv co -> released co n = [] \/ exists e, released co n = [e].
Proof.
  intros Hlive. unfold released.
  destruct (filter_conn (fun e => bool_decide (is_Some (release_of e))) (co_log co) n (live_log_once _ _ Hlive))
    as [[_ ->]|(e & _ & _ & ->)]; [by left|]. case_bool_decide; [right; by exists e|by left].
Qed.

Lemma asked_release sent id seq flag operation :
  sent = line (json_of_request (RequestRelease id seq flag)) -> asked sent operation ->
  exists note, parse_note_id id = Ok note /\
    operation = OpRelease {| sel_note_id := note; sel_expected_event_seq := seq;
                             sel_circle_not_accepted := flag |}.
Proof.
  intros -> (part & request & Hp & Hr & Hh). pose proof (read_request_part _ _ _ Hp Hr) as ->. simpl in Hh.
  destruct (parse_note_id id) as [note|]; [|done]. exists note. destruct (0 <? seq); [|done]. by simplify_eq.
Qed.

Lemma released_reviewed sv co n c hold flag e :
  live sv co -> sv_conns sv !! n = Some c ->
  cn_line c = line (json_of_request (client_request (CliReleaseHolds hold flag))) ->
  e ∈ released co n -> as_reviewed hold flag e.
Proof.
  intros Hlive Hc Hl He. apply list_elem_of_In, filter_In in He as [He%list_elem_of_In Hb]. bool_prop.
  destruct (live_log _ _ Hlive e He) as [Hreach Hrun].
  destruct (live_asked _ _ Hlive n (ex_operation e)) as (c' & Hc' & Ha).
  { unfold commands. rewrite !elem_of_app. right. right. apply list_elem_of_fmap. exists e. by subst. }
  rewrite Hc in Hc'. injection Hc' as <-.
  destruct (asked_release _ _ _ _ _ Hl Ha) as (note & Hnote & Hop). rewrite Hop in Hrun. simpl in Hrun.
  match goal with E : is_Some (release_of e) |- _ => destruct E as [counts Hcounts] end.
  unfold release_of in Hcounts.
  destruct (release_checked _ _ _) as [[pair st']|err] eqn:Hr; [|injection Hrun as Hans _; by rewrite <-Hans in Hcounts].
  apply (release_checked_Ok anchor) in Hr as (Hheld & Hrev & Hflag); [|by apply (reachable_store_wf faucet)].
  exists note. by split_and!.
Qed.

(** ** What a reply tells *)

Lemma reply_timeout_only e : eb_code (admin_error_body e) = "reply_timeout"%string <-> e = ReplyTimeout.
Proof. split; [|by intros ->]. by destruct e as [| | | | | |[]]. Qed.

Lemma exchange_reads got body :
  got `prefix_of` line (json_of_reply body) ->
  match exchange json_released (ReadToEnd got) with
  | Ok counts => body = BodyReleased counts
  | Err (RequestFailed e) => body = BodyError e
  | Err _ => True
  end.
Proof.
  intros Hp. unfold exchange. set (part := take _ got).
  assert (Hpart : part `prefix_of` line (json_of_reply body)) by (etrans; [apply prefix_take|exact Hp]).
  destruct (Z.of_nat (length part) <=? REPLY_LIMIT); [|done]. simpl.
  destruct (json_released part) as [reply|] eqn:Hr; [|done]. simpl.
  pose proof (read_released_part _ _ _ Hpart Hr). by destruct reply.
Qed.

Lemma told_released sv co n counts :
  live sv co -> told co n (BodyReleased counts) -> exists e, released co n = [e] /\ release_of e = Some counts.
Proof.
  intros Hlive [(e & _ & He & _)|[He|(answer & Hran & Ha)]]; [done|done|].
  destruct (released_ran _ _ _ _ Hlive Hran) as (e & He & Hout). exists e.
  assert (Hrel : release_of e = Some counts).
  { unfold release_of. rewrite He. destruct answer as [[page|err]|[c|err]]; try done.
    by injection Ha as ->. }
  rewrite Hout, Hrel. split; [|done]. by rewrite bool_decide_eq_true_2 by done.
Qed.

Lemma told_failed sv co n e :
  live sv co -> told co n (BodyError e) -> eb_code e <> "reply_timeout"%string -> released co n = [].
Proof.
  intros Hlive [(err & _ & _ & Hi)|[He|(answer & Hran & Ha)]] Hcode.
  - by apply released_idle.
  - injection He as ->. by destruct Hcode.
  - destruct (released_ran _ _ _ _ Hlive Hran) as (ex & He & ->). unfold release_of. rewrite He.
    by destruct answer as [[page|err]|[c|err]].
Qed.

(** ** A command that is not running and whose connection has moved on *)

Definition set_aside (n : nat) w : Prop :=
  (exists got, phase_of (aw_serving w) n = Some (Ended got)) /\
  forall q, co_running (aw_core w) = Some q -> q_conn q <> n.

Lemma ended_stays w w' n got :
  conns_onward (aw_serving w) (aw_serving w') -> phase_of (aw_serving w) n = Some (Ended got) ->
  phase_of (aw_serving w') n = Some (Ended got).
Proof.
  intros Ho (c & Hc & Hp)%phase_of_Some. destruct (Ho n c Hc) as (c' & Hc' & _ & _ & He).
  unfold phase_of. rewrite Hc'. simpl. f_equal. by apply He.
Qed.

Lemma released_other co n e log :
  co_log co = e :: log -> ex_conn e <> n ->
  released co n = List.filter (fun e => bool_decide (ex_conn e = n) && bool_decide (is_Some (release_of e))) log.
Proof. intros Hlog He. unfold released. rewrite Hlog. simpl. by rewrite bool_decide_eq_false_2. Qed.

Lemma set_aside_step w w' n :
  set_aside n w -> admin_step w w' ->
  set_aside n w' /\ released (aw_core w') n = released (aw_core w) n.
Proof.
  intros [[got Hgot] Hrun] Hs. pose proof (ended_stays _ _ _ _ (step_onward _ _ Hs) Hgot) as Hgot'.
  assert (Hwaits : awaited (aw_serving w) n = false) by (unfold awaited; by rewrite Hgot).
  assert ((forall q, co_running (aw_core w') = Some q -> q_conn q <> n) /\
          released (aw_core w') n = released (aw_core w) n) as [? ?]; [|by split; [split; [by exists got|]|]].
  clear Hgot'. destruct Hs; simpl in *; try done.
  - split; [|done]. intros q' Ht <-. unfold take_command, taken in Ht. simpl in Ht.
    destruct (_ || _) eqn:Hd; [done|]. injection Ht as <-. rewrite Hwaits in Hd. simpl in Hd.
    by rewrite !orb_true_r in Hd.
  - split; [done|]. apply released_other with (e := e) (log := co_log (aw_core w)); [done|].
    by apply Hrun.
  - destruct (co_running co) as [q|] eqn:Hq; [destruct committed|]; simpl; split; try done.
    apply released_other with (log := co_log (aw_core w)) (e := execute config unix q co); [done|].
    by apply Hrun.
Qed.

Lemma set_aside_run w w' n :
  star admin_step w w' -> set_aside n w -> released (aw_core w') n = released (aw_core w) n.
Proof.
  induction 1 as [|x y z Hxy _ IH]; [done|]. intros Hx. destruct (set_aside_step _ _ _ Hx Hxy) as [Hy <-]. auto.
Qed.

(** ** A request that is served *)

(** One connection of a listener that is not stopping. *)
Definition lone sent ph : Serving :=
  {| sv_stopped := None; sv_served := {[0%nat]};
     sv_conns := {[0%nat := {| cn_line := sent; cn_phase := ph |}]} |}.
Definition lone_world sent ph co : AdminWorld :=
  {| aw_now := 0; aw_shutdown := false; aw_serving := lone sent ph; aw_core := co |}.
Definition resting (st : Store) (running : option Queued) : Core :=
  {| co_inbox := Some []; co_running := running; co_store := st; co_log := [] |}.

Lemma lone_phase sent ph ph' : set_phase 0 ph' (lone sent ph) = lone sent ph'.
Proof. done. Qed.
Lemma lone_phase_of sent ph : phase_of (lone sent ph) 0 = Some ph.
Proof. done. Qed.

(** A well-formed request to an idle attester is answered with what its operation gives. *)
Lemma request_served st unix request operation :
  let sent := line (json_of_request request) in
  json_request sent = Some request -> Z.of_nat (length sent) <= REQUEST_LIMIT ->
  handle_request request = Ok operation ->
  let q := {| q_conn := 0; q_operation := operation; q_deadline := 0 + COMMAND_WAIT |} in
  let e := execute config unix q (resting st (Some q)) in
  star admin_step (admin_started 0 st)
    (lone_world sent (Ended (line (json_of_reply (answer_reply (ex_answer e))))) (ran e (resting st (Some q)))).
Proof.
  intros sent Hread Hlen Hop q e. clearbody sent.
  assert (Hreceive : receive_request 0 false 0 0 (ReadDone sent) (Some []) =
                     (Waiting 0 (0 + COMMAND_WAIT) None, Some [q])).
  { unfold receive_request, read_request. destruct (Z.ltb_spec REQUEST_LIMIT (Z.of_nat (length sent))); [lia|].
    rewrite Hread. cbn [ok_or rbind]. by rewrite Hop. }
  set (co inbox running := Build_Core _ inbox running st []).
  set (connected := {| sv_stopped := None; sv_served := ∅;
    sv_conns := {[0%nat := {| cn_line := sent; cn_phase := Backlogged |}]} |}).
  assert (Hserve : forall ph ph' inbox,
    serving_step 0 false (co (Some []) None) (lone sent ph) (lone sent ph') inbox ->
    admin_step (lone_world sent ph (co (Some []) None)) (lone_world sent ph' (co inbox None))).
  { intros ph ph' inbox Hs. exact (serving_moves _ _ (lone_world sent ph (co (Some []) None)) _ _ Hs). }
  apply star_step with {| aw_now := 0; aw_shutdown := false; aw_serving := connected; aw_core := co (Some []) None |}.
  { apply (serving_moves _ _ (admin_started 0 st)). exact (client_connects _ _ _ (aw_serving (admin_started 0 st)) 0%nat sent eq_refl eq_refl). }
  apply star_step with (lone_world sent (Reading 0) (co (Some []) None)).
  { apply (serving_moves _ _ {| aw_now := 0; aw_serving := connected; aw_core := co (Some []) None |}).
    exact (listener_accepts 0 false _ connected 0%nat eq_refl eq_refl eq_refl). }
  apply star_step with (lone_world sent (Waiting 0 (0 + COMMAND_WAIT) None) (co (Some [q]) None)).
  { apply Hserve. rewrite <-(lone_phase sent (Reading 0) (Waiting 0 (0 + COMMAND_WAIT) None)).
    eapply (connection_reads _ _ _ _ 0%nat _ 0 (ReadDone sent)); [done|done| |exact Hreceive].
    exists []. rewrite app_nil_r. apply take_ge. simpl. lia. }
  apply star_step with (lone_world sent (Waiting 0 (0 + COMMAND_WAIT) None) (co (Some []) (Some q))).
  { by apply (attester_takes _ _ (lone_world sent (Waiting 0 (0 + COMMAND_WAIT) None) (co (Some [q]) None)) q []). }
  apply star_step with (lone_world sent (Waiting 0 (0 + COMMAND_WAIT) (Some (ex_answer e))) (ran e (resting st (Some q)))).
  { apply (attester_runs _ _ (lone_world sent (Waiting 0 (0 + COMMAND_WAIT) None) (resting st (Some q))) unix q eq_refl). }
  set (co' := ran e (resting st (Some q))).
  assert (Hfinish : forall ph ph',
    serving_step 0 false co' (lone sent ph) (lone sent ph') (co_inbox co') ->
    admin_step (lone_world sent ph co') (lone_world sent ph' co')).
  { intros ph ph' Hs. exact (serving_moves _ _ (lone_world sent ph co') _ _ Hs). }
  apply star_step with (lone_world sent (Answering 0 (answer_reply (ex_answer e))) co').
  { apply Hfinish. exact (connection_answered 0 false co' (lone sent (Waiting 0 _ (Some (ex_answer e)))) 0%nat 0 _ _ eq_refl). }
  apply star_one, Hfinish.
  by apply (connection_writes 0 false co' (lone sent (Answering 0 (answer_reply (ex_answer e)))) 0%nat 0 _ _ eq_refl).
Qed.

(** C6. What an operator can conclude from the end of a release, whatever else goes through the admin
    socket, whenever connections are cut, the listener stops, the attester stops or the process
    dies: the release is committed at most once, and only as it was reviewed; a confirmation means
    it was committed, with those counts; an error that names any code but reply_timeout means it
    is not, and never will be; and once the connection has ended and the attester is not running
    the command, nothing more is released for it, so a listing then shows what came of it. *)
Theorem release_reply_told now st w w' n c hold circle_not_accepted x :
  reachable st -> star admin_step (admin_started now st) w -> star admin_step w w' ->
  sv_conns (aw_serving w) !! n = Some c ->
  cn_line c = line (json_of_request (client_request (CliReleaseHolds hold circle_not_accepted))) ->
  client_sees w n x ->
  let out := released (aw_core w') n in
  (out = [] \/ exists e, out = [e] /\ as_reviewed hold circle_not_accepted e) /\
  match exchange json_released x with
  | Ok counts => exists e, out = [e] /\ release_of e = Some counts
  | Err (RequestFailed e) => eb_code e <> "reply_timeout"%string -> out = []
  | Err _ => True
  end /\
  (forall got, x = ReadToEnd got -> (forall q, co_running (aw_core w) = Some q -> q_conn q <> n) ->
     out = released (aw_core w) n).
Proof.
  intros Hst Hrun Hon Hc Hl Hsees out.
  assert (Hlive : live (aw_serving w') (aw_core w')) by (eapply live_run; [done|by eapply star_trans]).
  pose proof (run_onward _ _ Hon) as Hw. split; [|split].
  - destruct (released_once _ _ n Hlive) as [Ho|[e Ho]]; [by left|right; exists e; split; [done|]].
    destruct (Hw n c Hc) as (c' & Hc' & Hl' & _). eapply released_reviewed; [done|exact Hc'|congruence|].
    rewrite Ho. apply list_elem_of_here.
  - destruct x as [| | |got]; try done. simpl in Hsees.
    pose proof (ended_stays _ _ _ _ Hw Hsees) as Hend. pose proof (live_phase_of _ _ _ _ Hlive Hend) as Hph.
    destruct Hph as [->|(reply & Htold & Hp)].
    + pose proof (exchange_reads [] (BodyReleased {| released_burns := 0; released_withdrawals := 0 |}) (prefix_nil _)) as H1'.
      pose proof (exchange_reads [] (refusal Stopping) (prefix_nil _)) as H2'.
      by destruct (exchange json_released (ReadToEnd [])) as [?|[]].
    + pose proof (exchange_reads got reply Hp) as Hread.
      destruct (exchange json_released (ReadToEnd got)) as [counts|[]]; try done; subst reply.
      * by eapply told_released.
      * intros Hcode. by eapply told_failed.
  - intros got -> Hq. eapply set_aside_run; [exact Hon|]. split; [by exists got|done].
Qed.
End live.

(** ** Offline maintenance *)

Section maintenance.
Context `{ML : MidenLib, WL : WebLib, JL : JsonLib, AW : AdminWire}.
Context `{!MidenLaws, !WebLaws}.
Context (faucet : AccountId) (anchor : TrustedAnchor).
#[local] Abbreviation reachable := (reachable faucet anchor).

(** The notes released at once: they were held, each is eligible again, no other note changed, and the
    history has one row more for each. *)
Record released_at_once (st st' : Store) (ids : list NoteId) : Prop := {
  ra_reachable : reachable st';
  ra_held id : id ∈ ids -> held_note st id;
  ra_eligible id : id ∈ ids -> eligible st' id;
  ra_others id : id ∉ ids -> burns st' !! id = burns st !! id /\ submissions st' !! id = submissions st !! id;
  ra_history : exists rows, events st' = rows ++ events st /\ reverse (e_note_id <$> rows) = ids;
}.

Lemma release_held now id flag st counts st' :
  release_hold now id flag st = Ok (counts, st') -> held_note st id /\ counts.1 + counts.2 = 1.
Proof.
  intros [(Hb & -> & _)|(_ & Hw & _ & -> & _)]%release_hold_Ok; (split; [|done]).
  - left. unfold burn_is_held in Hb. destruct (burns st !! id) as [b|]; [|done]. exists b. by bool_prop.
  - apply withdrawal_releasable_row in Hw as (s & Hs & Hh & _). right. by exists s.
Qed.
Lemma held_note_same st st' id :
  burns st' !! id = burns st !! id -> submissions st' !! id = submissions st !! id ->
  held_note st' id -> held_note st id.
Proof. unfold held_note. by intros -> ->. Qed.
Lemma eligible_same st st' id :
  burns st' !! id = burns st !! id -> submissions st' !! id = submissions st !! id ->
  eligible st id -> eligible st' id.
Proof. rewrite !eligible_row. by intros -> ->. Qed.

Lemma release_each_exact now ids : forall st counts counts' st',
  reachable st -> NoDup ids -> release_each now ids counts st = Ok (counts', st') ->
  released_at_once st st' ids
  /\ counts'.1 + counts'.2 = counts.1 + counts.2 + Z.of_nat (length ids).
Proof.
  induction ids as [|id ids IH]; intros st counts counts' st' Hr Hnd Hs; cbn [release_each] in Hs.
  - injection Hs as <- <-. split; [|simpl; lia]. split; [done|by intros ? ?%elem_of_nil..|done|by exists []].
  - apply NoDup_cons in Hnd as [Hid Hnd]. unfold tbind in Hs.
    destruct (release_hold now id true st) as [[released st1]|e] eqn:E; [|done].
    pose proof (release_touches _ _ _ _ _ _ E) as Ht.
    assert (Hsame : forall i, i <> id ->
      burns st1 !! i = burns st !! i /\ submissions st1 !! i = submissions st !! i)
      by (intros i Hi; split; [by apply (to_burns _ _ _ Ht)|by apply (to_submissions _ _ _ Ht)]).
    destruct (release_held _ _ _ _ _ _ E) as [Hheld Hone].
    assert (Hr1 : reachable st1) by (by eapply release_reachable).
    destruct (IH st1 _ _ _ Hr1 Hnd Hs) as [[K1 K2 K3 K4 (rows & K5 & K6)] Hc].
    destruct (release_history _ _ _ _ _ _ E) as (row & Hrow & Hrid).
    split; [split|].
    + done.
    + intros i [->|Hi]%elem_of_cons; [done|]. destruct (Hsame i) as [Hb Hsub]; [by intros ->|].
      by eapply held_note_same; [..|apply K2].
    + intros i [->|Hi]%elem_of_cons; [|by apply K3]. destruct (K4 id Hid) as [Hb Hsub].
      eapply eligible_same; [done..|]. eapply release_eligible; [|exact E]. by apply (reachable_store_wf faucet).
    + intros i Hi. apply not_elem_of_cons in Hi as [Hne Hi]. destruct (K4 i Hi) as [-> ->]. by apply Hsame.
    + exists (rows ++ [row]). rewrite K5, Hrow, <-app_assoc. split; [done|].
      rewrite fmap_app, reverse_app, K6. simpl. by rewrite Hrid.
    + simpl in *. lia.
Qed.

Lemma open_store_same on_disk f block commitment st st1 :
  on_disk = Some st -> reachable st -> open_store_at on_disk f block commitment = Ok st1 -> st1 = st.
Proof.
  intros -> Hr Ho. apply reachable_store_wf in Hr. unfold open_store_at, open_existing in Ho. simpl in Ho. inv_ok.
  match goal with E : validate_store _ _ _ = Ok _ |- _ => rename E into Hv end.
  unfold validate_store in Hv. inv_ok. bool_prop.
  destruct (so_row _ _ (wf_state _ _ Hr)) as (row & Hrow & Hf & _). simplify_eq.
  rewrite Hf. by destruct st.
Qed.

(** The maintenance command on a store a service can have left: it changes the store only by releasing
    every note it names, all of which were held, and then each is eligible again, the history has one
    row more for each in the order of their IDs, and the counts add up; otherwise, on any failure
    and when it lists, the store stays as it was. *)
Theorem maintenance_releases_all_or_nothing now read_file x st command :
  reachable st ->
  let '(outcome, on_disk) := run_command now read_file x (Some st) command in
  match outcome with
  | Ok (ReleasedOffline burns withdrawals) => exists args ids st',
      command = MaintainReleaseHolds args /\ named_notes read_file args = Ok ids /\ on_disk = Some st'
      /\ let named := order_by note_id_order (remove_dups ids) in
         released_at_once st st' named /\ burns + withdrawals = Z.of_nat (length named)
  | _ => on_disk = Some st
  end.
Proof.
  intros Hr. destruct command as [operation|args]; simpl.
  { by destruct (client_run operation x). }
  destruct (run_release_holds now read_file (Some st) args) as [[outcome on_disk]|e] eqn:E; [|done].
  unfold run_release_holds in E. apply rbind_Ok in E as (f & _ & E). apply rbind_Ok in E as (c & _ & E).
  assert (Hrel : (let? ids := map_err MaintainArgument (named_notes read_file args) in
      let? released := map_err MaintainRelease
        (offline_release_holds now (Some st) f (rh_trusted_anchor_block args) c ids) in
      Ok (ReleasedOffline released.1.1 released.1.2, Some released.2)) = Ok (outcome, on_disk) ->
    match outcome with
    | ReleasedOffline burns withdrawals => exists args' ids st',
        MaintainReleaseHolds args = MaintainReleaseHolds args' /\ named_notes read_file args' = Ok ids
        /\ on_disk = Some st'
        /\ let named := order_by note_id_order (remove_dups ids) in
           released_at_once st st' named /\ burns + withdrawals = Z.of_nat (length named)
    | PrintedLines _ => on_disk = Some st
    end).
  { intros El. apply rbind_Ok in El as (ids & Hids & El). apply rbind_Ok in El as ([counts st'] & Hrs & El).
    injection El as <- <-. apply map_err_Ok in Hids, Hrs. unfold offline_release_holds in Hrs.
    apply rbind_Ok in Hrs as (st1 & Ho & Hrs). apply map_err_Ok in Ho.
    apply (open_store_same _ _ _ _ st) in Ho as ->; [|done..].
    exists args, ids, st'. split_and!; [done..|]. apply release_each_exact in Hrs as [Hrs Hc].
    - split; [done|]. simpl in *. lia.
    - done.
    - rewrite order_by_perm. apply NoDup_remove_dups. }
  destruct (rh_note_id args), (rh_note_ids_file args); try exact (Hrel E).
  apply rbind_Ok in E as (found & _ & E). by injection E as <- <-.
Qed.
End maintenance.
