(* ===== verification/StoreTypes.v ===== *)
(** The store's queries as typed requests: on every store the attester reaches each of them succeeds,
    and what it returns is well formed (store.rs, the public listings of AttesterStore). *)
From S2P Require Import Prelude Text Foreign Wire Types Burn Store StoreFacts StoreInv.
From S2P Require Import StoreWf StoreScan StoreAuth StoreReads StoreProps StoreQueries AdminProps.
Local Open Scope Z_scope.

Section types.
Context `{ML : MidenLib, WL : WebLib, JL : JsonLib}.
Context `{!MidenLaws, !WebLaws}.
Context (faucet : AccountId) (anchor : TrustedAnchor).
Implicit Types st : Store.
Abbreviation reachable := (reachable faucet anchor).

(** A query and the type of what it lists. *)
Inductive Query : Type -> Type :=
| QCheckpoint : Query (option BlockHeader)
| QCandidates (nullifier : option Nullifier) : Query (list BurnCandidate)
| QCandidate (nullifier : Nullifier) : Query (option BurnCandidate)
| QBurns (include_submitted : bool) : Query (list DiscoveredBurn)
| QSubmission (id : NoteId) : Query (option SavedSubmission)
| QToRecover : Query (list SavedSubmission)
| QToPoll : Query (list SavedSubmission)
| QHolds : Query (list Hold)
| QHoldsPage (after : option NoteId) : Query (list HoldEntry)
| QLimitWait : Query (option LimitWait)
| QCreationBlock (id : NoteId) : Query BlockNumber.

Definition ask {A} (q : Query A) (st : Store) : result StoreError A :=
  match q with
  | QCheckpoint => checkpoint st
  | QCandidates u => load_candidates st u
  | QCandidate u => candidate_by_nullifier st u
  | QBurns all => load_burns st all
  | QSubmission id => submission st id
  | QToRecover => submissions_to_recover st
  | QToPoll => submissions_to_poll st
  | QHolds => holds st
  | QHoldsPage after => holds_page st after
  | QLimitWait => first_limit_wait st
  | QCreationBlock id => burn_creation_block st id
  end.

(** ** Well-formed values *)

Definition block_typed (n : BlockNumber) : Prop := 0 <= n <= u32_max.
(** A candidate or a burn is one its constructor accepts for this faucet. *)
Definition candidate_typed (faucet : AccountId) (c : BurnCandidate) : Prop :=
  BurnCandidate_new (bc_note c) (bc_creation_block c) faucet = Ok c /\ block_typed (bc_creation_block c).
Definition burn_typed (faucet : AccountId) (d : DiscoveredBurn) : Prop :=
  DiscoveredBurn_new (db_note d) (db_creation_block d) (db_consumption_block d) faucet = Ok d /\
  0 <= db_creation_block d < db_consumption_block d /\ db_consumption_block d <= u32_max.
(** A saved request: valid, its endpoint a parsed URL, its hash 32 bytes, its note ID canonical. *)
Definition saved_typed (s : SavedSubmission) : Prop :=
  validate_submission s = Ok tt /\ url_parse (sub_endpoint s) = Some (sub_endpoint s) /\
  length (transfer_spec_hash s) = 32%nat /\ canonical_word (note_id s) = true.
(** The reason an operator reads is one of the reasons of its kind of hold. *)
Definition hold_kind_typed (kind reason : string) : Prop :=
  (kind = "burn" /\ exists r, reason = burn_hold_debug r) \/
  (kind = "withdrawal" /\ exists r, reason = hold_reason_debug r).

(** The wait is a recorded burn's: its note, its creation block and its retry time. *)
Definition names_wait (st : Store) (lw : LimitWait) : Prop :=
  canonical_word (lw_note_id lw) = true /\ block_typed (lw_creation_block lw) /\ 0 <= lw_retry_at lw /\
  exists b, burns st !! lw_note_id lw = Some b /\ lw_creation_block lw = b_creation_block b /\
    b_retry_at b = Some (lw_retry_at lw).

Definition answer_typed {A} (q : Query A) (st : Store) : A -> Prop :=
  match q in Query A return A -> Prop with
  | QCheckpoint => fun h => forall b, h = Some b -> ta_block_num anchor <= header_block_num b
  | QCandidates _ => fun cs => Forall (candidate_typed (store_faucet st)) cs
  | QCandidate u => fun c => forall b, c = Some b -> candidate_typed (store_faucet st) b /\ note_nullifier (bc_note b) = u
  | QBurns _ => fun ds => Forall (burn_typed (store_faucet st)) ds
  | QSubmission id => fun s => forall o, s = Some o -> saved_typed o /\ note_id o = id
  | QToRecover => fun l => Forall (fun s => saved_typed s /\ status s = Submitting) l
  | QToPoll => fun l => Forall (fun s => saved_typed s /\ status s = Submitted /\ is_Some (withdrawal_id s)) l
  | QHolds => fun l => Forall (fun h => hold_kind_typed (hold_kind h) (hold_reason_text h) /\
                                        canonical_word (hold_note_id h) = true) l
  | QHoldsPage _ => fun l => (length l <= HOLDS_PAGE + 1)%nat /\
      Forall (fun e => hold_kind_typed (he_kind e) (he_reason e) /\ 0 < he_event_seq e) l
  | QLimitWait => fun w => match w with
      | None => forall id b, burns st !! id = Some b -> b_retry_at b = None
      | Some lw => names_wait st lw /\ forall id b, burns st !! id = Some b -> is_Some (b_retry_at b) ->
          id <> lw_note_id lw -> bytes_lt (lw_creation_block lw :: lw_note_id lw) (b_creation_block b :: id)
      end
  | QCreationBlock id => fun n => block_typed n /\ exists b, burns st !! id = Some b /\ n = b_creation_block b
  end.

(** What can be asked: the creation block only of a recorded burn. *)
Definition askable {A} (q : Query A) (st : Store) : Prop :=
  match q with QCreationBlock id => is_Some (burns st !! id) | _ => True end.

(** ** One query at a time *)

Lemma row_blocks st id b :
  store_wf anchor st -> burns st !! id = Some b -> block_typed (b_creation_block b) /\
  (forall k, b_consumption_block b = Some k -> b_creation_block b < k <= u32_max).
Proof. intros Hwf Hb. by destruct (nk_decodes _ _ _ _ _ (wf_note _ _ Hwf id) _ Hb) as (_ & ? & ?). Qed.

Lemma saved_of_typed st id s :
  store_wf anchor st -> submissions st !! id = Some s -> saved_typed (saved_of id s).
Proof.
  intros Hwf Hs. destruct (nk_sub_valid _ _ _ _ _ (wf_note _ _ Hwf id) _ Hs) as (Hv & Hu & Hl).
  split_and!; [done..|].
  destruct (nk_sub_burn _ _ _ _ _ (wf_note _ _ Hwf id) _ Hs) as (b & Hb & _).
  by apply (burn_id_canonical anchor st id b).
Qed.

Lemma candidates_typed st u :
  store_wf anchor st -> exists cs, load_candidates st u = Ok cs /\
    Forall (fun c => candidate_typed (store_faucet st) c /\
                     forall n, u = Some n -> note_nullifier (bc_note c) = n) cs.
Proof.
  intros Hwf. destruct (load_candidates_wf anchor st u Hwf) as (cs & -> & HF). exists cs. split; [done|].
  apply Forall_forall. intros c [i Hi]%list_elem_of_lookup.
  destruct (Forall2_lookup_r _ _ _ _ _ HF Hi) as ([id b] & Hr & (_ & Hu & Hc) & Hn). simpl in *.
  apply list_elem_of_lookup_2, elem_of_filter_list in Hr as [Hin%elem_of_burn_rows Hsel].
  destruct (row_blocks _ _ _ Hwf Hin) as [Hb _]. split; [split; [done|by rewrite Hc]|].
  intros n ->. unfold candidate_selected in Hsel. simpl in Hsel. bool_prop. congruence.
Qed.

Lemma burns_typed st all :
  store_wf anchor st -> exists ds, load_burns st all = Ok ds /\ Forall (burn_typed (store_faucet st)) ds.
Proof.
  intros Hwf. destruct (load_burns_wf anchor st all Hwf) as (ds & -> & HF). exists ds. split; [done|].
  apply Forall_forall. intros d [i Hi]%list_elem_of_lookup.
  destruct (Forall2_lookup_r _ _ _ _ _ HF Hi) as ([id b] & Hr & (_ & _ & Hc & Hk) & Hn). simpl in *.
  apply list_elem_of_lookup_2, elem_of_filter_list in Hr as [Hin%elem_of_burn_rows _].
  destruct (row_blocks _ _ _ Hwf Hin) as [Hb Hcons]. specialize (Hcons _ Hk). unfold block_typed in Hb.
  split; [done|]. lia.
Qed.

Lemma submissions_typed st id status :
  store_wf anchor st -> exists l, select_submissions st id status = Ok l /\
    Forall (fun s => saved_typed s /\ (forall x, status = Some x -> Types.status s = x)) l.
Proof.
  intros Hwf. rewrite (select_submissions_wf anchor) by done. eexists. split; [done|].
  apply Forall_forall. intros s ([i r] & -> & [Hin%elem_of_submission_rows Hsel]%elem_of_filter_list)%list_elem_of_fmap.
  split; [by eapply saved_of_typed|]. intros x ->. unfold submission_selected in Hsel. by bool_prop.
Qed.

Lemma typed_id s : saved_typed s -> status s = Submitted -> is_Some (withdrawal_id s).
Proof.
  intros (Hv & _) Hs. apply validate_submission_Ok in Hv as (_ & _ & _ & _ & Hv).
  unfold validate_submission_outcome in Hv. rewrite Hs in Hv. destruct (withdrawal_id s); [done|].
  by rewrite !orb_true_r in Hv.
Qed.

Lemma typed_reason s : saved_typed s -> status s = Held -> exists r, hold_reason s = Some r.
Proof.
  intros (Hv & _) Hs. apply validate_submission_Ok in Hv as (_ & _ & _ & _ & Hv).
  apply validate_outcome_held in Hv. by apply Hv in Hs as [r Hr]; exists r.
Qed.

Lemma holds_typed st :
  store_wf anchor st -> exists l, holds st = Ok l /\
    Forall (fun h => hold_kind_typed (hold_kind h) (hold_reason_text h) /\ canonical_word (hold_note_id h) = true) l.
Proof.
  intros Hwf. unfold holds.
  destruct (collect_choose (burn_hold st)
    (fun _ h => hold_kind_typed (hold_kind h) (hold_reason_text h) /\ canonical_word (hold_note_id h) = true)
    (order_by hr_note_id (held_burn_rows st))) as (hs & -> & HF).
  { intros r Hr. rewrite elem_of_order_by in Hr. apply elem_of_held_burn_rows in Hr as (b & c & Hb & Hc & ->).
    destruct (nk_hold _ _ _ _ _ (wf_note _ _ Hwf _) _ _ Hb Hc) as ([reason Hre] & _).
    unfold burn_hold, decode_word. simpl. simpl in *. rewrite Hre. simpl.
    rewrite (burn_id_canonical anchor st _ b) by done. eexists. split; [reflexivity|]. simpl.
    split; [left; by eauto|by eapply burn_id_canonical]. }
  simpl. destruct (submissions_typed st None (Some Held) Hwf) as (l & -> & Hl). simpl.
  eexists. split; [done|]. apply Forall_app. split.
  - clear -HF. induction HF; by constructor.
  - apply Forall_fmap. eapply Forall_impl; [exact Hl|]. intros s [Hs Hst].
    destruct (typed_reason s Hs (Hst _ eq_refl)) as [r Hr]. unfold withdrawal_hold. simpl. rewrite Hr.
    split; [right; by eauto|by apply Hs].
Qed.

Lemma entry_kind st r e :
  store_wf anchor st -> r ∈ hold_rows st -> hold_entry st r = Ok e ->
  hold_kind_typed (he_kind e) (he_reason e).
Proof.
  intros Hwf Hr He. unfold hold_rows in Hr. rewrite elem_of_order_by, elem_of_app in Hr.
  destruct Hr as [Hr|Hr].
  - apply elem_of_held_burn_rows in Hr as (b & c & Hb & Hc & Heq).
    destruct (nk_hold _ _ _ _ _ (wf_note _ _ Hwf _) _ _ Hb Hc) as ([reason Hre] & _).
    rewrite Heq in He. unfold hold_entry in He. simpl in He. rewrite Hre in He. simpl in He.
    inv_run. left. simpl. by eauto.
  - apply elem_of_held_withdrawal_rows in Hr as (s & Hs & Hh & Heq).
    destruct (typed_reason _ (saved_of_typed _ _ _ Hwf Hs) Hh) as [x Hx]. simpl in Hx.
    rewrite Heq in He. unfold hold_entry in He. simpl in He. rewrite Hx in He. simpl in He.
    inv_run. right. simpl. by eauto.
Qed.

Lemma page_typed st after :
  store_wf anchor st -> exists l, holds_page st after = Ok l /\ (length l <= HOLDS_PAGE + 1)%nat /\
    Forall (fun e => hold_kind_typed (he_kind e) (he_reason e) /\ 0 < he_event_seq e) l.
Proof.
  intros Hwf. unfold holds_page.
  set (rows := take (HOLDS_PAGE + 1) (List.filter (after_cursor after) (hold_rows st))).
  destruct (collect_choose (hold_entry st)
    (fun _ e => hold_kind_typed (he_kind e) (he_reason e) /\ 0 < he_event_seq e) rows) as (l & Hl & HF).
  { intros r (i & Hi & _)%elem_of_take. apply list_elem_of_lookup_2, elem_of_filter_list in Hi as [Hr _].
    destruct (hold_entry_wf anchor st r Hwf Hr) as (e & He & _ & _ & _ & Hrev & _).
    exists e. split_and!; [done|by eapply entry_kind|by eapply (revision_positive anchor)]. }
  exists l. split_and!; [done| |].
  - rewrite <-(Forall2_length _ _ _ HF). unfold rows. rewrite length_take. lia.
  - clear -HF. induction HF; by constructor.
Qed.

Lemma wait_typed st :
  store_wf anchor st -> exists w, first_limit_wait st = Ok w /\ answer_typed QLimitWait st w.
Proof.
  intros Hwf. destruct (first_limit_wait_wf anchor st Hwf) as [[-> Hn]|(id & b & a & Hb & Ha & -> & Hmin)];
    eexists; (split; [done|]); simpl; [exact Hn|]. split; [|exact Hmin].
  split_and!; simpl; [by apply (burn_id_canonical anchor st id b)|apply (row_blocks _ _ _ Hwf Hb)..| |by exists b].
  by destruct (nk_wait _ _ _ _ _ (wf_note _ _ Hwf id) _ _ Hb Ha) as (? & _).
Qed.

Lemma checkpoint_typed st :
  store_wf anchor st -> exists h, checkpoint st = Ok h /\
    forall b, h = Some b -> ta_block_num anchor <= header_block_num b.
Proof.
  intros Hwf. destruct (wf_state _ _ Hwf) as [(row & Hrow & _) Hck _].
  unfold checkpoint, load_checkpoint. rewrite Hrow. simpl.
  destruct (a_checkpoint row) as [bs|] eqn:Hbs; simpl; [|by eexists].
  destruct (Hck _ _ Hrow Hbs) as (h & Hd & Hle & _). unfold decode_header. rewrite Hd. simpl.
  exists (Some h). split; [done|]. by intros b [= <-].
Qed.

(** C18. The store's queries are type safe: on every store the attester reaches, each query the
    attester or an operator can ask answers, never with a decoding or validation error, and the answer
    is well formed. Candidates and burns are ones their constructors accept for the faucet, saved
    requests pass their validation and carry their note's canonical ID, requests to poll have a
    withdrawal ID, holds show a reason of their kind, a page fits its limit, and the limit wait is
    that of a recorded burn, with its creation block and retry time, the first of the waiting burns in
    chain order; there is none only when no burn waits. *)
Theorem reads_never_fail {A} (q : Query A) st :
  reachable st -> askable q st -> exists a, ask q st = Ok a /\ answer_typed q st a.
Proof.
  intros Hwf%reachable_store_wf. destruct q; cbn [askable ask answer_typed]; intros Hask.
  - by apply checkpoint_typed.
  - destruct (candidates_typed st nullifier Hwf) as (cs & -> & HF). eexists. split; [done|].
    eapply Forall_impl; [exact HF|]. by intros c [? _].
  - unfold candidate_by_nullifier.
    destruct (candidates_typed st (Some nullifier) Hwf) as (cs & -> & HF). eexists. split; [done|].
    intros c [l ->]%last_Some. apply Forall_app in HF as [_ HF]. inversion HF as [|? ? [Hc Hn]]; subst. by split; [|apply Hn].
  - by apply burns_typed.
  - rewrite (submission_wf anchor) by done. eexists. split; [done|].
    intros o [r [Hr ->]]%fmap_Some. by split; [eapply saved_of_typed|].
  - destruct (submissions_typed st None (Some Submitting) Hwf) as (l & Hl & HF). exists l. split; [done|].
    eapply Forall_impl; [exact HF|]. intros s [? Hs]. split; [done|by apply Hs].
  - destruct (submissions_typed st None (Some Submitted) Hwf) as (l & Hl & HF). exists l. split; [done|].
    eapply Forall_impl; [exact HF|]. intros s [? Hs]. specialize (Hs _ eq_refl).
    split_and!; [done|done|by apply typed_id].
  - by apply holds_typed.
  - by apply page_typed.
  - by apply wait_typed.
  - destruct Hask as [b Hb]. unfold burn_creation_block. rewrite Hb. simpl.
    destruct (row_blocks _ _ _ Hwf Hb) as [Hc _]. rewrite decode_block_wf by done. eexists. by eauto.
Qed.
End types.
