(* ===== verification/VerifyProps.v ===== *)
(** Properties of the check of Circle's prepared authorization: whatever Circle replies, a
    verified withdrawal pays the burn's own destination, spends no more than the burn and the
    configured fees, and is signed over exactly the fields that were checked. *)
From S2P Require Import Prelude Text Telemetry Foreign Wire Types Burn Config Verify Signer.
Local Open Scope Z_scope.

(** ** Packed encodings *)

(** The sizes of the Solidity types. *)
Record spec_sized (s : SpecFields) : Prop := {
  sz_version : 0 <= version s <= u32_max;
  sz_sourceDomain : 0 <= sourceDomain s <= u32_max;
  sz_destinationDomain : 0 <= destinationDomain s <= u32_max;
  sz_words : Forall (fun b : B256 => length b = 32%nat)
    [sourceContract s; destinationContract s; sourceToken s; destinationToken s; sourceDepositor s;
     destinationRecipient s; sourceSigner s; destinationCaller s; salt s];
  sz_value : 0 <= value s <= u256_max;
}.
Record intent_sized (i : IntentFields) : Prop := {
  sz_maxBlockHeight : 0 <= maxBlockHeight i <= u256_max;
  sz_maxFee : 0 <= maxFee i <= u256_max;
  sz_spec : spec_sized (spec i);
}.

Lemma be_bytes_app_inj w x y a b :
  0 <= x < 2 ^ (8 * Z.of_nat w) -> 0 <= y < 2 ^ (8 * Z.of_nat w) ->
  be_bytes w x ++ a = be_bytes w y ++ b -> x = y /\ a = b.
Proof.
  intros Hx Hy He. apply app_split in He as [Hxy Hab]; [|by autorewrite with lengths].
  split; [by apply (be_bytes_inj w)|done].
Qed.

Lemma u32_app_inj x y a b :
  0 <= x <= u32_max -> 0 <= y <= u32_max -> be_bytes 4 x ++ a = be_bytes 4 y ++ b -> x = y /\ a = b.
Proof.
  unfold u32_max. intros ?? He. apply (be_bytes_app_inj 4); [| |exact He];
    change (2 ^ (8 * Z.of_nat 4)) with 4294967296; lia.
Qed.

Lemma u256_app_inj x y a b :
  0 <= x <= u256_max -> 0 <= y <= u256_max -> be_bytes 32 x ++ a = be_bytes 32 y ++ b -> x = y /\ a = b.
Proof.
  unfold u256_max. intros ?? He. apply (be_bytes_app_inj 32); [| |exact He];
    change (8 * Z.of_nat 32) with 256; lia.
Qed.

Lemma append_with_length_Ok output data e :
  append_with_length output data = Ok e ->
  e = output ++ be_bytes 4 (Z.of_nat (length data)) ++ data /\ Z.of_nat (length data) <= u32_max.
Proof.
  unfold append_with_length. intros Hr. inv_ok.
  match goal with E : try_from_max _ _ = Some _ |- _ => apply try_from_max_Some in E as [-> Hl] end.
  split; [done|lia].
Qed.

Lemma spec_encode_inj s s' e :
  spec_sized s -> spec_sized s' -> TransferSpec_encode s = Ok e -> TransferSpec_encode s' = Ok e -> s = s'.
Proof.
  intros [Hv Hs Hd Hw Ha] [Hv' Hs' Hd' Hw' Ha'].
  intros [He Hl]%append_with_length_Ok [He' Hl']%append_with_length_Ok. rewrite He in He'. clear He.
  rewrite !Forall_cons in Hw, Hw'.
  destruct Hw as (W1 & W2 & W3 & W4 & W5 & W6 & W7 & W8 & W9 & _), Hw' as (V1 & V2 & V3 & V4 & V5 & V6 & V7 & V8 & V9 & _).
  rewrite <-!app_assoc in He'. apply app_inv_head in He'.
  apply u32_app_inj in He' as [E1 He']; [|done..]. apply u32_app_inj in He' as [E2 He']; [|done..].
  apply u32_app_inj in He' as [E3 He']; [|done..]. cbn [concat] in He'. rewrite !app_nil_r, <-!app_assoc in He'.
  do 8 (apply app_split in He' as [? He']; [|congruence]).
  apply u256_app_inj in He' as [E4 He']; [|assumption..].
  apply app_split in He' as [? He']; [|congruence].
  apply u32_app_inj in He' as [_ He']; [|lia..].
  destruct s, s'. simpl in E1, E2, E3, E4, He', H, H0, H1, H2, H3, H4, H5, H6, H7. by subst.
Qed.

(** C31. The packed encoding of a burn intent is injective: the bytes Circle must supply with its
    intent determine every field of it. *)
Theorem burn_intent_encode_injective i i' e :
  intent_sized i -> intent_sized i' -> BurnIntent_encode i = Ok e -> BurnIntent_encode i' = Ok e -> i = i'.
Proof.
  intros [Hb Hf Hs] [Hb' Hf' Hs'] Hi Hi'. unfold BurnIntent_encode in *.
  apply rbind_Ok in Hi as (x & Hx & [He Hl]%append_with_length_Ok).
  apply rbind_Ok in Hi' as (y & Hy & [He' Hl']%append_with_length_Ok). rewrite He in He'. clear He.
  rewrite <-!app_assoc in He'. apply app_inv_head in He'.
  apply u256_app_inj in He' as [E1 He']; [|assumption..]. apply u256_app_inj in He' as [E2 He']; [|assumption..].
  apply u32_app_inj in He' as [_ He']; [|lia..]. subst y.
  assert (spec i = spec i') as E3 by (by eapply spec_encode_inj).
  destruct i, i'. simpl in E1, E2, E3. by subst.
Qed.

Section verify.
Context `{ML : MidenLib, WL : WebLib, EL : EthLib}.

(** What the signed fields make Circle's contracts do with the payout [value s], and the fee the
    second leg may take out of it. *)
Inductive pays (config : Config) (burn : DiscoveredBurn) (s : SpecFields) (hook : HookData) : Z -> Prop :=
| pays_direct :
    dest_domain (db_items burn) < FIRST_REMOTE_DOMAIN ->
    forwarding_contract hook = address_zero -> forwarding_calldata hook = [] ->
    destinationDomain s = dest_domain (db_items burn) ->
    destinationRecipient s = dest_recipient (db_items burn) ->
    destinationCaller s = B256_ZERO -> pays config burn s hook 0
| pays_cctp :
    dest_domain (db_items burn) < FIRST_REMOTE_DOMAIN ->
    forwarding_contract hook = cf_token_messenger (cfg_cctp_forwarding config) ->
    destinationDomain s = ARC_DOMAIN -> destinationToken s = into_word ARC_USDC ->
    destinationRecipient s = into_word (cf_forwarder (cfg_cctp_forwarding config)) ->
    destinationCaller s = into_word (cf_forwarder (cfg_cctp_forwarding config)) ->
    forwarding_calldata hook = cctp_encode
      {| cc_amount := value s; cc_destinationDomain := dest_domain (db_items burn);
         cc_mintRecipient := dest_recipient (db_items burn); cc_burnToken := ARC_USDC;
         cc_destinationCaller := B256_ZERO; cc_maxFee := cf_max_fee (cfg_cctp_forwarding config);
         cc_minFinalityThreshold := CCTP_FAST_FINALITY; cc_hookData := CCTP_FORWARD_MARKER |} ->
    pays config burn s hook (cf_max_fee (cfg_cctp_forwarding config))
| pays_redeposit fee token ethereum_token wallet minter :
    FIRST_REMOTE_DOMAIN <= dest_domain (db_items burn) ->
    cfg_xreserve_deposit_max_fee config = Some fee ->
    xreserve_deployment (cf_forwarder (cfg_cctp_forwarding config)) = Some (ethereum_token, wallet, minter) ->
    (destinationDomain s = 0 /\ token = ethereum_token \/
     destinationDomain s = ARC_DOMAIN /\ token = ARC_USDC) ->
    forwarding_contract hook = cf_forwarder (cfg_cctp_forwarding config) ->
    destinationRecipient s = into_word (cf_forwarder (cfg_cctp_forwarding config)) ->
    destinationCaller s = into_word (cf_forwarder (cfg_cctp_forwarding config)) ->
    destinationToken s = into_word token -> sourceContract s = into_word wallet ->
    destinationContract s = into_word minter ->
    forwarding_calldata hook = redeposit_encode
      {| rd_value := value s; rd_remoteDomain := dest_domain (db_items burn);
         rd_remoteRecipient := dest_recipient (db_items burn); rd_localToken := token;
         rd_maxFee := fee; rd_hookData := [] |} ->
    pays config burn s hook fee.

Lemma into_word_inj a b : into_word a = into_word b -> a = b.
Proof. apply app_inv_head. Qed.

Lemma check_fields_Ok l : check_fields l = Ok tt -> Forall (fun c => c.1 = true) l.
Proof.
  induction l as [|[b f] l IH]; simpl; [constructor|]. unfold check_field. intros Hr. inv_ok.
  constructor; [done|by apply IH].
Qed.

Lemma direct_Ok s burn :
  verify_direct_leg s burn = Ok tt ->
  destinationDomain s = dest_domain (db_items burn) /\
  destinationRecipient s = dest_recipient (db_items burn) /\ destinationCaller s = B256_ZERO.
Proof. unfold verify_direct_leg. intros Hr. inv_ok. by bool_prop. Qed.

Lemma forwarded_pays config burn intent hook :
  dest_domain (db_items burn) < FIRST_REMOTE_DOMAIN ->
  verify_forwarded_leg intent hook burn (cfg_cctp_forwarding config) = Ok tt ->
  pays config burn (spec intent) hook (cf_max_fee (cfg_cctp_forwarding config)).
Proof.
  unfold verify_forwarded_leg, check_field. intros Hd Hr. inv_ok. bool_prop.
  match goal with E : cctp_decode _ = Some ?c |- _ => destruct c; simpl in *; clear E end.
  match goal with E1 : into_word ?t = destinationToken _, E2 : destinationToken _ = into_word ARC_USDC |- _ =>
    assert (t = ARC_USDC) by (apply into_word_inj; congruence) end.
  apply pays_cctp; try done. subst. congruence.
Qed.

Lemma redeposit_pays config burn intent hook fee :
  FIRST_REMOTE_DOMAIN <= dest_domain (db_items burn) ->
  cfg_xreserve_deposit_max_fee config = Some fee ->
  verify_redeposit_leg intent hook burn (cf_forwarder (cfg_cctp_forwarding config)) fee = Ok tt ->
  pays config burn (spec intent) hook fee.
Proof.
  unfold verify_redeposit_leg, check_field. intros Hd Hf Hr.
  apply rbind_Ok in Hr as ([[ethereum_token wallet] minter] & Hdep & Hr).
  apply rbind_Ok in Hr as (token & Htok & Hr). inv_ok.
  repeat match goal with x : unit |- _ => destruct x end.
  repeat match goal with E : check_fields _ = Ok tt |- _ =>
    apply check_fields_Ok in E; rewrite !Forall_cons in E; simpl in E; destruct_and? E end.
  bool_prop.
  match goal with E : redeposit_decode _ = Some ?c |- _ => destruct c; simpl in *; clear E end.
  eapply (pays_redeposit _ _ _ _ fee token ethereum_token wallet minter); try done.
  - destruct (destinationDomain (spec intent) =? 0) eqn:E0; bool_prop; [left; by simplify_eq|].
    destruct (destinationDomain (spec intent) =? ARC_DOMAIN) eqn:E1; bool_prop; [right; by simplify_eq|done].
  - subst. congruence.
Qed.
Lemma route_pays config burn intent hook fee secondary :
  forwarding_max_fee config (dest_domain (db_items burn)) = Some fee ->
  verify_route config burn intent hook fee = Ok secondary ->
  pays config burn (spec intent) hook secondary.
Proof.
  unfold forwarding_max_fee, verify_route. intros Hf Hr.
  destruct (Z.leb_spec FIRST_REMOTE_DOMAIN (dest_domain (db_items burn))) as [Hd|Hd].
  - destruct (_ || _) eqn:Hdom; [|by destruct (Z.leb_spec FIRST_REMOTE_DOMAIN (dest_domain (db_items burn))); [|lia]].
    apply rbind_Ok in Hr as ([] & Hv & [= <-]). by apply redeposit_pays.
  - destruct (_ || _) eqn:Hdom.
    { exfalso. unfold FIRST_REMOTE_DOMAIN, STACKS_DOMAIN, CARDANO_DOMAIN, MOVEMENT_DOMAIN in *.
      apply orb_true_iff in Hdom as [[Hdom|Hdom]%orb_true_iff|Hdom]; bool_prop; lia. }
    destruct (Z.leb_spec FIRST_REMOTE_DOMAIN (dest_domain (db_items burn))); [lia|].
    injection Hf as <-. unfold is_forwarded in Hr.
    clear Hdom. destruct (negb _ || negb _) eqn:Hfw; apply rbind_Ok in Hr as ([] & Hv & [= <-]); [by apply forwarded_pays|].
    bool_prop. apply direct_Ok in Hv as (?&?&?). by apply pays_direct.
Qed.

(** Everything a successful check has established, in the order of the checks. *)
Lemma verify_inv reply burn config v :
  verify reply burn config = Ok v ->
  exists batch raw intent hook fee, pr_batches reply = [batch] /\ pb_burn_intents batch = [raw] /\
    parse_intent raw = Ok (intent, hook) /\ salt (spec intent) = db_note_id burn /\
    pays config burn (spec intent) hook fee /\
    verify_burn_fields config burn intent hook fee = Ok tt /\
    verify_encoding batch intent = Ok (vw_digest v) /\
    (forwarding_contract hook <> address_zero -> fee < value (spec intent)) /\
    TransferSpec_hash (spec intent) = Ok (vw_transfer_spec_hash v) /\
    vw_note_id v = db_note_id burn /\ vw_intent v = raw.
Proof.
  unfold verify. intros Hr. apply rbind_Ok in Hr as (batch & Hb & Hr).
  apply rbind_Ok in Hr as (raw & Hraw & Hr). apply rbind_Ok in Hr as ([intent hook] & Hp & Hr).
  apply rbind_Ok in Hr as (u & Hsalt%ensure_Ok & Hr). apply rbind_Ok in Hr as (cap & Hcap%ok_or_Ok & Hr).
  apply rbind_Ok in Hr as (fee & Hroute & Hr). apply rbind_Ok in Hr as ([] & Hfields & Hr).
  apply rbind_Ok in Hr as (digest & Henc & Hr). apply rbind_Ok in Hr as (u' & Hsmall & Hr).
  apply rbind_Ok in Hr as (hash & Hhash & [= <-]). exists batch, raw, intent, hook, fee.
  split; [by destruct (pr_batches reply) as [|? [|]]; simplify_eq|].
  split; [by destruct (pb_burn_intents batch) as [|? [|]]; simplify_eq|].
  bool_prop. split_and!; try done.
  - by eapply route_pays.
  - intros Hz. unfold is_forwarded in Hsmall. rewrite bool_decide_eq_false_2 in Hsmall by done. simpl in Hsmall.
    destruct (Z.leb_spec (value (spec intent)) fee); [by destruct (_ <=? _)|lia].
Qed.

(** C8. A verified withdrawal pays the burn's own destination and nothing else, whatever Circle
    replied: its one intent carries the burn's note ID as salt, its hook names Miden, the faucet
    and the burner, it spends USDC on Arc, and its route pays the recipient the burner chose: by
    the transfer itself, or by forwarding calldata that is exactly the encoding of a transfer of
    the whole payout to that recipient with the configured fee cap. *)
Theorem verified_pays_burner reply burn config v :
  verify reply burn config = Ok v ->
  exists intent hook fee, parse_intent (vw_intent v) = Ok (intent, hook) /\
    vw_note_id v = db_note_id burn /\ salt (spec intent) = db_note_id burn /\
    remote_domain hook = miden_domain /\
    remote_depositor hook = account_id_bytes32 (note_sender (db_note burn)) /\
    remote_token hook = account_id_bytes32 (cfg_faucet_account_id config) /\
    sourceDomain (spec intent) = ARC_DOMAIN /\ sourceToken (spec intent) = into_word ARC_USDC /\
    sourceSigner (spec intent) = sourceDepositor (spec intent) /\
    pays config burn (spec intent) hook fee.
Proof.
  intros (batch & raw & intent & hook & fee & _ & _ & Hp & Hs & Hpay & Hf & _ & _ & _ & Hid & Hraw)%verify_inv.
  exists intent, hook, fee. rewrite Hraw. unfold verify_burn_fields, sender_bytes32 in Hf. inv_ok.
  bool_prop. by split_and!.
Qed.

(** C9. A verified withdrawal accounts for the whole burn within the configured fees: payout and
    Circle's fee add up to the burned amount, the payout is positive and, when it is forwarded,
    more than the cap of the second leg, and both fees together stay within the fixed part plus
    the share of the burn, computed without wrap-around. *)
Theorem verified_within_fees reply burn config v :
  verify reply burn config = Ok v ->
  0 <= cfg_max_withdrawal_fee config <= u64_max -> 0 <= cfg_max_withdrawal_fee_bps config <= u64_max ->
  0 <= db_amount burn <= u64_max ->
  exists intent hook fee, parse_intent (vw_intent v) = Ok (intent, hook) /\
    pays config burn (spec intent) hook fee /\
    value (spec intent) + maxFee intent = db_amount burn /\ value (spec intent) <> 0 /\
    (forwarding_contract hook <> address_zero -> fee < value (spec intent)) /\
    maxFee intent + fee <=
      cfg_max_withdrawal_fee config + db_amount burn * cfg_max_withdrawal_fee_bps config / 10000.
Proof.
  intros (batch & raw & intent & hook & fee & _ & _ & Hp & _ & Hpay & Hf & _ & Hfw & _ & _ & Hraw)%verify_inv
    Hmax Hbps Hamt.
  exists intent, hook, fee. rewrite Hraw. unfold verify_burn_fields in Hf. inv_ok. bool_prop.
  match goal with E : checked_add _ _ _ = Some _ |- _ => apply checked_add_Some in E as [Hsum _] end.
  split_and!; try done; [].
  match goal with E : saturating_add _ _ _ <= _ |- _ => unfold saturating_add, fee_ceiling in E; rename E into Hle end.
  assert (0 <= db_amount burn * cfg_max_withdrawal_fee_bps config <= u64_max * u64_max) by (unfold u64_max in *; nia).
  assert (u64_max * u64_max + u64_max < 2 ^ 255) by (by vm_compute).
  assert (2 ^ 255 < 2 ^ 256) by (by vm_compute). assert (2 ^ 255 < u256_max) by (by vm_compute).
  pose proof (Z.div_le_upper_bound (db_amount burn * cfg_max_withdrawal_fee_bps config) 10000 (u64_max * u64_max)).
  pose proof (Z.div_pos (db_amount burn * cfg_max_withdrawal_fee_bps config) 10000).
  rewrite (wrap_small 256 (_ * _)) in Hle by lia. rewrite wrap_small in Hle by lia. lia.
Qed.

Lemma sign_Ok {W} `{!SignerApi W} v pair (w : W) signed w2 :
  sign v pair w = (Ok signed, w2) ->
  exists first second w1, signer_sign_digest (sp_signers pair).1 (vw_digest v) w = (Ok first, w1) /\
    signer_sign_digest (sp_signers pair).2 (vw_digest v) w1 = (Ok second, w2) /\
    signed = {| sw_verified := v; sw_signatures := (first, second) |}.
Proof.
  unfold sign. destruct (signer_sign_digest _ _ w) as [[a|] w1] eqn:Ha; [|done].
  destruct (signer_sign_digest _ _ w1) as [[b|] w3] eqn:Hb; simpl; [|done].
  intros [= <- <-]. by exists a, b, w1.
Qed.

(** C10. Only the checked fields are signed and sent. When Circle's reply is verified, both signers
    sign and the request is built, then: the intent that was checked is the reply's only one, Circle
    supplied its EIP-712 hash and exactly its packed encoding; each signer, in the pair's order, was
    asked to sign that hash and nothing else; and the request to be saved is the one for the burn's
    note, with that intent, those two signatures and the hash of the intent's packed spec, not sent
    yet and without a withdrawal ID. *)
Theorem verified_signs_checked `{JsonLib} {W} `{!SignerApi W}
    reply burn config v pair (w : W) signed w2 endpoint saved :
  verify reply burn config = Ok v -> sign v pair w = (Ok signed, w2) ->
  signed_submission signed endpoint = Some saved ->
  exists batch intent hook spec_bytes encoded first second w1, pr_batches reply = [batch] /\
    pb_burn_intents batch = [vw_intent v] /\ parse_intent (vw_intent v) = Ok (intent, hook) /\
    parse_b256 (pb_message_hash_to_sign batch) = Some (signing_hash intent) /\
    BurnIntent_encode intent = Ok encoded /\ parse_hex_bytes (pb_encoded batch) = Some encoded /\
    TransferSpec_encode (spec intent) = Ok spec_bytes /\
    signer_sign_digest (sp_signers pair).1 (signing_hash intent) w = (Ok first, w1) /\
    signer_sign_digest (sp_signers pair).2 (signing_hash intent) w1 = (Ok second, w2) /\
    json_submission (vw_intent v) first second (note_id_to_hex (db_note_id burn)) = Some (body saved) /\
    note_id saved = db_note_id burn /\ transfer_spec_hash saved = keccak256 spec_bytes /\
    sub_endpoint saved = endpoint /\ status saved = Submitting /\ withdrawal_id saved = None.
Proof.
  intros (batch & raw & intent & hook & fee & Hb & Hr & Hp & _ & _ & _ & He & _ & Hh & Hn & Hraw)%verify_inv
    (first & second & w1 & Hs1 & Hs2 & ->)%sign_Ok Hsub.
  unfold verify_encoding, parse in He. unfold TransferSpec_hash in Hh.
  apply rbind_Ok in Hh as (bs & Hbs & [= Hk]).
  apply rbind_Ok in He as (supplied & Hs%ok_or_Ok & He). apply rbind_Ok in He as (enc & Henc & He).
  apply rbind_Ok in He as (u & Heq%ensure_Ok & He). apply rbind_Ok in He as (d & Hd%ok_or_Ok & He).
  apply rbind_Ok in He as (u' & Hdd%ensure_Ok & [= Hv]). bool_prop. subst.
  unfold signed_submission in Hsub. simpl in Hsub. rewrite Hn in Hsub.
  destruct (json_submission _ _ _ _) as [b|] eqn:Hj; simplify_eq/=.
  rewrite <-Hv in *. exists batch, intent, hook, bs, enc, first, second, w1. by split_and!.
Qed.
End verify.
