(* ===== verification/ReplyProps.v ===== *)
(** Properties of one attempt at a saved request (what Circle's answers decide of it, and that each of them
    is recorded) and of the withdrawal limit's order. *)
From S2P Require Import Prelude Text Telemetry Foreign Wire Types Burn Store StoreFacts.
From S2P Require Import StoreInv StoreWf StoreScan StoreReads Config Verify Circle Signer.
From S2P Require Import Submission Admin Attester AttesterLogic StoreProps.

Local Open Scope Z_scope.

Section replies.
Context `{ML : MidenLib, WL : WebLib, JL : JsonLib}.

(** What Circle's status names mean for a saved submission. *)
Definition status_means (name : string) (s : SubmissionStatus) : Prop :=
  match s with
  | Submitted => name = "created"%string \/ name = "verified"%string \/ name = "confirmed"%string
  | Finalized => name = "finalized"%string
  | Expired => name = "expired"%string
  | Failed => name = "failed"%string
  | Submitting | Held => False
  end.

(** The reply's one withdrawal is the saved one: its note, its spec hash and, once known, its ID. *)
Definition names_saved (saved : SavedSubmission) (w : WithdrawalResponse) : Prop :=
  is_well_formed_id (wr_withdrawal_id w) = true /\
  matches_note saved (wr_burn_note_id w) = true /\
  (exists hash, wr_transfer_spec_hashes w = [hash] /\ parse_b256 hash = Some (transfer_spec_hash saved)) /\
  (forall id, withdrawal_id saved = Some id -> wr_withdrawal_id w = id).

Lemma identifies_names saved w : identifies saved w = true -> names_saved saved w.
Proof.
  unfold identifies, names_saved. intros Hi. bool_prop. split_and!; try done.
  - destruct (wr_transfer_spec_hashes w) as [|h [|]]; try done. bool_prop. eauto.
  - intros id Hid. rewrite Hid in *. by bool_prop.
Qed.

Lemma read_status_spec saved w f saved' :
  read_status saved w = (f, saved') ->
  status saved' = status saved \/
  (status_means (wr_status w) (status saved') /\ withdrawal_id saved' = Some (wr_withdrawal_id w)).
Proof.
  unfold read_status, fails. repeat case_match; intros [= <- <-]; first [by left|right];
    (split; [|done]); unfold status_means; simpl; bool_prop; auto.
  repeat match goal with E : _ || _ = true |- _ => apply orb_true_iff in E as [E|E] end; bool_prop; auto.
Qed.

(** A reply to a POST (no ID known) or to a GET that gives the request a decided status: the 400
    that refuses it, or the expected HTTP status with one withdrawal that names the saved one. *)
Lemma read_response_changes saved response f o :
  read_response saved response = (f, o) -> status o <> status saved ->
  (status o = Held /\ withdrawal_id saved = None /\ withdrawal_id o = None /\
   rr_status response = BAD_REQUEST) \/
  exists w, rr_status response = (if decide (is_Some (withdrawal_id saved)) then OK else CREATED) /\
    (if decide (is_Some (withdrawal_id saved)) then json_withdrawal (rr_body response) = Some w
     else json_withdrawals (rr_body response) = Some [w]) /\
    names_saved saved w /\ status_means (wr_status w) (status o) /\
    withdrawal_id o = Some (wr_withdrawal_id w).
Proof.
  unfold read_response. intros Hr Hne.
  assert (Hfail : forall m c, fails m c saved = (f, o) -> False).
  { unfold fails. by intros m c [= <- <-]. }
  destruct (decide (is_Some (withdrawal_id saved))) as [Hid|Hid];
    [rewrite bool_decide_eq_true_2 in Hr by done|rewrite bool_decide_eq_false_2 in Hr by done].
  - destruct (Z.eqb_spec (rr_status response) OK); simpl in Hr; [|by apply Hfail in Hr].
    destruct (json_withdrawal (rr_body response)) as [w|] eqn:Hw; [|by apply Hfail in Hr].
    destruct (identifies saved w) eqn:Hi; simpl in Hr; [|by apply Hfail in Hr].
    apply read_status_spec in Hr as [?|[]]; [done|]. right. exists w. by split_and!; [| |apply identifies_names| |].
  - destruct (Z.eqb_spec (rr_status response) CREATED); simpl in Hr.
    + destruct (json_withdrawals (rr_body response)) as [[|w [|]]|] eqn:Hw; try by apply Hfail in Hr.
      destruct (identifies saved w) eqn:Hi; simpl in Hr; [|by apply Hfail in Hr].
      apply read_status_spec in Hr as [?|[]]; [done|]. right. exists w. by split_and!; [| |apply identifies_names| |].
    + destruct (Z.eqb_spec (rr_status response) BAD_REQUEST); [|by apply Hfail in Hr].
      injection Hr as <- <-. left. simpl. apply eq_None_not_Some in Hid. by split_and!.
Qed.

(** ** Every answer can be recorded *)

Context `{!MidenLaws, !WebLaws}.
Context (faucet : AccountId) (anchor : TrustedAnchor).
Implicit Types st : Store.

(** A valid outcome, field by field. *)
Definition outcome_valid (o : SavedSubmission) : Prop :=
  (status o = Held <-> is_Some (hold_reason o)) /\
  (forall w, withdrawal_id o = Some w -> is_well_formed_id w = true) /\
  (match status o with Submitted | Finalized | Expired | Failed => is_Some (withdrawal_id o) | _ => True end) /\
  (forall c, last_http_status o = Some c -> status_code_ok c = true).

Lemma outcome_valid_iff o : validate_submission_outcome o = Ok tt <-> outcome_valid o.
Proof.
  unfold validate_submission_outcome, outcome_valid. split.
  - intros Hr. case_match eqn:Hcond; [done|]. clear Hr.
    apply orb_false_iff in Hcond as [Hcond Hhttp]. apply orb_false_iff in Hcond as [Hcond Hneed].
    apply orb_false_iff in Hcond as [Hheld%negb_false_iff%eqb_prop Hid]. split_and!.
    + split; intros Hh.
      * rewrite bool_decide_eq_true_2 in Hheld by done. symmetry in Hheld. by bool_prop.
      * rewrite (bool_decide_eq_true_2 (is_Some _)) in Hheld by done. by bool_prop.
    + intros w Hw. rewrite Hw in Hid. by bool_prop.
    + destruct (status o); try done; simpl in Hneed; bool_prop; by apply not_eq_None_Some.
    + intros c Hc'. rewrite Hc' in Hhttp. by bool_prop.
  - intros (Hh & Hw & Hs & Hc).
    rewrite (bool_decide_ext (status o = Held) (is_Some (hold_reason o))) by done. rewrite eqb_reflx. simpl.
    destruct (withdrawal_id o) as [w|] eqn:Hid; [rewrite (Hw w eq_refl)|]; simpl.
    + rewrite andb_false_r. simpl. destruct (last_http_status o) as [c|]; [by rewrite (Hc c eq_refl)|done].
    + destruct (status o); simpl; try (by destruct Hs); destruct (last_http_status o) as [c|]; rewrite ?(Hc c eq_refl); done.
Qed.

Lemma read_response_valid saved response :
  outcome_valid saved -> (status saved = Submitting \/ status saved = Submitted) ->
  outcome_valid (read_response saved response).2.
Proof.
  intros (Hh & Hw & Hs & Hc) Hst.
  assert (Hnh : hold_reason saved = None).
  { apply eq_None_not_Some. intros Hhr%Hh. destruct Hst; congruence. }
  assert (Hfails : forall m c, outcome_valid (fails m c saved).2) by done.
  unfold read_response.
  destruct (negb (rr_status response =? _)).
  - destruct (negb (bool_decide _) && _) eqn:Hb; [|done]. bool_prop.
    match goal with E : ~ is_Some _ |- _ => apply eq_None_not_Some in E; rename E into Hid end.
    simpl. split_and!; simpl; [|by rewrite Hid| |done]; [split; [by eexists|done]|done].
  - destruct (read_withdrawal _ _) as [[w|]|[m c]]; [|done..].
    destruct (negb (identifies saved w)) eqn:Hi; [done|].
    apply negb_false_iff, identifies_names in Hi as (Hid & _).
    assert (Hnamed : forall o, hold_reason o = None -> status o <> Held ->
      withdrawal_id o = Some (wr_withdrawal_id w) -> last_http_status o = last_http_status saved ->
      outcome_valid o).
    { intros o H1 H2 H3 H4. split_and!; rewrite ?H1, ?H3, ?H4; [|by intros x [= <-]| |done].
      - split; [done|by intros []].
      - by destruct (status o). }
    clear Hs. unfold read_status, fails. repeat case_match; apply Hnamed; simpl; try done.
    all: destruct Hst; congruence.
Qed.

(** The request with the answer recorded stays valid. *)
Lemma record_answer_valid saved answer reply recorded limited :
  record_answer saved answer = (reply, recorded, limited) -> outcome_valid saved -> reply_ok answer ->
  outcome_valid recorded.
Proof.
  intros Hr (Hh & Hw & Hs & Hc) Ha.
  assert (Hreply : forall c b e, status_code_ok c = true -> outcome_valid (with_reply (Some c) b e saved)).
  { intros c b e Hok. split_and!; simpl; [done..|]. by intros x [= <-]. }
  unfold record_answer in Hr. destruct answer as [r|[| | | | | | |[b|] e]]; injection Hr as _ <- _.
  all: try (split_and!; simpl; [done..|]; done).
  - apply Hreply. by destruct Ha as (_ & ? & _).
  - apply Hreply. by apply status_code_range.
Qed.

(** A reply other than 429 is Circle's own answer. *)
Lemma record_answer_reply saved answer r recorded limited :
  record_answer saved answer = (Ok r, recorded, limited) -> rr_status r <> TOO_MANY_REQUESTS ->
  answer = Ok r.
Proof. unfold record_answer. destruct answer as [x|[| | | | | | |[b|] e]]; intros [= <- _ _]; done. Qed.

Lemma read_conflict_valid saved f o :
  read_conflict saved = (Some f, o) -> outcome_valid saved -> outcome_valid o.
Proof. unfold read_conflict, fails. intros Hr Hv. by repeat case_match; simplify_eq. Qed.

Lemma named_valid saved c :
  is_well_formed_id c = true -> outcome_valid saved -> outcome_valid (with_withdrawal_id (Some c) saved).
Proof.
  intros Hc (Hh & Hw & Hs & Hhttp). split_and!; simpl; [done|by intros w [= <-]| |done].
  by destruct (status saved).
Qed.

(** The outcome of one answer: what reading the reply, or recording the failure, leaves. *)
Definition after_reply (reply : result FailureClass RawResponse) (recorded : SavedSubmission) : SavedSubmission :=
  match reply with Ok r => (read_response recorded r).2 | Err _ => recorded end.

Lemma after_reply_valid reply recorded :
  outcome_valid recorded -> status recorded = Submitting \/ status recorded = Submitted ->
  outcome_valid (after_reply reply recorded).
Proof. intros. destruct reply; [by apply read_response_valid|done]. Qed.

Lemma after_reply_decides saved reply recorded :
  answered saved recorded -> status saved = Submitting \/ status saved = Submitted ->
  decides saved (after_reply reply recorded).
Proof.
  intros Ha Hst. pose proof Ha as (_ & Hs & _). destruct reply as [r|e]; simpl.
  - eapply decides_answered; [done|]. destruct (read_response recorded r) as [f o] eqn:Hrr. simpl.
    eapply read_response_decides; [|done]. rewrite Hs. destruct Hst; congruence.
  - apply answered_decides; [destruct Hst; congruence|done].
Qed.

(** What the store does with an outcome: the row becomes the outcome's. *)
Lemma outcome_row_left now o row st st' :
  submissions st !! note_id o = Some row -> decides (saved_of (note_id o) row) o ->
  update_submission_outcome now o st = Ok (tt, st') -> submissions st' !! note_id o = Some (row_of o).
Proof.
  intros Hrow ((_ & He & Hb & Hh) & _) Hu. simpl in *.
  apply update_outcome_Ok in Hu as (_ & row' & st1 & st2 & Hrow' & -> & Hst2 & ->). simplify_eq.
  transitivity (submissions st2 !! note_id o); [by destruct (clears (status o))|].
  transitivity (Some (outcome_row o row)).
  - destruct Hst2 as [(-> & _)|(? & ? & _ & _ & _ & _ & _ & ->)]; simpl; by rewrite lookup_insert_eq.
  - unfold outcome_row, row_of. by rewrite He, Hb, Hh.
Qed.

Definition pending (row : SubmissionRow) : Prop := s_status row = Submitting \/ s_status row = Submitted.

Lemma outcome_step now o row st st' :
  submissions st !! note_id o = Some row -> pending row -> decides (saved_of (note_id o) row) o ->
  update_submission_outcome now o st = Ok (tt, st') -> store_step anchor st st'.
Proof.
  intros Hrow Hst ((_ & He & Hb & Hh) & Hw & Hheld) Hu. eapply step_outcome; [exact Hrow| |exact Hu]. by split_and!.
Qed.

(** The store takes every valid outcome of a saved request. *)
Lemma outcome_taken now o row st :
  store_wf anchor st -> submissions st !! note_id o = Some row -> outcome_valid o ->
  exists st', update_submission_outcome now o st = Ok (tt, st').
Proof.
  intros Hwf Hrow Ho. unfold update_submission_outcome, tbind, tlift, tget, tput.
  rewrite (proj2 (outcome_valid_iff o) Ho), Hrow. simpl.
  destruct (nk_sub_burn _ _ _ _ _ (wf_note _ _ Hwf _) _ Hrow) as (b & Hbr & _).
  destruct (repeats_latest_outcome _ _ _); simpl; [by destruct (status o); eauto|].
  unfold record_event. simpl. rewrite Hbr. simpl. by destruct (status o); eauto.
Qed.

Lemma row_valid st id row :
  store_wf anchor st -> submissions st !! id = Some row -> outcome_valid (saved_of id row).
Proof.
  intros Hwf Hrow. destruct (nk_sub_valid _ _ _ _ _ (wf_note _ _ Hwf id) _ Hrow) as (Hv & _).
  by apply validate_submission_Ok in Hv as (_ & _ & _ & _ & Hv%outcome_valid_iff).
Qed.

End replies.

Section limit.
Context `{ML : MidenLib, WL : WebLib, JL : JsonLib, EL : EthLib, KL : KeyLib}.
Context `{!MidenLaws, !WebLaws} {W : Type}.
Context `{!CircleApi W, !ChainReader W, !SignerApi W, !Clock W, !Inbox W}.
Context (faucet : AccountId) (anchor : TrustedAnchor).
Implicit Types s : Attester W.

(** ** One attempt at a saved request (submission.rs [advance_submission]) *)

(** What the attempt asks Circle: a POST, or a GET once the withdrawal ID is known. *)
Definition circle_call (saved : SavedSubmission) : W -> result CircleError RawResponse * W :=
  match withdrawal_id saved with
  | Some id => circle_get_withdrawal saved id
  | None => circle_post_submission saved
  end.

Lemma send_run saved s :
  exists reply recorded limited s1,
    record_answer saved (circle_call saved (at_world s)).1 = (reply, recorded, limited) /\
    send_saved_request (E := SubmitError) saved s = (Ok (reply, recorded), s1) /\
    at_store s1 = at_store s /\ at_config s1 = at_config s /\
    at_world s1 = (circle_call saved (at_world s)).2.
Proof.
  unfold send_saved_request, and_then, gets, world, trace, modify, done. cbn beta. fold (circle_call saved).
  destruct (circle_call saved (at_world s)) as [answer w].
  destruct (record_answer saved answer) as [[reply recorded] limited] eqn:Hr.
  eexists reply, recorded, limited, _. split; [exact Hr|]. by split.
Qed.

(** The outcome was written, or the store failed and kept what it had. *)
Definition wrote (o : SavedSubmission) (before : Store) (r : result SubmitError unit) (after : Store) : Prop :=
  exists now, match update_submission_outcome now o before with
              | Ok (_, st) => r = Ok tt /\ after = st
              | Err e => r = Err (SubmitStore e) /\ after = before
              end.

Lemma save_outcome_run o f s r s' : save_outcome o f s = (r, s') -> wrote o (at_store s) r (at_store s').
Proof.
  unfold save_outcome, transact_now, convert, and_then, modify, world, transact. cbn beta.
  destruct (unixepoch _) as [now w]. unfold wrote. intros Hr. exists now. simpl in Hr.
  destruct (update_submission_outcome now o (at_store s)) as [[[] st]|e]; by injection Hr as <- <-.
Qed.

Lemma finish_run saved reply s r s' :
  finish_submission saved reply s = (r, s') ->
  wrote (after_reply reply saved) (at_store s) r (at_store s').
Proof.
  unfold finish_submission, after_reply. destruct reply as [rr|f]; [|apply save_outcome_run].
  destruct (read_response saved rr) as [f o]. apply save_outcome_run.
Qed.

(** A limit answer: Circle refused the POST with its limit message, and the burn was made to wait,
    unless the clock or the store failed. *)
Definition limit_wrote (config : Config) (w : W) (rr : RawResponse) (saved : SavedSubmission)
    (attempt_ : SubmissionAttempt) (before : Store) (r : result SubmitError unit) (after : Store) : Prop :=
  exists policy, cfg_withdrawal_limit config = Some policy /\
    is_withdrawal_limit (rr_status rr) (rr_body rr) (wl_message_prefix policy) = true /\
    exists now, match retry_at policy (system_now w).1 with
    | Err e => r = Err (SubmitStore (StoreContext e)) /\ after = before
    | Ok due => match record_limit_rejection now (note_id saved) due (rr_body rr)
                        (Some (saved, attempt_)) before with
                | Ok (_, st) => r = Ok tt /\ after = st
                | Err e => r = Err (SubmitStore e) /\ after = before
                end
    end.

Lemma wait_run rr saved attempt_ s {A} (k : bool -> run W SubmitError A) r s' :
  and_then (wait_for_withdrawal_limit (note_id saved) (rr_status rr) (rr_body rr) (Some (saved, attempt_))) k s = (r, s') ->
  (k false s = (r, s') /\ forall policy, cfg_withdrawal_limit (at_config s) = Some policy ->
     is_withdrawal_limit (rr_status rr) (rr_body rr) (wl_message_prefix policy) = false) \/
  exists r1 s1, limit_wrote (at_config s) (at_world s) rr saved attempt_ (at_store s) r1 (at_store s1) /\
    match r1 with Ok _ => k true s1 = (r, s') | Err e => r = Err e /\ s' = s1 end.
Proof.
  unfold wait_for_withdrawal_limit, and_then, gets, limit_wrote. cbn beta.
  destruct (cfg_withdrawal_limit (at_config s)) as [policy|]; [|intros Hk; left; by split].
  destruct (is_withdrawal_limit _ _ _) eqn:Hl; simpl.
  2: { intros Hk. left. split; [exact Hk|]. by intros ? [= <-]. }
  unfold world at 1. destruct (system_now (at_world s)) as [now w]. simpl.
  unfold convert at 1, lift, retry_deadline. destruct (retry_at policy now) as [due|e] eqn:Hd; simpl.
  - unfold convert, transact_now, and_then, world, transact, done. simpl.
    destruct (unixepoch w) as [now' w']. simpl. intros Hr. right.
    destruct (record_limit_rejection now' _ _ _ _ _) as [[u st]|e] eqn:Hrec; simpl in Hr.
    + eexists (Ok tt), _. split; [|exact Hr]. exists policy. do 2 (split; [done|]).
      exists now'. rewrite Hd, Hrec. done.
    + injection Hr as <- <-. eexists (Err _), _. split; [|done]. exists policy. do 2 (split; [done|]).
      exists now'. rewrite Hd, Hrec. done.
  - intros [= <- <-]. right. eexists (Err _), _. split; [|done]. exists policy. do 2 (split; [done|]).
    exists 0. by rewrite Hd.
Qed.

(** After a 409: an unusable conflict is recorded; a usable one's ID is saved, then looked up. *)
Definition conflict_wrote (saved : SavedSubmission) (before : Store) (r : result SubmitError unit)
    (after : Store) : Prop :=
  (exists f o, read_conflict saved = (Some f, o) /\ wrote o before r after) \/
  (exists named mid r1, read_conflict saved = (None, named) /\ wrote named before r1 mid /\
    match r1 with
    | Err _ => r = r1 /\ after = mid
    | Ok _ => exists w reply recorded limited,
        record_answer named (circle_call named w).1 = (reply, recorded, limited) /\
        wrote (after_reply reply recorded) mid r after
    end).

Lemma resolve_run saved s r s' :
  resolve_conflict saved s = (r, s') -> conflict_wrote saved (at_store s) r (at_store s').
Proof.
  unfold resolve_conflict. destruct (read_conflict saved) as [[f|] o] eqn:Hc.
  { intros Hr. left. exists f, o. split; [exact Hc|by eapply save_outcome_run]. }
  unfold and_then at 1. destruct (save_outcome o None s) as [r1 s1] eqn:Hs. intros Hr. right.
  exists o, (at_store s1), r1. split; [exact Hc|]. split; [by eapply save_outcome_run|].
  destruct r1 as [u|e]; [|by injection Hr as <- <-].
  destruct (send_run o s1) as (reply & recorded & limited & s2 & Ha & Hsend & Hst & _ & _).
  unfold and_then in Hr. rewrite Hsend in Hr. exists (at_world s1), reply, recorded, limited. split; [exact Ha|].
  rewrite <-Hst. by eapply finish_run.
Qed.

(** Every way an attempt can end. *)
Definition attempt_wrote (config : Config) (w : W) (saved : SavedSubmission) (attempt_ : SubmissionAttempt)
    (reply : result FailureClass RawResponse) (recorded : SavedSubmission) (before : Store)
    (r : result SubmitError unit) (after : Store) : Prop :=
  (exists rr, withdrawal_id saved = None /\ reply = Ok rr /\
     limit_wrote config w rr recorded attempt_ before r after) \/
  (exists rr, withdrawal_id saved = None /\ reply = Ok rr /\ rr_status rr = CONFLICT_STATUS /\
     conflict_wrote recorded before r after) \/
  ((withdrawal_id saved = None -> forall rr, reply = Ok rr -> rr_status rr <> CONFLICT_STATUS /\
      forall policy, cfg_withdrawal_limit config = Some policy ->
        is_withdrawal_limit (rr_status rr) (rr_body rr) (wl_message_prefix policy) = false) /\
   wrote (after_reply reply recorded) before r after).

Lemma advance_run saved attempt_ s r s' :
  at_rate_limited s = false -> advance_submission saved attempt_ s = (r, s') ->
  exists reply recorded limited,
    record_answer saved (circle_call saved (at_world s)).1 = (reply, recorded, limited) /\
    attempt_wrote (at_config s) (circle_call saved (at_world s)).2 saved attempt_ reply recorded
      (at_store s) r (at_store s').
Proof.
  intros Hq. unfold advance_submission, and_then at 1, gets. rewrite Hq.
  destruct (send_run saved s) as (reply & recorded & limited & s1 & Ha & Hsend & Hst & Hcf & Hw).
  unfold and_then at 1. rewrite Hsend. cbv zeta beta iota. intros Hr.
  exists reply, recorded, limited. split; [exact Ha|]. unfold attempt_wrote. rewrite <-Hst, <-Hcf, <-Hw.
  apply record_answer_answered in Ha as [(_ & _ & Hid) _].
  destruct (decide (withdrawal_id saved = None)) as [Hn|Hn].
  2: { rewrite (bool_decide_eq_false_2 (withdrawal_id recorded = None)) in Hr by congruence.
       right; right. split; [done|]. destruct reply; by eapply finish_run. }
  rewrite (bool_decide_eq_true_2 (withdrawal_id recorded = None)) in Hr by congruence.
  destruct reply as [rr|f]; [|right; right; split; [done|by eapply finish_run]].
  apply wait_run in Hr as [[Hr Hno]|(r1 & s2 & Hlw & Hr)]; [right|left].
  - destruct (Z.eqb_spec (rr_status rr) CONFLICT_STATUS); cbn [negb andb] in Hr.
    + left. exists rr. split_and!; [done..|]. by apply resolve_run.
    + right. split; [|by eapply finish_run]. by intros _ ? [= <-].
  - exists rr. split_and!; [done..|]. destruct r1 as [u|e].
    + injection Hr as <- <-. destruct u. exact Hlw.
    + destruct Hr as [-> ->]. exact Hlw.
Qed.

Lemma wrote_row o before r after row :
  submissions before !! note_id o = Some row -> decides (saved_of (note_id o) row) o ->
  wrote o before r after ->
  (exists e, r = Err (SubmitStore e) /\ after = before) \/
  (r = Ok tt /\ submissions after !! note_id o = Some (row_of o)).
Proof.
  intros Hrow Hd [now Hw]. destruct (update_submission_outcome now o before) as [[[] st]|e] eqn:Hu.
  - destruct Hw as [-> ->]. right. split; [done|]. by eapply outcome_row_left.
  - left. by eexists.
Qed.

Lemma answered_saved id row recorded :
  answered (saved_of id row) recorded -> note_id recorded = id /\ status recorded = s_status row /\
    withdrawal_id recorded = s_withdrawal_id row.
Proof. by intros ((-> & _) & -> & ->). Qed.

(** What one answer about a request does to its row: nothing is decided, a POST was refused with a
    400, or the answer carries the withdrawal that names the request. *)
Definition decided_by (asked : SavedSubmission) (answer : result CircleError RawResponse)
    (st : SubmissionStatus) (id : option string) : Prop :=
  st = status asked \/
  (st = Held /\ withdrawal_id asked = None /\ id = None /\
    exists rr, answer = Ok rr /\ rr_status rr = BAD_REQUEST) \/
  exists rr w, answer = Ok rr /\
    match withdrawal_id asked with
    | Some _ => rr_status rr = OK /\ json_withdrawal (rr_body rr) = Some w
    | None => rr_status rr = CREATED /\ json_withdrawals (rr_body rr) = Some [w]
    end /\
    names_saved asked w /\ status_means (wr_status w) st /\ id = Some (wr_withdrawal_id w).

Lemma after_reply_decided asked answer reply recorded limited :
  record_answer asked answer = (reply, recorded, limited) ->
  decided_by asked answer (status (after_reply reply recorded)) (withdrawal_id (after_reply reply recorded)).
Proof.
  intros Hr. apply record_answer_answered in Hr as Ha. destruct Ha as [((Hn & _ & _ & Hh) & Hs & Hid) _].
  destruct reply as [rr|f]; simpl; [|by left].
  destruct (read_response recorded rr) as [f o] eqn:Hrr. simpl.
  destruct (decide (status o = status recorded)) as [He|Hne]; [left; congruence|right].
  destruct (read_response_changes _ _ _ _ Hrr Hne) as [(Hheld & Hno & Hno' & Hbad)|(w & Hst & Hw & Hnames & Hm & Hwid)].
  - left. split_and!; [done|congruence|done|]. exists rr. split; [|done].
    eapply record_answer_reply; [exact Hr|]. by rewrite Hbad.
  - right. exists rr, w. rewrite <-Hid. split.
    { eapply record_answer_reply; [exact Hr|]. rewrite Hst. by destruct (decide _). }
    split; [|split_and!; [|done..]].
    + destruct (decide (is_Some (withdrawal_id recorded))) as [[i ->]|Hn']; [done|].
      apply eq_None_not_Some in Hn' as ->. done.
    + unfold names_saved, matches_note in *. by rewrite <-Hn, <-Hh, <-Hid.
Qed.

Lemma saved_of_row o : saved_of (note_id o) (row_of o) = o.
Proof. by destruct o. Qed.

(** A limit answer leaves the row undecided, or drops it after a first POST. *)
Lemma limit_row config w rr saved attempt_ before r after row :
  submissions before !! note_id saved = Some row ->
  limit_wrote config w rr saved attempt_ before r after ->
  (exists row', submissions after !! note_id saved = Some row' /\ s_status row' = s_status row) \/
  (submissions after !! note_id saved = None /\ attempt_ = First /\ rr_status rr = BAD_REQUEST /\
   exists policy, cfg_withdrawal_limit config = Some policy /\
     is_withdrawal_limit (rr_status rr) (rr_body rr) (wl_message_prefix policy) = true).
Proof.
  intros Hrow (policy & Hcf & Hl & now & Hw).
  assert (Hsame : after = before -> exists row', submissions after !! note_id saved = Some row' /\ s_status row' = s_status row)
    by (intros ->; eauto).
  destruct (retry_at policy _) as [due|]; [|left; apply Hsame, Hw].
  destruct (record_limit_rejection _ _ _ _ _ _) as [[[] st]|] eqn:Hrec; [|left; apply Hsame, Hw].
  destruct Hw as [_ ->]. clear Hsame.
  apply limit_rejection_Ok in Hrec as (b & m & e & _ & _ & _ & _ & (_ & row' & Hrow' & _ & Hm) & _ & _ & _ & ->).
  simplify_eq. destruct attempt_; subst m; simpl.
  - right. rewrite lookup_delete_eq. split_and!; [done..| |by eauto].
    unfold is_withdrawal_limit in Hl. by bool_prop.
  - left. rewrite lookup_insert_eq. by eexists.
Qed.

(** A conflict leaves the row undecided, or decided by the answer about the ID it named. *)
Lemma conflict_row saved before r after row :
  submissions before !! note_id saved = Some row -> pending row -> s_withdrawal_id row = None ->
  answered (saved_of (note_id saved) row) saved ->
  conflict_wrote saved before r after ->
  exists row', submissions after !! note_id saved = Some row' /\
    (s_status row' = s_status row \/
     exists named c w, read_conflict saved = (None, named) /\ same_saved_request saved named /\
       withdrawal_id named = Some c /\
       decided_by named (circle_get_withdrawal named c w).1 (s_status row') (s_withdrawal_id row')).
Proof.
  intros Hrow Hp Hno Ha Hw. pose proof (answered_saved _ _ _ Ha) as (_ & Hst & Hsid).
  assert (Hnh : s_status row <> Held) by (destruct Hp; congruence).
  destruct Hw as [(f & o & Hc & Hw)|(named & mid & r1 & Hc & Hw & Hrest)].
  - apply read_conflict_Some in Hc as Ho. destruct Ho as ((Hn & _) & Hs & _).
    assert (Hd : decides (saved_of (note_id o) row) o).
    { rewrite Hn. eapply decides_answered; [exact Ha|]. apply answered_decides; [congruence|by eapply read_conflict_Some]. }
    rewrite <-Hn in Hrow |- *.
    destruct (wrote_row _ _ _ _ _ Hrow Hd Hw) as [(e & _ & ->)|[_ Hrow']]; eexists; (split; [done|]); left; simpl; congruence.
  - apply read_conflict_None in Hc as Ho. destruct Ho as (c & _ & Hnamed).
    assert (Hn : note_id named = note_id saved) by (by subst named).
    assert (Hs : status named = s_status row) by (by subst named).
    assert (Hd : decides (saved_of (note_id named) row) named).
    { rewrite Hn. eapply decides_answered; [exact Ha|]. subst named. split; [done|]. by split; simpl; congruence. }
    rewrite <-Hn in Hrow |- *.
    destruct (wrote_row _ _ _ _ _ Hrow Hd Hw) as [(e & -> & ->)|[-> Hmid]].
    { destruct Hrest as [_ ->]. exists row. split; [done|by left]. }
    destruct Hrest as (w & reply & recorded & limited & Hans & Hlast).
    apply record_answer_answered in Hans as Hrec. destruct Hrec as [Hrec _].
    assert (Hd2 : decides (saved_of (note_id named) (row_of named)) (after_reply reply recorded)).
    { rewrite saved_of_row. apply after_reply_decides; [done|]. rewrite Hs. exact Hp. }
    assert (Hn2 : note_id (after_reply reply recorded) = note_id named) by (by destruct Hd2 as [(-> & _) _]).
    rewrite <-Hn2 in Hmid, Hd2 |- *.
    destruct (wrote_row _ _ _ _ _ Hmid Hd2 Hlast) as [(e & _ & ->)|[_ Hrow']].
    { eexists. split; [exact Hmid|]. left. simpl. congruence. }
    eexists. split; [exact Hrow'|]. right. exists named, c, w. subst named. split_and!; [done..|].
    by eapply (after_reply_decided (with_withdrawal_id (Some c) saved)).
Qed.

(** C29. Only an answer about the saved withdrawal decides it. After an attempt, first or recovery,
    a saved request keeps its status unless: its POST was refused with a 400, whichever attempt it
    was, and then it is held without an ID; or an answer with the expected HTTP status carried
    exactly one withdrawal, with the saved note, spec hash and, once known, ID, whose status name
    means the new status. That answer is the reply to the POST or to the GET of the known ID, or,
    after a 409 to the POST, the reply to the GET of the ID the conflict named. The request is
    dropped only when a first POST was refused with the limit message. *)
Theorem decided_only_by_identified s id row attempt_ r s' :
  reachable faucet anchor (at_store s) -> submissions (at_store s) !! id = Some row -> pending row ->
  advance_submission (saved_of id row) attempt_ s = (r, s') ->
  let saved := saved_of id row in
  let answer := (circle_call saved (at_world s)).1 in
  match submissions (at_store s') !! id with
  | None => attempt_ = First /\ s_withdrawal_id row = None /\
      exists rr policy, answer = Ok rr /\ cfg_withdrawal_limit (at_config s) = Some policy /\
        is_withdrawal_limit (rr_status rr) (rr_body rr) (wl_message_prefix policy) = true
  | Some row' =>
      decided_by saved answer (s_status row') (s_withdrawal_id row') \/
      (s_withdrawal_id row = None /\ exists conflict recorded named c w,
         answer = Ok conflict /\ rr_status conflict = CONFLICT_STATUS /\
         answered saved recorded /\ last_response recorded = Some (rr_body conflict) /\
         read_conflict recorded = (None, named) /\ same_saved_request saved named /\
         withdrawal_id named = Some c /\
         decided_by named (circle_get_withdrawal named c w).1 (s_status row') (s_withdrawal_id row'))
  end.
Proof.
  intros Hr Hrow Hp Hadv saved answer.
  destruct (at_rate_limited s) eqn:Hq.
  { unfold advance_submission, and_then at 1, gets in Hadv. rewrite Hq in Hadv. injection Hadv as _ <-.
    rewrite Hrow. left. by left. }
  apply advance_run in Hadv as (reply & recorded & limited & Ha & Hw); [|done]. fold saved in Ha, Hw. fold answer in Ha.
  apply record_answer_answered in Ha as Hrec. destruct Hrec as [Hrec _].
  pose proof (answered_saved _ _ _ Hrec) as (Hn & Hst & Hid).
  assert (Hrow' : submissions (at_store s) !! note_id recorded = Some row) by (by rewrite Hn).
  destruct Hw as [(rr & Hno & -> & Hw)|[(rr & Hno & -> & Hc & Hw)|[_ Hw]]].
  - destruct (limit_row _ _ _ _ _ _ _ _ _ Hrow' Hw) as [(row2 & Hrow2 & Hs)|(Hgone & -> & Hbad & policy & Hlim)];
      rewrite Hn in *; [rewrite Hrow2; left; by left|]. rewrite Hgone. split_and!; [done..|].
    exists rr, policy. split; [|done]. eapply record_answer_reply; [exact Ha|]. by rewrite Hbad.
  - assert (Hrec' : answered (saved_of (note_id recorded) row) recorded) by (by rewrite Hn).
    destruct (conflict_row _ _ _ _ row Hrow' Hp Hno Hrec' Hw) as (row2 & Hrow2 & Hs).
    rewrite Hn in Hrow2. rewrite Hrow2. destruct Hs as [Hs|(named & c & w & Hrc & Hsame & Hcid & Hd)]; [left; by left|].
    right. split; [done|]. exists rr, recorded, named, c, w.
    assert (Hans : answer = Ok rr) by (eapply record_answer_reply; [exact Ha|by rewrite Hc]).
    split_and!; try done.
    + rewrite Hans in Ha. by injection Ha as <- _.
    + etrans; [apply Hrec|exact Hsame].
  - assert (Hd : decides saved (after_reply reply recorded)) by (by apply after_reply_decides).
    assert (Hno : note_id (after_reply reply recorded) = id) by (by destruct Hd as [(-> & _) _]).
    rewrite <-Hno in Hrow |- *.
    assert (Hd' : decides (saved_of (note_id (after_reply reply recorded)) row) (after_reply reply recorded))
      by (by rewrite Hno).
    destruct (wrote_row _ _ _ _ _ Hrow Hd' Hw) as [(e & _ & ->)|[_ Hrow2]].
    + rewrite Hrow. left. by left.
    + rewrite Hrow2. left. simpl. by eapply after_reply_decided.
Qed.

(** ** Every attempt is recorded *)

Lemma wrote_taken o before r after row :
  store_wf anchor before -> submissions before !! note_id o = Some row -> pending row ->
  decides (saved_of (note_id o) row) o -> outcome_valid o -> wrote o before r after ->
  r = Ok tt /\ submissions after !! note_id o = Some (row_of o) /\ store_step anchor before after.
Proof.
  intros Hwf Hrow Hp Hd Hv [now Hw]. destruct (outcome_taken anchor now o row before) as [st Hu]; [done..|].
  rewrite Hu in Hw. destruct Hw as [-> ->]. split; [done|].
  split; [by eapply outcome_row_left|by eapply outcome_step].
Qed.

(** The limit rejection of a request that is still being sent is recorded, and its burn waits. *)
Lemma limit_recorded now due body saved attempt_ st row :
  store_wf anchor st -> submissions st !! note_id saved = Some row -> pending row ->
  s_withdrawal_id row = None -> same_saved_request (saved_of (note_id saved) row) saved ->
  (attempt_ = First -> just_authorized st (note_id saved)) -> 0 <= due ->
  exists st', record_limit_rejection now (note_id saved) due body (Some (saved, attempt_)) st = Ok (tt, st') /\
    store_step anchor st st' /\
    (exists b, burns st !! note_id saved = Some b /\
       burns st' = <[note_id saved := set_retry (Some due) b]> (burns st)) /\
    submissions st' = match attempt_ with
                      | First => delete (note_id saved) (submissions st)
                      | Recovery => <[note_id saved := row_of (with_reply (Some BAD_REQUEST) (Some body)
                          (Some "Circle withdrawal limit"%string) (saved_of (note_id saved) row))]> (submissions st)
                      end.
Proof.
  intros Hwf Hrow Hp Hno (_ & He & Hb & Hh) Hfirst Hdue. simpl in He, Hb, Hh.
  destruct (nk_sub_burn _ _ _ _ _ (wf_note _ _ Hwf _) _ Hrow) as (b & Hbr & Hc).
  assert (Hnh : b_hold_reason b = None).
  { apply eq_None_not_Some. intros [c Hhold].
    destruct (nk_hold _ _ _ _ _ (wf_note _ _ Hwf _) _ _ Hbr Hhold) as (_ & _ & _ & Hna & _).
    specialize (Hna _ Hrow). destruct Hp; congruence. }
  assert (Hsub : s_status row = Submitting).
  { destruct Hp as [?|Hs]; [done|]. destruct (row_valid anchor _ _ _ Hwf Hrow) as (_ & _ & Hv & _).
    simpl in Hv. rewrite Hs, Hno in Hv. by destruct Hv. }
  assert (Hsome : exists st', record_limit_rejection now (note_id saved) due body (Some (saved, attempt_)) st = Ok (tt, st')).
  { unfold record_limit_rejection, check_retry, tbind, tlift, tget, tput. rewrite Hbr. simpl.
    unfold consumed in Hc. rewrite (bool_decide_eq_true_2 _ Hc), Hnh. simpl.
    rewrite (proj2 (Z.leb_le 0 due) Hdue). simpl. rewrite (bool_decide_eq_true_2 (note_id saved = note_id saved)) by done.
    simpl. rewrite Hrow. simpl. unfold same_request. rewrite Hsub, Hno, He, Hb, Hh, !bool_decide_eq_true_2 by done.
    simpl. destruct attempt_; eauto. }
  destruct Hsome as [st' Hr]. exists st'. split; [exact Hr|]. split.
  { eapply step_limit; cycle 2; [exact Hr|done|]. intros ? [= _ ->]. by apply Hfirst. }
  apply limit_rejection_Ok in Hr as (b' & m & e & Hb' & _ & _ & _ & (_ & row' & Hrow' & _ & Hm) & _ & _ & _ & ->).
  simplify_eq. split; [by eexists|]. simpl. by destruct attempt_; rewrite Hm.
Qed.

Lemma limit_taken config w rr saved attempt_ before r after row policy due :
  store_wf anchor before -> submissions before !! note_id saved = Some row -> pending row ->
  s_withdrawal_id row = None -> same_saved_request (saved_of (note_id saved) row) saved ->
  (attempt_ = First -> just_authorized before (note_id saved)) ->
  cfg_withdrawal_limit config = Some policy -> retry_at policy (system_now w).1 = Ok due ->
  limit_wrote config w rr saved attempt_ before r after ->
  r = Ok tt /\ store_step anchor before after /\
  is_withdrawal_limit (rr_status rr) (rr_body rr) (wl_message_prefix policy) = true /\
  (exists b, burns before !! note_id saved = Some b /\
     burns after = <[note_id saved := set_retry (Some due) b]> (burns before)) /\
  submissions after = match attempt_ with
                      | First => delete (note_id saved) (submissions before)
                      | Recovery => <[note_id saved := row_of (with_reply (Some BAD_REQUEST) (Some (rr_body rr))
                          (Some "Circle withdrawal limit"%string) (saved_of (note_id saved) row))]> (submissions before)
                      end.
Proof.
  intros Hwf Hrow Hp Hno Hsame Hfirst Hcf Hdue (policy' & Hcf' & Hl & now & Hw).
  rewrite Hcf in Hcf'. injection Hcf' as <-. rewrite Hdue in Hw.
  assert (0 <= due) by (unfold retry_at in Hdue; inv_ok;
    match goal with E : try_from_max _ _ = Some _ |- _ => apply try_from_max_Some in E; lia end).
  destruct (limit_recorded now due (rr_body rr) saved attempt_ before row) as (st & Hr & Hstep & Hb & Hs); [done..|].
  rewrite Hr in Hw. destruct Hw as [-> ->]. by split_and!.
Qed.

(** What an attempt left of the request it was about, and of the burn's wait. *)
Definition attempt_recorded (config : Config) (w : W) (saved : SavedSubmission) (attempt_ : SubmissionAttempt)
    (reply : result FailureClass RawResponse) (recorded : SavedSubmission) (before after : Store) : Prop :=
  (exists rr policy due b, withdrawal_id saved = None /\ reply = Ok rr /\
     cfg_withdrawal_limit config = Some policy /\
     is_withdrawal_limit (rr_status rr) (rr_body rr) (wl_message_prefix policy) = true /\
     retry_at policy (system_now w).1 = Ok due /\ burns before !! note_id saved = Some b /\
     burns after = <[note_id saved := set_retry (Some due) b]> (burns before) /\
     submissions after !! note_id saved =
       match attempt_ with
       | First => None
       | Recovery => Some (row_of (with_reply (Some BAD_REQUEST) (Some (rr_body rr))
                             (Some "Circle withdrawal limit"%string) saved))
       end) \/
  (exists rr f o, withdrawal_id saved = None /\ reply = Ok rr /\ rr_status rr = CONFLICT_STATUS /\
     read_conflict recorded = (Some f, o) /\ submissions after !! note_id saved = Some (row_of o)) \/
  (exists rr named w' reply' recorded' limited', withdrawal_id saved = None /\ reply = Ok rr /\
     rr_status rr = CONFLICT_STATUS /\ read_conflict recorded = (None, named) /\
     record_answer named (circle_call named w').1 = (reply', recorded', limited') /\
     submissions after !! note_id saved = Some (row_of (after_reply reply' recorded'))) \/
  ((withdrawal_id saved = None -> forall rr, reply = Ok rr -> rr_status rr <> CONFLICT_STATUS /\
      forall policy, cfg_withdrawal_limit config = Some policy ->
        is_withdrawal_limit (rr_status rr) (rr_body rr) (wl_message_prefix policy) = false) /\
   submissions after !! note_id saved = Some (row_of (after_reply reply recorded))).

Lemma circle_call_ok `{!CircleLaws W} saved w : reply_ok (circle_call saved w).1.
Proof. unfold circle_call. destruct (withdrawal_id saved); [apply circle_get_ok|apply circle_post_ok]. Qed.

(** A conflict is always recorded, with the answer about the ID it names. *)
Lemma conflict_taken `{!CircleLaws W} saved before r after row :
  store_wf anchor before -> submissions before !! note_id saved = Some row -> pending row ->
  s_withdrawal_id row = None -> answered (saved_of (note_id saved) row) saved -> outcome_valid saved ->
  conflict_wrote saved before r after ->
  r = Ok tt /\ star (store_step anchor) before after /\
  ((exists f o, read_conflict saved = (Some f, o) /\ submissions after !! note_id saved = Some (row_of o)) \/
   exists named w reply recorded limited, read_conflict saved = (None, named) /\
     record_answer named (circle_call named w).1 = (reply, recorded, limited) /\
     submissions after !! note_id saved = Some (row_of (after_reply reply recorded))).
Proof.
  intros Hwf Hrow Hp Hno Ha Hv Hw. pose proof (answered_saved _ _ _ Ha) as (_ & Hst & Hsid).
  assert (Hnh : s_status row <> Held) by (destruct Hp; congruence).
  destruct Hw as [(f & o & Hc & Hw)|(named & mid & r1 & Hc & Hw & Hrest)].
  - apply read_conflict_Some in Hc as Ho. pose proof Ho as ((Hn & _) & _ & _).
    assert (Hd : decides (saved_of (note_id o) row) o).
    { rewrite Hn. eapply decides_answered; [exact Ha|]. apply answered_decides; [congruence|done]. }
    assert (Hov : outcome_valid o) by (by eapply read_conflict_valid).
    rewrite <-Hn in Hrow |- *.
    destruct (wrote_taken o before r after row) as (-> & Hrow' & Hstep); [done..|].
    split; [done|]. split; [by apply star_one|]. left. by eauto.
  - apply read_conflict_None in Hc as Ho. destruct Ho as (c & Hwell & Hnamed).
    assert (Hn : note_id named = note_id saved) by (by subst named).
    assert (Hs : status named = s_status row) by (by subst named).
    assert (Hd : decides (saved_of (note_id named) row) named).
    { rewrite Hn. eapply decides_answered; [exact Ha|]. subst named. split; [done|]. by split; simpl; congruence. }
    assert (Hvn : outcome_valid named) by (subst named; by apply named_valid).
    rewrite <-Hn in Hrow |- *.
    destruct (wrote_taken named before r1 mid row) as (-> & Hmid & Hstep); [done..|].
    destruct Hrest as (w & reply & recorded & limited & Hans & Hlast).
    apply record_answer_answered in Hans as Hrec. destruct Hrec as [Hrec _].
    assert (Hsr : status recorded = Submitting \/ status recorded = Submitted)
      by (destruct Hrec as (_ & -> & _); rewrite Hs; exact Hp).
    assert (Hd2 : decides (saved_of (note_id named) (row_of named)) (after_reply reply recorded)).
    { rewrite saved_of_row. apply after_reply_decides; [done|]. rewrite Hs. exact Hp. }
    assert (Hn2 : note_id (after_reply reply recorded) = note_id named) by (by destruct Hd2 as [(-> & _) _]).
    assert (Hov : outcome_valid (after_reply reply recorded)).
    { apply after_reply_valid; [|done]. eapply record_answer_valid; [exact Hans|done|apply circle_call_ok]. }
    rewrite <-Hn2 in Hmid, Hd2 |- *.
    destruct (wrote_taken (after_reply reply recorded) mid r after (row_of named)) as (-> & Hrow' & Hstep');
      [by eapply store_step_wf|done|by unfold pending; simpl; rewrite Hs|done..|].
    split; [done|]. split; [eapply star_trans; by apply star_one|]. right.
    exists named, w, reply, recorded, limited. by split_and!.
Qed.

(** C30. Every answer of Circle can be recorded. For a saved request that is being sent or accepted,
    an attempt succeeds and leaves a store the service can leave, whatever the answers are, as long
    as the clock's retry deadline can be stored. A limit answer to a POST makes the burn wait and
    drops the request on its first attempt, or keeps it with the answer on a recovery. A 409 without
    a usable ID is recorded; one that names an ID is recorded, and then so is the answer to its GET.
    Any other reply or failure is recorded as what reading it means. *)
Theorem answer_is_recorded `{!CircleLaws W} s id row attempt_ :
  reachable faucet anchor (at_store s) -> submissions (at_store s) !! id = Some row -> pending row ->
  at_rate_limited s = false -> (attempt_ = First -> just_authorized (at_store s) id) ->
  let saved := saved_of id row in
  let w := (circle_call saved (at_world s)).2 in
  (forall policy, cfg_withdrawal_limit (at_config s) = Some policy ->
     exists due, retry_at policy (system_now w).1 = Ok due) ->
  exists s' reply recorded limited,
    advance_submission saved attempt_ s = (Ok tt, s') /\ reachable faucet anchor (at_store s') /\
    record_answer saved (circle_call saved (at_world s)).1 = (reply, recorded, limited) /\
    attempt_recorded (at_config s) w saved attempt_ reply recorded (at_store s) (at_store s').
Proof.
  intros Hr Hrow Hp Hq Hfirst saved w Hclock. pose proof (reachable_store_wf _ _ _ Hr) as Hwf.
  destruct (advance_submission saved attempt_ s) as [r s'] eqn:Hadv.
  apply advance_run in Hadv as (reply & recorded & limited & Ha & Hw); [|done]. fold w in Hw.
  apply record_answer_answered in Ha as Hrec. destruct Hrec as [Hrec _].
  pose proof (answered_saved _ _ _ Hrec) as (Hn & Hst & Hid).
  assert (Hrow' : submissions (at_store s) !! note_id recorded = Some row) by (by rewrite Hn).
  assert (Hrec' : answered (saved_of (note_id recorded) row) recorded) by (by rewrite Hn).
  assert (Hv : outcome_valid recorded).
  { eapply record_answer_valid; [exact Ha| |apply circle_call_ok]. by apply (row_valid anchor (at_store s)). }
  enough (r = Ok tt /\ star (store_step anchor) (at_store s) (at_store s') /\
    attempt_recorded (at_config s) w saved attempt_ reply recorded (at_store s) (at_store s')) as (-> & Hrun & Hleft).
  { exists s', reply, recorded, limited. split; [done|]. split; [|by split]. by eapply star_trans. }
  destruct Hw as [(rr & Hno & -> & Hw)|[(rr & Hno & -> & Hc & Hw)|[Hother Hw]]].
  - pose proof Hw as (policy & Hcf & _). destruct (Hclock _ Hcf) as [due Hdue].
    assert (Hf : attempt_ = First -> just_authorized (at_store s) (note_id recorded)) by (by rewrite Hn).
    destruct (limit_taken _ _ _ _ _ _ _ _ row policy due Hwf Hrow' Hp Hno (proj1 Hrec') Hf Hcf Hdue Hw)
      as (-> & Hstep & Hl & (b & Hb & Hbs) & Hs).
    split; [done|]. split; [by apply star_one|]. left. rewrite Hn in Hb, Hbs, Hs. exists rr, policy, due, b.
    split_and!; [done..|]. rewrite Hs.
    destruct attempt_; [by rewrite lookup_delete_eq|by rewrite lookup_insert_eq].
  - destruct (conflict_taken recorded (at_store s) r (at_store s') row) as (-> & Hrun & Hleft); [done..|].
    split; [done|]. split; [done|]. rewrite Hn in Hleft. right.
    destruct Hleft as [(f & o & Hf & Hl)|(named & w' & rep & rec & lim & Hf & Hans & Hl)]; [left|right; left].
    + by exists rr, f, o.
    + by exists rr, named, w', rep, rec, lim.
  - assert (Hd : decides saved (after_reply reply recorded)) by (by apply after_reply_decides).
    assert (Hno : note_id (after_reply reply recorded) = id) by (by destruct Hd as [(-> & _) _]).
    destruct (wrote_taken (after_reply reply recorded) (at_store s) r (at_store s') row) as (-> & Hl & Hstep);
      [done|by rewrite Hno|done|by rewrite Hno| |done|].
    { apply after_reply_valid; [done|]. by rewrite Hst. }
    split; [done|]. split; [by apply star_one|]. rewrite Hno in Hl. by do 3 right.
Qed.

Lemma bytes_lt_head_le x y a b : bytes_lt (x :: a) (y :: b) -> x <= y.
Proof. unfold bytes_lt. simpl. destruct (Z.compare_spec x y); [lia|lia|done]. Qed.

(** C28. Waits are served in order: a burn may be sent only before every other waiting burn in
    creation order, and a waiting burn only once its retry time has passed; its next retry time is
    then on disk before the request goes out, and nothing else of the store has changed. *)
Theorem limit_wait_in_order s id b s' :
  reachable faucet anchor (at_store s) -> burns (at_store s) !! id = Some b ->
  limit_allows id s = (Ok true, s') ->
  (forall i c, burns (at_store s) !! i = Some c -> is_Some (b_retry_at c) -> i <> id ->
     bytes_lt (b_creation_block b :: id) (b_creation_block c :: i)) /\
  match b_retry_at b with
  | None => at_store s' = at_store s
  | Some due =>
      let now := (system_now (at_world s)).1 in
      due <= as_secs now /\
      exists limit next, cfg_withdrawal_limit (at_config s) = Some limit /\
        retry_at limit now = Ok next /\
        at_store s' = set_burns (<[id := set_retry (Some next) b]> (burns (at_store s))) (at_store s)
  end.
Proof.
  intros Hwf%reachable_store_wf Hb Hr. unfold limit_allows, and_then at 1, read_store in Hr.
  destruct (first_limit_wait_wf anchor (at_store s) Hwf) as [[Hf Hnone]|(w & c & a & Hw & Ha & Hf & Hmin)];
    rewrite Hf in Hr.
  - injection Hr as <-. split; [intros i c Hi Hc _; rewrite (Hnone _ _ Hi) in Hc; by destruct Hc|].
    by rewrite (Hnone _ _ Hb).
  - simpl in Hr. destruct (decide (w = id)) as [->|Hne]; simplify_eq.
    + rewrite bool_decide_eq_true_2 in Hr by done. simpl in Hr. split; [by apply Hmin|].
      rewrite Ha. unfold and_then at 1, world at 1 in Hr.
      destruct (system_now (at_world s)) as [now w]. simpl in *.
      destruct (Z.leb_spec 0 now); [|done]. unfold and_then, done, lift, gets in Hr.
      destruct (try_from_max u64_max a) as [due|] eqn:Hdue; simpl in Hr; [|done].
      apply try_from_max_Some in Hdue as [-> _]. destruct (Z.ltb_spec (as_secs now) a); [done|].
      split; [lia|]. change (at_config (put_world w s)) with (at_config s) in Hr.
      destruct (cfg_withdrawal_limit (at_config s)) as [limit|]; simpl in Hr; [|done].
      unfold retry_deadline in Hr. destruct (retry_at limit now) as [next|] eqn:Hn; simpl in Hr; [|done].
      exists limit, next. split_and!; [done|done|]. unfold transact in Hr. simpl in Hr.
      destruct (advance_limit_retry id next (at_store s)) as [[u st]|] eqn:Hadv; [|done].
      injection Hr as <-. simpl. unfold advance_limit_retry in Hadv. inv_ok. by simplify_eq/=.
    + rewrite bool_decide_eq_false_2 in Hr by done. simpl in Hr. unfold and_then, read_store in Hr. cbn beta in Hr.
      unfold burn_creation_block in Hr. rewrite Hb in Hr. simpl in Hr.
      destruct (decode_block_number (b_creation_block b)) as [block|] eqn:Hd; simpl in Hr; [|done].
      unfold decode_block_number in Hd. inv_ok.
      match goal with E : try_from_max _ _ = Some _ |- _ => apply try_from_max_Some in E as [-> _] end.
      injection Hr as Hlt <-. bool_prop. split.
      * intros i d Hi Hd' Hne'. destruct (decide (i = w)) as [->|Hw']; [by simplify_eq|].
        eapply bytes_lt_trans; [exact Hlt|]. by apply Hmin.
      * destruct (b_retry_at b) as [due|] eqn:Hdue; [|done]. exfalso.
        apply (bytes_lt_irrefl (b_creation_block b :: id)). eapply bytes_lt_trans; [exact Hlt|].
        apply Hmin; [done|by eexists|done].
Qed.
End limit.
