(* ===== verification/ClientProps.v ===== *)
(** Properties of the Circle client, the signers, the configuration, the withdrawal-limit clock and burn
    notes. *)
From S2P Require Import Prelude Text Telemetry Foreign Wire Types Burn Config Verify Circle Signer.
From Stdlib Require Import Ascii.
Local Open Scope Z_scope.

(** ** Pacing *)

(** How long an attempt takes is not negative. *)
Definition attempt_timed (a : SendAttempt) : Prop :=
  match a with Sends _ (Some d) => 0 <= d | _ => True end.

Lemma dispatches_after next l :
  Forall attempt_timed l -> Forall (fun d => next <= d) (dispatches next l).
Proof.
  revert next; induction l as [|a l IH]; intros next Hl; simpl; [constructor|].
  apply Forall_cons in Hl as [Ha Hl]. destruct a as [|arrival duration]; simpl; [by apply IH|].
  constructor; [lia|]. eapply Forall_impl; [by apply IH|]. simpl. intros d Hd.
  unfold REQUEST_GAP in *. destruct duration; simpl in Ha; lia.
Qed.

(** C34. Requests to Circle are paced: however the callers arrive, finish or give up, any two
    requests go out at least 250 ms apart, and none before its caller arrived. *)
Theorem requests_are_paced next l :
  Forall attempt_timed l ->
  StronglySorted (fun a b => a + REQUEST_GAP <= b) (dispatches next l) /\
  Forall2 (fun arrival d => arrival <= d)
    (omap (fun a => match a with Sends arrival _ => Some arrival | GivesUp => None end) l)
    (dispatches next l).
Proof.
  revert next; induction l as [|a l IH]; intros next Hl; simpl; [split; constructor|].
  apply Forall_cons in Hl as [Ha Hl]. destruct a as [|arrival duration]; simpl; [by apply IH|].
  split; constructor.
  - by apply IH.
  - eapply Forall_impl; [by apply dispatches_after|]. simpl. intros d Hd.
    destruct duration; simpl in Ha; lia.
  - lia.
  - by apply IH.
Qed.

(** ** Amounts *)

Lemma decimal_digits_length fuel k v acc :
  0 <= v < 10 ^ Z.of_nat (S k) -> (length (decimal_digits fuel v acc) <= S k + length acc)%nat.
Proof.
  revert k v acc; induction fuel as [|fuel IH]; intros k v acc Hv; [simpl; lia|]. cbn [decimal_digits].
  destruct (Z.ltb_spec v 10); [simpl; lia|]. destruct k as [|k].
  { change (10 ^ Z.of_nat 1) with 10 in Hv. lia. }
  rewrite (Nat2Z.inj_succ (S k)), Z.pow_succ_r in Hv by lia.
  etrans; [apply (IH k)|simpl; lia].
  split; [apply Z.div_pos; lia|apply Z.div_lt_upper_bound; lia].
Qed.

Lemma to_decimal_digits v : 0 <= v -> Forall (fun a => is_ascii_digit a = true) (to_decimal v).
Proof. intros. by apply decimal_digits_digit. Qed.

Lemma zero_padded_value n v :
  0 <= v < 10 ^ 78 -> digits_value (zero_padded n v) = v /\
  Forall (fun a => is_ascii_digit a = true) (zero_padded n v).
Proof.
  intros Hv. unfold zero_padded. split.
  - unfold digits_value. rewrite foldl_app.
    assert (Hz : forall k, foldl (fun acc a => acc * 10 + (code a - 48)) 0 (repeat "0"%char k) = 0).
    { induction k as [|k IH]; [done|]. exact IH. }
    rewrite Hz. by apply to_decimal_value.
  - apply Forall_app. split; [by apply Forall_forall; intros a ->%list_elem_of_In%repeat_spec|].
    apply to_decimal_digits. lia.
Qed.

Lemma zero_padded_length k v : 0 <= v < 10 ^ Z.of_nat (S k) -> length (zero_padded (S k) v) = S k.
Proof.
  intros Hv. unfold zero_padded. cbv zeta. autorewrite with lengths; rewrite repeat_length.
  pose proof (decimal_digits_length 78 k v [] Hv) as Hl. fold (to_decimal v) in Hl.
  cbn [length] in Hl. lia.
Qed.

(** Amounts are sent to Circle exactly: the text of an amount of base units is a whole number of
    USDC, a point and as many fractional digits as the token has decimals, and denotes the amount. *)
Theorem usdc_text_exact decimals units :
  (0 < decimals <= 18)%nat -> 0 <= units <= u64_max ->
  exists whole fraction,
    UsdcDecimals_from decimals units = list_str (whole ++ "."%char :: fraction) /\
    Forall (fun a => is_ascii_digit a = true) (whole ++ fraction) /\
    length fraction = decimals /\
    digits_value whole * 10 ^ Z.of_nat decimals + digits_value fraction = units.
Proof.
  intros Hd Hu. set (p := 10 ^ Z.of_nat decimals).
  assert (Hp : 0 < p <= 10 ^ 18).
  { unfold p. split; [apply Z.pow_pos_nonneg; lia|apply Z.pow_le_mono_r; lia]. }
  assert (Hdiv : 0 <= units / p <= units).
  { split; [apply Z.div_pos; lia|]. apply Z.div_le_upper_bound; [lia|]. clear -Hu Hp. nia. }
  assert (Hmod : 0 <= units mod p < p) by (apply Z.mod_pos_bound; lia).
  assert (H64 : u64_max < 10 ^ 78) by (by vm_compute). assert (H18 : 10 ^ 18 < 10 ^ 78) by (by vm_compute).
  exists (to_decimal (units / p)), (zero_padded decimals (units mod p)). split; [done|].
  destruct (zero_padded_value decimals (units mod p)) as [Hv Hdig]; [lia|]. split_and!.
  - apply Forall_app. split; [|done]. apply to_decimal_digits. lia.
  - destruct decimals as [|k]; [lia|]. by apply zero_padded_length.
  - rewrite Hv, to_decimal_value by lia. pose proof (Z.div_mod units p). lia.
Qed.

(** ** Replies *)

Section client.
Context `{ML : MidenLib, WL : WebLib, JL : JsonLib, CJ : CircleJson} {W : Type} `{HX : !HttpExec W}.

Lemma read_body_error chunks body e : read_body body chunks = Err e -> is_rate_limited e = false.
Proof.
  revert body; induction chunks as [|[c|] cs IH]; intros body; simpl; [done| |by intros [= <-]].
  case_match; [by intros [= <-]|apply IH].
Qed.

(** C35. The client keeps the promises the attester relies on: whatever the server sends and
    however it is cut into chunks, a reply it returns is the whole body, at most 1 MiB, with a
    valid status that is not 429; a 429 is always the rate-limit error. *)
Theorem client_replies request (w w' : W) status chunks :
  HttpLaws W -> http_execute request w = (Some (status, chunks), w') ->
  reply_ok (send request w).1 /\
  (forall reply, (send request w).1 = Ok reply ->
     rr_status reply = status /\ exists cs, chunks = Some <$> cs /\ rr_body reply = concat cs) /\
  (status = TOO_MANY_REQUESTS <-> exists e, (send request w).1 = Err e /\ is_rate_limited e = true).
Proof.
  intros Hlaw Hx. split; [by apply send_ok|]. unfold send. rewrite Hx. simpl. unfold read_reply.
  pose proof (read_body_error chunks []) as Hnot.
  destruct (read_body [] chunks) as [body|e] eqn:Hb; destruct (Z.eqb_spec status TOO_MANY_REQUESTS) as [He|He].
  - split; [done|]. split; [|done]. by intros _; eexists.
  - split; [|split; [done|by intros (e & [=] & _)]]. intros reply [= <-]. split; [done|].
    apply read_body_concat in Hb as (cs & -> & ->). by exists cs.
  - split; [done|]. split; [|done]. by intros _; eexists.
  - split; [done|]. split; [done|]. intros (e' & [= <-] & Hr). by rewrite (Hnot e) in Hr.
Qed.
End client.

(** ** Signers *)

Section signers.
Context `{KL : KeyLib}.

(** The two signers are always used in one order: a pair holds two different keys, each with
    the provider it was read from, and the first key's address does not come after the second's,
    whichever order the providers were configured in. *)
Theorem signer_pair_ordered {W} `{!SignerApi W} signers (w w' : W) pair :
  SignerPair_new signers w = (Ok pair, w') ->
  exists first second w1,
    signer_public_key signers.1 w = (Ok first, w1) /\
    signer_public_key signers.2 w1 = (Ok second, w') /\
    (sp_signers pair = signers /\ sp_public_keys pair = (first, second) \/
     sp_signers pair = (signers.2, signers.1) /\ sp_public_keys pair = (second, first)) /\
    (sp_public_keys pair).1 <> (sp_public_keys pair).2 /\
    bytes_le (address_from_public_key (sp_public_keys pair).1)
      (address_from_public_key (sp_public_keys pair).2).
Proof.
  unfold SignerPair_new. destruct (signer_public_key signers.1 w) as [[first|e] w1]; simpl; [|done].
  destruct (signer_public_key signers.2 w1) as [[second|e] w2] eqn:H2; simpl; [|done].
  intros [= Hpair <-]. exists first, second, w1. split; [done|]. split; [done|].
  unfold order_pair in Hpair. simpl in Hpair. case_bool_decide as Hne; [done|].
  unfold key_address in Hpair. inv_ok.
  case_bool_decide as Hlt; injection Hpair as <-; simpl; split_and!; auto.
  - by apply bytes_lt_le.
  - destruct (bytes_trichotomy (address_from_public_key first) (address_from_public_key second))
      as [?|[->|?]]; [by apply bytes_lt_le|by apply bytes_le_lt_eq; right|done].
Qed.

(** C40. A KMS signature is only used when it is this key's: a connected signer's key is an enabled
    secp256k1 signing key with the configured ARN, and every signature it returns came back from
    that key over that digest, verifies under that public key in its low-s form, and carries the
    recovery parity of that key. *)
Theorem kms_signatures_verify {W} `{!KmsApi W} arn (w w1 w2 w3 : W) signer digest signature :
  KmsSigner_connect arn w = (Ok signer, w1) ->
  KmsSigner_sign_digest signer digest w2 = (Ok signature, w3) ->
  ks_key_arn signer = arn /\
  (exists m, (kms_describe_key arn w).1 = Some (Some m) /\ km_arn m = Some arn /\
     km_enabled m = true /\ km_key_spec m = Some EccSecgP256K1 /\ km_key_usage m = Some SignVerify) /\
  exists response der s odd,
    (kms_sign (sign_request arn digest) w2).1 = Some response /\
    so_key_id response = Some arn /\ so_signature response = Some der /\
    ecdsa_from_der der = Some s /\
    let low := default s (ecdsa_normalize_s s) in
    ecdsa_verify_prehash (ks_public_key signer) digest low = true /\
    ecdsa_trial_recovery (ks_public_key signer) digest low = Some (odd, false) /\
    signature = signature_text low odd.
Proof.
  unfold KmsSigner_connect, KmsSigner_sign_digest. intros Hc Hs.
  destruct (kms_describe_key arn w) as [description wd] eqn:Hd.
  destruct (let? d := ok_or description _ in check_key_metadata d arn) as [u|e] eqn:Hm; [|done].
  destruct (kms_get_public_key arn wd) as [response wp]. injection Hc as Hc <-. inv_ok. simpl in *.
  destruct (kms_sign (sign_request arn digest) w2) as [answer ws]. injection Hs as Hs <-.
  split; [done|]. split.
  - unfold check_key_metadata in Hm. destruct description as [m0|]; [|done]. simpl in Hm. inv_ok. subst.
    case_match eqn:Hcond; [done|]. bool_prop. eexists. by split_and!.
  - unfold signature_from_response in Hs. apply rbind_Ok in Hs as (r & Hr%ok_or_Ok & Hs). subst answer.
    case_match eqn:Hcond; [done|]. bool_prop. apply rbind_Ok in Hs as (der & Hder%ok_or_Ok & Hs).
    unfold signature_from_der in Hs. apply rbind_Ok in Hs as (s & Hsig%ok_or_Ok & Hs).
    apply rbind_Ok in Hs as (u1 & Hv%ensure_Ok & Hs). apply rbind_Ok in Hs as ([odd red] & Hrec%ok_or_Ok & Hs).
    apply rbind_Ok in Hs as (u2 & Hred%ensure_Ok & [= <-]). bool_prop. subst.
    exists r, der, s, odd. by split_and!.
Qed.
End signers.

(** ** The withdrawal-limit clock *)

(** The retry time is the first whole second that is at least the interval away: it never lets a
    burn be retried early, it is less than a second late, and it fits the store's column; it exists
    for every time and interval below 2^61 seconds. *)
Theorem retry_waits_interval limit now :
  0 <= wl_retry_interval limit ->
  (forall t, retry_at limit now = Ok t ->
     now + wl_retry_interval limit <= t * NANOS < now + wl_retry_interval limit + NANOS /\
     0 <= t <= i64_max /\
     (forall later, t <= as_secs later -> now + wl_retry_interval limit <= later)) /\
  (0 <= now < 2 ^ 61 * NANOS -> wl_retry_interval limit < 2 ^ 61 * NANOS ->
     exists t, retry_at limit now = Ok t).
Proof.
  intros Hi. assert (Hn : NANOS = 1000000000) by done. unfold retry_at, as_secs, subsec_nanos. rewrite Hn. split.
  - intros t Hr. apply rbind_Ok in Hr as (u & Hnow%ensure_Ok & Hr).
    apply rbind_Ok in Hr as (d & [-> Hd]%ok_or_Ok%checked_add_Some & Hr).
    apply rbind_Ok in Hr as (s & [-> Hs]%ok_or_Ok%checked_add_Some & [-> Ht]%ok_or_Ok%try_from_max_Some).
    bool_prop. set (d := now + wl_retry_interval limit) in *.
    pose proof (Z.div_mod d 1000000000 ltac:(lia)). pose proof (Z.mod_pos_bound d 1000000000 ltac:(lia)).
    assert (Hb : d <= (d / 1000000000 + (if d mod 1000000000 =? 0 then 0 else 1)) * 1000000000 < d + 1000000000).
    { destruct (Z.eqb_spec (d mod 1000000000) 0); lia. }
    split; [done|]. split; [done|]. intros later Hl.
    pose proof (Z.div_mod later 1000000000 ltac:(lia)). pose proof (Z.mod_pos_bound later 1000000000 ltac:(lia)). lia.
  - intros Hnow Hint. destruct (Z.leb_spec 0 now); [|lia]. simpl ensure. simpl rbind at 1.
    set (d := now + wl_retry_interval limit) in *.
    change (2 ^ 61) with 2305843009213693952 in *.
    assert (Hd : 0 <= d < 4611686018427387904 * 1000000000) by (unfold d; lia).
    rewrite (proj2 (checked_add_Some duration_max now (wl_retry_interval limit) d)).
    2: { split; [done|]. unfold duration_max. rewrite Hn. unfold u64_max. lia. }
    simpl rbind at 1.
    assert (Hq : 0 <= d / 1000000000 < 4611686018427387904).
    { split; [apply Z.div_pos; lia|apply Z.div_lt_upper_bound; lia]. }
    set (s := d / 1000000000 + (if d mod 1000000000 =? 0 then 0 else 1)).
    assert (Hs : 0 <= s <= i64_max).
    { unfold s, i64_max. destruct (d mod 1000000000 =? 0); lia. }
    rewrite (proj2 (checked_add_Some u64_max _ _ s)) by (unfold u64_max, i64_max in *; lia).
    simpl. rewrite (proj2 (try_from_max_Some i64_max s s)) by done. by exists s.
Qed.

Section config.
Context `{ML : MidenLib, WL : WebLib}.

(** An accepted configuration can serve its routes: whenever it allows a fee for a
    destination, that destination is a Circle domain or a supported remote one; for a remote one
    the configured forwarder is a known xReserve deployment; the CCTP cap is positive and its two
    contracts are non-zero and different; and a limit policy, if any, waits a positive time for a
    message that is not blank. *)
Theorem config_serves_routes cli is_dir cfg destination fee :
  Config_try_from cli is_dir = Ok cfg -> forwarding_max_fee cfg destination = Some fee ->
  (if FIRST_REMOTE_DOMAIN <=? destination
   then is_Some (xreserve_deployment (cf_forwarder (cfg_cctp_forwarding cfg))) /\
     (destination = STACKS_DOMAIN \/ destination = CARDANO_DOMAIN \/ destination = MOVEMENT_DOMAIN)
   else fee = cf_max_fee (cfg_cctp_forwarding cfg) /\ fee <> 0) /\
  cf_forwarder (cfg_cctp_forwarding cfg) <> address_zero /\
  cf_token_messenger (cfg_cctp_forwarding cfg) <> address_zero /\
  cf_forwarder (cfg_cctp_forwarding cfg) <> cf_token_messenger (cfg_cctp_forwarding cfg) /\
  (forall limit, cfg_withdrawal_limit cfg = Some limit ->
     is_blank (wl_message_prefix limit) = false /\ wl_retry_interval limit <> 0) /\
  cfg_poll_interval cfg <> 0 /\ cfg_minimum_finality_depth_blocks cfg <> 0 /\
  cfg_trusted_anchor_block cfg <= cli_faucet_deployment_block cli.
Proof.
  unfold Config_try_from. intros Hc Hf.
  apply rbind_Ok in Hc as (kms & Hkms & Hc). apply rbind_Ok in Hc as (limit & Hlimit & Hc).
  apply rbind_Ok in Hc as (maxfee & Hmax & Hc). apply rbind_Ok in Hc as (remote & Hremote & Hc).
  do 10 (apply rbind_Ok in Hc as (? & ?%ensure_Ok & Hc)).
  do 9 (apply rbind_Ok in Hc as (? & _ & Hc)).
  injection Hc as <-. bool_prop. simpl in *. unfold forwarding_max_fee in Hf. simpl in Hf.
  split; [|split_and!; try done].
  - destruct ((destination =? STACKS_DOMAIN) || _ || _) eqn:Hdom.
    + assert (Hcases : destination = STACKS_DOMAIN \/ destination = CARDANO_DOMAIN \/ destination = MOVEMENT_DOMAIN).
      { apply orb_true_iff in Hdom as [[Hdom|Hdom]%orb_true_iff|Hdom]; bool_prop; auto. }
      assert ((FIRST_REMOTE_DOMAIN <=? destination) = true) as ->.
      { apply Z.leb_le. unfold FIRST_REMOTE_DOMAIN, STACKS_DOMAIN, CARDANO_DOMAIN, MOVEMENT_DOMAIN in *. lia. }
      split; [|done]. subst remote.
      match goal with E : bool_decide (_ = None) || _ = true |- _ => apply orb_true_iff in E as [E|E]; by bool_prop end.
    + destruct (FIRST_REMOTE_DOMAIN <=? destination); [done|]. by injection Hf as <-.
  - intros l ->. unfold limit_settings in Hlimit.
    destruct (cli_withdrawal_limit_message_prefix cli), (cli_withdrawal_limit_retry_interval cli); try done.
    simpl in Hlimit. destruct (is_blank _) eqn:Hb; [done|]. simpl in Hlimit.
    destruct (Z.eqb_spec z 0); [done|]. simpl in Hlimit. by injection Hlimit as <-.
Qed.

(** ** Burn notes *)

(** A public note is taken for a burn exactly when it is one the configured faucet can consume:
    it has the burn script, two attachments, a routing attachment that targets the faucet, a
    readable withdrawal attachment, and one fungible asset of the faucet that its storage repeats;
    the burn then carries that attachment's destination and that asset's amount, in any block. *)
Theorem burn_note_exact note creation faucet :
  ((exists c, BurnCandidate_new note creation faucet = Ok c) <->
   exists items amount, is_burn_note note faucet items amount) /\
  forall c consumption, BurnCandidate_new note creation faucet = Ok c ->
    bc_note c = note /\ bc_creation_block c = creation /\
    is_burn_note note faucet (bc_items c) (bc_amount c) /\
    DiscoveredBurn_new note creation consumption faucet = Ok (into_discovered c consumption).
Proof.
  split; [split|].
  - intros [c (_ & _ & Hb)%BurnCandidate_new_spec]. eauto.
  - intros (items & amount & Hb).
    exists {| bc_note := note; bc_creation_block := creation; bc_items := items; bc_amount := amount |}.
    by apply BurnCandidate_new_spec.
  - intros c consumption Hc. unfold DiscoveredBurn_new. rewrite Hc.
    by apply BurnCandidate_new_spec in Hc as (-> & -> & Hb).
Qed.
End config.
