(* ===== verification/Io.v ===== *)
(** Effectful methods: computations over a state that can fail with an error and keep the state they
    reached when they do, with the rules for reasoning about them. *)
From S2P Require Import Prelude.

(** A method over the state [S] that returns [A] or fails with [E]. *)
Definition io (S E A : Type) : Type := S -> result E A * S.

Definition io_ret {S E A} (a : A) : io S E A := fun s => (Ok a, s).
Definition io_err {S E A} (e : E) : io S E A := fun s => (Err e, s).
Definition io_bind {S E A B} (m : io S E A) (k : A -> io S E B) : io S E B :=
  fun s => match m s with (Ok a, s) => k a s | (Err e, s) => (Err e, s) end.
Definition io_lift {S E A} (r : result E A) : io S E A := fun s => (r, s).
Definition io_gets {S E A} (f : S -> A) : io S E A := fun s => (Ok (f s), s).
Definition io_modify {S E} (f : S -> S) : io S E unit := fun s => (Ok tt, f s).
(** The outcome as a value: the caller matches on it. *)
Definition io_try {S E F A} (m : io S E A) : io S F (result E A) :=
  fun s => let '(r, s) := m s in (Ok r, s).
Definition io_map_err {S E F A} (f : E -> F) (m : io S E A) : io S F A :=
  fun s => let '(r, s) := m s in (map_err f r, s).

Declare Scope io_scope.
Delimit Scope io_scope with io.
Notation "'let%' x ':=' e 'in' k" := (io_bind e (fun x => k))
  (at level 10, x pattern, e at level 200, k at level 200) : io_scope.
Notation "e ';%' k" := (io_bind e (fun _ => k))
  (at level 100, k at level 200, right associativity) : io_scope.

Lemma io_bind_Ok {S E A B} (m : io S E A) (k : A -> io S E B) s b s' :
  io_bind m k s = (Ok b, s') -> exists a s1, m s = (Ok a, s1) /\ k a s1 = (Ok b, s').
Proof. unfold io_bind. destruct (m s) as [[a|e] s1]; [eauto|done]. Qed.

Lemma io_bind_Err {S E A B} (m : io S E A) (k : A -> io S E B) s e s' :
  io_bind m k s = (Err e, s') ->
  m s = (Err e, s') \/ exists a s1, m s = (Ok a, s1) /\ k a s1 = (Err e, s').
Proof. unfold io_bind. destruct (m s) as [[a|e'] s1]; [eauto|]. intros [= <- <-]. auto. Qed.

(** ** Triples *)

(** From every state that satisfies [P], the outcome and the state after it satisfy [Q]. *)
Definition triple {S E A} (P : S -> Prop) (m : io S E A) (Q : result E A -> S -> Prop) : Prop :=
  forall s, P s -> Q (m s).1 (m s).2.

Section triples.
Context {S E : Type}.
Implicit Types P : S -> Prop.

Lemma triple_bind {A B} P (m : io S E A) (k : A -> io S E B) (Q : result E A -> S -> Prop) R :
  triple P m Q -> (forall a, triple (Q (Ok a)) (k a) R) -> (forall e s, Q (Err e) s -> R (Err e) s) ->
  triple P (io_bind m k) R.
Proof.
  intros Hm Hk He s Hs. specialize (Hm s Hs). unfold io_bind.
  destruct (m s) as [[a|e] s1]; simpl in *; [by apply (Hk a)|by apply He].
Qed.

(** The rule for a first step that keeps the precondition whatever it returns. *)
Lemma triple_seq {A B} P (m : io S E A) (k : A -> io S E B) R :
  triple P m (fun _ => P) -> (forall a, triple P (k a) R) -> (forall e s, P s -> R (Err e) s) ->
  triple P (io_bind m k) R.
Proof. intros Hm Hk He. by apply (triple_bind _ _ _ (fun _ => P)). Qed.

Lemma triple_conseq {A} P P' (m : io S E A) (Q Q' : result E A -> S -> Prop) :
  triple P m Q -> (forall s, P' s -> P s) -> (forall r s, Q r s -> Q' r s) -> triple P' m Q'.
Proof. intros Hm HP HQ s Hs. apply HQ, Hm, HP, Hs. Qed.

Lemma triple_ret {A} P (a : A) (Q : result E A -> S -> Prop) :
  (forall s, P s -> Q (Ok a) s) -> triple P (io_ret a) Q.
Proof. intros HQ s Hs. by apply HQ. Qed.

Lemma triple_lift {A} P (r : result E A) (Q : result E A -> S -> Prop) :
  (forall s, P s -> Q r s) -> triple P (io_lift r) Q.
Proof. intros HQ s Hs. by apply HQ. Qed.

Lemma triple_gets {A} P (f : S -> A) :
  triple P (io_gets (E := E) f) (fun r s => P s /\ r = Ok (f s)).
Proof. intros s Hs. by split. Qed.

Lemma triple_modify P (f : S -> S) (Q : S -> Prop) :
  (forall s, P s -> Q (f s)) -> triple P (io_modify (E := E) f) (fun _ => Q).
Proof. intros HQ s Hs. by apply HQ. Qed.
End triples.

(** ** What every step of a method keeps *)

Section keeps.
Context {S : Type} (R : S -> S -> Prop) `{!Reflexive R, !Transitive R}.

(** The state after the method, whatever it returns, is related to the state before. *)
Definition keeps {E A} (m : io S E A) : Prop := forall s, R s (m s).2.

Lemma keeps_ret {E A} (a : A) : keeps (E := E) (io_ret a).
Proof. intros s. reflexivity. Qed.
Lemma keeps_err {E A} (e : E) : keeps (A := A) (io_err e).
Proof. intros s. reflexivity. Qed.
Lemma keeps_lift {E A} (r : result E A) : keeps (io_lift r).
Proof. intros s. reflexivity. Qed.
Lemma keeps_gets {E A} (f : S -> A) : keeps (E := E) (io_gets f).
Proof. intros s. reflexivity. Qed.
Lemma keeps_bind {E A B} (m : io S E A) (k : A -> io S E B) :
  keeps m -> (forall a, keeps (k a)) -> keeps (io_bind m k).
Proof.
  intros Hm Hk s. unfold io_bind. specialize (Hm s). destruct (m s) as [[a|e] s1]; simpl in *; [|done].
  transitivity s1; [done|apply Hk].
Qed.
Lemma keeps_try {E F A} (m : io S E A) : keeps m -> keeps (io_try (F := F) m).
Proof. intros Hm s. unfold io_try. specialize (Hm s). by destruct (m s). Qed.
Lemma keeps_map_err {E F A} (f : E -> F) (m : io S E A) : keeps m -> keeps (io_map_err f m).
Proof. intros Hm s. unfold io_map_err. specialize (Hm s). by destruct (m s). Qed.
End keeps.

Lemma keeps_weaken {S E A} (R R' : S -> S -> Prop) (m : io S E A) :
  (forall s s', R s s' -> R' s s') -> keeps R m -> keeps R' m.
Proof. intros HR Hm s. apply HR, Hm. Qed.

Create HintDb io.
#[export] Hint Resolve keeps_ret keeps_err keeps_lift keeps_gets keeps_bind keeps_try keeps_map_err : io.
