(* ===== verification/Feed.v ===== *)
(** Circle's attestation feed, as the deposit relayer reads it (circle.rs of
    xreserve-deposit-relayer): cursors, page sizes, entries, pages and the one paginated GET. *)
From S2P Require Import Prelude Text Telemetry Foreign Wire.
From Stdlib Require Import Ascii.
Local Open Scope Z_scope.

(** Circle's opaque [pageAfter] token, and the digest naming one deposit. *)
Abbreviation CircleCursor := string.
Abbreviation MessageHash := bytes.

(** ** Errors *)

(** The parts of the Miden client's errors that the relayer looks at. *)
Inductive AddTransactionError : Type := AddExpired | AddRejected.
Inductive EndpointError : Type := AddTransaction (e : AddTransactionError) | EndpointErrorOther.
Inductive RpcEndpoint : Type := SubmitProvenTx | RpcEndpointOther.
Inductive GrpcError : Type := InvalidArgument | GrpcErrorOther.
Inductive RpcError : Type :=
| RequestError (endpoint : RpcEndpoint) (error_kind : GrpcError) (endpoint_error : option EndpointError)
| RpcErrorOther.
Inductive ClientError : Type := ClientRpc (e : RpcError) | ClientOther.

(** [anyhow::Error] in the relayer: a message, or the Miden client's error under some context. *)
Inductive RelayError : Type := RelayText (text : string) | RelayClient (e : ClientError).
Abbreviation RelayFailure := (Failure RelayError).
Definition feed_failure (kind text : string) : RelayFailure :=
  mkFailure (Transient kind) (RelayText text).

(** ** Page sizes *)

Definition PAGE_SIZE_MIN : Z := 1.
Definition LOCAL_PROVING_MAX : Z := 10.
Definition REMOTE_PROVING_MAX : Z := 40.
Definition PAGE_SIZE_MAX : Z := 1000.

Definition PageSize_try_from (value : Z) : result string Z :=
  ensure ((PAGE_SIZE_MIN <=? value) && (value <=? PAGE_SIZE_MAX))
    "page size must be between 1 and 1000" ;?
  Ok value.

Definition PageSize_from_str (value : string) : result string Z :=
  let? value := ok_or (parse_unsigned u16_max value) "the page size is not a number"%string in
  PageSize_try_from value.

(** ** Entries *)

(** Wire hex with an optional [0x]. *)
Definition strip_0x (l : list ascii) : list ascii :=
  match l with "0"%char :: "x"%char :: l => l | l => l end.
Definition hex_bytes (v : Value) : option bytes :=
  text ← as_str v; hex_decode (strip_0x (str_list text)).
Definition hex_array (n : nat) (v : Value) : option bytes :=
  b ← hex_bytes v; if Nat.eqb (length b) n then Some b else None.

Definition MESSAGE_HASH_BYTES : nat := 32.
Definition SIGNATURE_BYTES : nat := 65.
Definition MessageHash_deserialize : Value -> option MessageHash := hex_array MESSAGE_HASH_BYTES.
(** [Display] and [Serialize]. *)
Definition MessageHash_serialize (h : MessageHash) : Value := VString (to_hex h).

Record Attestation := {
  att_payload : bytes;
  att_message_hash : MessageHash;
  att_signature : bytes;
}.
#[export] Instance Attestation_eq_dec : EqDecision Attestation.
Proof. solve_decision. Defined.

(** How serde's derived code finds the fields of a struct: by name in an object, each at most once,
    or by position in an array of exactly that length. [Some None] is a missing field. *)
Definition field_of (m : list (string * Value)) (key : string) : option (option Value) :=
  match List.filter (fun kv => bool_decide (kv.1 = key)) m with
  | [] => Some None
  | [kv] => Some (Some kv.2)
  | _ => None
  end.
Definition struct_fields (keys : list string) (v : Value) : option (list (option Value)) :=
  match v with
  | VObject m => mapM (field_of m) keys
  | VArray l => if Nat.eqb (length l) (length keys) then Some (Some <$> l) else None
  | _ => None
  end.

Definition Attestation_deserialize (v : Value) : option Attestation :=
  match struct_fields ["payload"; "messageHash"; "attestation"]%string v with
  | Some [Some payload; Some hash; Some signature] =>
      payload ← hex_bytes payload;
      hash ← MessageHash_deserialize hash;
      signature ← hex_array SIGNATURE_BYTES signature;
      Some {| att_payload := payload; att_message_hash := hash; att_signature := signature |}
  | _ => None
  end.

(** One entry of a page, in the place Circle served it. *)
Inductive Entry : Type :=
| EntryAttestation (a : Attestation)
| Undecodable (position : Z) (hash : option MessageHash) (reason : string).
#[export] Instance Entry_eq_dec : EqDecision Entry.
Proof. solve_decision. Defined.

Definition message_hash (e : Entry) : option MessageHash :=
  match e with
  | EntryAttestation a => Some (att_message_hash a)
  | Undecodable _ hash _ => hash
  end.

(** serde_json, the [Link] header parser, and the parts of [Url] the page's address needs. *)
Class FeedLib := {
  (** The [attestations] of a list response. *)
  json_list_response : bytes -> option (list Value);
  (** serde_json's message for an element that is not an attestation. *)
  attestation_error : Value -> string;
  json_compact : Value -> string;
  (** The relations of a [Link] header, each with the decoded query pairs of its URI. *)
  parse_with_rel : string -> option (list (string * list (string * string)));
  feed_url_path : Url -> string;
  (** [set_path] with [set_query(None)] and [set_fragment(None)], and [append_pair]. *)
  feed_url_at : Url -> string -> Url;
  feed_url_append : Url -> string -> string -> Url;
}.

Definition MAX_REPORTED_HASH_CHARS : nat := 80.

Section feed.
Context `{FeedLib}.

Definition undecodable_reason (value : Value) (hash : option MessageHash) : string :=
  match hash, value_get value "messageHash" with
  | None, Some sent =>
      (attestation_error value +:+ " (its messageHash is "
       +:+ take_chars MAX_REPORTED_HASH_CHARS (json_compact sent) +:+ ")")%string
  | _, _ => attestation_error value
  end.

Definition Entry_decode (position : Z) (value : Value) : Entry :=
  match Attestation_deserialize value with
  | Some attestation => EntryAttestation attestation
  | None =>
      let hash := value_get value "messageHash" ≫= MessageHash_deserialize in
      Undecodable position hash (undecodable_reason value hash)
  end.

(** ** Pages *)

Record Page := { page_entries : list Entry; page_next : option CircleCursor }.

Definition MAX_RESPONSE_BYTES : Z := 8388608.

Definition parse_next_link (header : string) : result string (option string) :=
  let? links := ok_or (parse_with_rel header) "parsing the circle Link header"%string in
  match List.find (fun link => bool_decide (link.1 = "next"%string)) links with
  | None => Ok None
  | Some next =>
      match List.find (fun pair => bool_decide (pair.1 = "pageAfter"%string)) next.2 with
      | Some (_, token) =>
          ensure (negb (bool_decide (token = ""%string)))
            "the circle Link header's next relation carries no pageAfter token" ;?
          Ok (Some token)
      | None => Err "the circle Link header's next relation carries no pageAfter token"%string
      end
  end.

Fixpoint decode_entries (position : Z) (values : list Value) : list Entry :=
  match values with
  | [] => []
  | value :: values => Entry_decode position value :: decode_entries (position + 1) values
  end.

Definition Page_decode (body : bytes) (link : option string) : result string Page :=
  let? values :=
    ok_or (json_list_response body) "decoding the circle attestation page"%string in
  let? next := match link with None => Ok None | Some header => parse_next_link header end in
  Ok {| page_entries := decode_entries 1 values; page_next := next |}.

(** ** The client *)

Record CircleClient := { cc_base_url : Url; cc_page_size : Z }.

(** [builds]: the HTTP client can be constructed. *)
Definition CircleClient_new (base_url : Url) (page_size request_timeout : Z) (builds : bool)
    : result string CircleClient :=
  ensure (negb (request_timeout =? 0)) "request timeout must be greater than zero" ;?
  ensure builds "building the circle http client" ;?
  Ok {| cc_base_url := base_url; cc_page_size := page_size |}.

(** Whether the size changed, and the client that asks for smaller pages. *)
Definition limit_to_local_proving (client : CircleClient) : bool * CircleClient :=
  let smaller := Z.min (cc_page_size client) LOCAL_PROVING_MAX in
  (negb (smaller =? cc_page_size client),
   {| cc_base_url := cc_base_url client; cc_page_size := smaller |}).

Definition trim_end_slashes (s : string) : string :=
  let fix trim (l : list ascii) : list ascii :=
    match l with "/"%char :: l => trim l | l => l end in
  list_str (rev (trim (rev (str_list s)))).

Definition page_url (client : CircleClient) (remote_domain : Z) (cursor : option CircleCursor)
    : Url :=
  let base := cc_base_url client in
  let path :=
    (trim_end_slashes (feed_url_path base) +:+ "/v1/remote-domains/"
     +:+ list_str (to_decimal remote_domain) +:+ "/attestations")%string in
  let url := feed_url_append (feed_url_at base path) "pageSize"
               (list_str (to_decimal (cc_page_size client))) in
  match cursor with None => url | Some cursor => feed_url_append url "pageAfter" cursor end.

(** What a GET comes to: the status, the [Link] header ([Some None] is one that is not text) and
    the chunks of the body, where [None] is a chunk that fails to arrive. *)
Inductive FeedReply : Type :=
| FeedUnanswered
| FeedAnswered (status : Z) (link : option (option string)) (chunks : list (option bytes)).

Fixpoint read_page_body (body : bytes) (chunks : list (option bytes)) : result RelayFailure bytes :=
  match chunks with
  | [] => Ok body
  | None :: _ => Err (feed_failure "circle_unavailable" "reading the circle response")
  | Some chunk :: chunks =>
      if MAX_RESPONSE_BYTES <? Z.of_nat (length (body ++ chunk))
      then Err (feed_failure "invalid_response" "the circle response exceeded the 8388608-byte ceiling")
      else read_page_body (body ++ chunk) chunks
  end.

Definition is_success (status : Z) : bool := (200 <=? status) && (status <=? 299).

(** [fetch_page], from the answer to its GET of [page_url]. *)
Definition read_page (client : CircleClient) (reply : FeedReply) : result RelayFailure Page :=
  match reply with
  | FeedUnanswered => Err (feed_failure "circle_unavailable" "the circle request failed")
  | FeedAnswered status link chunks =>
      ensure (is_success status)
        (feed_failure (if status =? TOO_MANY_REQUESTS then "rate_limited" else "unexpected_status")
           "circle answered the attestation page with an error status") ;?
      let? link :=
        match link with
        | None => Ok None
        | Some (Some header) => Ok (Some header)
        | Some None => Err (feed_failure "invalid_response" "decoding the circle Link header")
        end in
      let? body := read_page_body [] chunks in
      let? page := map_err (feed_failure "invalid_response") (Page_decode body link) in
      ensure (Z.of_nat (length (page_entries page)) <=? cc_page_size client)
        (feed_failure "invalid_response" "circle returned more than the requested deposits") ;?
      Ok page
  end.
End feed.

(** ** Facts *)

Lemma read_page_size `{FeedLib} client reply page :
  read_page client reply = Ok page -> Z.of_nat (length (page_entries page)) <= cc_page_size client.
Proof.
  unfold read_page. destruct reply as [|status link chunks]; [done|]. intros. inv_ok. bool_prop. by subst.
Qed.

Lemma limit_to_local_size client :
  cc_page_size (limit_to_local_proving client).2 <= cc_page_size client /\
  cc_page_size (limit_to_local_proving client).2 <= LOCAL_PROVING_MAX.
Proof. simpl. lia. Qed.

(** What is written for a hash reads back as it. *)
Lemma MessageHash_roundtrip h :
  Forall is_byte h -> length h = MESSAGE_HASH_BYTES ->
  MessageHash_deserialize (MessageHash_serialize h) = Some h.
Proof.
  intros Hb Hl. unfold MessageHash_deserialize, hex_array, hex_bytes, MessageHash_serialize, to_hex.
  cbn [as_str mbind option_bind]. rewrite str_list_str. cbn [strip_0x].
  rewrite hex_decode_chars by done. simpl. by rewrite Hl, Nat.eqb_refl.
Qed.
