(* ===== verification/Mint.v ===== *)
(** The deposit relayer's smaller parts (mint.rs, config.rs, store.rs and unminted.rs of
    xreserve-deposit-relayer): the attester key, building a page's mint notes, the configuration's
    limits, the saved progress, and the deposits still waiting for the faucet. *)
From S2P Require Import Prelude Text Telemetry Foreign Wire Feed.
Local Open Scope Z_scope.

Abbreviation DepositNonce := bytes.

(** ** mint.rs *)

(** miden-usdcx and miden-protocol, as far as the relayer builds notes with them. *)
Class MintLib := {
  PublicKey : Type;
  DepositIntent : Type;
  MintNote : Type;
  MidenNote : Type;
  MidenNote_eq_dec :: EqDecision MidenNote;
  Rng : Type;
  public_key_read : bytes -> option PublicKey;
  public_key_commitment : PublicKey -> Word;
  deposit_intent : bytes -> option DepositIntent;
  (** [RandomCoin]'s next serial number. *)
  draw_serial : Rng -> Word * Rng;
  (** [XUsdcMintNote::builder()..build()] from sender, target, domain, intent, signature, attester
      key and serial number. *)
  mint_note : AccountId -> AccountId -> Z -> DepositIntent -> bytes -> PublicKey -> Word ->
              option MintNote;
  mint_nonce : MintNote -> DepositNonce;
  note_of_mint : MintNote -> MidenNote;
}.

Section mint.
Context `{MintLib}.

Definition COMPRESSED_LEN : nat := 33.

Definition AttesterPublicKey_from_str (value : string) : result string PublicKey :=
  let? b := ok_or (hex_decode (strip_0x (str_list value))) "the attester public key is not hex"%string in
  ensure (Nat.eqb (length b) COMPRESSED_LEN) "the attester public key is not 33 bytes" ;?
  ok_or (public_key_read b) "the attester public key is not a curve point"%string.

Definition to_storage_map_key (key : PublicKey) : Word := public_key_commitment key.

Record Minter := {
  mt_mint_account : AccountId;
  mt_usdcx_faucet : AccountId;
  mt_attester : PublicKey;
  mt_remote_domain : Z;
  mt_rng : Rng;
}.
Definition set_rng (rng : Rng) (m : Minter) : Minter :=
  {| mt_mint_account := mt_mint_account m; mt_usdcx_faucet := mt_usdcx_faucet m;
     mt_attester := mt_attester m; mt_remote_domain := mt_remote_domain m; mt_rng := rng |}.

(** The serial number is drawn once the payload has decoded. *)
Definition build_note (m : Minter) (a : Attestation) : option MintNote * Minter :=
  match deposit_intent (att_payload a) with
  | None => (None, m)
  | Some intent =>
      let '(serial, rng) := draw_serial (mt_rng m) in
      (mint_note (mt_mint_account m) (mt_usdcx_faucet m) (mt_remote_domain m) intent
         (att_signature a) (mt_attester m) serial,
       set_rng rng m)
  end.

Definition build_entry (m : Minter) (e : Entry) : option MintNote * Minter :=
  match e with
  | EntryAttestation a => build_note m a
  | Undecodable _ _ _ => (None, m)
  end.

Record BuiltNotes := { bn_notes : list MintNote; bn_skipped : list (option MessageHash) }.

Fixpoint build_notes (m : Minter) (entries : list Entry) : BuiltNotes * Minter :=
  match entries with
  | [] => ({| bn_notes := []; bn_skipped := [] |}, m)
  | e :: entries =>
      let '(note, m) := build_entry m e in
      let '(built, m) := build_notes m entries in
      (match note with
       | Some note => {| bn_notes := note :: bn_notes built; bn_skipped := bn_skipped built |}
       | None => {| bn_notes := bn_notes built; bn_skipped := message_hash e :: bn_skipped built |}
       end, m)
  end.
End mint.

(** ** config.rs *)

Section config.
Context `{MintLib}.

Record Config := {
  rc_circle_url : Url;
  rc_page_size : Z;
  rc_request_timeout : Z;
  rc_poll_interval : Z;
  rc_remote_domain : Z;
  rc_miden_node_url : Url;
  rc_prover_url : option Url;
  rc_prover_timeout : Z;
  rc_expiration_delta : Z;
  rc_faucet_account_id : AccountId;
  rc_relayer_account_id : AccountId;
  rc_attester_public_key : PublicKey;
}.

Definition effective_page_size (config : Config) : Z :=
  Z.min (rc_page_size config)
    (match rc_prover_url config with Some _ => REMOTE_PROVING_MAX | None => LOCAL_PROVING_MAX end).

Context `{WebLib}.

Definition validate_prover_url (url : Url) : result string unit :=
  ensure ((bool_decide (url_scheme url = "http"%string) || bool_decide (url_scheme url = "https"%string))
          && url_has_host url) "prover URL must be an HTTP(S) endpoint".
Definition parse_prover_url (value : string) : result string Url :=
  let? url := ok_or (url_parse value) "prover URL is invalid"%string in
  validate_prover_url url ;? Ok url.
Definition validate_prover_timeout (timeout : Z) : result string unit :=
  ensure (negb (timeout =? 0)) "prover timeout must be greater than zero".
(** [parsed]: what [humantime::parse_duration] reads. *)
Definition parse_prover_timeout (parsed : option Z) : result string Z :=
  let? timeout := ok_or parsed "invalid duration"%string in
  validate_prover_timeout timeout ;? Ok timeout.
Definition validate_prover (config : Config) : result string unit :=
  match rc_prover_url config with Some url => validate_prover_url url | None => Ok tt end ;?
  validate_prover_timeout (rc_prover_timeout config).

Definition Minter_from_config (config : Config) (rng : Rng) : Minter :=
  {| mt_mint_account := rc_relayer_account_id config;
     mt_usdcx_faucet := rc_faucet_account_id config;
     mt_attester := rc_attester_public_key config;
     mt_remote_domain := rc_remote_domain config;
     mt_rng := rng |}.
End config.

(** ** store.rs *)

Record ScanProgress := { sp_head : MessageHash; sp_resume : CircleCursor }.
Record State := { st_watermark : option MessageHash; st_scan : option ScanProgress }.
#[export] Instance ScanProgress_eq_dec : EqDecision ScanProgress.
Proof. solve_decision. Defined.
#[export] Instance State_eq_dec : EqDecision State.
Proof. solve_decision. Defined.
Definition State_default : State := {| st_watermark := None; st_scan := None |}.

Definition ScanProgress_serialize (p : ScanProgress) : Value :=
  VObject [("head"%string, MessageHash_serialize (sp_head p)); ("resume"%string, VString (sp_resume p))].
Definition State_serialize (st : State) : Value :=
  VObject
    (("watermark"%string,
      match st_watermark st with Some h => MessageHash_serialize h | None => VNull end)
     :: match st_scan st with
        | Some p => [("scan"%string, ScanProgress_serialize p)]
        | None => []
        end).

(** An optional field: missing, null or a value. *)
Definition optional {A} (read : Value -> option A) (field : option Value) : option (option A) :=
  match field with
  | None | Some VNull => Some None
  | Some v => Some <$> read v
  end.
Definition ScanProgress_deserialize (v : Value) : option ScanProgress :=
  match struct_fields ["head"; "resume"]%string v with
  | Some [Some head; Some resume] =>
      head ← MessageHash_deserialize head;
      resume ← as_str resume;
      Some {| sp_head := head; sp_resume := resume |}
  | _ => None
  end.
Definition State_deserialize (v : Value) : option State :=
  match struct_fields ["watermark"; "scan"]%string v with
  | Some [watermark; scan] =>
      watermark ← optional MessageHash_deserialize watermark;
      scan ← optional ScanProgress_deserialize scan;
      Some {| st_watermark := watermark; st_scan := scan |}
  | _ => None
  end.

(** serde_json's reader, which keeps repeated members of an object, and its pretty writer. *)
Class StateJson := {
  json_raw : string -> option Value;
  json_pretty : Value -> string;
}.
(** What the writer wrote reads back, and is not blank. *)
Class StateJsonLaws `{StateJson} : Prop := {
  json_raw_pretty v : json_raw (json_pretty v) = Some v;
  json_pretty_text v : is_blank (json_pretty v) = false;
}.

(** The progress file: missing, not UTF-8, or text. *)
Inductive StateFile : Type := NoFile | NotText | FileText (text : string).

Section store.
Context `{StateJson}.

(** [Store::state], of a file that can be read. *)
Definition read_state (file : StateFile) : result string State :=
  match file with
  | NoFile => Ok State_default
  | NotText => Err "reading the state"%string
  | FileText text =>
      if is_blank text then Ok State_default
      else ok_or (v ← json_raw text; State_deserialize v) "reading the state"%string
  end.
(** What [Store::set_state] leaves behind when it succeeds. *)
Definition written_state (st : State) : StateFile := FileText (json_pretty (State_serialize st)).
End store.

(** ** unminted.rs *)

(** Deposits on chain and not minted yet, oldest first, with the time they landed. *)
Abbreviation Unminted := (list (DepositNonce * Z)).

Definition unminted_nonces (u : Unminted) : list DepositNonce := fst <$> u.
Fixpoint submitted (nonces : list DepositNonce) (at_ : Z) (u : Unminted) : Unminted :=
  match nonces with
  | [] => u
  | nonce :: nonces =>
      submitted nonces at_
        (if bool_decide (nonce ∈ unminted_nonces u) then u else u ++ [(nonce, at_)])
  end.
Definition retain (unminted : list DepositNonce) (u : Unminted) : Unminted :=
  List.filter (fun d => bool_decide (d.1 ∈ unminted)) u.
Definition unminted_count (u : Unminted) : nat := length u.
Definition oldest_age (now : Z) (u : Unminted) : Z :=
  match u with [] => 0 | d :: _ => saturating_sub now d.2 end.

(** ** Facts *)

Lemma hex_decode_bytes l b : hex_decode l = Some b -> Forall is_byte b.
Proof.
  assert (Hd : forall a d, hex_digit_value a = Some d -> 0 <= d < 16).
  { intros a d. unfold hex_digit_value. pose proof (code_range a).
    destruct (Z.leb_spec 48 (code a)), (Z.leb_spec (code a) 57), (Z.leb_spec 97 (code a)),
      (Z.leb_spec (code a) 102), (Z.leb_spec 65 (code a)), (Z.leb_spec (code a) 70);
      simpl; intros; simplify_eq; lia. }
  revert b; induction l as [l IH] using (induction_ltof1 _ length); intros b.
  destruct l as [|h [|d l]]; simpl; [intros [= <-]; constructor|done|].
  destruct (hex_digit_value h) as [x|] eqn:Hx; simpl; [|done].
  destruct (hex_digit_value d) as [y|] eqn:Hy; simpl; [|done].
  destruct (hex_decode l) as [b'|] eqn:Hb; simpl; [|done]. intros [= <-].
  constructor; [|apply (IH l); [unfold ltof; simpl; lia|done]].
  apply Hd in Hx, Hy. unfold is_byte. lia.
Qed.

(** A hash that was read is 32 bytes. *)
Definition hash_ok (h : MessageHash) : Prop := Forall is_byte h /\ length h = MESSAGE_HASH_BYTES.

Lemma MessageHash_read v h : MessageHash_deserialize v = Some h -> hash_ok h.
Proof.
  unfold MessageHash_deserialize, hex_array, hex_bytes.
  destruct (as_str v); simpl; [|done]. destruct (hex_decode _) as [b|] eqn:Hb; simpl; [|done].
  destruct (Nat.eqb_spec (length b) MESSAGE_HASH_BYTES); [|done]. intros [= <-].
  split; [by eapply hex_decode_bytes|done].
Qed.

Definition state_ok (st : State) : Prop :=
  (forall h, st_watermark st = Some h -> hash_ok h) /\
  (forall p, st_scan st = Some p -> hash_ok (sp_head p)).

Lemma ScanProgress_roundtrip p :
  hash_ok (sp_head p) -> ScanProgress_deserialize (ScanProgress_serialize p) = Some p.
Proof.
  intros [Hb Hl]. destruct p as [h r].
  change (ScanProgress_deserialize _)
    with (head ← MessageHash_deserialize (MessageHash_serialize h);
          Some {| sp_head := head; sp_resume := r |}).
  by rewrite MessageHash_roundtrip.
Qed.

Lemma state_fields w p :
  struct_fields ["watermark"; "scan"]%string (VObject [("watermark"%string, w); ("scan"%string, p)])
  = Some [Some w; Some p].
Proof. reflexivity. Qed.
Lemma state_fields_done w :
  struct_fields ["watermark"; "scan"]%string (VObject [("watermark"%string, w)]) = Some [Some w; None].
Proof. reflexivity. Qed.

(** What is saved reads back as it. *)
Lemma read_written_state `{!StateJson, !StateJsonLaws} st :
  state_ok st -> read_state (written_state st) = Ok st.
Proof.
  intros [Hw Hp]. unfold read_state, written_state. rewrite json_pretty_text, json_raw_pretty.
  cbn [mbind option_bind].
  assert (Hwm : optional MessageHash_deserialize
      (Some match st_watermark st with Some h => MessageHash_serialize h | None => VNull end)
      = Some (st_watermark st)).
  { destruct (st_watermark st) as [h|]; [|done].
    change (Some <$> MessageHash_deserialize (MessageHash_serialize h) = Some (Some h)).
    by rewrite MessageHash_roundtrip by apply (Hw _ eq_refl). }
  assert (Hsc : optional ScanProgress_deserialize
      (match st_scan st with Some p => Some (ScanProgress_serialize p) | None => None end)
      = Some (st_scan st)).
  { destruct (st_scan st) as [p|]; [|done].
    change (Some <$> ScanProgress_deserialize (ScanProgress_serialize p) = Some (Some p)).
    by rewrite ScanProgress_roundtrip by apply (Hp _ eq_refl). }
  unfold State_deserialize, State_serialize. destruct st as [w [p|]]; simpl st_watermark in *;
    simpl st_scan in *; cbv beta iota in Hsc |- *; rewrite ?state_fields, ?state_fields_done;
    cbv beta iota;
    rewrite Hwm; cbn [mbind option_bind];
    by rewrite Hsc.
Qed.
