(* ===== verification/MidenNode.v ===== *)
(** The deposit relayer's Miden client (miden.rs and prover.rs of xreserve-deposit-relayer): which
    deposits the faucet has minted, submitting a page as one transaction, and the wait for its
    inclusion. The Miden client library and its node are parameters. *)
From S2P Require Import Prelude Text Telemetry Foreign Wire Feed Mint Io.
Local Open Scope Z_scope.
Local Open Scope io_scope.

Abbreviation TransactionId := bytes.

(** [INCLUSION_POLL_INTERVAL] in nanoseconds. *)
Definition INCLUSION_POLL_INTERVAL : Z := 1000000000.
Definition FAILED_SYNCS_BEFORE_GIVING_UP : Z := 3.
Definition EMPTY_WORD : Word := repeat 0 32.

(** ** Expiration *)

Definition ExpirationDelta_try_from (value : Z) : result string Z :=
  ensure (negb (value =? 0)) "the expiration delta must be at least 1 block, got 0" ;? Ok value.
Definition ExpirationDelta_from_str (value : string) : result string Z :=
  let? value :=
    ok_or (parse_unsigned u16_max value) "the expiration delta is not a number of blocks"%string in
  ExpirationDelta_try_from value.

(** ** Classes of client errors *)

Definition client_class (error : ClientError) (kind : string) : FailureClass :=
  match error with ClientRpc _ => Transient kind | ClientOther => Actionable kind end.
Definition client_failure (kind : string) (error : ClientError) : RelayFailure :=
  mkFailure (client_class error kind) (RelayClient error).
Definition store_failure (text : string) : RelayFailure :=
  mkFailure (Actionable "client_store") (RelayText text).

(** The node's explicit rejection of an expired transaction. *)
Definition is_expired_submission (error : RelayError) : bool :=
  match error with
  | RelayClient (ClientRpc (RequestError SubmitProvenTx InvalidArgument
      (Some (AddTransaction AddExpired)))) => true
  | _ => false
  end.

Definition retry_sync (failure : RelayFailure) (failed_syncs : Z) : bool :=
  match failure_class failure with
  | Transient _ => failed_syncs <? FAILED_SYNCS_BEFORE_GIVING_UP
  | _ => false
  end.

(** ** Inclusion *)

Inductive TransactionStatus : Type :=
| Committed (block_number : BlockNumber)
| Discarded
| Pending.
Record TransactionRecord := { tr_status : TransactionStatus; tr_expiration_block : BlockNumber }.

Inductive Inclusion : Type := Included (block : BlockNumber) | Waiting.

Definition inclusion (status : TransactionStatus) (chain_tip expiration_block : BlockNumber)
    : result RelayFailure Inclusion :=
  match status with
  | Committed block => Ok (Included block)
  | Discarded => Err (feed_failure "transaction_discarded" "the node discarded it")
  | Pending =>
      if expiration_block <=? chain_tip
      then Err (feed_failure "transaction_expired" "it expired")
      else Ok Waiting
  end.

(** ** The client library *)

(** miden-client over a node: each call may fail, and takes the client and the chain to a new
    state. *)
Class NodeLib `{MintLib} (V : Type) := {
  TransactionRequest : Type;
  used_nonces_slot : string;
  xreserve_attesters_slot : string;
  nonce_map_key : DepositNonce -> Word;
  (** The data directory, the keystore and the client are opened. *)
  node_open : Config -> V -> result string unit * V;
  node_sync : V -> result ClientError unit * V;
  node_knows_account : AccountId -> V -> result ClientError bool * V;
  node_import_account : AccountId -> V -> result ClientError unit * V;
  node_watch_account : AccountId -> V -> result ClientError unit * V;
  (** A storage map item of a watched account, from the local store. *)
  node_map_item : AccountId -> string -> Word -> V -> result ClientError Word * V;
  node_build_request : list MidenNote -> Z -> option TransactionRequest;
  node_submit : AccountId -> TransactionRequest -> V -> result ClientError TransactionId * V;
  (** The records of one transaction, and the height the client has synced to. *)
  node_transactions : TransactionId -> V -> result ClientError (list TransactionRecord) * V;
  node_sync_height : V -> result ClientError BlockNumber * V;
  node_sleep : Z -> V -> V;
}.

Section node.
Context `{MintLib, WebLib, MidenLib} {V : Type} `{!NodeLib V}.

Record NodeClient := {
  nc_relayer : AccountId;
  nc_faucet : AccountId;
  nc_expiration_delta : Z;
}.

(** The classified call of a client method. *)
Definition node_call {A} (kind : string) (f : V -> result ClientError A * V) : io V RelayFailure A :=
  io_map_err (client_failure kind) f.
Definition store_call {A} (text : string) (f : V -> result ClientError A * V) : io V RelayFailure A :=
  io_map_err (fun _ => store_failure text) f.

(** The faucet's used-nonce entries, read one by one. *)
Fixpoint read_unminted (client : NodeClient) (nonces : list DepositNonce)
    : io V RelayFailure (list DepositNonce) :=
  match nonces with
  | [] => io_ret []
  | nonce :: nonces =>
      let% value := store_call "reading the used nonces of the faucet"
        (node_map_item (nc_faucet client) used_nonces_slot (nonce_map_key nonce)) in
      let% rest := read_unminted client nonces in
      io_ret (if bool_decide (value = EMPTY_WORD) then nonce :: rest else rest)
  end.

Definition retain_unminted (client : NodeClient) (nonces : list DepositNonce)
    : io V RelayFailure (list DepositNonce) :=
  match nonces with
  | [] => io_ret []
  | _ => node_call "node_sync" node_sync ;% read_unminted client nonces
  end.

(** One round of the wait: a sync, and, if it succeeds, the transaction's record and the height.
    [None] is a failed sync that is tried again. *)
Definition poll_inclusion (tx : TransactionId) (failed_syncs : Z)
    : io V RelayFailure (option Inclusion) :=
  let% synced := io_try (node_call "node_sync" node_sync) in
  match synced with
  | Err failure =>
      if retry_sync failure (failed_syncs + 1) then io_ret None else io_err failure
  | Ok _ =>
      let% records := store_call "reading the mint transaction's status" (node_transactions tx) in
      let% record := io_lift (ok_or (last records) (store_failure "the client stopped tracking the transaction")) in
      let% chain_tip := store_call "reading how far the chain has been synced" node_sync_height in
      let% inclusion := io_lift (inclusion (tr_status record) chain_tip (tr_expiration_block record)) in
      io_ret (Some inclusion)
  end.

(** The wait, for at most [fuel] rounds; [None] is a wait that is still going. *)
Fixpoint wait_included (fuel : nat) (tx : TransactionId) (failed_syncs : Z)
    : io V RelayFailure (option BlockNumber) :=
  match fuel with
  | O => io_ret None
  | S fuel =>
      let% polled := poll_inclusion tx failed_syncs in
      match polled with
      | Some (Included block) => io_ret (Some block)
      | Some Waiting =>
          io_modify (node_sleep INCLUSION_POLL_INTERVAL) ;% wait_included fuel tx 0
      | None =>
          io_modify (node_sleep INCLUSION_POLL_INTERVAL) ;%
          wait_included fuel tx (failed_syncs + 1)
      end
  end.

Definition submit_notes (fuel : nat) (client : NodeClient) (notes : list MidenNote)
    : io V RelayFailure (option TransactionId) :=
  let% request := io_lift (ok_or (node_build_request notes (nc_expiration_delta client))
    (mkFailure (Actionable "transaction_request") (RelayText "building the mint transaction"))) in
  node_call "node_sync" node_sync ;%
  let% transaction := node_call "transaction_submit" (node_submit (nc_relayer client) request) in
  let% block := wait_included fuel transaction 0 in
  io_ret (match block with Some _ => Some transaction | None => None end).

(** Startup: the node is reachable, knows the relayer's account and the faucet, and the faucet has
    enabled the configured attester key. *)
Definition NodeClient_new (config : Config) : io V RelayError NodeClient :=
  let text {A} (context : string) (f : V -> result ClientError A * V) : io V RelayError A :=
    io_map_err RelayClient f in
  io_lift (map_err RelayText (validate_prover config)) ;%
  io_lift (ok_or (endpoint_try_from (rc_miden_node_url config))
             (RelayText "the miden node url is not an endpoint")) ;%
  io_map_err RelayText (node_open config) ;%
  text "the first sync with the miden node"%string node_sync ;%
  let relayer := rc_relayer_account_id config in
  let faucet := rc_faucet_account_id config in
  let% known := text "reading the relayer account"%string (node_knows_account relayer) in
  (if known : bool then io_ret tt
   else text "the node does not know the relayer account"%string (node_import_account relayer)) ;%
  let% watched := text "reading the faucet"%string (node_knows_account faucet) in
  (if watched : bool then io_ret tt else text "watching the faucet"%string (node_watch_account faucet)) ;%
  let% attester := text "reading the attesters of the faucet"%string
    (node_map_item faucet xreserve_attesters_slot
       (to_storage_map_key (rc_attester_public_key config))) in
  io_lift (ensure (negb (bool_decide (attester = EMPTY_WORD)))
             (RelayText "the attester public key is not enabled on the faucet")) ;%
  io_ret {| nc_relayer := relayer; nc_faucet := faucet;
            nc_expiration_delta := rc_expiration_delta config |}.
End node.

(** ** Proving (prover.rs) *)

(** [remote_prove] is what the remote prover answers within the timeout. *)
Class ProverLib := {
  TransactionInputs : Type;
  ProvenTransaction : Type;
  remote_prove : TransactionInputs -> option ProvenTransaction;
  verify_proof : ProvenTransaction -> bool;
  local_prove : TransactionInputs -> option ProvenTransaction;
}.
Definition prove `{ProverLib} (inputs : TransactionInputs) : option ProvenTransaction :=
  match remote_prove inputs with
  | Some proof => if verify_proof proof then Some proof else local_prove inputs
  | None => local_prove inputs
  end.

(** ** What the client promises *)

Section facts.
Context `{MintLib, WebLib, MidenLib} {V : Type} `{!NodeLib V}.

(** A read keeps each nonce at most once per occurrence, in order. *)
Lemma read_unminted_sublist client nonces v kept v' :
  read_unminted client nonces v = (Ok kept, v') -> kept `sublist_of` nonces.
Proof.
  revert v kept v'; induction nonces as [|n nonces IH]; intros v kept v'; simpl.
  { intros [= <- _]. constructor. }
  intros (value & v1 & _ & (rest & v2 & Hr & Hk)%io_bind_Ok)%io_bind_Ok.
  apply IH in Hr. injection Hk as <- _. case_bool_decide; by constructor.
Qed.

Lemma retain_unminted_sublist client nonces v kept v' :
  retain_unminted client nonces v = (Ok kept, v') -> kept `sublist_of` nonces.
Proof.
  destruct nonces as [|n nonces]; [by intros [= <- _]|].
  intros (u & v1 & _ & Hr)%io_bind_Ok. by eapply read_unminted_sublist.
Qed.
End facts.
