(* ===== verification/Relayer.v ===== *)
(** The deposit relayer's loop (lib.rs of xreserve-deposit-relayer): pages, scans and runs, over the
    feed, the Miden client, the progress file and the clock. *)
From S2P Require Import Prelude Text Telemetry Foreign Wire Feed Mint Io MidenNode.
Local Open Scope Z_scope.
Local Open Scope io_scope.

(** ** The outside world *)

(** The trait [MidenClient]. A call that never returns is a run that stops in it. *)
Class MidenClient `{MintLib} (W : Type) := {
  mc_retain_unminted : list DepositNonce -> io W RelayFailure (list DepositNonce);
  mc_submit_notes : list MidenNote -> io W RelayFailure TransactionId;
}.
(** Circle's answer to a GET; whether the progress file can be read and replaced; [Instant::now];
    the shutdown token, and whether it is cancelled during a pause. *)
Class RelayWorld (W : Type) := {
  feed_get : Url -> W -> FeedReply * W;
  fs_reads : W -> bool * W;
  fs_replaces : W -> bool * W;
  instant_now : W -> Z * W;
  relay_cancelled : W -> bool * W;
  relay_pause : Z -> W -> bool * W;
}.

(** What the relayer did, newest first: the nonces it asked the faucet's map about and those the
    answer kept, the notes it got on chain, the progress it saved, and what a page's span says of
    the deposits still waiting. *)
Inductive RelayAction `{MintLib} : Type :=
| Checked (asked unminted : list DepositNonce)
| OnChain (notes : list MidenNote) (transaction : TransactionId)
| SavedProgress (st : State)
| Reported (unminted : nat) (oldest_age : Z).

Record Relayer `{MintLib} (W : Type) := {
  rl_config : Config;
  rl_circle : CircleClient;
  rl_file : StateFile;
  rl_minter : Minter;
  rl_unminted : Unminted;
  rl_world : W;
  rl_trace : list RelayAction;
}.
Arguments rl_config {_ W} _.
Arguments rl_circle {_ W} _.
Arguments rl_file {_ W} _.
Arguments rl_minter {_ W} _.
Arguments rl_unminted {_ W} _.
Arguments rl_world {_ W} _.
Arguments rl_trace {_ W} _.

Section setters.
Context `{MintLib} {W : Type}.
Implicit Types r : Relayer W.

Definition put_circle (c : CircleClient) r : Relayer W :=
  {| rl_config := rl_config r; rl_circle := c; rl_file := rl_file r; rl_minter := rl_minter r;
     rl_unminted := rl_unminted r; rl_world := rl_world r; rl_trace := rl_trace r |}.
Definition put_file (f : StateFile) r : Relayer W :=
  {| rl_config := rl_config r; rl_circle := rl_circle r; rl_file := f; rl_minter := rl_minter r;
     rl_unminted := rl_unminted r; rl_world := rl_world r; rl_trace := rl_trace r |}.
Definition put_minter (m : Minter) r : Relayer W :=
  {| rl_config := rl_config r; rl_circle := rl_circle r; rl_file := rl_file r; rl_minter := m;
     rl_unminted := rl_unminted r; rl_world := rl_world r; rl_trace := rl_trace r |}.
Definition put_unminted (u : Unminted) r : Relayer W :=
  {| rl_config := rl_config r; rl_circle := rl_circle r; rl_file := rl_file r;
     rl_minter := rl_minter r; rl_unminted := u; rl_world := rl_world r; rl_trace := rl_trace r |}.
Definition put_relay_world (w : W) r : Relayer W :=
  {| rl_config := rl_config r; rl_circle := rl_circle r; rl_file := rl_file r;
     rl_minter := rl_minter r; rl_unminted := rl_unminted r; rl_world := w; rl_trace := rl_trace r |}.
Definition push_relay (a : RelayAction) r : Relayer W :=
  {| rl_config := rl_config r; rl_circle := rl_circle r; rl_file := rl_file r;
     rl_minter := rl_minter r; rl_unminted := rl_unminted r; rl_world := rl_world r;
     rl_trace := a :: rl_trace r |}.

Definition on_world {E A} (m : io W E A) : io (Relayer W) E A := fun r =>
  let '(a, w) := m (rl_world r) in (a, put_relay_world w r).
Definition ask_world {E A} (f : W -> A * W) : io (Relayer W) E A :=
  on_world (fun w => let '(a, w) := f w in (Ok a, w)).
Definition act {E} (a : RelayAction) : io (Relayer W) E unit := io_modify (push_relay a).
End setters.

(** ** Where a scan stands *)

Record PageOutcome := { po_newest : option MessageHash; po_next : option CircleCursor }.

Record Position := {
  pos_watermark : option MessageHash;
  pos_head : option MessageHash;
  pos_resume : option CircleCursor;
}.

Definition from_state (st : State) : Position :=
  {| pos_watermark := st_watermark st;
     pos_head := sp_head <$> st_scan st;
     pos_resume := sp_resume <$> st_scan st |}.

(** [Position::state]: a walk that has not met a readable hash has no progress to save. *)
Definition position_state (p : Position) : State :=
  {| st_watermark := pos_watermark p;
     st_scan := match pos_head p, pos_resume p with
                | Some head, Some resume => Some {| sp_head := head; sp_resume := resume |}
                | _, _ => None
                end |}.

Inductive ScanOutcome : Type := Complete | Stopped.

(** The first entry that is the watermark. *)
Definition is_watermark (watermark : option MessageHash) (e : Entry) : bool :=
  match message_hash e with
  | Some hash => bool_decide (Some hash = watermark)
  | None => false
  end.
Definition reached (watermark : option MessageHash) (entries : list Entry) : option nat :=
  fst <$> list_find (fun e => is_watermark watermark e = true) entries.
Definition fresh_entries (watermark : option MessageHash) (entries : list Entry) : list Entry :=
  match reached watermark entries with Some i => take i entries | None => entries end.
(** [find_map(Entry::message_hash)]. *)
Definition newest_hash (entries : list Entry) : option MessageHash := head (omap message_hash entries).

Section relayer.
Context `{MintLib, FeedLib, StateJson, WebLib} {W : Type} `{!MidenClient W, !RelayWorld W}.

(** ** The progress file *)

Definition progress_failure (text : string) : RelayFailure :=
  mkFailure (Actionable "progress_file") (RelayText text).

Definition load_state : io (Relayer W) RelayFailure State :=
  let% readable := ask_world fs_reads in
  let% file := io_gets rl_file in
  io_lift (if readable : bool then map_err progress_failure (read_state file)
           else Err (progress_failure "reading the state")).

(** [Store::set_state]: the file is replaced whole or stays as it was. *)
Definition set_state (st : State) : io (Relayer W) RelayFailure unit :=
  let% replaced := ask_world fs_replaces in
  if replaced : bool
  then io_modify (put_file (written_state st)) ;% act (SavedProgress st)
  else io_err (progress_failure "replacing the state").

(** ** One page *)

Definition fetch_page (resume : option CircleCursor) : io (Relayer W) RelayFailure Page :=
  let% config := io_gets rl_config in
  let% circle := io_gets rl_circle in
  let% reply := ask_world (feed_get (page_url circle (rc_remote_domain config) resume)) in
  io_lift (read_page circle reply).

Definition build_page (fresh : list Entry) : io (Relayer W) RelayFailure BuiltNotes :=
  let% minter := io_gets rl_minter in
  let '(built, minter) := build_notes minter fresh in
  io_modify (put_minter minter) ;% io_ret built.

(** Asks the faucet's map about the page's deposits and those of earlier pages. *)
Definition check_unminted (notes : list MintNote) : io (Relayer W) RelayFailure (list DepositNonce) :=
  let% tracked := io_gets (fun r => unminted_nonces (rl_unminted r)) in
  let asked := (mint_nonce <$> notes) ++ tracked in
  let% unminted := on_world (mc_retain_unminted asked) in
  act (Checked asked unminted) ;%
  io_modify (fun r => put_unminted (retain unminted (rl_unminted r)) r) ;%
  io_ret unminted.

Definition submit_page (notes : list MintNote) : io (Relayer W) RelayFailure unit :=
  let nonces := mint_nonce <$> notes in
  let chain_notes := note_of_mint <$> notes in
  let% transaction := on_world (mc_submit_notes chain_notes) in
  act (OnChain chain_notes transaction) ;%
  let% now := ask_world instant_now in
  io_modify (fun r => put_unminted (submitted nonces now (rl_unminted r)) r).

(** [process_page], from the page that was fetched on. *)
Definition mint_page (watermark : option MessageHash) (page : Page)
    : io (Relayer W) RelayFailure PageOutcome :=
  let entries := page_entries page in
  let% built := build_page (fresh_entries watermark entries) in
  let% unminted := check_unminted (bn_notes built) in
  let notes := List.filter (fun note => bool_decide (mint_nonce note ∈ unminted)) (bn_notes built) in
  (if bool_decide (notes = []) then io_ret tt else submit_page notes) ;%
  io_ret {| po_newest := newest_hash entries;
            po_next := match reached watermark entries with
                       | Some _ => None
                       | None => page_next page
                       end |}.

Definition process_page (resume : option CircleCursor) (watermark : option MessageHash)
    : io (Relayer W) RelayFailure PageOutcome :=
  let% page := fetch_page resume in mint_page watermark page.

(** Where the scan continues from, and the progress that says so. *)
Definition after_page (position : Position) (outcome : PageOutcome) : option Position * State :=
  let head := match pos_head position with Some h => Some h | None => po_newest outcome end in
  match po_next outcome with
  | Some resume =>
      let next := {| pos_watermark := pos_watermark position; pos_head := head;
                     pos_resume := Some resume |} in
      (Some next, position_state next)
  | None =>
      (None,
       {| st_watermark := match head with Some h => Some h | None => pos_watermark position end;
          st_scan := None |})
  end.

Definition finish_page (position : Position) : io (Relayer W) RelayFailure (option Position) :=
  let% outcome := process_page (pos_resume position) (pos_watermark position) in
  let '(next, saved) := after_page position outcome in
  (if bool_decide (saved = position_state position) then io_ret tt else set_state saved) ;%
  io_ret next.

End relayer.

Section loops.
Context `{MintLib, FeedLib, StateJson, WebLib} {W : Type} `{!MidenClient W, !RelayWorld W}.

Definition report_unminted : io (Relayer W) RelayFailure unit :=
  let% unminted := io_gets rl_unminted in
  let% now := ask_world instant_now in
  act (Reported (unminted_count unminted) (oldest_age now unminted)).

Definition run_page (position : Position) : io (Relayer W) RelayFailure (option Position) :=
  let% finished := io_try (finish_page position) in
  report_unminted ;%
  match finished with
  | Ok next => io_ret next
  | Err failure =>
      (if is_expired_submission (failure_error failure)
       then io_modify (fun r => put_circle (limit_to_local_proving (rl_circle r)).2 r)
       else io_ret tt) ;%
      io_err failure
  end.

(** ** Scans *)

(** At most [fuel] pages of a scan; [None] is a scan that is still going. *)
Fixpoint scan_pages (fuel : nat) (position : Position)
    : io (Relayer W) RelayFailure (option ScanOutcome) :=
  match fuel with
  | O => io_ret None
  | S fuel =>
      let% before := ask_world relay_cancelled in
      if before : bool then io_ret (Some Stopped)
      else
        let% next := run_page position in
        let% after := ask_world relay_cancelled in
        if after : bool then io_ret (Some Stopped)
        else
          match next with
          | None => io_ret (Some Complete)
          | Some position => scan_pages fuel position
          end
  end.

Definition scan (fuel : nat) : io (Relayer W) RelayFailure (option ScanOutcome) :=
  let% state := load_state in scan_pages fuel (from_state state).

(** [run_until], for at most [scans] scans of at most [pages] pages each; [true] is a relayer that
    has stopped. *)
Fixpoint run_until (scans pages : nat) : io (Relayer W) RelayFailure bool :=
  match scans with
  | O => io_ret false
  | S scans =>
      let% cancelled := ask_world relay_cancelled in
      if cancelled : bool then io_ret true
      else
        let% outcome := io_try (scan pages) in
        match outcome with
        | Ok None => io_ret false
        | Ok (Some Stopped) => io_ret true
        | Ok (Some Complete) | Err _ =>
            let% config := io_gets rl_config in
            let% cancelled := ask_world (relay_pause (rc_poll_interval config)) in
            if cancelled : bool then io_ret true else run_until scans pages
        end
  end.
End loops.

(** ** Startup *)

Section startup.
Context `{MintLib, FeedLib, StateJson, WebLib} {W : Type} `{!MidenClient W, !RelayWorld W}.

(** The relayer before its startup checks. *)
Definition assembled (config : Config) (rng : Rng) (file : StateFile) (w : W) : Relayer W :=
  {| rl_config := config;
     rl_circle := {| cc_base_url := rc_circle_url config;
                     cc_page_size := effective_page_size config |};
     rl_file := file;
     rl_minter := Minter_from_config config rng;
     rl_unminted := [];
     rl_world := w;
     rl_trace := [] |}.

(** [Relayer::new]: the saved progress can be read and saved again, and the client can be built. *)
Definition Relayer_new (config : Config) (client_builds : bool)
    : io (Relayer W) RelayError unit :=
  io_lift (map_err RelayText (validate_prover config)) ;%
  let% state := io_map_err failure_error load_state in
  io_map_err failure_error (set_state state) ;%
  let% client := io_lift (map_err RelayText
    (CircleClient_new (rc_circle_url config) (effective_page_size config)
       (rc_request_timeout config) client_builds)) in
  io_modify (put_circle client).
End startup.

(** ** The relayer of a node (impl MidenClient for NodeClient, [Relayer<NodeClient>]) *)

Section over_node.
Context `{MintLib, FeedLib, StateJson, WebLib, MidenLib} {V : Type} `{!NodeLib V, !RelayWorld V}.

(** The failure of a wait still going after [fuel] rounds; MidenProps.submission_ends_committed shows how
    many are enough for none to be. *)
Definition still_waiting : RelayFailure := mkFailure (Transient "transaction_submit") (RelayText "still waiting").
Definition NodeMiden (fuel : nat) (client : NodeClient) : MidenClient V :=
  {| mc_retain_unminted := retain_unminted client;
     mc_submit_notes := fun notes =>
       let% transaction := submit_notes fuel client notes in
       io_lift (ok_or transaction still_waiting) |}.

(** [Relayer::connect] of a configuration, over the progress file it names. *)
Definition connect (config : Config) (rng : Rng) (file : StateFile) (client_builds : bool) (v : V)
    : result RelayError (NodeClient * Relayer V) * V :=
  let '(client, v) := NodeClient_new config v in
  match client with
  | Err e => (Err e, v)
  | Ok client =>
      let '(made, r) := Relayer_new config client_builds (assembled config rng file v) in
      (map_ok (fun _ => (client, r)) made, rl_world r)
  end.
(** [Relayer::start], with the span of the startup. *)
Definition relayer_start (config : Config) (rng : Rng) (file : StateFile) (client_builds : bool) (v : V)
    (span : Span) : result RelayError (NodeClient * Relayer V) * Span :=
  match (connect config rng file client_builds v).1 with
  | Ok started => (Ok started, span)
  | Err e => (Err e, (report (mkFailure (Actionable "startup") e) "relayer startup failed" span).1)
  end.
End over_node.
