(* ===== verification/RelayerFacts.v ===== *)
(** One page of the relayer: its methods' rules, and the saved progress against the feed. *)
From S2P Require Import Prelude Text Telemetry Foreign Wire Io Feed Mint MidenNode Relayer.

Local Open Scope Z_scope.
Local Open Scope io_scope.

(** ** Entries and the values they are read from *)

Section values.
Context `{FeedLib}.

(** The digest naming a feed entry, wherever on a page it is served. *)
Definition value_hash (v : Value) : option MessageHash := message_hash (Entry_decode 1 v).

Lemma message_hash_decode position v : message_hash (Entry_decode position v) = value_hash v.
Proof. unfold value_hash, Entry_decode. by destruct (Attestation_deserialize v). Qed.

Lemma decode_entries_hashes position values :
  message_hash <$> decode_entries position values = value_hash <$> values.
Proof.
  revert position; induction values as [|v values IH]; intros position; simpl; [done|].
  by rewrite message_hash_decode, IH.
Qed.

Lemma decode_entries_take position n values :
  take n (decode_entries position values) = decode_entries position (take n values).
Proof.
  revert position n; induction values as [|v values IH]; intros position [|n]; simpl; [done..|].
  by rewrite IH.
Qed.

Lemma value_hash_ok v h : value_hash v = Some h -> hash_ok h.
Proof.
  unfold value_hash, Entry_decode. destruct (Attestation_deserialize v) as [a|] eqn:Ha; simpl.
  - intros [= <-]. unfold Attestation_deserialize in Ha.
    destruct (struct_fields _ v) as [l|]; [|done].
    destruct l as [|[p|] [|[hv|] [|[sv|] []]]]; try done.
    destruct (hex_bytes p); simpl in Ha; [|done].
    destruct (MessageHash_deserialize hv) eqn:Hh; simpl in Ha; [|done].
    destruct (hex_array _ sv); simpl in Ha; [|done]. injection Ha as <-. by eapply MessageHash_read.
  - destruct (value_get v _) as [hv|]; simpl; [|done]. by intros ?%MessageHash_read.
Qed.

(** Where the watermark is depends only on the hashes. *)
Lemma reached_Some watermark entries i :
  reached watermark entries = Some i ->
  exists h, watermark = Some h /\ (message_hash <$> entries) !! i = Some (Some h) /\
    forall j, (j < i)%nat -> (message_hash <$> entries) !! j <> Some (Some h).
Proof.
  unfold reached. rewrite fmap_Some. intros ((j & e) & Hf & ->).
  apply list_find_Some in Hf as (He & Hw & Hbefore). unfold is_watermark in Hw.
  destruct (message_hash e) as [h|] eqn:Hh; [|done]. bool_prop. exists h. split; [done|]. simpl.
  split; [by rewrite list_lookup_fmap, He; simpl; rewrite Hh|].
  intros k Hk Hlk. rewrite list_lookup_fmap in Hlk.
  destruct (entries !! k) as [e'|] eqn:He'; [|done]. simpl in Hlk.
  apply (Hbefore k e' He' Hk). unfold is_watermark. injection Hlk as ->. by apply bool_decide_eq_true.
Qed.

Lemma newest_hash_Some entries h :
  newest_hash entries = Some h ->
  exists newer e older, entries = newer ++ e :: older /\ message_hash e = Some h /\
    Forall (fun e => message_hash e = None) newer.
Proof.
  unfold newest_hash. induction entries as [|e entries IH]; simpl; [done|].
  destruct (message_hash e) as [h'|] eqn:He.
  - intros [= ->]. by exists [], e, entries.
  - intros (newer & x & older & -> & ? & ?)%IH. exists (e :: newer), x, older. split_and!; try done.
    by constructor.
Qed.
End values.

(** ** Methods *)

Section methods.
Context `{MintLib, FeedLib, StateJson, WebLib} {W : Type} `{!MidenClient W, !RelayWorld W}.
(** Entries Circle's feed holds, newest first, in a state of the outside world. *)
Context (feed : W -> list Value).
Implicit Types r : Relayer W.

(** The feed only grows, at its head. *)
Definition grew (w w' : W) : Prop := feed w `suffix_of` feed w'.

#[global] Instance grew_refl : Reflexive grew.
Proof. intros w. by exists []. Qed.
#[global] Instance grew_trans : Transitive grew.
Proof. intros w1 w2 w3 H12 H23. unfold grew in *. by transitivity (feed w2). Qed.

(** Every call of the outside world lets the feed only grow. *)
Record feed_grows : Prop := {
  grew_get url : keeps grew (fun w => let '(x, w) := feed_get url w in (@Ok unit _ x, w));
  grew_reads : keeps grew (fun w => let '(x, w) := fs_reads w in (@Ok unit _ x, w));
  grew_replaces : keeps grew (fun w => let '(x, w) := fs_replaces w in (@Ok unit _ x, w));
  grew_instant : keeps grew (fun w => let '(x, w) := instant_now w in (@Ok unit _ x, w));
  grew_cancelled : keeps grew (fun w => let '(x, w) := relay_cancelled w in (@Ok unit _ x, w));
  grew_pause d : keeps grew (fun w => let '(x, w) := relay_pause d w in (@Ok unit _ x, w));
  grew_retain nonces : keeps grew (mc_retain_unminted nonces);
  grew_submit notes : keeps grew (mc_submit_notes notes);
}.

(** From one state of the relayer to a later one. *)
Record onward r r' : Prop := {
  on_config : rl_config r' = rl_config r;
  on_minter : forall rng, rl_minter r = Minter_from_config (rl_config r) rng ->
    exists rng', rl_minter r' = Minter_from_config (rl_config r) rng';
  on_trace : rl_trace r `suffix_of` rl_trace r';
  on_feed : grew (rl_world r) (rl_world r');
  on_page_size : cc_page_size (rl_circle r') <= cc_page_size (rl_circle r);
}.

#[global] Instance onward_refl : Reflexive onward.
Proof. intros r. split; [done|by eauto|reflexivity..|lia]. Qed.
#[global] Instance onward_trans : Transitive onward.
Proof.
  intros r1 r2 r3 [] []. split; [congruence| |by etransitivity|by etransitivity|lia].
  intros rng Hm. destruct (on_minter0 _ Hm) as [rng' Hm'].
  destruct (on_minter1 rng') as [rng'' Hm'']; [congruence|]. exists rng''. congruence.
Qed.

(** The same without a write to the progress file. *)
Definition steady r r' : Prop := onward r r' /\ rl_file r' = rl_file r.
#[global] Instance steady_refl : Reflexive steady.
Proof. intros r. by split. Qed.
#[global] Instance steady_trans : Transitive steady.
Proof. intros r1 r2 r3 [] []. split; [by etransitivity|congruence]. Qed.

Context (Hgrows : feed_grows).

Lemma steady_world {E A} (m : io W E A) : keeps grew m -> keeps steady (on_world m).
Proof.
  intros Hm r. unfold on_world. specialize (Hm (rl_world r)).
  destruct (m (rl_world r)) as [a w]. split; [|done]. split; simpl; [done|by eauto|reflexivity|done|lia].
Qed.

Lemma steady_ask {E A} (f : W -> A * W) :
  keeps grew (fun w => let '(x, w) := f w in (@Ok unit _ x, w)) ->
  keeps (E := E) steady (ask_world f).
Proof.
  intros Hf. apply steady_world. intros w. specialize (Hf w). simpl in *. by destruct (f w).
Qed.

Lemma steady_act {E} a : keeps (E := E) steady (act a).
Proof.
  intros r. split; [|done]. split; simpl; [done|by eauto|apply suffix_cons_r; reflexivity|reflexivity|lia].
Qed.

Lemma steady_unminted {E} f : keeps (E := E) steady (io_modify (fun r => put_unminted (f r) r)).
Proof. intros r. split; [|done]. split; simpl; [done|by eauto|reflexivity..|lia]. Qed.
Lemma onward_file {E} f : keeps (E := E) onward (io_modify (put_file f)).
Proof. intros r. split; simpl; [done|by eauto|reflexivity..|lia]. Qed.

(** ** Building *)

Lemma build_entry_ids config rng e note m' :
  build_entry (Minter_from_config config rng) e = (note, m') ->
  exists rng', m' = Minter_from_config config rng'.
Proof.
  destruct e as [a|]; simpl; unfold build_note; simpl; [|intros [= _ <-]; by exists rng].
  destruct (deposit_intent _); [|intros [= _ <-]; by exists rng].
  destruct (draw_serial rng) as [serial rng']. intros [= _ <-]. by exists rng'.
Qed.

(** The notes that came from an entry with the configured identities. *)
Definition made_from (config : Config) (e : Entry) (note : option MintNote) : Prop :=
  exists rng, (build_entry (Minter_from_config config rng) e).1 = note.

Lemma build_notes_ids config rng entries :
  exists rng', (build_notes (Minter_from_config config rng) entries).2 = Minter_from_config config rng'.
Proof.
  revert rng; induction entries as [|e entries IH]; intros rng; simpl; [by exists rng|].
  destruct (build_entry _ e) as [note m'] eqn:He. apply build_entry_ids in He as [rng' ->].
  specialize (IH rng'). by destruct (build_notes _ entries).
Qed.

(** Every entry of the page is skipped or has its note among the page's. *)
Lemma build_notes_all config rng entries e :
  e ∈ entries ->
  exists note, made_from config e note /\
    match note with
    | Some note => note ∈ bn_notes (build_notes (Minter_from_config config rng) entries).1
    | None => True
    end.
Proof.
  revert rng; induction entries as [|e' entries IH]; intros rng; [by intros ?%elem_of_nil|]. simpl.
  destruct (build_entry _ e') as [note m'] eqn:He. pose proof He as [rng' ->]%build_entry_ids.
  intros [->|Hin]%elem_of_cons.
  - exists note. split; [exists rng; by rewrite He|]. destruct (build_notes _ entries) as [b m].
    destruct note; [|done]. simpl. by left.
  - destruct (IH rng' Hin) as (n & Hm & Hn). exists n. split; [done|].
    destruct (build_notes _ entries) as [b m]. destruct n; [|done]. destruct note; simpl in *; [by right|done].
Qed.

Lemma build_notes_length m entries :
  (length (bn_notes (build_notes m entries).1) <= length entries)%nat.
Proof.
  revert m; induction entries as [|e entries IH]; intros m; simpl; [lia|].
  destruct (build_entry m e) as [note m']. specialize (IH m').
  destruct (build_notes m' entries) as [b m'']. destruct note; simpl in *; lia.
Qed.

Lemma steady_build fresh : keeps steady (build_page fresh).
Proof.
  intros r. unfold build_page, io_bind, io_gets. simpl.
  destruct (build_notes (rl_minter r) fresh) as [b m] eqn:Hb. simpl.
  split; [|done]. split; simpl; [done| |reflexivity..|lia]. intros rng Hm.
  destruct (build_notes_ids (rl_config r) rng fresh) as [rng' Hr]. rewrite <-Hm, Hb in Hr. by exists rng'.
Qed.
#[local] Hint Resolve steady_act steady_unminted onward_file steady_build steady_ask steady_world : io.
#[local] Hint Resolve steady_refl steady_trans onward_refl onward_trans : io.

(** ** Every method of a page moves steady *)

Lemma steady_fetch resume : keeps steady (fetch_page resume).
Proof. destruct Hgrows. unfold fetch_page. eauto 10 with io. Qed.

Lemma steady_check notes : keeps steady (check_unminted notes).
Proof. destruct Hgrows. unfold check_unminted. eauto 10 with io. Qed.

(** An answer of the faucet's map is the last thing done. *)
Lemma check_unminted_Ok notes r unminted r1 :
  check_unminted notes r = (Ok unminted, r1) ->
  exists asked before, rl_trace r1 = Checked asked unminted :: before /\ mint_nonce <$> notes ⊆ asked.
Proof.
  unfold check_unminted. intros Hc. apply io_bind_Ok in Hc as (tracked & ? & [= <- <-] & Hc).
  apply io_bind_Ok in Hc as (u & r2 & Hu & [= <- <-]).
  do 2 eexists. split; [reflexivity|]. apply list_subseteq_app_l. done.
Qed.

Lemma steady_submit notes : keeps steady (submit_page notes).
Proof. destruct Hgrows. unfold submit_page. eauto 10 with io. Qed.

Lemma steady_mint watermark page : keeps steady (mint_page watermark page).
Proof.
  unfold mint_page. apply keeps_bind; [apply _|apply steady_build|intros built].
  apply keeps_bind; [apply _|apply steady_check|intros unminted].
  apply keeps_bind; [apply _| |intros _; apply keeps_ret, _].
  case_bool_decide; [apply keeps_ret, _|apply steady_submit].
Qed.

Lemma steady_process resume watermark : keeps steady (process_page resume watermark).
Proof. apply keeps_bind; [apply _|apply steady_fetch|intros page; apply steady_mint]. Qed.

Lemma steady_load : keeps steady load_state.
Proof. destruct Hgrows. unfold load_state. eauto 10 with io. Qed.

Lemma steady_report : keeps steady report_unminted.
Proof. destruct Hgrows. unfold report_unminted. eauto 10 with io. Qed.

(** A write that fails leaves the file as it was. *)
Lemma onward_set_state st r :
  onward r (set_state st r).2 /\
  match (set_state st r).1 with
  | Ok _ => rl_file (set_state st r).2 = written_state st
  | Err _ => rl_file (set_state st r).2 = rl_file r
  end.
Proof.
  pose proof (steady_ask (E := RelayFailure) fs_replaces (grew_replaces Hgrows) r) as [Ho Hf].
  unfold set_state, io_bind. destruct (ask_world fs_replaces r) as [[[]|e] r1]; simpl in *; [|done..].
  split; [|done]. etransitivity; [exact Ho|].
  pose proof (onward_file (E := RelayFailure) (written_state st) r1) as Hfile. simpl in Hfile.
  etransitivity; [exact Hfile|]. apply (steady_act (E := RelayFailure) (SavedProgress st) (put_file (written_state st) r1)).
Qed.
End methods.

(** ** What a page keeps, a run keeps *)

Section loops.
Context `{MintLib, FeedLib, StateJson, WebLib} {W : Type} `{!MidenClient W, !RelayWorld W}.
Context (R : Relayer W -> Relayer W -> Prop) `{!Reflexive R, !Transitive R}.
Context (Hcancelled : keeps (E := RelayFailure) R (ask_world relay_cancelled)).
Context (Hpause : forall d, keeps (E := RelayFailure) R (ask_world (relay_pause d))).
Context (Hload : keeps R load_state) (Hpage : forall p, keeps R (run_page p)).

Lemma keeps_scan_pages fuel p : keeps R (scan_pages fuel p).
Proof.
  revert p; induction fuel as [|fuel IH]; intros p; simpl; [apply keeps_ret, _|].
  apply keeps_bind; [apply _|exact Hcancelled|intros [|]; [apply keeps_ret, _|]].
  apply keeps_bind; [apply _|apply Hpage|intros next].
  apply keeps_bind; [apply _|exact Hcancelled|intros [|]; [apply keeps_ret, _|]].
  destruct next; [apply IH|apply keeps_ret, _].
Qed.

Lemma keeps_scan fuel : keeps R (scan fuel).
Proof. apply keeps_bind; [apply _|exact Hload|intros st; apply keeps_scan_pages]. Qed.

Lemma keeps_run_until scans pages : keeps R (run_until scans pages).
Proof.
  induction scans as [|scans IH]; simpl; [apply keeps_ret, _|].
  apply keeps_bind; [apply _|exact Hcancelled|intros [|]; [apply keeps_ret, _|]].
  apply keeps_bind; [apply _|apply keeps_try, keeps_scan|intros outcome].
  assert (Hagain : keeps R (let% config := io_gets rl_config in
      let% cancelled := ask_world (relay_pause (rc_poll_interval config)) in
      if cancelled : bool then io_ret true else run_until scans pages)).
  { apply keeps_bind; [apply _|apply keeps_gets, _|intros config].
    apply keeps_bind; [apply _|apply Hpause|intros [|]; [apply keeps_ret, _|exact IH]]. }
  destruct outcome as [[[]|]|]; first [exact Hagain|apply keeps_ret, _].
Qed.
End loops.

Section onward.
Context `{MintLib, FeedLib, StateJson, WebLib} {W : Type} `{!MidenClient W, !RelayWorld W}.
Context (feed : W -> list Value) (Hgrows : feed_grows feed).
Implicit Types r : Relayer W.

Lemma steady_limit {E} :
  keeps (E := E) (steady feed) (io_modify (fun r => put_circle (limit_to_local_proving (rl_circle r)).2 r)).
Proof.
  intros r. split; [|done]. split; simpl; [done|by eauto|reflexivity|unfold grew; reflexivity|].
  pose proof (limit_to_local_size (rl_circle r)) as [Hsize _]. exact Hsize.
Qed.

Lemma steady_cancelled {E} : keeps (E := E) (steady feed) (ask_world relay_cancelled).
Proof. apply steady_ask, Hgrows. Qed.

Lemma steady_pause {E} d : keeps (E := E) (steady feed) (ask_world (relay_pause d)).
Proof. apply steady_ask, Hgrows. Qed.

Lemma steady_onward {E A} (m : io (Relayer W) E A) : keeps (steady feed) m -> keeps (onward feed) m.
Proof. apply keeps_weaken. by intros ?? []. Qed.

Lemma onward_finish_page p : keeps (onward feed) (finish_page p).
Proof.
  unfold finish_page.
  apply keeps_bind; [apply _|eapply keeps_weaken; [|apply steady_process; done]; by intros ?? []|].
  intros outcome. destruct (after_page p outcome) as [next saved].
  apply keeps_bind; [apply _| |intros _; apply keeps_ret, _].
  case_bool_decide; [apply keeps_ret, _|]. intros r. by apply onward_set_state.
Qed.

Lemma onward_run_page p : keeps (onward feed) (run_page p).
Proof.
  unfold run_page.
  apply keeps_bind; [apply _|apply keeps_try, onward_finish_page|intros finished].
  apply keeps_bind; [apply _|eapply keeps_weaken; [|apply steady_report; done]; by intros ?? []|intros _].
  destruct finished as [next|failure]; [apply keeps_ret, _|].
  apply keeps_bind; [apply _| |intros _; apply keeps_err, _].
  destruct (is_expired_submission _); [|apply keeps_ret, _].
  eapply keeps_weaken; [|apply steady_limit]. by intros ?? [].
Qed.

Lemma onward_scan_pages fuel p : keeps (onward feed) (scan_pages fuel p).
Proof.
  apply keeps_scan_pages; [apply _..|apply steady_onward, steady_cancelled|apply onward_run_page].
Qed.

Lemma onward_run_until scans pages : keeps (onward feed) (run_until scans pages).
Proof.
  apply keeps_run_until; [apply _..| | | |apply onward_run_page];
    intros; apply steady_onward; [apply steady_cancelled|apply steady_pause|].
  apply steady_load, Hgrows.
Qed.
End onward.

(** ** Lists *)

(** An entry that nothing else in the list shares its key with splits the list in one way. *)
Lemma unique_split {A B} (f : A -> option B) l1 x1 r1 l2 x2 r2 k :
  NoDup (omap f (l1 ++ x1 :: r1)) -> l1 ++ x1 :: r1 = l2 ++ x2 :: r2 ->
  f x1 = Some k -> f x2 = Some k -> x1 :: r1 = x2 :: r2.
Proof.
  revert l2. induction l1 as [|y l1 IH]; intros [|z l2] Hnd Heq H1 H2; simpl in *; [done| | |].
  - injection Heq as <- ->. rewrite H1, omap_app in Hnd. simpl in Hnd. rewrite H2 in Hnd.
    apply NoDup_cons in Hnd as [Hnd _]. set_solver.
  - injection Heq as -> <-. rewrite H2, omap_app in Hnd. simpl in Hnd. rewrite H1 in Hnd.
    apply NoDup_cons in Hnd as [Hnd _]. set_solver.
  - injection Heq as -> Heq. apply (IH l2); [|done..].
    destruct (f z); [by apply NoDup_cons in Hnd as [_ Hnd]|done].
Qed.

Lemma suffix_Forall {A} (P : A -> Prop) l1 l2 : l1 `suffix_of` l2 -> Forall P l2 -> Forall P l1.
Proof. intros [l ->]. rewrite Forall_app. tauto. Qed.

Section cover.
Context `{MintLib, FeedLib, StateJson, WebLib} {W : Type} `{!MidenClient W, !RelayWorld W}.
Context (feed : W -> list Value) (older : CircleCursor -> list Value).
Implicit Types r : Relayer W.

(** ** An honest feed *)

(** What the page at a cursor starts with, and everything older. *)
Definition below (w : W) (resume : option CircleCursor) : list Value :=
  match resume with None => feed w | Some cursor => older cursor end.

(** A page of [l]: its newest values, with a cursor for the others unless there are none. *)
Definition served (l : list Value) (page : Page) : Prop :=
  exists values rest, l = values ++ rest /\ page_entries page = decode_entries 1 values /\
    match page_next page with None => rest = [] | Some cursor => older cursor = rest end.

(** The feed only grows at its head, names each deposit once, and a page that can be read is what
    the feed holds there. *)
Record honest_feed : Prop := {
  hf_grows : feed_grows feed;
  hf_unique w : NoDup (omap value_hash (feed w));
  hf_serves client domain resume w reply w' page :
    feed_get (page_url client domain resume) w = (reply, w') ->
    read_page client reply = Ok page -> served (below w' resume) page;
}.

(** ** Handled deposits *)

(** The faucet's map holds the note's nonce, or the note is on chain. *)
Definition handled (tr : list RelayAction) (note : MintNote) : Prop :=
  (exists asked unminted, Checked asked unminted ∈ tr /\ mint_nonce note ∈ asked /\
     mint_nonce note ∉ unminted) \/
  (exists notes transaction, OnChain notes transaction ∈ tr /\ note_of_mint note ∈ notes).

(** An entry no note can be made of, or one whose note is handled. *)
Definition entry_settled (config : Config) (tr : list RelayAction) (e : Entry) : Prop :=
  exists note, made_from config e note /\
    match note with None => True | Some note => handled tr note end.
Definition settled (config : Config) (tr : list RelayAction) (v : Value) : Prop :=
  entry_settled config tr (Entry_decode 1 v).

Lemma entry_settled_decode config tr position v :
  entry_settled config tr (Entry_decode position v) <-> settled config tr v.
Proof.
  assert (Hb : forall m p q, (build_entry m (Entry_decode p v)).1 = (build_entry m (Entry_decode q v)).1).
  { intros m p q. unfold Entry_decode. by destruct (Attestation_deserialize v). }
  unfold settled, entry_settled, made_from.
  split; intros (note & (rng & Hn) & Hh); exists note; (split; [|done]); exists rng; by rewrite <-Hn.
Qed.

Lemma decode_settled config tr position values :
  Forall (entry_settled config tr) (decode_entries position values) <-> Forall (settled config tr) values.
Proof.
  revert position; induction values as [|v values IH]; intros position; simpl.
  - split; intros _; constructor.
  - by rewrite !Forall_cons, entry_settled_decode, IH.
Qed.

Lemma handled_later tr tr' note : tr `suffix_of` tr' -> handled tr note -> handled tr' note.
Proof.
  intros [new ->] [(a & u & Hin & ?)|(n & t & Hin & ?)]; [left|right];
    do 2 eexists; (split; [apply elem_of_app; right; exact Hin|done]).
Qed.
Lemma settled_later config tr tr' v : tr `suffix_of` tr' -> settled config tr v -> settled config tr' v.
Proof.
  intros Htr (note & Hm & Hn). exists note. split; [done|]. destruct note; [by eapply handled_later|done].
Qed.
Lemma all_settled_later config tr tr' l :
  tr `suffix_of` tr' -> Forall (settled config tr) l -> Forall (settled config tr') l.
Proof. intros Htr Hl. eapply Forall_impl; [exact Hl|]. intros v. by apply settled_later. Qed.

(** ** Saved progress *)

(** [l] is all handled, from the deposit named [h] down to [rest]. *)
Definition handled_from (config : Config) (tr : list RelayAction) (l : list Value) (h : MessageHash)
    (rest : list Value) : Prop :=
  exists newer v handled, l = newer ++ (v :: handled) ++ rest /\ value_hash v = Some h /\
    Forall (settled config tr) (v :: handled).

(** The watermark and everything older is handled; so is what an interrupted scan walked, from its
    head to the page it resumes at. *)
Definition covered (config : Config) (tr : list RelayAction) (l : list Value) (st : State) : Prop :=
  (forall h, st_watermark st = Some h -> handled_from config tr l h []) /\
  (forall p, st_scan st = Some p -> handled_from config tr l (sp_head p) (older (sp_resume p))).

Lemma handled_from_later config tr tr' l l' h rest :
  tr `suffix_of` tr' -> l `suffix_of` l' ->
  handled_from config tr l h rest -> handled_from config tr' l' h rest.
Proof.
  intros Htr [k ->] (newer & v & done_ & -> & Hv & Hs). exists (k ++ newer), v, done_.
  split_and!; [by rewrite app_assoc|done|by eapply all_settled_later].
Qed.
Lemma covered_later config tr tr' l l' st :
  tr `suffix_of` tr' -> l `suffix_of` l' -> covered config tr l st -> covered config tr' l' st.
Proof. intros Htr Hl [Hw Hp]. split; intros x Hx; eapply handled_from_later; eauto. Qed.

Lemma covered_state_ok config tr l st : covered config tr l st -> state_ok st.
Proof.
  intros [Hw Hp]. split; intros x Hx.
  - destruct (Hw x Hx) as (? & v & ? & _ & Hv & _). by eapply value_hash_ok.
  - destruct (Hp x Hx) as (? & v & ? & _ & Hv & _). by eapply value_hash_ok.
Qed.

(** What the file says is true. *)
Definition progress_ok r : Prop :=
  forall st, read_state (rl_file r) = Ok st ->
  covered (rl_config r) (rl_trace r) (feed (rl_world r)) st.

Lemma covered_default config tr l : covered config tr l State_default.
Proof. by split. Qed.

Lemma progress_later r r' :
  onward feed r r' -> rl_file r' = rl_file r -> progress_ok r -> progress_ok r'.
Proof.
  intros Ho Hf Hp st Hst. rewrite Hf in Hst. rewrite (on_config _ _ _ Ho).
  eapply covered_later; [apply Ho|exact (on_feed _ _ _ Ho)|by apply Hp].
Qed.
End cover.
