(* ===== verification/RelayerScan.v ===== *)
(** A page, a scan and a run of the deposit relayer over an honest feed: each keeps the progress
    file true, and a scan that completes has handled all it set out to. *)
From S2P Require Import Prelude Text Telemetry Foreign Wire Feed Mint Io MidenNode Relayer.
From S2P Require Import RelayerFacts.
Local Open Scope Z_scope.
Local Open Scope io_scope.

Section scan.
Context `{MintLib, FeedLib, StateJson, WebLib} {W : Type} `{!MidenClient W, !RelayWorld W}.
Context (feed : W -> list Value) (older : CircleCursor -> list Value).
Context (Hhonest : honest_feed feed older).
Implicit Types r : Relayer W.

(** ** One page *)

(** What a page of [l] came to: its newest [values] are handled, and the rest too unless there is a
    cursor for it. *)
Definition outcome_ok (config : Config) (tr : list RelayAction) (l : list Value)
    (outcome : PageOutcome) : Prop :=
  exists values rest, l = values ++ rest /\ Forall (settled config tr) values /\
    match po_next outcome with
    | Some cursor => rest = older cursor
    | None => Forall (settled config tr) rest
    end /\
    (forall h, po_newest outcome = Some h ->
       exists newer v handled, values = newer ++ v :: handled /\ value_hash v = Some h).

Lemma newest_value position values h :
  newest_hash (decode_entries position values) = Some h ->
  exists newer v handled, values = newer ++ v :: handled /\ value_hash v = Some h.
Proof.
  revert position; induction values as [|v values IH]; intros position; [done|]. unfold newest_hash. simpl.
  rewrite message_hash_decode. destruct (value_hash v) as [h'|] eqn:Hv; simpl.
  - intros [= ->]. by exists [], v, values.
  - intros (newer & x & handled & -> & Hx)%IH. by exists (v :: newer), x, handled.
Qed.

(** Reaching the watermark on the page, everything from there on was handled before. *)
Lemma watermark_settles config tr w resume h i values rest :
  handled_from config tr (feed w) h [] -> below feed older w resume `suffix_of` feed w ->
  below feed older w resume = values ++ rest -> (value_hash <$> values) !! i = Some (Some h) ->
  Forall (settled config tr) (drop i values ++ rest).
Proof.
  intros (newer & v & handled & Hw & Hv & Hs) [k Hk] Hl Hi.
  rewrite list_lookup_fmap in Hi. destruct (values !! i) as [v'|] eqn:Hvi; [|done]. injection Hi as Hv'.
  rewrite app_nil_r in Hw. rewrite (drop_S _ _ _ Hvi). simpl.
  assert (Hsplit : feed w = (k ++ take i values) ++ v' :: (drop (S i) values ++ rest)).
  { rewrite Hk, Hl, <-(take_drop_middle _ _ _ Hvi) at 1. by rewrite <-!app_assoc. }
  rewrite Hsplit in Hw. erewrite (unique_split value_hash); [exact Hs| |exact Hw|done..].
  rewrite <-Hsplit. apply Hhonest.
Qed.

Lemma page_outcome config tr w resume watermark page :
  served older (below feed older w resume) page ->
  below feed older w resume `suffix_of` feed w ->
  (forall h, watermark = Some h -> handled_from config tr (feed w) h []) ->
  Forall (entry_settled config tr) (fresh_entries watermark (page_entries page)) ->
  outcome_ok config tr (below feed older w resume)
    {| po_newest := newest_hash (page_entries page);
       po_next := match reached watermark (page_entries page) with
                  | Some _ => None
                  | None => page_next page
                  end |}.
Proof.
  intros (values & rest & Hl & He & Hn) Hsuf Hwm Hfresh. exists values, rest. rewrite He in *.
  unfold fresh_entries in Hfresh. split; [done|].
  destruct (reached watermark (decode_entries 1 values)) as [i|] eqn:Hr; simpl.
  - apply reached_Some in Hr as (h & Hw & Hi & _). rewrite decode_entries_hashes in Hi.
    rewrite decode_entries_take, decode_settled in Hfresh.
    pose proof (watermark_settles _ _ _ _ _ _ _ _ (Hwm h Hw) Hsuf Hl Hi) as Hrest.
    apply Forall_app in Hrest as [Hd Hrest]. split_and!; [|done|by apply newest_value].
    rewrite <-(take_drop i values). by apply Forall_app.
  - rewrite decode_settled in Hfresh. split_and!; [done| |by apply newest_value].
    destruct (page_next page); by subst.
Qed.

(** What [process_page] did, where it succeeded. *)
Lemma built_settled config rng entries asked unminted tr notes :
  notes = bn_notes (build_notes (Minter_from_config config rng) entries).1 ->
  Checked asked unminted ∈ tr -> mint_nonce <$> notes ⊆ asked ->
  (forall n, n ∈ notes -> mint_nonce n ∈ unminted ->
     exists onchain transaction, OnChain onchain transaction ∈ tr /\ note_of_mint n ∈ onchain) ->
  Forall (entry_settled config tr) entries.
Proof.
  intros -> Hc Hask Hsub. apply Forall_forall. intros e He.
  destruct (build_notes_all config rng entries e He) as (note & Hm & Hn). exists note. split; [done|].
  destruct note as [n|]; [|done]. destruct (decide (mint_nonce n ∈ unminted)) as [Hu|Hu].
  - right. by apply Hsub.
  - left. exists asked, unminted. split_and!; [done| |done]. apply Hask. by apply list_elem_of_fmap_2.
Qed.

(** A page that was fetched is what the answer to its GET reads as. *)
Lemma fetch_page_read resume r page r1 :
  fetch_page resume r = (Ok page, r1) ->
  exists reply, feed_get (page_url (rl_circle r) (rc_remote_domain (rl_config r)) resume) (rl_world r)
                = (reply, rl_world r1) /\ read_page (rl_circle r) reply = Ok page.
Proof.
  unfold fetch_page. intros Hf. apply io_bind_Ok in Hf as (config & ? & [= <- <-] & Hf).
  apply io_bind_Ok in Hf as (circle & ? & [= <- <-] & Hf).
  apply io_bind_Ok in Hf as (reply & r2 & Hg & [= Hr <-]).
  unfold ask_world, on_world in Hg. destruct (feed_get _ (rl_world r)) as [reply' w] eqn:Hget.
  injection Hg as -> <-. by exists reply.
Qed.

Lemma fetch_page_Ok resume r page r1 :
  fetch_page resume r = (Ok page, r1) -> served older (below feed older (rl_world r1) resume) page.
Proof. intros (reply & Hg & Hr)%fetch_page_read. by eapply (hf_serves _ _ Hhonest). Qed.

Lemma submit_page_Ok notes r u r1 :
  submit_page notes r = (Ok u, r1) ->
  exists transaction, OnChain (note_of_mint <$> notes) transaction ∈ rl_trace r1.
Proof.
  unfold submit_page. intros Hs. apply io_bind_Ok in Hs as (tx & r2 & _ & Hs).
  apply io_bind_Ok in Hs as ([] & r3 & [= <-] & Hs).
  apply io_bind_Ok in Hs as (now & r4 & Hn & [= _ <-]).
  exists tx. unfold ask_world, on_world in Hn. destruct (instant_now _) as [x w].
  injection Hn as _ <-. by left.
Qed.

(** Notes left to submit are on chain afterwards. *)
Lemma submit_left_Ok notes r r1 :
  (if bool_decide (notes = []) then io_ret tt else submit_page notes) r = (Ok tt, r1) ->
  onward feed r r1 /\ forall n, n ∈ notes -> exists onchain transaction,
    OnChain onchain transaction ∈ rl_trace r1 /\ note_of_mint n ∈ onchain.
Proof.
  intros Hs. case_bool_decide as He.
  - injection Hs as <-. split; [reflexivity|]. intros n Hn. rewrite He in Hn. by apply elem_of_nil in Hn.
  - pose proof (steady_submit feed (hf_grows _ _ Hhonest) notes r) as [Ho _]. rewrite Hs in Ho.
    split; [exact Ho|]. apply submit_page_Ok in Hs as [tx Htx]. intros n Hn.
    do 2 eexists. split; [exact Htx|]. by apply list_elem_of_fmap_2.
Qed.

Lemma process_page_Ok resume watermark r rng outcome r' :
  rl_minter r = Minter_from_config (rl_config r) rng ->
  below feed older (rl_world r) resume `suffix_of` feed (rl_world r) ->
  (forall h, watermark = Some h ->
     handled_from (rl_config r) (rl_trace r) (feed (rl_world r)) h []) ->
  process_page resume watermark r = (Ok outcome, r') ->
  exists w, grew feed (rl_world r) w /\ grew feed w (rl_world r') /\
    outcome_ok (rl_config r) (rl_trace r') (below feed older w resume) outcome.
Proof.
  intros Hm Hsuf Hwm Hp. unfold process_page, mint_page in Hp.
  pose proof (hf_grows _ _ Hhonest) as Hg.
  apply io_bind_Ok in Hp as (page & r1 & Hf & Hp).
  pose proof (steady_fetch feed Hg resume r) as [H01 _]. rewrite Hf in H01. simpl in H01.
  apply fetch_page_Ok in Hf.
  apply io_bind_Ok in Hp as (built & r2 & Hb & Hp).
  pose proof (steady_build feed (fresh_entries watermark (page_entries page)) r1) as [H12 _].
  rewrite Hb in H12. simpl in H12.
  apply io_bind_Ok in Hp as (unminted & r3 & Hc & Hp).
  pose proof (steady_check feed Hg (bn_notes built) r2) as [H23 _]. rewrite Hc in H23. simpl in H23.
  apply check_unminted_Ok in Hc as (asked & before & Hc & Hask).
  apply io_bind_Ok in Hp as ([] & r4 & Hs & [= <- <-]).
  set (notes := List.filter _ _) in Hs. apply submit_left_Ok in Hs as [H34 Hon].
  destruct (on_minter _ _ _ H01 _ Hm) as [rng1 Hm1].
  assert (H14 : onward feed r1 r4) by (etransitivity; [exact H12|]; by etransitivity).
  exists (rl_world r1). split; [exact (on_feed _ _ _ H01)|]. split; [exact (on_feed _ _ _ H14)|].
  pose proof (on_feed _ _ _ H01) as Hgr. unfold grew in Hgr.
  apply page_outcome; [done| | |].
  - destruct resume; simpl in *; [by etransitivity|reflexivity].
  - intros h Hh. eapply handled_from_later; [|exact Hgr|by apply Hwm].
    transitivity (rl_trace r1); [apply H01|apply H14].
  - assert (Hbuilt : built = (build_notes (Minter_from_config (rl_config r) rng1)
                               (fresh_entries watermark (page_entries page))).1).
    { unfold build_page, io_bind, io_gets in Hb. simpl in Hb. rewrite Hm1 in Hb.
      destruct (build_notes _ _) as [b m]. by injection Hb as <- _. }
    eapply built_settled; [by rewrite <-Hbuilt| |exact Hask|].
    + destruct (on_trace _ _ _ H34) as [new ->]. rewrite Hc. apply elem_of_app. right. by left.
    + intros n Hn Hu. apply Hon. unfold notes. apply list_elem_of_In, filter_In.
      split; [by apply list_elem_of_In|by apply bool_decide_eq_true].
Qed.

(** ** Positions *)

(** The walk is between two pages and, once it is over, will have handled all of [target]. *)
Definition position_ok (target : list Value) r (p : Position) : Prop :=
  (forall h, pos_watermark p = Some h ->
     handled_from (rl_config r) (rl_trace r) (feed (rl_world r)) h []) /\
  match pos_resume p with
  | None => pos_head p = None /\ target `suffix_of` feed (rl_world r)
  | Some cursor =>
      exists walked, Forall (settled (rl_config r) (rl_trace r)) walked /\
        walked ++ older cursor `suffix_of` feed (rl_world r) /\
        target `suffix_of` walked ++ older cursor /\
        (forall h, pos_head p = Some h ->
           exists newer v handled, walked = newer ++ v :: handled /\ value_hash v = Some h)
  end.

Lemma position_later target r r' p :
  onward feed r r' -> position_ok target r p -> position_ok target r' p.
Proof.
  intros Ho [Hw Hp]. pose proof (on_feed _ _ _ Ho) as Hg. unfold grew in Hg.
  unfold position_ok. rewrite (on_config _ _ _ Ho). split.
  - intros h Hh. eapply handled_from_later; [apply Ho|exact Hg|by apply Hw].
  - destruct (pos_resume p); [|destruct Hp; split; [done|by etransitivity]].
    destruct Hp as (walked & Hs & Hsuf & Ht & Hh). exists walked.
    split_and!; [eapply all_settled_later; [apply Ho|done]|by etransitivity|done|done].
Qed.

(** A cut of a suffix of the feed at a handled deposit. *)
Lemma handled_from_cut config tr l newer v handled rest h :
  (newer ++ v :: handled) ++ rest `suffix_of` l -> value_hash v = Some h ->
  Forall (settled config tr) (newer ++ v :: handled) -> handled_from config tr l h rest.
Proof.
  intros [k ->] Hv Hs. exists (k ++ newer), v, handled. rewrite Forall_app in Hs.
  split_and!; [by rewrite <-!app_assoc|done|tauto].
Qed.

Definition next_head (p : Position) (outcome : PageOutcome) : option MessageHash :=
  match pos_head p with Some h => Some h | None => po_newest outcome end.

(** The walk so far, the page included. *)
Lemma walk_on target r r' w p outcome :
  position_ok target r p -> onward feed r r' ->
  grew feed (rl_world r) w -> grew feed w (rl_world r') ->
  outcome_ok (rl_config r) (rl_trace r') (below feed older w (pos_resume p)) outcome ->
  exists walked rest, walked ++ rest `suffix_of` feed (rl_world r') /\
    target `suffix_of` walked ++ rest /\
    Forall (settled (rl_config r') (rl_trace r')) walked /\
    match po_next outcome with
    | Some cursor => rest = older cursor
    | None => Forall (settled (rl_config r') (rl_trace r')) rest
    end /\
    (forall h, next_head p outcome = Some h ->
       exists newer v handled, walked = newer ++ v :: handled /\ value_hash v = Some h).
Proof.
  intros Hpos Ho Hgw Hgw' Hout. pose proof (position_later _ _ _ _ Ho Hpos) as [_ Hres].
  pose proof (on_config _ _ _ Ho) as Hcfg. rewrite <-Hcfg in Hout.
  destruct Hout as (values & rest & Hl & Hs & Hn & Hnew). unfold next_head.
  destruct Hpos as [_ Hold]. destruct (pos_resume p) as [c|]; simpl in Hl.
  - destruct Hres as (walked & Hws & Hsuf & Ht & Hh). exists (walked ++ values), rest.
    rewrite Hl in Hsuf, Ht. rewrite <-app_assoc. split_and!; [done|done|by apply Forall_app|done|].
    intros h. destruct (pos_head p) as [h'|] eqn:Hph.
    + intros [= <-]. destruct (Hh _ eq_refl) as (newer & v & handled & -> & Hv).
      exists newer, v, (handled ++ values). by rewrite <-app_assoc.
    + intros (newer & v & handled & -> & Hv)%Hnew. exists (walked ++ newer), v, handled.
      by rewrite <-app_assoc.
  - destruct Hold as [Hhead Ht]. unfold grew in Hgw, Hgw'. exists values, rest. rewrite <-Hl.
    split_and!; [done|by etransitivity|done|done|]. by rewrite Hhead.
Qed.

(** Where a position and the outcome of its page lead. *)
Lemma after_page_ok target r r' w p outcome next saved :
  position_ok target r p -> onward feed r r' ->
  grew feed (rl_world r) w -> grew feed w (rl_world r') ->
  outcome_ok (rl_config r) (rl_trace r') (below feed older w (pos_resume p)) outcome ->
  after_page p outcome = (next, saved) ->
  covered older (rl_config r') (rl_trace r') (feed (rl_world r')) saved /\
  match next with
  | Some p' => position_ok target r' p' /\ saved = position_state p'
  | None => Forall (settled (rl_config r') (rl_trace r')) target
  end.
Proof.
  intros Hpos Ho Hgw Hgw' Hout Hafter.
  pose proof (position_later _ _ _ _ Ho Hpos) as [Hwm _].
  destruct (walk_on _ _ _ _ _ _ Hpos Ho Hgw Hgw' Hout)
    as (walked & rest & Hsuf & Ht & Hs & Hn & Hhead).
  unfold after_page in Hafter. fold (next_head p outcome) in Hafter.
  destruct (po_next outcome) as [c|]; injection Hafter as <- <-.
  - subst rest. split; [|split; [split; [exact Hwm|]|done]].
    + split; simpl; [exact Hwm|]. intros [h rs]. destruct (next_head p outcome) as [h'|]; [|done].
      intros [= <- <-]. destruct (Hhead _ eq_refl) as (newer & v & handled & -> & Hv).
      by eapply handled_from_cut.
    + by exists walked.
  - assert (Hall : Forall (settled (rl_config r') (rl_trace r')) (walked ++ rest)) by by apply Forall_app.
    split; [|by eapply suffix_Forall]. split; simpl; [|done]. intros h.
    destruct (next_head p outcome) as [h'|]; [|by apply Hwm].
    intros [= <-]. destruct (Hhead _ eq_refl) as (newer & v & handled & -> & Hv).
    eapply (handled_from_cut _ _ _ newer v (handled ++ rest)); [|exact Hv|].
    + rewrite app_nil_r. by rewrite <-app_assoc in Hsuf.
    + by rewrite <-app_assoc in Hall.
Qed.

(** ** Pages, scans and runs *)

Context `{!StateJsonLaws}.

(** A relayer whose progress file is true and whose notes are made with its configuration. *)
Definition relay_ok r : Prop :=
  progress_ok feed older r /\ exists rng, rl_minter r = Minter_from_config (rl_config r) rng.

Lemma minter_later r r' :
  onward feed r r' -> (exists rng, rl_minter r = Minter_from_config (rl_config r) rng) ->
  exists rng, rl_minter r' = Minter_from_config (rl_config r') rng.
Proof. intros Ho [rng Hm]. rewrite (on_config _ _ _ Ho). by eapply on_minter. Qed.

Lemma relay_steady r r' : steady feed r r' -> relay_ok r -> relay_ok r'.
Proof. intros [Ho Hf] [Hp Hm]. split; [by eapply progress_later|by eapply minter_later]. Qed.

Lemma relay_saved st r r' :
  onward feed r r' -> rl_file r' = written_state st ->
  covered older (rl_config r') (rl_trace r') (feed (rl_world r')) st ->
  relay_ok r -> relay_ok r'.
Proof.
  intros Ho Hf Hc [_ Hm]. split; [|by eapply minter_later]. intros st' Hst'.
  rewrite Hf, read_written_state in Hst' by by eapply covered_state_ok. by injection Hst' as <-.
Qed.

(** What a page may come to. *)
Definition page_post (target : list Value) (res : result RelayFailure (option Position)) r : Prop :=
  relay_ok r /\
  match res with
  | Ok (Some p) => position_ok target r p
  | Ok None => Forall (settled (rl_config r) (rl_trace r)) target
  | Err _ => True
  end.

Lemma page_post_later target res r r' : steady feed r r' -> page_post target res r -> page_post target res r'.
Proof.
  intros Hs [Hr Hres]. split; [by eapply relay_steady|]. destruct Hs as [Ho _].
  destruct res as [[p|]|]; [by eapply position_later| |done].
  rewrite (on_config _ _ _ Ho). eapply all_settled_later; [apply Ho|done].
Qed.

Lemma finish_page_ok target p :
  triple (fun r => relay_ok r /\ position_ok target r p) (finish_page p) (page_post target).
Proof.
  intros r [Hr Hp]. unfold finish_page, io_bind.
  pose proof (steady_process feed (hf_grows _ _ Hhonest) (pos_resume p) (pos_watermark p) r) as Hst.
  destruct (process_page _ _ r) as [[outcome|e] r1] eqn:Hpp; simpl in Hst; cycle 1.
  { split; [by eapply relay_steady|done]. }
  pose proof Hst as [Ho _]. pose proof Hr as [_ [rng Hm]]. pose proof Hp as [Hw Hres].
  apply process_page_Ok with (rng := rng) in Hpp as (w & Hgw & Hgw' & Hout); [|done| |exact Hw]; cycle 1.
  { destruct (pos_resume p); simpl; [|reflexivity].
    destruct Hres as (walked & _ & Hsuf & _). etransitivity; [|exact Hsuf]. by apply suffix_app_r. }
  destruct (after_page p outcome) as [next saved] eqn:Ha.
  destruct (after_page_ok _ _ _ _ _ _ _ _ Hp Ho Hgw Hgw' Hout Ha) as [Hc Hn].
  assert (Hpost : relay_ok r1 -> page_post target (Ok next) r1).
  { intros Hr1. split; [done|]. destruct next; [by destruct Hn|done]. }
  case_bool_decide; [apply Hpost; by eapply relay_steady|].
  pose proof (onward_set_state feed (hf_grows _ _ Hhonest) saved r1) as [Ho2 Hfile].
  destruct (set_state saved r1) as [[[]|e] r2] eqn:Hset; simpl in *; cycle 1.
  { split; [|done]. eapply relay_steady; [|by eapply relay_steady]. by split. }
  split.
  - eapply (relay_saved saved r); [by etransitivity|done| |done].
    rewrite (on_config _ _ _ Ho2). eapply covered_later; [apply Ho2|exact (on_feed _ _ _ Ho2)|done].
  - destruct next; [destruct Hn; by eapply position_later|].
    rewrite (on_config _ _ _ Ho2). eapply all_settled_later; [apply Ho2|done].
Qed.

Lemma run_page_ok target p :
  triple (fun r => relay_ok r /\ position_ok target r p) (run_page p) (page_post target).
Proof.
  intros r Hr. pose proof (finish_page_ok target p r Hr) as Hf. unfold run_page, io_bind, io_try.
  destruct (finish_page p r) as [res r1]. simpl in Hf.
  pose proof (steady_report feed (hf_grows _ _ Hhonest) r1) as Hrep.
  destruct (report_unminted r1) as [[[]|e] r2]; simpl in Hrep;
    pose proof (page_post_later _ _ _ _ Hrep Hf) as Hpost; [|by destruct Hpost].
  destruct res as [next|failure]; [exact Hpost|].
  destruct (is_expired_submission _); [|exact Hpost].
  pose proof (steady_limit (E := RelayFailure) feed r2) as Hl. exact (page_post_later _ _ _ _ Hl Hpost).
Qed.

(** The rule for a question to the outside world that only looks. *)
Lemma ask_ok {E} (f : W -> bool * W) (P : Relayer W -> Prop) :
  keeps (E := E) (steady feed) (ask_world f) -> (forall r r', steady feed r r' -> P r -> P r') ->
  triple P (ask_world (E := E) f) (fun _ => P).
Proof. intros Hk HP r Hr. exact (HP _ _ (Hk r) Hr). Qed.

(** What a scan, or the pages of one, may come to. *)
Definition scan_post (target : list Value) (res : result RelayFailure (option ScanOutcome)) r : Prop :=
  relay_ok r /\
  (res = Ok (Some Complete) -> Forall (settled (rl_config r) (rl_trace r)) target).

Lemma scan_pages_ok target fuel p :
  triple (fun r => relay_ok r /\ position_ok target r p) (scan_pages fuel p) (scan_post target).
Proof.
  assert (Hpre : forall p r r', steady feed r r' ->
    relay_ok r /\ position_ok target r p -> relay_ok r' /\ position_ok target r' p).
  { intros q r r' Hs [Hr Hp]. split; [by eapply relay_steady|]. eapply position_later; [apply Hs|done]. }
  revert p; induction fuel as [|fuel IH]; intros p; simpl; [by intros r [Hr _]|].
  apply triple_seq; [by apply ask_ok; [apply steady_cancelled, Hhonest|apply Hpre]| |by intros e r [Hr _]].
  intros [|]; [by intros r [Hr _]|].
  apply (triple_bind _ _ _ (page_post target)); [apply run_page_ok| |by intros e r [Hr _]].
  intros next. apply triple_seq.
  - apply ask_ok; [apply steady_cancelled, Hhonest|intros r r'; apply page_post_later].
  - intros [|]; [by intros r [Hr _]|]. destruct next as [p'|]; [apply IH|]. by intros r [Hr Hs].
  - by intros e r [Hr _].
Qed.

(** What a scan sets out to handle: the feed as it is, or from an interrupted scan's head down. *)
Definition scan_target (st : State) r : list Value -> Prop := fun target =>
  match st_scan st with
  | None => target = feed (rl_world r)
  | Some p => exists newer v handled, feed (rl_world r) = newer ++ target /\
      target = (v :: handled) ++ older (sp_resume p) /\ value_hash v = Some (sp_head p)
  end.

Lemma from_state_ok st r :
  covered older (rl_config r) (rl_trace r) (feed (rl_world r)) st ->
  exists target, scan_target st r target /\ position_ok target r (from_state st).
Proof.
  intros [Hw Hp]. unfold scan_target, position_ok. destruct st as [wm [[h c]|]]; simpl in *.
  - destruct (Hp _ eq_refl) as (newer & v & handled & Hl & Hv & Hs). simpl in Hl, Hv.
    exists ((v :: handled) ++ older c). split; [by exists newer, v, handled|]. split; [exact Hw|].
    exists (v :: handled). split_and!; [done|by exists newer|done|].
    intros ? [= <-]. by exists [], v, handled.
  - exists (feed (rl_world r)). split; [done|]. by split.
Qed.

Lemma load_state_Ok r st r1 : load_state r = (Ok st, r1) -> read_state (rl_file r) = Ok st.
Proof.
  unfold load_state. intros Hl. pose proof (steady_ask (E := RelayFailure) feed fs_reads
    (grew_reads _ (hf_grows _ _ Hhonest)) r) as [_ Hf].
  apply io_bind_Ok in Hl as (readable & r2 & Ha & Hl). rewrite Ha in Hf. simpl in Hf.
  apply io_bind_Ok in Hl as (file & ? & [= <- <-] & [= Hst _]). rewrite Hf in Hst.
  destruct readable; [|done]. destruct (read_state (rl_file r)); simpl in Hst; congruence.
Qed.

Lemma scan_ok fuel r :
  relay_ok r ->
  relay_ok (scan fuel r).2 /\
  ((scan fuel r).1 = Ok (Some Complete) -> exists st target, read_state (rl_file r) = Ok st /\
     scan_target st r target /\
     Forall (settled (rl_config r) (rl_trace (scan fuel r).2)) target).
Proof.
  intros Hr. unfold scan, io_bind. pose proof (steady_load feed (hf_grows _ _ Hhonest) r) as Hst.
  destruct (load_state r) as [[st|e] r1] eqn:Hl; simpl in Hst |- *; cycle 1.
  { split; [by eapply relay_steady|done]. }
  apply load_state_Ok in Hl. pose proof Hst as [Ho _].
  destruct (from_state_ok st r) as (target & Ht & Hp); [by apply Hr|].
  assert (Hr1 : relay_ok r1 /\ position_ok target r1 (from_state st)).
  { split; [by eapply relay_steady|by eapply position_later]. }
  destruct (scan_pages_ok target fuel _ _ Hr1) as [Hr2 Hc]. split; [done|].
  intros Hres. exists st, target. split_and!; [done|done|]. specialize (Hc Hres).
  pose proof (onward_scan_pages feed (hf_grows _ _ Hhonest) fuel (from_state st) r1) as H12.
  rewrite (on_config _ _ _ H12), (on_config _ _ _ Ho) in Hc. exact Hc.
Qed.

Lemma run_until_ok scans pages : triple relay_ok (run_until scans pages) (fun _ => relay_ok).
Proof.
  induction scans as [|scans IH]; simpl; [by intros r Hr|].
  apply triple_seq; [by apply ask_ok; [apply steady_cancelled, Hhonest|apply relay_steady]| |done].
  intros [|]; [by intros r Hr|]. apply triple_seq; [| |done].
  { intros r Hr. unfold io_try. pose proof (scan_ok pages r Hr) as [Hs _]. by destruct (scan pages r). }
  intros [[[]|]|]; [|by intros r Hr|by intros r Hr|];
    (apply triple_seq; [by intros r Hr| |done]; intros config;
     apply triple_seq; [by apply ask_ok; [apply steady_pause, Hhonest|apply relay_steady]| |done];
     intros [|]; [by intros r Hr|exact IH]).
Qed.
End scan.
