(* ===== verification/RelayerProps.v ===== *)
(** The deposit relayer: its saved progress is true across runs, crashes and restarts; a scan that
    completes has handled the feed; a scan ends; and what a page may put on chain. *)
From S2P Require Import Prelude Text Telemetry Foreign Wire Feed Mint Io MidenNode Relayer.
From S2P Require Import RelayerFacts RelayerScan.
Local Open Scope Z_scope.
Local Open Scope io_scope.

Section lives.
Context `{MintLib, FeedLib, StateJson, WebLib} {W : Type} `{!MidenClient W, !RelayWorld W}.
Context (feed : W -> list Value) (older : CircleCursor -> list Value).
Implicit Types r : Relayer W.

(** A new process over the progress file the last one left. The record of what was done is kept
    across processes; everything else in memory is new. *)
Definition restart (config : Config) (rng : Rng) (w : W) r : Relayer W :=
  {| rl_config := config;
     rl_circle := {| cc_base_url := rc_circle_url config;
                     cc_page_size := effective_page_size config |};
     rl_file := rl_file r;
     rl_minter := Minter_from_config config rng;
     rl_unminted := [];
     rl_world := w;
     rl_trace := rl_trace r |}.

(** Every relayer of a deployment: processes that start, run, stop anywhere a call of the outside
    world fails from then on, and are started again later. *)
Inductive lives (config : Config) : Relayer W -> Prop :=
| installed rng w : lives config (assembled config rng NoFile w)
| started builds r : lives config r -> lives config (Relayer_new config builds r).2
| ran scans pages r : lives config r -> lives config (run_until scans pages r).2
| restarted rng w r : lives config r -> grew feed (rl_world r) w -> lives config (restart config rng w r).
End lives.

Section props.
Context `{MintLib, FeedLib, StateJson, WebLib} {W : Type} `{!MidenClient W, !RelayWorld W}.
Context `{!StateJsonLaws} (feed : W -> list Value) (older : CircleCursor -> list Value).
Context (Hhonest : honest_feed feed older).
Implicit Types r : Relayer W.

Lemma relay_ok_new config builds r :
  relay_ok feed older r ->
  relay_ok feed older (Relayer_new config builds r).2 /\
  rl_config (Relayer_new config builds r).2 = rl_config r.
Proof.
  intros Hr. pose proof (hf_grows _ _ Hhonest) as Hg. unfold Relayer_new, io_bind.
  destruct (validate_prover config); [|by split]. simpl. unfold io_map_err.
  pose proof (steady_load feed Hg r) as Hst.
  destruct (load_state r) as [[st|e] r1] eqn:Hl; simpl in Hst |- *; pose proof Hst as [Ho _];
    [|split; [by eapply relay_steady|by apply (on_config feed)]].
  apply (load_state_Ok feed older Hhonest) in Hl.
  pose proof (onward_set_state feed Hg st r1) as [Ho2 Hf].
  destruct (set_state st r1) as [[[]|e] r2]; simpl in *;
    assert (H02 : onward feed r r2) by (by etransitivity); cycle 1.
  { split; [|by apply (on_config feed)]. eapply relay_steady; [|by eapply relay_steady]. by split. }
  assert (Hr2 : relay_ok feed older r2).
  { eapply (relay_saved _ _ st r); [done|done| |done]. rewrite (on_config _ _ _ H02).
    eapply covered_later; [apply H02|exact (on_feed _ _ _ H02)|by apply Hr]. }
  pose proof (on_config _ _ _ H02) as Hc. by destruct (CircleClient_new _ _ _ _).
Qed.

Lemma lives_ok config r : lives feed config r -> relay_ok feed older r /\ rl_config r = config.
Proof.
  induction 1 as [rng w|builds r _ [Hr Hc]|scans pages r _ [Hr Hc]|rng w r _ [Hr Hc] Hg].
  - split; [|done]. split; [|by exists rng]. intros st [= <-]. apply covered_default.
  - apply (relay_ok_new config builds) in Hr as [Hr Ho]. split; [done|].
    by rewrite Ho.
  - split; [by apply run_until_ok|].
    by rewrite (on_config _ _ _ (onward_run_until feed (hf_grows _ _ Hhonest) scans pages r)).
  - split; [|done]. split; [|by exists rng]. intros st Hst. simpl. rewrite <-Hc.
    eapply covered_later; [reflexivity|exact Hg|by apply Hr].
Qed.

(** C2. Whatever the progress file says is true, in every process of a deployment and whatever
    failed before: the feed holds the deposit the watermark names, and no note can be made of that
    deposit and of each older one, or the faucet's map holds its nonce, or its note is on chain. The
    same holds of what an interrupted scan walked, from its head to the page it resumes at. *)
Theorem progress_covers_feed config r st :
  lives feed config r -> read_state (rl_file r) = Ok st ->
  (forall h, st_watermark st = Some h -> exists newer v rest,
     feed (rl_world r) = newer ++ v :: rest /\ value_hash v = Some h /\
     Forall (settled config (rl_trace r)) (v :: rest)) /\
  (forall p, st_scan st = Some p -> exists newer v walked,
     feed (rl_world r) = newer ++ (v :: walked) ++ older (sp_resume p) /\
     value_hash v = Some (sp_head p) /\
     Forall (settled config (rl_trace r)) (v :: walked)).
Proof.
  intros [[Hp _] Hc]%lives_ok Hst. destruct (Hp st Hst) as [Hw Hs]. rewrite Hc in Hw, Hs.
  split; [|exact Hs]. intros h Hh. destruct (Hw h Hh) as (newer & v & rest & Hf & Hv & Ha).
  exists newer, v, rest. by rewrite app_nil_r in Hf.
Qed.

(** C13. A scan that completes has handled every deposit the feed held when it started, or, if it
    resumed an interrupted one, every deposit from that scan's head down. *)
Theorem complete_scan_handles_feed config r fuel :
  lives feed config r -> (scan fuel r).1 = Ok (Some Complete) ->
  exists st newer target, read_state (rl_file r) = Ok st /\
    feed (rl_world r) = newer ++ target /\
    Forall (settled config (rl_trace (scan fuel r).2)) target /\
    match st_scan st with
    | None => newer = []
    | Some p => exists v rest, target = v :: rest /\ value_hash v = Some (sp_head p)
    end.
Proof.
  intros [Hr Hc]%lives_ok Hres.
  destruct (scan_ok feed older Hhonest fuel r Hr) as [_ Hs].
  destruct (Hs Hres) as (st & target & Hst & Ht & Ha). rewrite Hc in Ha. unfold scan_target in Ht.
  exists st. destruct (st_scan st) as [p|].
  - destruct Ht as (newer & v & handled & Hf & -> & Hv). exists newer, ((v :: handled) ++ older (sp_resume p)).
    split_and!; [done..|]. by exists v, (handled ++ older (sp_resume p)).
  - subst. exists [], (feed (rl_world r)). by split_and!.
Qed.

(** ** Scans end *)

(** A page with a cursor for more entries is not empty. *)
Definition pages_not_empty : Prop :=
  forall client domain resume w reply w' page cursor,
  feed_get (page_url client domain resume) w = (reply, w') -> read_page client reply = Ok page ->
  page_next page = Some cursor -> page_entries page <> [].

Context (Hpages : pages_not_empty).

Lemma process_page_shorter resume watermark r outcome r' cursor :
  process_page resume watermark r = (Ok outcome, r') -> po_next outcome = Some cursor ->
  exists w, grew feed w (rl_world r') /\
    (length (older cursor) < length (below feed older w resume))%nat.
Proof.
  intros (page & r1 & Hf & Hp)%io_bind_Ok Hn. exists (rl_world r1).
  pose proof (steady_mint feed (hf_grows _ _ Hhonest) watermark page r1) as [Ho _]. rewrite Hp in Ho.
  split; [exact (on_feed _ _ _ Ho)|].
  assert (Hnext : page_next page = Some cursor).
  { unfold mint_page in Hp. apply io_bind_Ok in Hp as (built & r2 & _ & Hp).
    apply io_bind_Ok in Hp as (unminted & r3 & _ & Hp).
    apply io_bind_Ok in Hp as (u & r4 & _ & [= <- _]). simpl in Hn. by destruct (reached _ _). }
  apply fetch_page_read in Hf as (reply & Hget & Hread).
  pose proof (Hpages _ _ _ _ _ _ _ _ Hget Hread Hnext) as Hne.
  destruct (hf_serves _ _ Hhonest _ _ _ _ _ _ _ Hget Hread) as (values & rest & -> & He & Hrest).
  rewrite Hnext in Hrest. subst rest. rewrite He in Hne. rewrite length_app.
  destruct values; simpl; [done|lia].
Qed.

Lemma run_page_shorter p r p' r' :
  run_page p r = (Ok (Some p'), r') ->
  exists w cursor, grew feed w (rl_world r') /\ pos_resume p' = Some cursor /\
    (length (older cursor) < length (below feed older w (pos_resume p)))%nat.
Proof.
  intros (res & r1 & Hf & Hp)%io_bind_Ok. pose proof (hf_grows _ _ Hhonest) as Hg.
  apply io_bind_Ok in Hp as (u & r2 & Hrep & Hp).
  pose proof (steady_report feed Hg r1) as [Hor _]. rewrite Hrep in Hor. simpl in Hor.
  unfold io_try in Hf. destruct (finish_page p r) as [res' r1'] eqn:Hfp. injection Hf as -> ->.
  destruct res as [next|failure]; [injection Hp as -> <-|by apply io_bind_Ok in Hp as (? & ? & _ & ?)].
  apply io_bind_Ok in Hfp as (outcome & r3 & Hpp & Hfp).
  destruct (after_page p outcome) as [next saved] eqn:Ha.
  apply io_bind_Ok in Hfp as (v & r4 & Hs & [= -> <-]).
  assert (Ho : onward feed r3 r4).
  { case_bool_decide; [by injection Hs as _ <-|].
    pose proof (onward_set_state feed Hg saved r3) as [Ho _]. by rewrite Hs in Ho. }
  unfold after_page in Ha. destruct (po_next outcome) as [cursor|] eqn:Hn; [|done].
  injection Ha as <- _.
  destruct (process_page_shorter _ _ _ _ _ _ Hpp Hn) as (w & Hw & Hlt). exists w, cursor.
  split_and!; [|done|done]. pose proof (on_feed _ _ _ Ho). pose proof (on_feed _ _ _ Hor).
  etransitivity; [exact Hw|]. by etransitivity.
Qed.

Lemma scan_pages_resume_ends fuel p r cursor :
  pos_resume p = Some cursor -> (length (older cursor) < fuel)%nat ->
  (scan_pages fuel p r).1 <> Ok None.
Proof.
  revert p r cursor; induction fuel as [|fuel IH]; intros p r cursor Hc Hlt; [lia|]. simpl.
  unfold io_bind at 1. destruct (ask_world relay_cancelled r) as [[[|]|e] r1]; simpl; [done| |done].
  unfold io_bind at 1. destruct (run_page p r1) as [[next|e] r2] eqn:Hp; [|done].
  unfold io_bind at 1. destruct (ask_world relay_cancelled r2) as [[[|]|e] r3]; simpl; [done| |done].
  destruct next as [p'|]; [|done].
  apply run_page_shorter in Hp as (w & c' & _ & Hc' & Hs). rewrite Hc in Hs. simpl in Hs.
  eapply IH; [exact Hc'|lia].
Qed.

Lemma suffix_short {A} (l1 l2 : list A) n : l1 `suffix_of` l2 -> (length l2 < n -> length l1 < n)%nat.
Proof. intros Hs%suffix_length. lia. Qed.

Lemma scan_pages_ends fuel p r r' :
  pos_resume p = None -> scan_pages fuel p r = (Ok None, r') ->
  (fuel <= length (feed (rl_world r')))%nat.
Proof.
  intros Hnone Hs. destruct fuel as [|fuel]; [lia|]. simpl in Hs.
  apply io_bind_Ok in Hs as ([|] & r1 & _ & Hs); [done|].
  apply io_bind_Ok in Hs as (next & r2 & Hp & Hs). apply io_bind_Ok in Hs as ([|] & r3 & Hc & Hs); [done|].
  destruct next as [p'|]; [|done].
  apply run_page_shorter in Hp as (w & c' & Hw & Hc' & Hlt). rewrite Hnone in Hlt. simpl in Hlt.
  pose proof (steady_cancelled (E := RelayFailure) feed (hf_grows _ _ Hhonest) r2) as [Ho _]. rewrite Hc in Ho.
  pose proof (onward_scan_pages feed (hf_grows _ _ Hhonest) fuel p' r3) as Ho'.
  pose proof (scan_pages_resume_ends fuel p' r3 _ Hc') as Hends. rewrite Hs in Hends, Ho'.
  simpl in Hends, Ho, Ho'.
  assert (Hsuf : feed w `suffix_of` feed (rl_world r')).
  { etransitivity; [exact Hw|]. etransitivity; [exact (on_feed _ _ _ Ho)|exact (on_feed _ _ _ Ho')]. }
  apply suffix_length in Hsuf. destruct (decide (length (older c') < fuel)%nat); [by apply Hends in l|lia].
Qed.

(** C23. A scan ends: a page for each deposit the feed holds, and one more, are enough, unless it is
    told to stop or fails before. *)
Theorem scan_ends config r fuel :
  lives feed config r -> (length (feed (rl_world (scan fuel r).2)) < fuel)%nat ->
  (scan fuel r).1 <> Ok None.
Proof.
  intros [[Hp _] _]%lives_ok Hlen Hs. destruct (scan fuel r) as [res r'] eqn:Heq. simpl in Hs, Hlen.
  subst res. apply io_bind_Ok in Heq as (st & r1 & Hl & Hs).
  pose proof (steady_load feed (hf_grows _ _ Hhonest) r) as [Ho _]. rewrite Hl in Ho.
  apply (load_state_Ok feed older Hhonest) in Hl. destruct (Hp st Hl) as [_ Hscan].
  destruct st as [wm [[h c]|]]; [|apply scan_pages_ends in Hs; [lia|done]].
  destruct (Hscan _ eq_refl) as (newer & v & handled & Hf & _). simpl in Hf, Ho.
  pose proof (onward_scan_pages feed (hf_grows _ _ Hhonest) fuel (from_state {| st_watermark := wm;
    st_scan := Some {| sp_head := h; sp_resume := c |} |}) r1) as Ho'. rewrite Hs in Ho'. simpl in Ho'.
  eapply (scan_pages_resume_ends fuel _ r1 c); [| |by rewrite Hs]; [done|].
  eapply suffix_short; [|exact Hlen]. etransitivity; [|exact (on_feed _ _ _ Ho')].
  etransitivity; [|exact (on_feed _ _ _ Ho)]. rewrite Hf. exists (newer ++ v :: handled).
  by rewrite <-app_assoc.
Qed.
End props.
