(* ===== verification/RelayerChain.v ===== *)
(** What the deposit relayer puts on chain: each transaction carries notes of one page, for deposits
    the faucet's map was just asked about and did not hold; and where a scan goes on after a failed page. *)
From S2P Require Import Prelude Text Telemetry Foreign Wire Feed Mint Io MidenNode Relayer.
From S2P Require Import RelayerFacts RelayerScan RelayerProps.
Local Open Scope Z_scope.
Local Open Scope io_scope.

Section chain.
Context `{MintLib, FeedLib, StateJson, WebLib} {W : Type} `{!MidenClient W, !RelayWorld W}.
Context (limit : Z).
Implicit Types r : Relayer W.

(** A transaction of at most [limit] notes, for deposits an answer of the faucet's map left, submitted
    right after that answer: nothing happened to the client in between. *)
Definition submission_ok (notes : list MidenNote) (transaction : TransactionId)
    (earlier : list RelayAction) : Prop :=
  exists asked unminted before minted w w1 w2, earlier = Checked asked unminted :: before /\
    notes = note_of_mint <$> minted /\ minted <> [] /\
    Forall (fun note => mint_nonce note ∈ asked /\ mint_nonce note ∈ unminted) minted /\
    Z.of_nat (length minted) <= limit /\
    mc_retain_unminted asked w = (Ok unminted, w1) /\ mc_submit_notes notes w1 = (Ok transaction, w2).

Fixpoint submissions_ok (tr : list RelayAction) : Prop :=
  match tr with
  | [] => True
  | OnChain notes transaction :: earlier =>
      submission_ok notes transaction earlier /\ submissions_ok earlier
  | _ :: earlier => submissions_ok earlier
  end.

Lemma submissions_split later notes transaction earlier :
  submissions_ok (later ++ OnChain notes transaction :: earlier) ->
  submission_ok notes transaction earlier.
Proof. induction later as [|[] later IH]; simpl; tauto. Qed.

Definition chain_ok r : Prop := submissions_ok (rl_trace r) /\ cc_page_size (rl_circle r) <= limit.
Definition chain_kept r r' : Prop := chain_ok r -> chain_ok r'.
#[global] Instance chain_kept_refl : Reflexive chain_kept.
Proof. by intros r Hr. Qed.
#[global] Instance chain_kept_trans : Transitive chain_kept.
Proof. intros r1 r2 r3 H12 H23 Hr. by apply H23, H12. Qed.

Lemma chain_world {E A} (m : io W E A) : keeps chain_kept (on_world m).
Proof. intros r. unfold on_world. destruct (m (rl_world r)). intros Hr. exact Hr. Qed.
Lemma chain_ask {E A} (f : W -> A * W) : keeps (E := E) chain_kept (ask_world f).
Proof. apply chain_world. Qed.
Lemma chain_checked {E} asked unminted : keeps (E := E) chain_kept (act (Checked asked unminted)).
Proof. intros r Hr. exact Hr. Qed.
Lemma chain_saved {E} st : keeps (E := E) chain_kept (act (SavedProgress st)).
Proof. intros r Hr. exact Hr. Qed.
Lemma chain_reported {E} n age : keeps (E := E) chain_kept (act (Reported n age)).
Proof. intros r Hr. exact Hr. Qed.
Lemma chain_unminted {E} f : keeps (E := E) chain_kept (io_modify (fun r => put_unminted (f r) r)).
Proof. intros r Hr. exact Hr. Qed.
Lemma chain_file {E} f : keeps (E := E) chain_kept (io_modify (put_file f)).
Proof. intros r Hr. exact Hr. Qed.
Lemma chain_limit {E} :
  keeps (E := E) chain_kept (io_modify (fun r => put_circle (limit_to_local_proving (rl_circle r)).2 r)).
Proof.
  intros r [Ht Hs]. split; [done|]. pose proof (limit_to_local_size (rl_circle r)) as [Hl _].
  simpl in *. lia.
Qed.
#[local] Hint Resolve chain_world chain_ask chain_checked chain_saved chain_reported chain_unminted
  chain_file chain_limit chain_kept_refl chain_kept_trans : io.

Lemma chain_load : keeps chain_kept load_state.
Proof. unfold load_state. eauto 10 with io. Qed.
Lemma chain_report : keeps chain_kept report_unminted.
Proof. unfold report_unminted. eauto 10 with io. Qed.
Lemma chain_set_state st : keeps chain_kept (set_state st).
Proof.
  unfold set_state. apply keeps_bind; [apply _|apply chain_ask|intros [|]]; [|apply keeps_err, _].
  apply keeps_bind; [apply _|apply chain_file|intros _; apply chain_saved].
Qed.

Lemma chain_fetch resume r page r1 :
  fetch_page resume r = (Ok page, r1) -> chain_ok r ->
  chain_ok r1 /\ Z.of_nat (length (page_entries page)) <= limit.
Proof.
  intros Hf Hr. unfold fetch_page in Hf.
  apply io_bind_Ok in Hf as (config & ? & [= <- <-] & Hf).
  apply io_bind_Ok in Hf as (circle & ? & [= <- <-] & Hf).
  apply io_bind_Ok in Hf as (reply & r2 & Hg & [= Hread <-]).
  pose proof (chain_ask (E := RelayFailure) (feed_get
    (page_url (rl_circle r) (rc_remote_domain (rl_config r)) resume)) r Hr) as Hk.
  rewrite Hg in Hk. split; [exact Hk|]. apply read_page_size in Hread. destruct Hr. lia.
Qed.

Lemma chain_build fresh : keeps chain_kept (build_page fresh).
Proof.
  intros r. unfold build_page, io_bind, io_gets. destruct (build_notes (rl_minter r) fresh).
  intros Hr. exact Hr.
Qed.

Lemma fresh_length watermark entries : (length (fresh_entries watermark entries) <= length entries)%nat.
Proof. unfold fresh_entries. destruct (reached _ _); [rewrite length_take; lia|done]. Qed.

(** The step that submits: the answer it follows is the last thing done. *)
Lemma chain_submit asked unminted before notes w r :
  rl_trace r = Checked asked unminted :: before ->
  mc_retain_unminted asked w = (Ok unminted, rl_world r) ->
  notes <> [] -> Forall (fun note => mint_nonce note ∈ asked /\ mint_nonce note ∈ unminted) notes ->
  Z.of_nat (length notes) <= limit -> chain_ok r -> chain_ok (submit_page notes r).2.
Proof.
  intros Ht Hask Hne Hall Hlen [Hr Hs]. unfold submit_page, io_bind.
  unfold on_world at 1. destruct (mc_submit_notes _ _) as [[tx|e] w1] eqn:Hsub; [|done]. simpl.
  unfold ask_world, on_world. destruct (instant_now _) as [now w']. simpl.
  split; [|exact Hs]. simpl. split; [|done]. rewrite Ht.
  exists asked, unminted, before, notes, w, (rl_world r), w1. by split_and!.
Qed.

Lemma check_unminted_asked notes r unminted r' :
  check_unminted notes r = (Ok unminted, r') ->
  exists asked before w, rl_trace r' = Checked asked unminted :: before /\
    mint_nonce <$> notes ⊆ asked /\ mc_retain_unminted asked w = (Ok unminted, rl_world r').
Proof.
  intros Hc. pose proof Hc as (asked & before & Ht & Hask)%check_unminted_Ok.
  exists asked, before, (rl_world r). split; [exact Ht|]. split; [exact Hask|].
  unfold check_unminted, io_bind, io_gets, on_world, act, io_modify, io_ret in Hc. cbn beta in Hc.
  destruct (mc_retain_unminted _ (rl_world r)) as [[x|e] w] eqn:Hr; [|done].
  injection Hc as -> <-. simpl in *. by injection Ht as <- _.
Qed.

Lemma chain_check notes : keeps chain_kept (check_unminted notes).
Proof. unfold check_unminted. eauto 10 with io. Qed.

Lemma chain_mint watermark page r :
  Z.of_nat (length (page_entries page)) <= limit -> chain_ok r -> chain_ok (mint_page watermark page r).2.
Proof.
  intros Hlen Hr. unfold mint_page, io_bind at 1.
  pose proof (chain_build (fresh_entries watermark (page_entries page)) r Hr) as Hr1.
  destruct (build_page _ r) as [[built|e] r1] eqn:Hb; [|done]. simpl in Hr1.
  assert (Hbuilt : (length (bn_notes built) <= length (page_entries page))%nat).
  { unfold build_page, io_bind, io_gets in Hb. simpl in Hb.
    pose proof (build_notes_length (rl_minter r) (fresh_entries watermark (page_entries page))) as Hl.
    destruct (build_notes _ _) as [b m]. injection Hb as <- _. simpl in Hl.
    pose proof (fresh_length watermark (page_entries page)). lia. }
  unfold io_bind at 1. pose proof (chain_check (bn_notes built) r1 Hr1) as Hr2.
  destruct (check_unminted _ r1) as [[unminted|e] r2] eqn:Hc; [|done]. simpl in Hr2.
  apply check_unminted_asked in Hc as (asked & before & w & Ht & Hask & Hw).
  set (notes := List.filter _ _). unfold io_bind.
  case_bool_decide as Hne; [exact Hr2|].
  assert (Hr3 : chain_ok (submit_page notes r2).2).
  { eapply chain_submit; [exact Ht|exact Hw|exact Hne| | |exact Hr2].
    - apply Forall_forall. intros n Hn. apply list_elem_of_In, filter_In in Hn as [Hn Hu].
      apply bool_decide_eq_true in Hu. split; [|done]. apply Hask, list_elem_of_fmap_2.
      by apply list_elem_of_In.
    - pose proof (List.filter_length_le (fun n => bool_decide (mint_nonce n ∈ unminted)) (bn_notes built)).
      unfold notes. lia. }
  destruct (submit_page notes r2) as [[u|e] r3]; exact Hr3.
Qed.

Lemma chain_finish p : keeps chain_kept (finish_page p).
Proof.
  unfold finish_page. apply keeps_bind; [apply _| |intros outcome].
  - intros r Hr. unfold process_page, io_bind.
    destruct (fetch_page _ r) as [[page|e] r1] eqn:Hf.
    + apply chain_fetch in Hf as [Hr1 Hlen]; [|done]. by apply chain_mint.
    + unfold fetch_page in Hf. apply io_bind_Err in Hf as [?|(c & ? & [= <- <-] & Hf)]; [done|].
      apply io_bind_Err in Hf as [?|(circle & ? & [= <- <-] & Hf)]; [done|].
      pose proof (chain_ask (E := RelayFailure) (feed_get
        (page_url (rl_circle r) (rc_remote_domain (rl_config r)) (pos_resume p))) r Hr) as Hk.
      apply io_bind_Err in Hf as [Hf|(reply & r2 & Hf & [= _ <-])]; rewrite Hf in Hk; exact Hk.
  - destruct (after_page p outcome) as [next saved].
    apply keeps_bind; [apply _| |intros _; apply keeps_ret, _].
    case_bool_decide; [apply keeps_ret, _|apply chain_set_state].
Qed.

Lemma chain_run_page p : keeps chain_kept (run_page p).
Proof.
  unfold run_page. apply keeps_bind; [apply _|apply keeps_try, chain_finish|intros finished].
  apply keeps_bind; [apply _|apply chain_report|intros _].
  destruct finished as [next|failure]; [apply keeps_ret, _|].
  apply keeps_bind; [apply _| |intros _; apply keeps_err, _].
  destruct (is_expired_submission _); [apply chain_limit|apply keeps_ret, _].
Qed.

Lemma chain_run_until scans pages : keeps chain_kept (run_until scans pages).
Proof.
  apply keeps_run_until; [apply _..|apply chain_ask|intros d; apply chain_ask|apply chain_load|].
  apply chain_run_page.
Qed.

Lemma chain_new config builds r :
  effective_page_size config <= limit -> chain_ok r -> chain_ok (Relayer_new config builds r).2.
Proof.
  intros Hl Hr. unfold Relayer_new, io_bind.
  destruct (validate_prover config); [|exact Hr]. simpl. unfold io_map_err.
  pose proof (chain_load r Hr) as Hr1. destruct (load_state r) as [[st|e] r1]; [|exact Hr1]. simpl in *.
  pose proof (chain_set_state st r1 Hr1) as Hr2.
  destruct (set_state st r1) as [[u|e] r2]; [|exact Hr2]. simpl in *.
  destruct (CircleClient_new _ _ _ _) as [client|e] eqn:Hc; [|exact Hr2]. simpl. split; [apply Hr2|].
  unfold CircleClient_new in Hc. inv_ok. simpl. exact Hl.
Qed.
End chain.

Section chain_props.
Context `{MintLib, FeedLib, StateJson, WebLib} {W : Type} `{!MidenClient W, !RelayWorld W}.
Context (feed : W -> list Value).
Implicit Types r : Relayer W.

Lemma lives_chain config r : lives feed config r -> chain_ok (effective_page_size config) r.
Proof.
  induction 1 as [rng w|builds r _ IH|scans pages r _ IH|rng w r _ [IH _] _].
  - by split.
  - by apply chain_new.
  - by apply chain_run_until.
  - by split.
Qed.

(** C14. A transaction carries the notes of one page: at least one, no more than the configured page
    size, 40, or 10 where the relayer proves locally, and only notes whose nonces the faucet's map
    did not hold when it was asked, last thing before. *)
Theorem transaction_carries_unminted_page config r later notes transaction earlier :
  lives feed config r -> rl_trace r = later ++ OnChain notes transaction :: earlier ->
  exists asked unminted before minted, earlier = Checked asked unminted :: before /\
    notes = note_of_mint <$> minted /\ minted <> [] /\
    Forall (fun note => mint_nonce note ∈ asked /\ mint_nonce note ∈ unminted) minted /\
    Z.of_nat (length minted) <= rc_page_size config /\
    Z.of_nat (length minted) <= match rc_prover_url config with Some _ => 40 | None => 10 end.
Proof.
  intros [Hr _]%lives_chain Ht. rewrite Ht in Hr.
  apply submissions_split in Hr as (asked & unminted & before & minted & w & w1 & w2 & -> & -> & Hne & Hall & Hlen & _).
  exists asked, unminted, before, minted. unfold effective_page_size in Hlen.
  split_and!; [done..|lia|]. destruct (rc_prover_url config); unfold REMOTE_PROVING_MAX, LOCAL_PROVING_MAX in *; lia.
Qed.

(** With no feed to look at, every call of the outside world is one of an honest feed's. *)
Lemma no_feed_grows : feed_grows (fun _ : W => []).
Proof. split; intros; intros w; unfold grew; reflexivity. Qed.

Lemma failed_page_steady position r failure r1 :
  finish_page position r = (Err failure, r1) -> steady (fun _ => []) r r1.
Proof.
  pose proof no_feed_grows as Hg. intros [Hp|(outcome & r2 & Hp & Hf)]%io_bind_Err;
    pose proof (steady_process _ Hg (pos_resume position) (pos_watermark position) r) as Hst;
    rewrite Hp in Hst; [exact Hst|].
  destruct (after_page position outcome) as [next saved].
  apply io_bind_Err in Hf as [Hs|(u & r3 & _ & Hf)]; [|done]. case_bool_decide; [done|].
  pose proof (onward_set_state _ Hg saved r2) as [Ho Hfile]. rewrite Hs in Ho, Hfile.
  etransitivity; [exact Hst|]. by split.
Qed.

(** The report of a page never fails. *)
Lemma io_bind_report {A} (k : unit -> io (Relayer W) RelayFailure A) r :
  io_bind report_unminted k r = k tt (report_unminted r).2.
Proof.
  unfold report_unminted, io_bind, io_gets, ask_world, on_world. by destruct (instant_now (rl_world r)).
Qed.

(** ** Where the next scan resumes *)

(** A position read from the file or met on a walk: its hashes are real ones, and its head is known
    only once there is a page to resume at. *)
Definition position_hashed (p : Position) : Prop :=
  (forall h, pos_watermark p = Some h -> hash_ok h) /\
  (forall h, pos_head p = Some h -> hash_ok h /\ is_Some (pos_resume p)).

(** The position a scan starts from after reading what [position_state p] saves: [p] itself, or, when
    the walk has met no readable hash yet, the head page with the same watermark. *)
Definition resumed (p : Position) : Position :=
  match pos_head p with
  | Some _ => p
  | None => {| pos_watermark := pos_watermark p; pos_head := None; pos_resume := None |}
  end.

Lemma from_position_state p : position_hashed p -> from_state (position_state p) = resumed p.
Proof.
  intros [_ Hh]. unfold from_state, position_state, resumed. destruct p as [wm [h|] rs]; simpl in *; [|done].
  by destruct (Hh h eq_refl) as [_ [c ->]].
Qed.

Lemma position_state_ok p : position_hashed p -> state_ok (position_state p).
Proof.
  intros [Hw Hh]. split; [exact Hw|]. simpl. intros sp.
  destruct (pos_head p) as [h|] eqn:He, (pos_resume p); try done. intros [= <-]. by apply Hh.
Qed.

Lemma optional_Some {A} (read : Value -> option A) field a :
  optional read field = Some (Some a) -> exists v, read v = Some a.
Proof.
  unfold optional. destruct field as [[]|]; try done; simpl; intros (a' & Hr & [= ->])%fmap_Some; eauto.
Qed.

Lemma ScanProgress_read v p : ScanProgress_deserialize v = Some p -> hash_ok (sp_head p).
Proof.
  unfold ScanProgress_deserialize.
  destruct (struct_fields _ v) as [[|[h|] [|[c|] [|]]]|]; try done.
  destruct (MessageHash_deserialize h) as [hash|] eqn:Hh; simpl; [|done].
  destruct (as_str c); simpl; [|done]. intros [= <-]. by eapply MessageHash_read.
Qed.

Lemma state_file_ok file st : read_state file = Ok st -> state_ok st.
Proof.
  assert (Hd : state_ok State_default) by (by split). unfold read_state.
  destruct file as [| |text]; [by intros [= <-]|done|]. destruct (is_blank text); [by intros [= <-]|].
  destruct (json_raw text) as [v|]; simpl; [|done]. unfold State_deserialize.
  destruct (struct_fields _ v) as [[|w [|sc [|]]]|]; try done.
  destruct (optional MessageHash_deserialize w) as [wm|] eqn:Hw; simpl; [|done].
  destruct (optional ScanProgress_deserialize sc) as [sp|] eqn:Hs; simpl; [|done]. intros [= <-].
  split; simpl.
  - intros h ->. apply optional_Some in Hw as [? Hh]. by eapply MessageHash_read.
  - intros p ->. apply optional_Some in Hs as [? Hp]. by eapply ScanProgress_read.
Qed.

Lemma from_state_hashed st : state_ok st -> position_hashed (from_state st) /\ position_state (from_state st) = st.
Proof.
  intros [Hw Hp]. destruct st as [wm [[h c]|]]; simpl in *; (split; [split; [exact Hw|]|done]); simpl; [|done].
  intros h' [= <-]. split; [exact (Hp _ eq_refl)|by eexists].
Qed.

(** The hashes a page hands on were read from it. *)
Lemma newest_hash_ok resume watermark r outcome r' h :
  process_page resume watermark r = (Ok outcome, r') -> po_newest outcome = Some h -> hash_ok h.
Proof.
  intros Hp Hn. unfold process_page, mint_page in Hp. apply io_bind_Ok in Hp as (page & r1 & Hf & Hp).
  apply io_bind_Ok in Hp as (? & ? & _ & Hp). apply io_bind_Ok in Hp as (? & ? & _ & Hp).
  apply io_bind_Ok in Hp as (? & ? & _ & [= <- _]). simpl in Hn.
  apply fetch_page_read in Hf as (reply & _ & Hr). unfold read_page in Hr.
  destruct reply as [|status link chunks]; [done|]. inv_ok.
  match goal with E : Page_decode _ _ = _ |- _ => unfold Page_decode in E end. inv_ok.
  apply newest_value in Hn as (_ & v & _ & _ & Hv). by eapply value_hash_ok.
Qed.

Lemma after_page_hashed p outcome p' saved :
  position_hashed p -> (forall h, po_newest outcome = Some h -> hash_ok h) ->
  after_page p outcome = (Some p', saved) -> position_hashed p' /\ saved = position_state p'.
Proof.
  intros [Hw Hh] Hn. unfold after_page. destruct (po_next outcome) as [c|]; [|done]. intros [= <- <-].
  split; [|done]. split; simpl; [exact Hw|]. intros h Hhead. split; [|by eexists].
  destruct (pos_head p) as [h'|]; simplify_eq; [by apply Hh|by apply Hn].
Qed.

Context `{!StateJsonLaws}.

Lemma load_reads r st r1 : load_state r = (Ok st, r1) -> read_state (rl_file r) = Ok st.
Proof.
  unfold load_state, io_bind, ask_world, on_world, io_gets, io_lift.
  destruct (fs_reads (rl_world r)) as [[] w]; simpl; [|done].
  destruct (read_state (rl_file r)); simpl; [|done]. by intros [= <- _].
Qed.

(** Between two pages the file says where the walk is. *)
Definition on_file (p : Position) r : Prop :=
  position_hashed p /\ read_state (rl_file r) = Ok (position_state p).

Lemma finish_page_on_file p r p' r' :
  on_file p r -> finish_page p r = (Ok (Some p'), r') -> on_file p' r'.
Proof.
  pose proof no_feed_grows as Hg. intros [Hp Hf] Hfin. apply io_bind_Ok in Hfin as (outcome & r1 & Hpr & Hfin).
  pose proof (steady_process _ Hg (pos_resume p) (pos_watermark p) r) as [_ Hf1]. rewrite Hpr in Hf1. simpl in Hf1.
  destruct (after_page p outcome) as [next saved] eqn:Ha.
  apply io_bind_Ok in Hfin as (u & r2 & Hs & [= -> ->]).
  destruct (after_page_hashed p outcome p' saved Hp) as [Hp' ->]; [|done|].
  { intros h. by eapply newest_hash_ok. }
  split; [exact Hp'|]. case_bool_decide as He.
  - injection Hs as _ <-. by rewrite Hf1, He.
  - pose proof (onward_set_state _ Hg (position_state p') r1) as [_ Hfile]. rewrite Hs in Hfile. simpl in Hfile.
    rewrite Hfile. by apply read_written_state, position_state_ok.
Qed.

Lemma run_page_on_file p r p' r' : on_file p r -> run_page p r = (Ok (Some p'), r') -> on_file p' r'.
Proof.
  pose proof no_feed_grows as Hg. intros Hp Hrun.
  apply io_bind_Ok in Hrun as (res & r1 & Hf & Hrun).
  unfold io_try in Hf. destruct (finish_page p r) as [fin r1'] eqn:Hfin. injection Hf as -> ->.
  pose proof (steady_report _ Hg r1) as [_ Hrf]. rewrite io_bind_report in Hrun.
  destruct res as [next|e]; [|by destruct (is_expired_submission _)]. injection Hrun as -> <-.
  apply finish_page_on_file in Hfin as [Hh Hr]; [|done]. split; [done|]. by rewrite Hrf.
Qed.

(** A scan's walk, from one page to the next. *)
Definition walk_step (at_ next : Position * Relayer W) : Prop :=
  exists r1 r2, ask_world (E := RelayFailure) relay_cancelled at_.2 = (Ok false, r1) /\
    run_page at_.1 r1 = (Ok (Some next.1), r2) /\
    ask_world (E := RelayFailure) relay_cancelled r2 = (Ok false, next.2).

Lemma ask_file {A} (f : W -> A * W) r res r' :
  ask_world (E := RelayFailure) f r = (res, r') -> rl_file r' = rl_file r.
Proof. unfold ask_world, on_world. destruct (f (rl_world r)). by intros [= _ <-]. Qed.

Lemma walk_on_file at_ next :
  star walk_step at_ next -> on_file at_.1 at_.2 -> on_file next.1 next.2.
Proof.
  intros Hs. eapply (star_inv walk_step (fun x => on_file x.1 x.2)); [|exact Hs].
  intros [p r] [p' r'] [Hp Hr] (r1 & r2 & Ha%ask_file & Hrun & Hb%ask_file). simpl in *.
  apply run_page_on_file in Hrun as [Hh Hr']; [|by split; [|rewrite Ha]]. split; [done|]. by rewrite Hb.
Qed.

(** A walk that fails does so in one of its pages. *)
Lemma walk_fails fuel p r failure r' :
  scan_pages fuel p r = (Err failure, r') ->
  exists position r1 r2, star walk_step (p, r) (position, r1) /\
    ask_world (E := RelayFailure) relay_cancelled r1 = (Ok false, r2) /\
    run_page position r2 = (Err failure, r').
Proof.
  assert (Hask : forall r e r', ask_world (E := RelayFailure) relay_cancelled r <> (Err e, r')).
  { intros x e x'. unfold ask_world, on_world. by destruct (relay_cancelled (rl_world x)). }
  revert p r. induction fuel as [|fuel IH]; intros p r; simpl; [done|]. intros Hs.
  apply io_bind_Err in Hs as [Hs|(before & r1 & Ha & Hs)]; [by destruct (Hask _ _ _ Hs)|].
  destruct before; [done|]. apply io_bind_Err in Hs as [Hs|(next & r2 & Hrun & Hs)].
  { exists p, r, r1. split; [apply star_refl|done]. }
  apply io_bind_Err in Hs as [Hs|(after & r3 & Hb & Hs)]; [by destruct (Hask _ _ _ Hs)|].
  destruct after; [done|]. destruct next as [p'|]; [|done].
  apply IH in Hs as (position & r4 & r5 & Hw & Hrest). exists position, r4, r5. split; [|done].
  eapply star_step; [|exact Hw]. by exists r1, r2.
Qed.

Lemma failed_run_page position r failure r' :
  run_page position r = (Err failure, r') ->
  rl_file r' = rl_file r /\
  (is_expired_submission (failure_error failure) = true ->
   forall scans pages, cc_page_size (rl_circle (run_until scans pages r').2) <= 10).
Proof.
  intros Hrun. pose proof no_feed_grows as Hg.
  apply io_bind_Err in Hrun as [Hf|(res & r1 & Hf & Hrun)];
    unfold io_try in Hf; destruct (finish_page position r) as [fin r1'] eqn:Hfin; [done|].
  injection Hf as -> ->. pose proof (steady_report _ Hg r1) as [_ Hrf].
  rewrite io_bind_report in Hrun. set (r2 := (report_unminted r1).2) in *.
  destruct res as [next|e]; [done|]. apply failed_page_steady in Hfin as [_ Hfile].
  destruct (is_expired_submission (failure_error e)) eqn:Hex.
  - injection Hrun as <- <-. split; [simpl; congruence|]. intros _ scans pages.
    etransitivity; [exact (on_page_size _ _ _ (onward_run_until _ Hg scans pages _))|].
    apply limit_to_local_size.
  - injection Hrun as <- <-. split; [congruence|]. by rewrite Hex.
Qed.

Lemma scan_resumes r pages st :
  read_state (rl_file r) = Ok st -> (fs_reads (rl_world r)).1 = true ->
  scan pages r = scan_pages pages (from_state st) (put_relay_world (fs_reads (rl_world r)).2 r).
Proof.
  intros Hst Hr. unfold scan, load_state, io_bind, ask_world, on_world, io_gets, io_lift.
  destruct (fs_reads (rl_world r)) as [b w]. simpl in *. subst b. simpl. by rewrite Hst.
Qed.

(** C24. A page that fails is retried. A scan that fails, with its progress read, failed in one page
    of its walk; that page left the progress file as it was before, and any later scan over that
    file, of this process or the next, starts at that page again, or, where the walk had not met a
    readable hash yet, at the head page with the same watermark. Where the node refused the page's
    transaction as expired, every later page of this process asks for at most 10 deposits. *)
Theorem failed_page_is_retried r pages failure r' :
  scan pages r = (Err failure, r') ->
  (load_state r = (Err failure, r') /\ rl_file r' = rl_file r) \/
  exists st r0 position r1 r2,
    load_state r = (Ok st, r0) /\ star walk_step (from_state st, r0) (position, r1) /\
    ask_world (E := RelayFailure) relay_cancelled r1 = (Ok false, r2) /\
    run_page position r2 = (Err failure, r') /\ rl_file r' = rl_file r1 /\
    (forall (later : Relayer W) pages', rl_file later = rl_file r' -> (fs_reads (rl_world later)).1 = true ->
       scan pages' later =
       scan_pages pages'
         match pos_head position with
         | Some _ => position
         | None => {| pos_watermark := pos_watermark position; pos_head := None; pos_resume := None |}
         end (put_relay_world (fs_reads (rl_world later)).2 later)) /\
    (is_expired_submission (failure_error failure) = true ->
     forall scans pages, cc_page_size (rl_circle (run_until scans pages r').2) <= 10).
Proof.
  intros Hs. pose proof (steady_load _ no_feed_grows r) as [_ Hf].
  apply io_bind_Err in Hs as [Hl|(st & r0 & Hl & Hs)]; rewrite Hl in Hf; simpl in Hf; [by left|right].
  apply walk_fails in Hs as (position & r1 & r2 & Hw & Ha & Hrun).
  assert (Hread : read_state (rl_file r) = Ok st) by by eapply load_reads.
  destruct (from_state_hashed st) as [Hh Hst]; [by eapply state_file_ok|].
  destruct (walk_on_file _ _ Hw) as [Hp Hfile]; [split; simpl; [done|by rewrite Hst, Hf]|]. simpl in *.
  apply ask_file in Ha as Hfa. pose proof (failed_run_page _ _ _ _ Hrun) as [Hfr Hex].
  exists st, r0, position, r1, r2. split_and!; [done..|congruence| |exact Hex].
  intros later pages' Hlater Hreads. fold (resumed position). rewrite <-from_position_state by done.
  apply scan_resumes; [|done]. rewrite Hlater, Hfr, Hfa. exact Hfile.
Qed.
End chain_props.
