(* ===== verification/MidenProps.v ===== *)
(** The deposit relayer's Miden client: submitting a page ends, and succeeds only once the node's
    record says the transaction is committed. So does what the relayer over it puts on chain. *)
From S2P Require Import Prelude Text Telemetry Foreign Wire Feed Mint Io MidenNode Relayer.
From S2P Require Import RelayerFacts RelayerProps RelayerChain.
Local Open Scope Z_scope.
Local Open Scope io_scope.

Section wait.
Context `{MintLib, WebLib, MidenLib} {V : Type} `{!NodeLib V}.
Context (clock synced : V -> Z) (block_time expiration : Z).

(** A chain that makes a block at least every [block_time], for transactions that expire at block
    [expiration] or earlier. Time passes in every call; a sync that succeeds reaches the tip. *)
Record node_chain : Prop := {
  nch_block_time : 0 < block_time;
  nch_sleep d v : clock v + d <= clock (node_sleep d v);
  nch_sync v : clock v <= clock (node_sync v).2;
  nch_submit a q v : clock v <= clock (node_submit a q v).2;
  nch_transactions t v : clock v <= clock (node_transactions t v).2 /\
                         synced v <= synced (node_transactions t v).2;
  nch_height v : clock v <= clock (node_sync_height v).2;
  nch_synced v v' : node_sync v = (Ok tt, v') -> clock v / block_time <= synced v';
  nch_tip v tip v' : node_sync_height v = (Ok tip, v') -> synced v <= tip;
  nch_expires t v records v' record :
    node_transactions t v = (Ok records, v') -> last records = Some record ->
    tr_expiration_block record <= expiration;
}.

Definition later (v v' : V) : Prop := clock v <= clock v'.
#[global] Instance later_refl : Reflexive later.
Proof. intros v. unfold later. lia. Qed.
#[global] Instance later_trans : Transitive later.
Proof. intros v1 v2 v3. unfold later. lia. Qed.

Context (Hchain : node_chain).

Lemma later_node {A} kind (f : V -> result ClientError A * V) :
  (forall v, clock v <= clock (f v).2) -> keeps later (node_call kind f).
Proof. intros Hf. by apply keeps_map_err. Qed.
Lemma later_store {A} text (f : V -> result ClientError A * V) :
  (forall v, clock v <= clock (f v).2) -> keeps later (store_call text f).
Proof. intros Hf. by apply keeps_map_err. Qed.

Lemma later_poll t k : keeps later (poll_inclusion t k).
Proof.
  destruct Hchain. unfold poll_inclusion.
  apply keeps_bind; [apply _|by apply keeps_try, later_node|intros [u|failure]].
  - apply keeps_bind; [apply _|apply later_store; intros v; by destruct (nch_transactions0 t v)|intros records].
    apply keeps_bind; [apply _|apply keeps_lift, _|intros record].
    apply keeps_bind; [apply _|by apply later_store|intros tip].
    apply keeps_bind; [apply _|apply keeps_lift, _|intros i; apply keeps_ret, _].
  - destruct (retry_sync _ _); [apply keeps_ret, _|apply keeps_err, _].
Qed.

(** A round that goes on: a sync failed, for less than the third time, or the transaction was
    pending at a tip before its expiration. *)
Lemma poll_inclusion_on t k v i v' :
  poll_inclusion t k v = (Ok i, v') ->
  match i with
  | None => k + 1 < FAILED_SYNCS_BEFORE_GIVING_UP
  | Some Waiting => clock v / block_time < expiration
  | Some (Included block) => exists v1 v2 records record, node_transactions t v1 = (Ok records, v2) /\
      last records = Some record /\ tr_status record = Committed block
  end.
Proof.
  intros (synced_ & v1 & Hs & Hp)%io_bind_Ok. unfold io_try, node_call, io_map_err in Hs.
  destruct (node_sync v) as [r v1'] eqn:Hsync. injection Hs as <- <-.
  destruct r as [[]|e]; simpl in Hp; cycle 1.
  { destruct (retry_sync _ _) eqn:Hr; [|done]. injection Hp as <- _. unfold retry_sync in Hr.
    destruct (failure_class _); try done. by apply Z.ltb_lt. }
  apply io_bind_Ok in Hp as (records & v2 & Ht & Hp).
  apply io_bind_Ok in Hp as (record & ? & [= Hrec <-] & Hp).
  apply io_bind_Ok in Hp as (tip & v3 & Hh & Hp).
  apply io_bind_Ok in Hp as (i' & ? & [= Hi <-] & [= <- _]).
  unfold store_call, io_map_err in Ht, Hh.
  destruct (node_transactions t v1') as [[rs|] v2'] eqn:Htx; simpl in Ht; [|done]. injection Ht as -> ->.
  destruct (node_sync_height v2) as [[h|] v3'] eqn:Hsh; simpl in Hh; [|done]. injection Hh as -> ->.
  destruct (last records) as [rec|] eqn:Hlast; simpl in Hrec; [|done]. injection Hrec as ->.
  unfold inclusion in Hi. destruct (tr_status record) eqn:Hst; [| done |].
  - injection Hi as <-. by exists v1', v2, records, record.
  - destruct (Z.leb_spec (tr_expiration_block record) tip); [done|]. injection Hi as <-.
    destruct Hchain. pose proof (nch_transactions0 t v1') as [_ Hmono]. rewrite Htx in Hmono.
    pose proof (nch_expires0 _ _ _ _ _ Htx Hlast). pose proof (nch_tip0 _ _ _ Hsh).
    pose proof (nch_synced0 _ _ Hsync). simpl in *. lia.
Qed.

(** Enough rounds for the chain to reach the expiration, and for a sync then to succeed. *)
Definition enough_rounds (fuel : nat) (failed_syncs : Z) (v : V) : Prop :=
  let left := expiration * block_time - clock v in
  if left <=? 0 then FAILED_SYNCS_BEFORE_GIVING_UP - failed_syncs <= Z.of_nat fuel
  else left + FAILED_SYNCS_BEFORE_GIVING_UP * INCLUSION_POLL_INTERVAL
       <= Z.of_nat fuel * INCLUSION_POLL_INTERVAL.

Lemma enough_rounds_next fuel k k' v v' :
  0 <= k' -> (k' = k + 1 \/ 0 < expiration * block_time - clock v) ->
  clock v + INCLUSION_POLL_INTERVAL <= clock v' ->
  enough_rounds (S fuel) k v -> enough_rounds fuel k' v'.
Proof.
  unfold enough_rounds, FAILED_SYNCS_BEFORE_GIVING_UP, INCLUSION_POLL_INTERVAL.
  destruct (Z.leb_spec (expiration * block_time - clock v) 0),
    (Z.leb_spec (expiration * block_time - clock v') 0); lia.
Qed.

Lemma wait_included_ends fuel t k v :
  0 <= k < FAILED_SYNCS_BEFORE_GIVING_UP -> enough_rounds fuel k v ->
  (wait_included fuel t k v).1 <> Ok None.
Proof.
  destruct Hchain. revert k v; induction fuel as [|fuel IH]; intros k v Hk Hf.
  { revert Hf. unfold enough_rounds, INCLUSION_POLL_INTERVAL, FAILED_SYNCS_BEFORE_GIVING_UP in *.
    destruct (Z.leb_spec (expiration * block_time - clock v) 0); lia. }
  simpl. unfold io_bind at 1. pose proof (later_poll t k v) as Hl. unfold later in Hl.
  destruct (poll_inclusion t k v) as [[i|e] v1] eqn:Hp; [|done]. simpl in Hl.
  apply poll_inclusion_on in Hp. pose proof (nch_sleep0 INCLUSION_POLL_INTERVAL v1).
  destruct i as [[block|]|]; [done| |]; simpl.
  - apply IH; [unfold FAILED_SYNCS_BEFORE_GIVING_UP; lia|].
    apply (enough_rounds_next _ k _ v); [lia| |lia|exact Hf]. right.
    assert (clock v < expiration * block_time); [|lia].
    pose proof (Z_div_mod_eq_full (clock v) block_time). pose proof (Z.mod_pos_bound (clock v) block_time). nia.
  - apply IH; [unfold FAILED_SYNCS_BEFORE_GIVING_UP in *; lia|].
    apply (enough_rounds_next _ k _ v); [lia|by left|lia|exact Hf].
Qed.

Lemma wait_included_committed fuel t k v block v' :
  wait_included fuel t k v = (Ok (Some block), v') ->
  exists v1 v2 records record, node_transactions t v1 = (Ok records, v2) /\
    last records = Some record /\ tr_status record = Committed block.
Proof.
  revert k v; induction fuel as [|fuel IH]; intros k v; [done|]. simpl.
  intros (i & v1 & Hp & Hw)%io_bind_Ok. apply poll_inclusion_on in Hp.
  destruct i as [[block'|]|]; [by injection Hw as <- <-| |];
    apply io_bind_Ok in Hw as (u & v2 & _ & Hw); by eapply IH.
Qed.

(** C17. Submitting a page's notes ends: on a chain that makes blocks, the wait is over by the time
    the transaction has expired and a sync has succeeded or failed three times in a row. It
    succeeds only for the transaction it submitted, and once the node's record of that transaction
    says it is committed. *)
Theorem submission_ends_committed fuel client notes v :
  Z.max 0 (expiration * block_time - clock v) + FAILED_SYNCS_BEFORE_GIVING_UP * INCLUSION_POLL_INTERVAL
    <= Z.of_nat fuel * INCLUSION_POLL_INTERVAL ->
  (submit_notes fuel client notes v).1 <> Ok None /\
  forall t, (submit_notes fuel client notes v).1 = Ok (Some t) ->
    exists request v0 v1 v2 v3 records record block,
      node_build_request notes (nc_expiration_delta client) = Some request /\
      node_submit (nc_relayer client) request v0 = (Ok t, v1) /\
      node_transactions t v2 = (Ok records, v3) /\
      last records = Some record /\ tr_status record = Committed block.
Proof.
  intros Hf. destruct (submit_notes fuel client notes v) as [res v'] eqn:Hs. simpl.
  enough (Hok : forall t, res = Ok t -> exists transaction, t = Some transaction /\
    exists request v0 v1 v2 v3 records record block,
      node_build_request notes (nc_expiration_delta client) = Some request /\
      node_submit (nc_relayer client) request v0 = (Ok transaction, v1) /\
      node_transactions transaction v2 = (Ok records, v3) /\
      last records = Some record /\ tr_status record = Committed block).
  { split; [intros ->; by destruct (Hok _ eq_refl) as (? & ? & _)|].
    intros t ->. by destruct (Hok _ eq_refl) as (? & [= <-] & ?). }
  intros t ->. apply io_bind_Ok in Hs as (request & ? & [= Hreq <-] & Hs).
  apply io_bind_Ok in Hs as (u & v1 & Hsync & Hs).
  pose proof (later_node "node_sync" node_sync (nch_sync Hchain) v) as Hl1. rewrite Hsync in Hl1.
  apply io_bind_Ok in Hs as (transaction & v2 & Hsub & Hs).
  pose proof (later_node "transaction_submit" _
    (nch_submit Hchain (nc_relayer client) request) v1) as Hl2. rewrite Hsub in Hl2.
  unfold later in Hl1, Hl2. simpl in Hl1, Hl2.
  apply io_bind_Ok in Hs as (block & v3 & Hw & [= <- <-]).
  pose proof (wait_included_ends fuel transaction 0 v2) as Hends. rewrite Hw in Hends.
  destruct block as [block|]; cycle 1.
  { exfalso. apply Hends; [unfold FAILED_SYNCS_BEFORE_GIVING_UP; lia| |done]. unfold enough_rounds.
    destruct (Z.leb_spec (expiration * block_time - clock v2) 0);
      unfold FAILED_SYNCS_BEFORE_GIVING_UP, INCLUSION_POLL_INTERVAL in *; lia. }
  exists transaction. split; [done|].
  apply wait_included_committed in Hw as (v4 & v5 & records & record & ? & ? & ?).
  unfold node_call, io_map_err in Hsub. destruct (node_submit _ request v1) as [[t'|] w] eqn:Hns; [|done].
  injection Hsub as -> <-. destruct (node_build_request _ _) eqn:Hb; [|done]. injection Hreq as ->.
  by exists request, v1, w, v4, v5, records, record, block.
Qed.
End wait.

(** ** The relayer over a node *)

Section over_node.
Context `{MintLib, FeedLib, StateJson, WebLib, MidenLib} {V : Type} `{!NodeLib V, !RelayWorld V}.
Context (fuel : nat) (client : NodeClient).
#[local] Instance node_miden : MidenClient V := NodeMiden fuel client.
Implicit Types r : Relayer V.

(** One read of the faucet's used nonces. *)
Definition map_read (v v' : V) : Prop := exists key value,
  node_map_item (nc_faucet client) used_nonces_slot key v = (Ok value, v').
(** The faucet's map held nothing for the nonce when it was read, between [v] and [v']. *)
Definition read_empty (nonce : DepositNonce) (v v' : V) : Prop := exists v1 v2,
  star map_read v v1 /\ star map_read v2 v' /\
  node_map_item (nc_faucet client) used_nonces_slot (nonce_map_key nonce) v1 = (Ok EMPTY_WORD, v2).
(** What the wait for a transaction does to the client. *)
Inductive waiting (t : TransactionId) : V -> V -> Prop :=
| waiting_sync v : waiting t v (node_sync v).2
| waiting_records v : waiting t v (node_transactions t v).2
| waiting_height v : waiting t v (node_sync_height v).2
| waiting_sleep d v : waiting t v (node_sleep d v).

Lemma client_Ok {E F A} (f : E -> F) (m : io V E A) v a v' : io_map_err f m v = (Ok a, v') -> m v = (Ok a, v').
Proof. unfold io_map_err. destruct (m v) as [[b|e] w]; simpl; congruence. Qed.

Lemma read_from nonces v kept v' : read_unminted client nonces v = (Ok kept, v') ->
  star map_read v v' /\ forall n, n ∈ kept -> read_empty n v v'.
Proof.
  revert v kept v'; induction nonces as [|nonce nonces IH]; intros v kept v'; simpl.
  { intros [= <- <-]. split; [apply star_refl|]. by intros n ?%elem_of_nil. }
  intros (value & v1 & Hv%client_Ok & (rest & v2 & Hr & [= <- <-])%io_bind_Ok)%io_bind_Ok.
  assert (Hstep : star map_read v v1) by (apply star_one; by eexists _, _).
  destruct (IH _ _ _ Hr) as [Hs Hk]. split; [by eapply star_trans|]. intros n.
  assert (Hlater : n ∈ rest -> read_empty n v v2).
  { intros (va & vb & Ha & Hb & He)%Hk. exists va, vb. split_and!; [by eapply star_trans|done..]. }
  case_bool_decide as He; [|exact Hlater]. intros [->|Hn]%elem_of_cons; [|by apply Hlater].
  subst value. exists v, v1. split_and!; [apply star_refl|done..].
Qed.

Lemma retained_from asked v unminted v' : asked <> [] ->
  retain_unminted client asked v = (Ok unminted, v') ->
  exists v1, node_sync v = (Ok tt, v1) /\ star map_read v1 v' /\ forall n, n ∈ unminted -> read_empty n v1 v'.
Proof.
  destruct asked as [|n asked]; [done|]. intros _ ([] & v1 & Hs%client_Ok & Hr)%io_bind_Ok.
  exists v1. split; [exact Hs|by eapply read_from].
Qed.

(** The record was read committed after calls of the wait. *)
Definition found_committed (t : TransactionId) (v : V) : Prop := exists v1 v2 records record block,
  star (waiting t) v v1 /\ node_transactions t v1 = (Ok records, v2) /\ last records = Some record /\
  tr_status record = Committed block.
Lemma found_later t v v1 : star (waiting t) v v1 -> found_committed t v1 -> found_committed t v.
Proof.
  intros Hv (v2 & v3 & records & record & block & Hs & Hrest).
  exists v2, v3, records, record, block. split; [by eapply star_trans|exact Hrest].
Qed.

Lemma poll_from t k v i v' : poll_inclusion t k v = (Ok i, v') ->
  star (waiting t) v v' /\ (forall block, i = Some (Included block) -> found_committed t v).
Proof.
  intros (synced & v1 & Hs & Hp)%io_bind_Ok.
  assert (Hw1 : star (waiting t) v v1).
  { apply star_one. unfold io_try, node_call, io_map_err in Hs. pose proof (waiting_sync t v) as Hw.
    destruct (node_sync v) as [r w]. by injection Hs as _ <-. }
  destruct synced as [[]|e]; [|destruct (retry_sync _ _); [|done]; injection Hp as <- <-; by split].
  apply io_bind_Ok in Hp as (records & v2 & Hr%client_Ok & Hp).
  assert (Hw2 : star (waiting t) v1 v2) by (apply star_one; pose proof (waiting_records t v1) as Hw; by rewrite Hr in Hw).
  apply io_bind_Ok in Hp as (record & ? & [= Hrec <-] & Hp). apply io_bind_Ok in Hp as (tip & v3 & Hh%client_Ok & Hp).
  assert (Hw3 : star (waiting t) v2 v3) by (apply star_one; pose proof (waiting_height t v2) as Hw; by rewrite Hh in Hw).
  apply io_bind_Ok in Hp as (i' & ? & [= Hi <-] & [= <- <-]).
  split; [exact (star_trans _ _ _ _ Hw1 (star_trans _ _ _ _ Hw2 Hw3))|]. intros block [= ->].
  destruct (last records) as [record'|] eqn:Hlast; [|done]. simpl in Hrec. injection Hrec as ->.
  exists v1, v2, records, record, block. split_and!; [done..|]. revert Hi. unfold inclusion.
  destruct (tr_status record); [by intros [= ->]|done|by destruct (_ <=? _)].
Qed.

Lemma waited_from n t k v block v' : wait_included n t k v = (Ok (Some block), v') -> found_committed t v.
Proof.
  revert k v; induction n as [|n IH]; intros k v; [done|]. simpl. intros (i & v1 & Hp & Hw)%io_bind_Ok.
  apply poll_from in Hp as [Hs Hi]. destruct i as [[block'|]|]; [by eapply Hi| |];
    apply io_bind_Ok in Hw as (u & v2 & [= _ <-] & Hw);
    (eapply found_later; [exact Hs|]; eapply found_later; [apply star_one, waiting_sleep|by eapply IH]).
Qed.

Lemma submitted_from notes v t v' : mc_submit_notes notes v = (Ok t, v') ->
  exists request v1 v2, node_build_request notes (nc_expiration_delta client) = Some request /\
    node_sync v = (Ok tt, v1) /\ node_submit (nc_relayer client) request v1 = (Ok t, v2) /\
    found_committed t v2.
Proof.
  intros ([t'|] & v1 & Hs & [= Ht <-])%io_bind_Ok. subst t'.
  apply io_bind_Ok in Hs as (request & ? & [= Hreq <-] & Hs). apply io_bind_Ok in Hs as ([] & v2 & Hy%client_Ok & Hs).
  apply io_bind_Ok in Hs as (t' & v3 & Hsub%client_Ok & Hs). apply io_bind_Ok in Hs as (block & v4 & Hw & Hs).
  destruct block as [block|]; [|done]. injection Hs as -> _.
  apply waited_from in Hw. exists request, v2, v3. split_and!; try done.
  revert Hreq. destruct (node_build_request _ _); by intros [= ->].
Qed.

(** C15. Whatever is restarted and whatever fails, over the node client the relayer takes a transaction as
    on chain only after one uninterrupted sequence of calls: the client synced; from there only reads of
    the faucet's used nonces followed, one of which found the entry of each of its deposits empty; the
    client synced again and its account sent a transaction built from exactly these notes; and then, after
    only the calls of the wait, the node's record of that transaction said it was committed. The notes are
    at least one and no more than a page's. *)
Theorem relayed_is_committed feed config r later notes t earlier :
  lives feed config r -> rl_trace r = later ++ OnChain notes t :: earlier ->
  exists minted request v0 v1 v2 v3 v4 v5 v6 records record block,
    notes = note_of_mint <$> minted /\ minted <> [] /\
    Z.of_nat (length minted) <= effective_page_size config /\
    node_sync v0 = (Ok tt, v1) /\ star map_read v1 v2 /\
    Forall (fun note => read_empty (mint_nonce note) v1 v2) minted /\
    node_build_request notes (nc_expiration_delta client) = Some request /\
    node_sync v2 = (Ok tt, v3) /\ node_submit (nc_relayer client) request v3 = (Ok t, v4) /\
    star (waiting t) v4 v5 /\ node_transactions t v5 = (Ok records, v6) /\
    last records = Some record /\ tr_status record = Committed block.
Proof.
  intros [Hs _]%lives_chain Ht. rewrite Ht in Hs.
  apply submissions_split in Hs as (asked & unminted & before & minted & v0 & v2 & w & _ & -> & Hne & Hall & Hlen & Hread & Hsub).
  rewrite Forall_forall in Hall.
  assert (Hasked : asked <> []).
  { intros ->. destruct minted as [|note minted]; [done|]. destruct (Hall note) as [Hin _]; [by left|].
    by apply elem_of_nil in Hin. }
  destruct (retained_from _ _ _ _ Hasked Hread) as (v1 & Hsync & Hreads & Hvac).
  destruct (submitted_from _ _ _ _ Hsub) as (request & v3 & v4 & Hreq & Hsync' & Hsent & Hfound).
  destruct Hfound as (v5 & v6 & records & record & block & Hw & Hrec & Hlast & Hst).
  exists minted, request, v0, v1, v2, v3, v4, v5, v6, records, record, block. split_and!; try done.
  apply Forall_forall. intros note Hn. apply Hvac. by apply Hall.
Qed.
End over_node.
