(* ===== verification/Bridge.v ===== *)
(** The bridge (usdcx-bridge): one process that runs the withdrawal attester and the deposit relayer
    from one configuration, and stops them together (supervisor.rs, config.rs, and the shutdown
    deadline of usdcx-telemetry). *)
From S2P Require Import Prelude Text Telemetry Foreign Config.
From S2P Require Feed Mint.
Local Open Scope Z_scope.

(** ** Configuration *)

Section config.
Context `{Mint.MintLib, MidenLib, WebLib}.

Record RelayerArgs := {
  ra_page_size : Z;
  ra_prover_url : option Url;
  ra_prover_timeout : Z;
  ra_request_timeout : Z;
  ra_poll_interval : Z;
  ra_expiration_delta : Z;
  ra_account_id : AccountId;
  ra_attester_public_key : Mint.PublicKey;
}.
Record RunArgs := { run_attester : Cli; run_relayer : RelayerArgs }.
Record BridgeConfig := { bc_relayer : Mint.Config; bc_attester : Config }.

(** [TryFrom<RunArgs>]: the relayer is given the attester's endpoints and faucet. *)
Definition BridgeConfig_try_from (cli : RunArgs) (store_parent_is_dir : option bool)
    : result string BridgeConfig :=
  let? attester := Config_try_from (run_attester cli) store_parent_is_dir in
  let? node_url := ok_or (url_parse (cfg_miden_rpc_url attester)) "Miden RPC URL is invalid"%string in
  let relayer := run_relayer cli in
  Ok {| bc_relayer :=
          {| Mint.rc_circle_url := cfg_circle_api_base_url attester;
             Mint.rc_page_size := ra_page_size relayer;
             Mint.rc_request_timeout := ra_request_timeout relayer;
             Mint.rc_poll_interval := ra_poll_interval relayer;
             Mint.rc_remote_domain := miden_domain;
             Mint.rc_miden_node_url := node_url;
             Mint.rc_prover_url := ra_prover_url relayer;
             Mint.rc_prover_timeout := ra_prover_timeout relayer;
             Mint.rc_expiration_delta := ra_expiration_delta relayer;
             Mint.rc_faucet_account_id := cfg_faucet_account_id attester;
             Mint.rc_relayer_account_id := ra_account_id relayer;
             Mint.rc_attester_public_key := ra_attester_public_key relayer |};
        bc_attester := attester |}.
End config.

(** ** Startup *)

(** How the relayer's thread got through its startup: it said it was ready, or it ended first. *)
Inductive RelayerThread : Type := Ready | EndedEarly (r : result string unit) | ThreadPanicked.

(** [start]: the relayer is started only once the attester has passed its checks. *)
Definition bridge_start {A} (attester : result string A) (relayer : A -> RelayerThread) : result string A :=
  let? attester := attester in
  match relayer attester with
  | Ready => Ok attester
  | ThreadPanicked => Err "relayer task failed"%string
  | EndedEarly (Err error) => Err ("relayer startup failed: " +:+ error)%string
  | EndedEarly (Ok _) => Err "relayer stopped before passing startup"%string
  end.

(** ** Running together *)

Inductive ServiceEnd : Type := Returned (r : result string unit) | Panicked.
Inductive Service : Type := AttesterSide | RelayerSide.
#[export] Instance Service_eq_dec : EqDecision Service.
Proof. solve_decision. Defined.

(** What the supervisor waits for: a process signal, or a service that ends. *)
Inductive BridgeEvent : Type := Signal | Ends (service : Service) (how : ServiceEnd).

(** What a service's future comes to: a panic of its task is an error. *)
Definition task_result (service : Service) (how : ServiceEnd) : result string unit :=
  match how, service with
  | Returned r, _ => r
  | Panicked, AttesterSide => Err "attester task failed"%string
  | Panicked, RelayerSide => Err "relayer task failed"%string
  end.
Definition service_name (service : Service) : string :=
  match service with AttesterSide => "attester" | RelayerSide => "relayer" end.

(** [stop_peer_on_exit], when the service has ended: its result, and whether it requests shutdown. *)
Definition stop_peer_on_exit (name : string) (result_ : result string unit) (shutdown_requested : bool)
    : result string unit :=
  map_err (fun error => name +:+ " failed: " +:+ error)%string result_ ;?
  ensure shutdown_requested (name +:+ " stopped unexpectedly")%string.

Record Supervised := {
  (** When shutdown was requested, and the results of the services that have stopped. *)
  sv_cancelled : option Z;
  sv_attester : option (result string unit);
  sv_relayer : option (result string unit);
}.
Definition supervised_start : Supervised :=
  {| sv_cancelled := None; sv_attester := None; sv_relayer := None |}.

Definition sv_result (service : Service) (s : Supervised) : option (result string unit) :=
  match service with AttesterSide => sv_attester s | RelayerSide => sv_relayer s end.
Definition cancel (now : Z) (s : Supervised) : Supervised :=
  {| sv_cancelled := Some (default now (sv_cancelled s));
     sv_attester := sv_attester s; sv_relayer := sv_relayer s |}.
Definition set_result (service : Service) (r : result string unit) (s : Supervised) : Supervised :=
  match service with
  | AttesterSide => {| sv_cancelled := sv_cancelled s; sv_attester := Some r; sv_relayer := sv_relayer s |}
  | RelayerSide => {| sv_cancelled := sv_cancelled s; sv_attester := sv_attester s; sv_relayer := Some r |}
  end.

(** A service ends once. *)
Definition on_event (now : Z) (e : BridgeEvent) (s : Supervised) : Supervised :=
  match e with
  | Signal => cancel now s
  | Ends service how =>
      match sv_result service s with
      | Some _ => s
      | None =>
          cancel now
            (set_result service
               (stop_peer_on_exit (service_name service) (task_result service how)
                  (bool_decide (is_Some (sv_cancelled s)))) s)
      end
  end.

(** [Result::and]. *)
Definition result_and (r1 r2 : result string unit) : result string unit := r1 ;? r2.

(** The bridge returns, the process is terminated at the deadline, or both services run on. *)
Inductive Supervision : Type := Stopped (r : result string unit) | Exited | RunsOn.

(** [stop_within]'s deadline. *)
Definition past_deadline (timeout now : Z) (s : Supervised) : bool :=
  match sv_cancelled s with Some at_ => at_ + timeout <? now | None => false end.

(** [supervise], over what happens and when, in order. Where nothing more happens, a shutdown that
    was requested runs into its deadline. *)
Fixpoint supervise (timeout : Z) (events : list (Z * BridgeEvent)) (s : Supervised) : Supervision :=
  match sv_attester s, sv_relayer s with
  | Some attester, Some relayer => Stopped (result_and attester relayer)
  | _, _ =>
      match events with
      | [] => match sv_cancelled s with Some _ => Exited | None => RunsOn end
      | (now, e) :: events =>
          if past_deadline timeout now s then Exited else supervise timeout events (on_event now e s)
      end
  end.

(** [run], once the signal handlers are installed: [signalled] is whether a signal came before
    startup ended, and [startup] when it ended and how. A shutdown requested during startup is under
    the same limit, which [supervise] then starts again. *)
Definition bridge_run (timeout : Z) (signalled : option Z) (startup : option (Z * result string unit))
    (events : list (Z * BridgeEvent)) : Supervision :=
  let requested at_ := {| sv_cancelled := at_; sv_attester := None; sv_relayer := None |} in
  match startup with
  | None => match signalled with Some _ => Exited | None => RunsOn end
  | Some (now, started) =>
      if past_deadline timeout now (requested signalled) then Exited
      else match started with
           | Err error => Stopped (Err error)
           | Ok _ => supervise timeout events (requested ((fun _ => now) <$> signalled))
           end
  end.

(** ** What supervision promises *)

(** The first end of a service. *)
Definition first_end (service : Service) (events : list (Z * BridgeEvent)) : option (Z * ServiceEnd) :=
  head (omap (fun te => match te.2 with
                        | Ends service' how => if bool_decide (service' = service) then Some (te.1, how) else None
                        | Signal => None
                        end) events).

(** The result a service will have been given by the deadline [at_ + timeout]. *)
Definition result_by (timeout at_ : Z) (service : Service) (events : list (Z * BridgeEvent)) (s : Supervised)
    : option (result string unit) :=
  match sv_result service s with
  | Some r => Some r
  | None =>
      match first_end service events with
      | Some (t, how) =>
          if t <=? at_ + timeout
          then Some (stop_peer_on_exit (service_name service) (task_result service how) true)
          else None
      | None => None
      end
  end.
Definition decided (timeout at_ : Z) (events : list (Z * BridgeEvent)) (s : Supervised) : Supervision :=
  match result_by timeout at_ AttesterSide events s, result_by timeout at_ RelayerSide events s with
  | Some attester, Some relayer => Stopped (result_and attester relayer)
  | _, _ => Exited
  end.

Definition in_order (events : list (Z * BridgeEvent)) : Prop := StronglySorted Z.le (fst <$> events).

Lemma in_order_nil : in_order [].
Proof. apply SSorted_nil. Qed.
Lemma in_order_cons now e events :
  Forall (fun te => now <= te.1) events -> in_order events -> in_order ((now, e) :: events).
Proof. intros Hall Hs. apply SSorted_cons; [exact Hs|]. by apply Forall_fmap. Qed.

Lemma stop_peer_Ok name r requested :
  stop_peer_on_exit name r requested = Ok tt <-> r = Ok tt /\ requested = true.
Proof. destruct r as [[]|], requested; simpl; naive_solver. Qed.

Lemma first_end_late service events now :
  Forall (Z.le now) (fst <$> events) ->
  forall t how, first_end service events = Some (t, how) -> now <= t.
Proof.
  unfold first_end. induction events as [|[t e] events IH]; simpl; [done|].
  rewrite Forall_cons. intros [Ht Hall]. destruct e as [|service' how']; simpl; [by apply IH|].
  case_bool_decide; simpl; [by intros ? ? [= <- <-]|by apply IH].
Qed.

Lemma result_by_late timeout at_ service now e events s :
  at_ + timeout < now -> in_order ((now, e) :: events) -> sv_result service s = None ->
  result_by timeout at_ service ((now, e) :: events) s = None.
Proof.
  intros Hnow Hsorted Hs. unfold result_by. rewrite Hs.
  destruct (first_end service ((now, e) :: events)) as [[t how]|] eqn:Hf; [|done].
  apply StronglySorted_inv in Hsorted as [_ Hall].
  eapply first_end_late in Hf; [|simpl; constructor; [apply Z.le_refl|exact Hall]].
  destruct (Z.leb_spec t (at_ + timeout)); [lia|done].
Qed.

Lemma result_by_event timeout at_ service now e events s :
  sv_cancelled s = Some at_ -> now <= at_ + timeout ->
  result_by timeout at_ service ((now, e) :: events) s = result_by timeout at_ service events (on_event now e s).
Proof.
  intros Hc Hnow. unfold result_by, first_end. destruct e as [|service' how]; [by destruct service|].
  unfold on_event. destruct (sv_result service' s) eqn:Hs'.
  { simpl. case_bool_decide; [subst; by rewrite Hs'|done]. }
  simpl. case_bool_decide as Hsame.
  - subst service'. rewrite Hs'. simpl. rewrite Hc, bool_decide_eq_true_2 by done.
    destruct (Z.leb_spec now (at_ + timeout)); [|lia]. by destruct service.
  - destruct service, service'; simpl; done.
Qed.

(** Once shutdown is requested, the outcome is decided by who has stopped by the deadline. *)
Lemma supervise_decided timeout at_ events s :
  sv_cancelled s = Some at_ -> in_order events -> supervise timeout events s = decided timeout at_ events s.
Proof.
  revert s; induction events as [|[now e] events IH]; intros s Hc Hsorted.
  - unfold decided, result_by. simpl. rewrite Hc. by destruct (sv_attester s), (sv_relayer s).
  - assert (Hnext : supervise timeout events (on_event now e s) = decided timeout at_ events (on_event now e s)).
    { apply IH; [|by apply StronglySorted_inv in Hsorted as [? _]].
      destruct e as [|service how]; simpl; [by rewrite Hc|].
      destruct (sv_result service s); [done|]. by destruct service; simpl; rewrite Hc. }
    cbn [supervise]. unfold past_deadline. rewrite Hc.
    destruct (sv_attester s) as [ra|] eqn:Ha, (sv_relayer s) as [rr|] eqn:Hr.
    { unfold decided, result_by. simpl. by rewrite Ha, Hr. }
    all: destruct (Z.ltb_spec (at_ + timeout) now) as [Hlate|Htime];
      [|rewrite Hnext; unfold decided; by rewrite !(result_by_event _ _ _ now e)].
    all: unfold decided; try by rewrite (result_by_late _ _ AttesterSide).
    rewrite (result_by_late _ _ RelayerSide) by done. by destruct (result_by _ _ _ _ _).
Qed.

(** ** The property *)

(** A service has stopped by the deadline. *)
Definition stops_by (deadline : Z) (service : Service) (events : list (Z * BridgeEvent)) : Prop :=
  exists t how, first_end service events = Some (t, how) /\ t <= deadline.

(** The first event requested shutdown before the service stopped. *)
Definition asked_to_stop (e : BridgeEvent) (service : Service) : bool :=
  match e with Signal => true | Ends service' _ => negb (bool_decide (service' = service)) end.

(** The result of a service, from the first event, at [c], on. *)
Lemma result_by_first timeout c e events service :
  0 <= timeout ->
  result_by timeout c service events (on_event c e supervised_start) =
  match first_end service ((c, e) :: events) with
  | Some (t, how) =>
      if t <=? c + timeout
      then Some (stop_peer_on_exit (service_name service) (task_result service how) (asked_to_stop e service))
      else None
  | None => None
  end.
Proof.
  intros Ht. unfold result_by, first_end. destruct e as [|service' how]; [by destruct service|].
  destruct service, service'; simpl; try done; destruct (Z.leb_spec c (c + timeout)); done || lia.
Qed.

Lemma result_by_stops timeout c e events service :
  0 <= timeout ->
  is_Some (result_by timeout c service events (on_event c e supervised_start)) <->
  stops_by (c + timeout) service ((c, e) :: events).
Proof.
  intros Ht. rewrite result_by_first by done. unfold stops_by. destruct (first_end _ _) as [[t how]|].
  - destruct (Z.leb_spec t (c + timeout)); split; [eauto|done|by intros []|]. naive_solver lia.
  - split; [by intros []|]. naive_solver.
Qed.

Lemma task_result_Ok service how : task_result service how = Ok tt <-> how = Returned (Ok tt).
Proof. destruct how as [r|], service; simpl; naive_solver. Qed.

Lemma result_by_clean timeout c e events service :
  0 <= timeout ->
  result_by timeout c service events (on_event c e supervised_start) = Some (Ok tt) <->
  asked_to_stop e service = true /\
  exists t, first_end service ((c, e) :: events) = Some (t, Returned (Ok tt)) /\ t <= c + timeout.
Proof.
  intros Ht. rewrite result_by_first by done. destruct (first_end _ _) as [[t how]|]; [|naive_solver].
  destruct (Z.leb_spec t (c + timeout)); [|naive_solver lia]. split.
  - intros [= Hr]. apply stop_peer_Ok in Hr as [Hr Ha]. apply task_result_Ok in Hr as ->. by eauto.
  - intros (Ha & t' & [= <- ->] & _). f_equal. by apply stop_peer_Ok.
Qed.

Lemma asked_both e : (forall service, asked_to_stop e service = true) <-> e = Signal.
Proof.
  split; [|by intros ->]. intros Ha. destruct e as [|service how]; [done|].
  specialize (Ha service). simpl in Ha. by rewrite bool_decide_eq_true_2 in Ha.
Qed.

Lemma supervise_first timeout c e events :
  in_order ((c, e) :: events) ->
  supervise timeout ((c, e) :: events) supervised_start =
  decided timeout c events (on_event c e supervised_start).
Proof.
  intros [Hsorted _]%StronglySorted_inv. simpl. apply supervise_decided; [|done].
  by destruct e as [|[] how].
Qed.

Lemma both_services (P : Service -> Prop) : (forall service, P service) <-> P AttesterSide /\ P RelayerSide.
Proof. split; [by split|]. by intros [] []. Qed.

(** C25. The first signal, or the first service that stops, decides the bridge's end: if both services
    have stopped within the timeout from then on it returns, and otherwise the process is
    terminated; it never runs on with one service. It returns without an error just when the first
    event was the signal and both services then stopped without one. *)
Theorem bridge_stops_together timeout c e events :
  0 <= timeout -> in_order ((c, e) :: events) ->
  let outcome := supervise timeout ((c, e) :: events) supervised_start in
  outcome <> RunsOn /\
  ((exists r, outcome = Stopped r) <->
   stops_by (c + timeout) AttesterSide ((c, e) :: events) /\
   stops_by (c + timeout) RelayerSide ((c, e) :: events)) /\
  (outcome = Stopped (Ok tt) <-> e = Signal /\ forall service, exists t,
     first_end service ((c, e) :: events) = Some (t, Returned (Ok tt)) /\ t <= c + timeout).
Proof.
  intros Ht Hsorted outcome.
  assert (Ho : outcome = decided timeout c events (on_event c e supervised_start)) by by apply supervise_first.
  clearbody outcome. rewrite Ho. clear Ho. rewrite <-!(result_by_stops _ _ _ _ _ Ht).
  assert (Hclean : (e = Signal /\ (forall service, exists t,
      first_end service ((c, e) :: events) = Some (t, Returned (Ok tt)) /\ t <= c + timeout)) <->
    forall service, result_by timeout c service events (on_event c e supervised_start) = Some (Ok tt)).
  { split.
    - intros [He Hs] service. apply result_by_clean; [done|]. split; [by apply asked_both|apply Hs].
    - intros Hs. split; [apply asked_both|]; intros service; specialize (Hs service);
        by apply result_by_clean in Hs as []. }
  rewrite Hclean, both_services. unfold decided.
  destruct (result_by _ _ AttesterSide _ _) as [ra|], (result_by _ _ RelayerSide _ _) as [rr|];
    (split; [done|split; [split; [intros [r Hr]|intros [[] []]]|]]); try done; try by eauto.
  - destruct ra as [[]|], rr as [[]|]; simpl; naive_solver.
  - naive_solver.
  - naive_solver.
  - naive_solver.
Qed.
