(* ===== verification/Binaries.v ===== *)
(** The three processes (xusdc-light-attester/src/main.rs and service.rs, xreserve-deposit-relayer/src/main.rs,
    usdcx-bridge/src/main.rs): how the attester's dependencies are connected, and how each process starts,
    stops and ends. *)
From S2P Require Import Prelude Text Telemetry Foreign Wire Types Store Config Verify Circle Signer.
From S2P Require Import Submission Attester AdminSocket Bridge.
From S2P Require Mint.
Local Open Scope Z_scope.

(** ** Connecting the attester (service.rs) *)

(** What the bind of the admin socket meets. *)
Record SocketPath := {
  so_path : Inspected;
  so_connect : Connect;
  so_removed : bool;
  so_bound : bool;
  so_restricted : bool;
}.
Inductive ConnectError : Type :=
| BindFailed (e : string)
| CircleInit
| FirstKmsSigner (e : SignerError)
| SecondKmsSigner (e : SignerError)
| PairInit (e : SignerError)
| StartupFailed (e : StartError).

Section service.
Context `{MidenLib, WebLib, JsonLib, EthLib, KeyLib} {W : Type}.
Context `{!CircleApi W, !ChainReader W, !SignerApi W, !KmsApi W, !Clock W, !Inbox W}.

(** [connect] before the attester's own start: the socket first, then the HTTP client, the two signers and
    the pair. *)
Definition connect_signers (config : Config) (so : SocketPath) (circle_builds : bool) (w : W)
    : result ConnectError SignerPair * list FileOp * W :=
  let '(bound, ops) :=
    match cfg_admin config with
    | Some _ => server_bind (so_path so) (so_connect so) (so_removed so) (so_bound so) (so_restricted so)
    | None => (Ok tt, [])
    end in
  match bound with
  | Err e => (Err (BindFailed e), ops, w)
  | Ok _ =>
      if negb circle_builds then (Err CircleInit, ops, w)
      else
        let '(first, w) := KmsSigner_connect (kms_key_arns (cfg_kms config)).1 w in
        match first with
        | Err e => (Err (FirstKmsSigner e), ops, w)
        | Ok first =>
            let '(second, w) := KmsSigner_connect (kms_key_arns (cfg_kms config)).2 w in
            match second with
            | Err e => (Err (SecondKmsSigner e), ops, w)
            | Ok second =>
                let '(made, w) := SignerPair_new (ks_key_arn first, ks_key_arn second) w in
                (map_err PairInit made, ops, w)
            end
        end
  end.
Definition connect (config : Config) (so : SocketPath) (circle_builds : bool) (on_disk : option Store) (w : W)
    : result ConnectError (Attester W) * list FileOp :=
  let '(made, ops, w) := connect_signers config so circle_builds w in
  (let? signers := made in map_err StartupFailed (start config signers on_disk w), ops).
(** [AttesterService::start], with the span of the startup: a failure marks it actionable. *)
Definition service_start (config : Config) (so : SocketPath) (circle_builds : bool) (on_disk : option Store)
    (w : W) (span : Span) : result ConnectError (Attester W) * Span :=
  match (connect config so circle_builds on_disk w).1 with
  | Ok attester => (Ok attester, span)
  | Err e => (Err e, (report (mkFailure (Actionable "startup") e) "attester startup failed" span).1)
  end.

(** A socket that cannot be bound fails the start before any dependency is contacted, and whatever path the
    start takes the world is asked nothing when it does. *)
Theorem bind_comes_first config so circle_builds on_disk w span e :
  cfg_admin config <> None ->
  (server_bind (so_path so) (so_connect so) (so_removed so) (so_bound so) (so_restricted so)).1 = Err e ->
  (connect_signers config so circle_builds w).1.1 = Err (BindFailed e)
  /\ (connect_signers config so circle_builds w).2 = w
  /\ service_start config so circle_builds on_disk w span
     = (Err (BindFailed e), record_failure (Actionable "startup") span).
Proof.
  intros Hadmin Hbind. unfold service_start, connect, connect_signers. destruct (cfg_admin config); [|done].
  destruct (server_bind _ _ _ _ _) as [bound ops]. simpl in Hbind. by subst bound.
Qed.

(** The pair a started attester signs with was made of the two configured keys, each checked with AWS. *)
Theorem connected_pair config so circle_builds w signers ops w' :
  connect_signers config so circle_builds w = (Ok signers, ops, w') ->
  exists first w1 second w2,
    KmsSigner_connect (kms_key_arns (cfg_kms config)).1 w = (Ok first, w1)
    /\ KmsSigner_connect (kms_key_arns (cfg_kms config)).2 w1 = (Ok second, w2)
    /\ SignerPair_new (ks_key_arn first, ks_key_arn second) w2 = (Ok signers, w').
Proof.
  unfold connect_signers. destruct (match cfg_admin config with Some _ => _ | None => _ end) as [[[]|e] ops'];
    [|done]. destruct circle_builds; simpl; [|done].
  destruct (KmsSigner_connect _ w) as [[first|e] w1]; [|done].
  destruct (KmsSigner_connect _ w1) as [[second|e] w2] eqn:Hsecond; [|done].
  destruct (SignerPair_new _ w2) as [[p|e] w3] eqn:Hmade; [|done]. intros [= <- _ <-].
  by exists first, w1, second, w2.
Qed.
End service.

(** ** The processes *)

(** Whether each signal's handler could be installed, and when shutdown was requested. *)
Record Signals := { sg_terminate : bool; sg_interrupt : bool; sg_shutdown : option Z }.
(** A process ends with success or an error, is terminated at its deadline, or runs on. *)
Abbreviation Process := (Within (result string unit)).
Definition in_context (c e : string) : string := String.concat ": " [c; e].

Section processes.
Context `{TracingLib, Mint.MintLib, MidenLib, WebLib} (signals : Signals) (tr : Tracing).
(** The maintenance command, and the started service's work for a configuration: when it ended and how. *)
Context (on_command : Maintenance -> result string unit).

Record Invocation := {
  inv_command : option Maintenance;
  inv_run : option Cli;
  inv_telemetry : TelemetryArgs;
}.
Definition attester_main (inv : Invocation) (store_parent_is_dir : option bool)
    (work : Config -> option (Z * result string unit)) : Process :=
  match (init "xusdc-attester" (inv_telemetry inv) tr).1 with
  | Err e => Finished (Err e)
  | Ok _ =>
      match inv_command inv with
      | Some command => Finished (on_command command)
      | None =>
          match
            cancel_on_signal (sg_terminate signals) (sg_interrupt signals) ;?
            let? run := ok_or (inv_run inv) "missing run arguments"%string in
            map_err (in_context "invalid configuration") (Config_try_from run store_parent_is_dir)
          with
          | Err e => Finished (Err e)
          | Ok config => stop_within SHUTDOWN_TIMEOUT (sg_shutdown signals) (work config)
          end
      end
  end.

Definition relayer_main (config : Mint.Config) (telemetry : TelemetryArgs)
    (work : Mint.Config -> option (Z * result string unit)) : Process :=
  match init "xreserve-deposit-relayer" telemetry tr with
  | (Err e, _) => Finished (Err e)
  | (Ok _, _) =>
      match cancel_on_signal (sg_terminate signals) (sg_interrupt signals) with
      | Err e => Finished (Err e)
      | Ok _ => stop_within SHUTDOWN_TIMEOUT (sg_shutdown signals) (work config)
      end
  end.

(** The bridge's command line. *)
Inductive BridgeCommand : Type := BridgeRun (run : RunArgs) | BridgeAttester (command : Maintenance).
Definition process_of (s : Supervision) : Process :=
  match s with Stopped r => Finished r | Exited => Terminated | Bridge.RunsOn => Telemetry.RunsOn end.
Definition bridge_main (command : BridgeCommand) (telemetry : TelemetryArgs) (store_parent_is_dir : option bool)
    (startup : BridgeConfig -> option (Z * result string unit))
    (events : BridgeConfig -> list (Z * BridgeEvent)) : Process :=
  match (init "usdcx-bridge" telemetry tr).1 with
  | Err e => Finished (Err e)
  | Ok _ =>
      match command with
      | BridgeAttester command => Finished (on_command command)
      | BridgeRun run =>
          match
            let? config := BridgeConfig_try_from run store_parent_is_dir in
            cancel_on_signal (sg_terminate signals) (sg_interrupt signals) ;? Ok config
          with
          | Err e => Finished (Err e)
          | Ok config =>
              process_of (bridge_run SHUTDOWN_TIMEOUT (sg_shutdown signals) (startup config) (events config))
          end
      end
  end.

(** A maintenance command never waits for a shutdown, and it runs with no service configured: it ends with
    its own result once tracing is installed, in both processes that take it. *)
Theorem commands_end command telemetry run parent work startup events :
  (init "xusdc-attester" telemetry tr).1 = Ok tt -> (init "usdcx-bridge" telemetry tr).1 = Ok tt ->
  attester_main {| inv_command := Some command; inv_run := run; inv_telemetry := telemetry |} parent work
    = Finished (on_command command)
  /\ bridge_main (BridgeAttester command) telemetry parent startup events = Finished (on_command command).
Proof. intros Ha Hb. unfold attester_main, bridge_main. simpl. by rewrite Ha, Hb. Qed.

(** The attester's process is terminated only when shutdown was requested and its work did not end within
    five minutes of it. *)
Theorem attester_terminated inv parent work :
  attester_main inv parent work = Terminated ->
  exists at_ config, sg_shutdown signals = Some at_
    /\ forall now output, work config = Some (now, output) -> at_ + SHUTDOWN_TIMEOUT < now.
Proof.
  unfold attester_main. destruct (init _ _ tr).1; [|done]. destruct (inv_command inv); [done|].
  destruct (_ ;? _) as [config|e]; [|done]. intros (at_ & Hs & Hw)%terminated_only_late. by exists at_, config.
Qed.
End processes.
