(* ===== verification/Ledger.v ===== *)
(** The submit ledger (idempotency/ of withdrawal-listener-attester): what was decided about each
    burn the attester ever claimed, its transitions and the transactions over them. *)
From S2P Require Import Prelude Text Foreign.
From Stdlib Require Import Ascii.
Local Open Scope Z_scope.

(** ** Records (record.rs) *)

Definition to_lowercase (s : string) : string := list_str (to_ascii_lowercase <$> str_list s).

(** [BurnKey]: a burn transaction ID in lowercase. *)
Abbreviation BurnKey := string.
Definition BurnKey_new (burn_tx_id : string) : BurnKey := to_lowercase burn_tx_id.

Inductive SubmissionStatus : Type := Pending | Submitted | Finalized | ReconciliationRequired | Failed.
#[export] Instance SubmissionStatus_eq_dec : EqDecision SubmissionStatus.
Proof. solve_decision. Defined.

Definition as_token (status : SubmissionStatus) : string :=
  match status with
  | Pending => "pending"
  | Submitted => "submitted"
  | Finalized => "finalized"
  | ReconciliationRequired => "reconciliation_required"
  | Failed => "failed"
  end.
Definition SubmissionStatus_parse (token : string) : option SubmissionStatus :=
  if decide (token = "pending")%string then Some Pending
  else if decide (token = "submitted")%string then Some Submitted
  else if decide (token = "finalized")%string then Some Finalized
  else if decide (token = "reconciliation_required")%string then Some ReconciliationRequired
  else if decide (token = "failed")%string then Some Failed
  else None.

Definition blocks_resubmission (status : SubmissionStatus) : bool :=
  match status with Failed => false | _ => true end.

Definition can_transition_to (from to : SubmissionStatus) : bool :=
  match from, to with
  | Pending, Submitted
  | Pending, ReconciliationRequired
  | Pending, Failed
  | Pending, Finalized
  | Submitted, Finalized
  | Submitted, ReconciliationRequired => true
  | Failed, Pending => true
  | _, _ => false
  end.

Record SubmissionRecord := {
  sr_burn_key : BurnKey;
  sr_withdrawal_id : option string;
  sr_status : SubmissionStatus;
  sr_timestamp : Z;
}.

Inductive ClaimOutcome : Type :=
| Claimed (records : list SubmissionRecord)
| AlreadySeen (record : SubmissionRecord).

(** ** Errors (error.rs) *)

Inductive LedgerError : Type :=
| EphemeralStorePath (path : string)
| UnsupportedLedgerSchema (found expected : Z)
| LedgerStore (cause : string)
| CorruptLedgerRecord (detail : string)
| UnknownBurn (burn_tx_id : string)
| IllegalStatusTransition (from to : SubmissionStatus).

(** ** The table (store.rs) *)

(** A row of [submitted_burn] as its columns hold it; the key is the map's. *)
Record LedgerRow := {
  lr_withdrawal_id : option string;
  lr_status : string;
  lr_timestamp : Z;
}.
Abbreviation Ledger := (gmap string LedgerRow).

Definition LEDGER_SCHEMA_VERSION : Z := 1.

Definition to_sql_seconds (seconds : Z) : result LedgerError Z :=
  ok_or (try_from_max i64_max seconds) (CorruptLedgerRecord "timestamp does not fit an i64").
Definition from_sql_seconds (seconds : Z) : result LedgerError Z :=
  ok_or (try_from_max u64_max seconds) (CorruptLedgerRecord "timestamp is negative").

Definition row_to_record (key : string) (row : LedgerRow) : result LedgerError SubmissionRecord :=
  let? status :=
    ok_or (SubmissionStatus_parse (lr_status row)) (CorruptLedgerRecord (lr_status row)) in
  let? timestamp := from_sql_seconds (lr_timestamp row) in
  Ok {| sr_burn_key := BurnKey_new key; sr_withdrawal_id := lr_withdrawal_id row;
        sr_status := status; sr_timestamp := timestamp |}.

Definition read_record (key : BurnKey) (rows : Ledger)
    : result LedgerError (option SubmissionRecord) :=
  match rows !! key with
  | None => Ok None
  | Some row => map_ok Some (row_to_record key row)
  end.

(** [UPDATE .. WHERE burn_key = ..]: no row, no effect. *)
Definition update_row (key : BurnKey) (row : LedgerRow) (rows : Ledger) : Ledger :=
  match rows !! key with Some _ => <[key := row]> rows | None => rows end.

Definition option_or {A} (a b : option A) : option A := match a with Some _ => a | None => b end.

Definition apply_transition (current : SubmissionRecord) (to : SubmissionStatus)
    (withdrawal_id : option string) (now : Z) : tx Ledger LedgerError SubmissionRecord :=
  tlift (ensure (can_transition_to (sr_status current) to)
           (IllegalStatusTransition (sr_status current) to)) ;!
  let updated :=
    {| sr_burn_key := sr_burn_key current;
       sr_withdrawal_id := option_or withdrawal_id (sr_withdrawal_id current);
       sr_status := to; sr_timestamp := now |} in
  let! timestamp := tlift (to_sql_seconds (sr_timestamp updated)) in
  let! rows := tget in
  tput (update_row (sr_burn_key updated)
          {| lr_withdrawal_id := sr_withdrawal_id updated; lr_status := as_token to;
             lr_timestamp := timestamp |} rows) ;!
  tret updated.

(** ** Claims *)

(** Why a claim's transaction was rolled back. *)
Inductive ClaimAborted : Type :=
| AbortSeen (record : SubmissionRecord)
| AbortLedger (e : LedgerError).

(** [INSERT]: the schema refuses an empty key. *)
Definition insert_row (record : SubmissionRecord) : tx Ledger LedgerError unit :=
  let! timestamp := tlift (to_sql_seconds (sr_timestamp record)) in
  tlift (ensure (negb (bool_decide (sr_burn_key record = ""%string)))
           (LedgerStore "CHECK constraint failed")) ;!
  let! rows := tget in
  tput (<[sr_burn_key record := {| lr_withdrawal_id := sr_withdrawal_id record;
                                   lr_status := as_token (sr_status record);
                                   lr_timestamp := timestamp |}]> rows).

Definition claim_one (now : Z) (key : BurnKey) : tx Ledger ClaimAborted SubmissionRecord :=
  let! rows := tget in
  let! existing := tlift (map_err AbortLedger (read_record key rows)) in
  match existing with
  | Some existing =>
      if blocks_resubmission (sr_status existing) then tlift (Err (AbortSeen existing))
      else tmap_err AbortLedger (apply_transition existing Pending None now)
  | None =>
      let record := {| sr_burn_key := key; sr_withdrawal_id := None; sr_status := Pending;
                       sr_timestamp := now |} in
      tmap_err AbortLedger (insert_row record) ;!
      tret record
  end.

Fixpoint claim_all (now : Z) (keys : list BurnKey) : tx Ledger ClaimAborted (list SubmissionRecord) :=
  match keys with
  | [] => tret []
  | key :: keys =>
      let! record := claim_one now key in
      let! records := claim_all now keys in
      tret (record :: records)
  end.

(** [write]: the body's changes are committed when it succeeds and rolled back otherwise. *)
Definition ledger_write {E A} (body : tx Ledger E A) (rows : Ledger) : result E A * Ledger :=
  match body rows with
  | Ok (a, rows') => (Ok a, rows')
  | Err e => (Err e, rows)
  end.

Definition claim_burns (now : Z) (keys : list BurnKey) (rows : Ledger)
    : result LedgerError ClaimOutcome * Ledger :=
  match ledger_write (claim_all now keys) rows with
  | (Ok records, rows) => (Ok (Claimed records), rows)
  | (Err (AbortSeen record), rows) => (Ok (AlreadySeen record), rows)
  | (Err (AbortLedger e), rows) => (Err e, rows)
  end.

(** ** Transitions *)

Definition transition_body (now : Z) (key : BurnKey) (to : SubmissionStatus)
    (withdrawal_id : option string) : tx Ledger LedgerError SubmissionRecord :=
  let! rows := tget in
  let! existing := tlift (read_record key rows) in
  let! current := tlift (ok_or existing (UnknownBurn key)) in
  apply_transition current to withdrawal_id now.

Definition transition (now : Z) (key : BurnKey) (to : SubmissionStatus)
    (withdrawal_id : option string) (rows : Ledger) : result LedgerError SubmissionRecord * Ledger :=
  ledger_write (transition_body now key to withdrawal_id) rows.

(** [SubmitLedger::record]. *)
Definition ledger_record (key : BurnKey) (rows : Ledger)
    : result LedgerError (option SubmissionRecord) := read_record key rows.

(** ** Opening *)

(** [str::trim]. *)
Definition trim (s : string) : string :=
  let fix drop_ws (cs : list (list ascii)) :=
    match cs with c :: cs' => if is_whitespace c then drop_ws cs' else cs | [] => [] end in
  list_str (concat (rev (drop_ws (rev (drop_ws (chars (str_list s))))))).

Definition durable_path (path : string) : result LedgerError unit :=
  let normalized := to_lowercase (trim path) in
  ensure (negb (bool_decide (normalized = ""%string))) (EphemeralStorePath path) ;?
  ensure (negb (bool_decide (normalized = ":memory:"%string))) (EphemeralStorePath path).

(** [pragma_database_list] names the file behind the connection. *)
Definition assert_backed_by_a_file (file path : string) : result LedgerError unit :=
  ensure (negb (is_blank file)) (EphemeralStorePath path).

(** A database file: the [user_version] it was written with and its rows. *)
Record LedgerFile := { lf_version : Z; lf_rows : Ledger }.

(** [open_with_clock], on the file SQLite opened and the name it reports for it. A new file has
    version 0, and the schema creates its table when it is not there. *)
Definition open_with_clock (path file : string) (found : LedgerFile) : result LedgerError LedgerFile :=
  durable_path path ;?
  assert_backed_by_a_file file path ;?
  if lf_version found =? 0 then Ok {| lf_version := LEDGER_SCHEMA_VERSION; lf_rows := lf_rows found |}
  else if lf_version found =? LEDGER_SCHEMA_VERSION then Ok found
  else Err (UnsupportedLedgerSchema (lf_version found) LEDGER_SCHEMA_VERSION).
