(* ===== verification/AttesterWire.v ===== *)
(** The wire types of Circle's withdrawal API as withdrawal-listener-attester declares them
    (circle/wire.rs, circle/schema/): checked strings and the messages built of them. serde's derived
    decoders are generated code and a parameter. *)
From S2P Require Import Prelude Text Foreign.
From Stdlib Require Import Ascii.
Local Open Scope Z_scope.

(** ** Checked strings (wire.rs) *)

Inductive SchemaError : Type :=
| BadHex32 (v : string)
| BadHex20 (v : string)
| BadHex (v : string)
| EmptyHex (v : string)
| BadCalldata (v : string)
| BadDecimalUint (v : string)
| BadDecimalAmount (v : string)
| BadForwardingFee (v : string)
| BadUuid (v : string)
| UnknownToken (v : string)
| ValueXor
| RemoteDomainBelowMinimum (domain : Z)
| DomainsMustDiffer (domain : Z)
| BatchCountOutOfRange (n : Z)
| BurnIntentCountOutOfRange (n : Z)
| SignatureCountBelowThreshold (n : Z).

(** [str::strip_prefix("0x")]. *)
Definition strip_0x (l : list ascii) : option (list ascii) :=
  match l with "0"%char :: "x"%char :: body => Some body | _ => None end.

Definition hex_body_of_len (value : string) (digits : nat) : bool :=
  match strip_0x (str_list value) with
  | Some body => Nat.eqb (length body) digits && forallb is_ascii_hexdigit body
  | None => false
  end.

Definition is_hex (value : string) : bool :=
  match strip_0x (str_list value) with
  | Some body => forallb is_ascii_hexdigit body
  | None => false
  end.

Definition is_decimal_digits (value : list ascii) : bool :=
  negb (bool_decide (value = [])) && forallb is_ascii_digit value.

(** [str::split_once('.')]. *)
Fixpoint split_at_dot (l : list ascii) : option (list ascii * list ascii) :=
  match l with
  | [] => None
  | a :: l =>
      if bool_decide (a = "."%char) then Some ([], l)
      else match split_at_dot l with Some (x, y) => Some (a :: x, y) | None => None end
  end.

Definition is_decimal_amount (value : string) (max_places : option nat) : bool :=
  match split_at_dot (str_list value) with
  | None => is_decimal_digits (str_list value)
  | Some (whole, frac) =>
      is_decimal_digits whole && is_decimal_digits frac
      && match max_places with None => true | Some max => (length frac <=? max)%nat end
  end.

(** [str::split('-')]. *)
Fixpoint split_dashes (cur : list ascii) (l : list ascii) : list (list ascii) :=
  match l with
  | [] => [rev cur]
  | a :: l =>
      if bool_decide (a = "-"%char) then rev cur :: split_dashes [] l
      else split_dashes (a :: cur) l
  end.

Definition checked (check : string -> bool) (err : string -> SchemaError) (value : string)
    : result SchemaError string :=
  if check value then Ok value else Err (err value).

Definition Hex32_new : string -> result SchemaError string :=
  checked (fun v => hex_body_of_len v 64) BadHex32.
Definition Hex20_new : string -> result SchemaError string :=
  checked (fun v => hex_body_of_len v 40) BadHex20.
Definition HexBytes_new : string -> result SchemaError string := checked is_hex BadHex.
Definition HexTxId_new : string -> result SchemaError string :=
  checked (fun v => is_hex v && (2 <? str_len v)) EmptyHex.
Definition Calldata_new : string -> result SchemaError string :=
  checked (fun v =>
    match strip_0x (str_list v) with
    | None => false
    | Some [] => true
    | Some body => (8 <=? length body)%nat && forallb is_ascii_hexdigit body
    end) BadCalldata.
Definition DecimalUint_new : string -> result SchemaError string :=
  checked (fun v => is_decimal_digits (str_list v)) BadDecimalUint.
Definition DecimalAmount_new : string -> result SchemaError string :=
  checked (fun v => is_decimal_amount v None) BadDecimalAmount.
Definition ForwardingFee_new : string -> result SchemaError string :=
  checked (fun v => is_decimal_amount v (Some 6%nat)) BadForwardingFee.
Definition Uuid_new : string -> result SchemaError string :=
  checked (fun v =>
    let groups := split_dashes [] (str_list v) in
    Nat.eqb (length groups) 5
    && bool_decide (length <$> groups = [8; 4; 4; 4; 12]%nat)
    && forallb (forallb is_ascii_hexdigit) groups) BadUuid.

Inductive Token : Type := Usdc.
Definition Token_new (value : string) : result SchemaError Token :=
  if decide (value = "USDC"%string) then Ok Usdc else Err (UnknownToken value).
Definition Token_as_str (token : Token) : string := match token with Usdc => "USDC" end.

(** ** Intents (schema/intents.rs) *)

Record StructuredHookData := {
  remote_domain : Z;
  remote_depositor : string;
  remote_token : string;
  forwarding_contract_address : string;
  forwarding_calldata : string;
}.

Record TransferSpec := {
  version : Z;
  source_domain : Z;
  destination_domain : Z;
  source_contract : string;
  destination_contract : string;
  source_token : string;
  destination_token : string;
  source_depositor : string;
  destination_recipient : string;
  source_signer : string;
  destination_caller : string;
  value : string;
  salt : string;
  hook_data : StructuredHookData;
}.

Record BurnIntent := {
  max_block_height : string;
  max_fee : string;
  spec : TransferSpec;
}.

Record PreparedBatch := {
  burn_intents : list BurnIntent;
  encoded : string;
  message_hash_to_sign : string;
}.

Record PrepareWithdrawalResponse := { response_batches : list PreparedBatch }.

(** ** The prepare request (schema/prepare.rs) *)

Record ForwardingOptions := {
  fo_max_fee : option string;
  fo_hook_data : option string;
  fo_uses_fast_finality : option bool;
}.

Record PrepareBurnIntentInput := {
  token : Token;
  value_excluding_fees : option string;
  value_including_fees : option string;
  in_remote_domain : Z;
  in_remote_depositor : string;
  final_destination_domain : Z;
  final_destination_recipient : string;
  final_destination_caller : option string;
  in_salt : option string;
  in_use_circle_forwarding : bool;
  forwarding_options : option ForwardingOptions;
}.

Definition is_some {A} (o : option A) : bool := match o with Some _ => true | None => false end.

Definition PrepareBurnIntentInput_validate (input : PrepareBurnIntentInput)
    : result SchemaError unit :=
  ensure (negb (Bool.eqb (is_some (value_excluding_fees input)) (is_some (value_including_fees input))))
    ValueXor ;?
  ensure (1 <=? in_remote_domain input) (RemoteDomainBelowMinimum (in_remote_domain input)) ;?
  ensure (negb (in_remote_domain input =? final_destination_domain input))
    (DomainsMustDiffer (in_remote_domain input)).

Definition PrepareBurnIntentInput_build (input : PrepareBurnIntentInput)
    : result SchemaError PrepareBurnIntentInput :=
  PrepareBurnIntentInput_validate input ;? Ok input.

Record PrepareWithdrawalRequest := { input_batches : list PrepareBurnIntentInput }.

(** ** The withdraw request and its replies (schema/withdraw.rs) *)

Definition BATCHES_MIN : Z := 1.
Definition BATCHES_MAX : Z := 5.
Definition BURN_INTENTS_MIN : Z := 1.
Definition BURN_INTENTS_MAX : Z := 10.
Definition BURN_SIGNATURES_MIN : Z := 2.

Definition list_len {A} (l : list A) : Z := Z.of_nat (length l).

Record WithdrawBatch := {
  wb_burn_intents : list BurnIntent;
  wb_burn_signatures : list string;
  wb_burn_tx_id : string;
  wb_use_circle_forwarding : bool;
}.

Definition WithdrawBatch_new (intents : list BurnIntent) (signatures : list string)
    (burn_tx_id : string) (use_circle_forwarding : bool) : result SchemaError WithdrawBatch :=
  ensure ((BURN_INTENTS_MIN <=? list_len intents) && (list_len intents <=? BURN_INTENTS_MAX))
    (BurnIntentCountOutOfRange (list_len intents)) ;?
  ensure (BURN_SIGNATURES_MIN <=? list_len signatures)
    (SignatureCountBelowThreshold (list_len signatures)) ;?
  Ok {| wb_burn_intents := intents; wb_burn_signatures := signatures;
        wb_burn_tx_id := burn_tx_id; wb_use_circle_forwarding := use_circle_forwarding |}.

Record WithdrawRequest := { request_batches : list WithdrawBatch }.

Definition WithdrawRequest_new (batches : list WithdrawBatch) : result SchemaError WithdrawRequest :=
  ensure ((BATCHES_MIN <=? list_len batches) && (list_len batches <=? BATCHES_MAX))
    (BatchCountOutOfRange (list_len batches)) ;?
  Ok {| request_batches := batches |}.

Inductive WithdrawalStatusKind : Type :=
| KindCreated | KindVerified | KindConfirmed | KindFinalized | KindExpired | KindFailed.
#[export] Instance WithdrawalStatusKind_eq_dec : EqDecision WithdrawalStatusKind.
Proof. solve_decision. Defined.

Definition is_terminal (kind : WithdrawalStatusKind) : bool :=
  match kind with KindFinalized | KindFailed => true | _ => false end.
(** Circle says an expired withdrawal may be sent again. *)
Definition kind_is_retryable (kind : WithdrawalStatusKind) : bool :=
  match kind with KindExpired => true | _ => false end.

Record WithdrawalStatus := {
  ws_withdrawal_id : string;
  ws_burn_tx_id : string;
  ws_status : WithdrawalStatusKind;
  ws_attestation_payload : option string;
  ws_attestation : option string;
  ws_use_circle_forwarding : bool;
  ws_transaction_hash : option string;
  ws_failure_reason : option string;
  ws_transfer_spec_hashes : list string;
}.
Abbreviation WithdrawSubmissionResponse := (list WithdrawalStatus).

Record WithdrawConflict := {
  cf_withdrawal_id : option string;
  cf_burn_tx_id : string;
}.

(** ** Decoding replies *)

(** serde_json and the derived decoders over the reply types above, before the checks that the
    strings' own [Deserialize] makes ([wire_string!]). *)
Class AttesterJson := {
  json_prepared : bytes -> option PrepareWithdrawalResponse;
  json_statuses : bytes -> option WithdrawSubmissionResponse;
  json_status : bytes -> option WithdrawalStatus;
  json_withdraw_conflict : bytes -> option WithdrawConflict;
}.

Definition all_ok {A} (new : string -> result SchemaError A) (values : list string) : bool :=
  forallb (fun v => is_ok (new v)) values.
Definition present {A} (o : option A) : list A := match o with Some a => [a] | None => [] end.

Definition hook_data_checked (hook : StructuredHookData) : bool :=
  all_ok Hex32_new [remote_depositor hook; remote_token hook]
  && all_ok Hex20_new [forwarding_contract_address hook]
  && all_ok Calldata_new [forwarding_calldata hook].
Definition spec_checked (s : TransferSpec) : bool :=
  all_ok Hex32_new
    [source_contract s; destination_contract s; source_token s; destination_token s;
     source_depositor s; destination_recipient s; source_signer s; destination_caller s; salt s]
  && all_ok DecimalUint_new [value s]
  && hook_data_checked (hook_data s).
Definition intent_checked (intent : BurnIntent) : bool :=
  all_ok DecimalUint_new [max_block_height intent; max_fee intent] && spec_checked (spec intent).
Definition response_checked (response : PrepareWithdrawalResponse) : bool :=
  forallb (fun batch => forallb intent_checked (burn_intents batch)) (response_batches response).
Definition status_checked (status : WithdrawalStatus) : bool :=
  all_ok Uuid_new [ws_withdrawal_id status]
  && all_ok HexTxId_new [ws_burn_tx_id status]
  && all_ok HexBytes_new (present (ws_attestation_payload status) ++ present (ws_attestation status))
  && all_ok Hex32_new (present (ws_transaction_hash status) ++ ws_transfer_spec_hashes status).
Definition conflict_checked (conflict : WithdrawConflict) : bool :=
  all_ok Uuid_new (present (cf_withdrawal_id conflict))
  && all_ok HexTxId_new [cf_burn_tx_id conflict].

(** [serde_json::from_slice] into a checked type. *)
Definition from_slice {A} (json : bytes -> option A) (check : A -> bool) (body : bytes) : option A :=
  match json body with Some a => if check a then Some a else None | None => None end.
