(* ===== verification/AttesterHttp.v ===== *)
(** How withdrawal-listener-attester reaches Circle (config.rs, circle/auth.rs, client.rs, transport.rs,
    retry.rs, rate.rs): configuration, the client, bounded replies, retries and the rate governor. *)
From S2P Require Import Prelude Text Foreign.
From Stdlib Require Import Ascii.
Local Open Scope Z_scope.

(** [ListenerError], without the causes of other libraries' errors. *)
Inductive ListenerError : Type :=
| BadBaseUrl (url : string)
| InsecureAuthTransport (base_url : string)
| BadAuthHeader (name : string)
| AuthHeaderNameRequired
| BadFaucetId (value : string)
| Transport (cause : string)
| ResponseTooLarge (limit actual : Z)
| Http (status : Z)
| WithdrawalNotFound (withdrawal_id : string)
| MalformedResponse (context : string)
| PollExhausted (after : Z)
| WithdrawResponseCardinality (submitted returned : Z)
| WithdrawalIdMismatch (requested returned : string).
#[export] Instance ListenerError_eq_dec : EqDecision ListenerError.
Proof. solve_decision. Defined.

(** ** Configuration (config.rs) *)

Definition CIRCLE_TESTNET_BASE_URL : string := "https://xreserve-api-testnet.circle.com".
Definition PLACEHOLDER_FAUCET_ID : string := "0xbb405fd9fe431bd1135a292de098cb".

Record ListenerConfig := {
  faucet_id : AccountId;
  burn_tag : Z;
  lc_miden_domain : Z;
  max_withdrawal_fee : Z;
  circle_base_url : string;
  attester_key_handles : list string;
  attester_allowlist : gset Address;
  api_auth_token : option string;
  api_auth_header : option string;
}.

(** xusdc-encoding and miden-protocol: the default domain, the decoding of a burn note's storage
    items, and an account ID from its two elements. *)
Class EncodingLib `{MidenLib} := {
  circle_domain_default : Z;
  burn_items_decode : list Z -> option BurnItems;
  account_id_try_from_elements : Z -> Z -> option AccountId;
}.

(** http and reqwest: legal header names and values, whether the client can be built, and the host of
    a URL that has one. *)
Class HttpLib := {
  header_name_ok : string -> bool;
  header_value_ok : string -> bool;
  http_client_build : result string unit;
  url_host : Url -> string;
}.

Section http.
Context `{Hmiden : MidenLib, Hencoding : !EncodingLib, WebLib, HttpLib}.

Definition is_http (scheme : string) : bool :=
  bool_decide (scheme = "http"%string) || bool_decide (scheme = "https"%string).

Definition ListenerConfig_validate (c : ListenerConfig) : result ListenerError unit :=
  let? url := ok_or (url_parse (circle_base_url c)) (BadBaseUrl (circle_base_url c)) in
  ensure (is_http (url_scheme url)) (BadBaseUrl (circle_base_url c)) ;?
  match api_auth_token c with
  | None => Ok tt
  | Some _ =>
      ensure (bool_decide (url_scheme url = "https"%string))
        (InsecureAuthTransport (circle_base_url c)) ;?
      ensure (bool_decide (api_auth_header c <> None)) AuthHeaderNameRequired
  end.

Definition ListenerConfig_build (c : ListenerConfig) : result ListenerError ListenerConfig :=
  ListenerConfig_validate c ;? Ok c.

(** The configuration that a file with no setting gives; [None] is the panic of an [expect]. *)
Definition ListenerConfig_default : option ListenerConfig :=
  faucet ← account_id_from_hex PLACEHOLDER_FAUCET_ID;
  Some {| faucet_id := faucet; burn_tag := 0; lc_miden_domain := circle_domain_default; max_withdrawal_fee := 0;
          circle_base_url := CIRCLE_TESTNET_BASE_URL; attester_key_handles := [];
          attester_allowlist := ∅; api_auth_token := None; api_auth_header := None |}.

(** ** Authentication (auth.rs) *)

Inductive AuthPosture : Type := NoAuth | AuthHeader (name value : string).

Definition AuthPosture_from_config (c : ListenerConfig) : AuthPosture :=
  match api_auth_token c, api_auth_header c with
  | Some token, Some name => AuthHeader name token
  | _, _ => NoAuth
  end.
Definition carries_credential (auth : AuthPosture) : bool :=
  match auth with AuthHeader _ _ => true | NoAuth => false end.
Definition to_header (auth : AuthPosture) : result ListenerError (option (string * string)) :=
  match auth with
  | NoAuth => Ok None
  | AuthHeader name value =>
      ensure (header_name_ok name) (BadAuthHeader name) ;?
      ensure (header_value_ok value) (BadAuthHeader name) ;?
      Ok (Some (name, value))
  end.

(** ** Retries (retry.rs) and polling *)

Definition MAX_BACKOFF_SHIFT : Z := 20.
Definition DEFAULT_MAX_ATTEMPTS : Z := 4.
Definition DEFAULT_BASE_DELAY_MS : Z := 500.

Definition is_retryable (error : ListenerError) : bool :=
  match error with Http status => (500 <=? status) && (status <=? 599) | _ => false end.

Record RetryPolicy := { rp_max_attempts : Z; rp_base_delay_ms : Z }.
Definition RetryPolicy_new (max_attempts base_delay_ms : Z) : RetryPolicy :=
  {| rp_max_attempts := Z.max max_attempts 1; rp_base_delay_ms := base_delay_ms |}.
Definition RetryPolicy_default : RetryPolicy :=
  RetryPolicy_new DEFAULT_MAX_ATTEMPTS DEFAULT_BASE_DELAY_MS.
(** In milliseconds. *)
Definition backoff_for (policy : RetryPolicy) (attempt : Z) : Z :=
  let shift := Z.min (saturating_sub attempt 1) MAX_BACKOFF_SHIFT in
  saturating_mul u64_max (rp_base_delay_ms policy) (Z.shiftl 1 shift).

Record PollPolicy := { pp_interval : Z; pp_max_attempts : Z }.
Definition PollPolicy_new (interval max_attempts : Z) : PollPolicy :=
  {| pp_interval := interval; pp_max_attempts := Z.max max_attempts 1 |}.
Definition PollPolicy_default : PollPolicy := PollPolicy_new 2000 150.

(** ** Replies (transport.rs) *)

Record RawResponse := { status : Z; body : bytes }.

(** What reqwest receives: the URL that answered, the status, the announced length, the chunks of
    the body and the error that ended it early. *)
Record HttpReply := {
  hp_url : Url;
  hp_status : Z;
  hp_content_length : option Z;
  hp_chunks : list bytes;
  hp_broken : option string;
}.

Record BodyLimit := { bl_max : Z; bl_seen : Z }.
Definition BodyLimit_new (max : Z) : BodyLimit := {| bl_max := max; bl_seen := 0 |}.
Definition check_content_length (limit : BodyLimit) (content_length : option Z)
    : result ListenerError unit :=
  match content_length with
  | Some length => ensure (length <=? bl_max limit) (ResponseTooLarge (bl_max limit) length)
  | None => Ok tt
  end.
Definition push (limit : BodyLimit) (chunk_len : Z) : result ListenerError BodyLimit :=
  let seen := saturating_add u64_max (bl_seen limit) chunk_len in
  ensure (seen <=? bl_max limit) (ResponseTooLarge (bl_max limit) seen) ;?
  Ok {| bl_max := bl_max limit; bl_seen := seen |}.

Fixpoint collect_chunks (chunks : list bytes) (broken : option string) (limit : BodyLimit)
    (collected : bytes) : result ListenerError bytes :=
  match chunks with
  | [] => match broken with Some cause => Err (Transport cause) | None => Ok collected end
  | chunk :: chunks =>
      let? limit := push limit (Z.of_nat (length chunk)) in
      collect_chunks chunks broken limit (collected ++ chunk)
  end.
Definition collect_bounded (reply : HttpReply) (max_bytes : Z) : result ListenerError bytes :=
  check_content_length (BodyLimit_new max_bytes) (hp_content_length reply) ;?
  collect_chunks (hp_chunks reply) (hp_broken reply) (BodyLimit_new max_bytes) [].

Definition check_not_redirected (requested responded : Url) : result ListenerError unit :=
  ensure (bool_decide (requested = responded)) (Transport "a redirect was followed").

(** [ReqwestTransport::execute], on what reqwest's own execute returned. *)
Definition transport_execute (max_response_bytes : Z) (requested_url : Url)
    (answer : result string HttpReply) : result ListenerError RawResponse :=
  let? reply := map_err Transport answer in
  check_not_redirected requested_url (hp_url reply) ;?
  let? collected := collect_bounded reply max_response_bytes in
  Ok {| status := hp_status reply; body := collected |}.

(** ** The rate governor (rate.rs) *)

(** Instants and durations in nanoseconds. *)
Definition RATE_WINDOW : Z := 1000000000.
Definition MIN_GOVERNOR_SLEEP : Z := 1000000.
Definition DOCUMENTED_QPS_PER_IP : Z := 5.
Definition DOCUMENTED_QPS_GLOBAL : Z := 35.

Record RateGovernor := { qps_per_ip : Z; qps_global : Z }.
Definition RateGovernor_new (per_ip global : Z) : RateGovernor :=
  {| qps_per_ip := Z.max per_ip 1; qps_global := Z.max global 1 |}.
Definition documented : RateGovernor :=
  RateGovernor_new DOCUMENTED_QPS_PER_IP DOCUMENTED_QPS_GLOBAL.

(** The mutex-guarded windows, oldest permit first, and the number of permits granted. *)
Record GovernorState := {
  gv_global : list Z;
  gv_per_host : gmap string (list Z);
  gv_granted : nat;
}.
Definition GovernorState_default : GovernorState :=
  {| gv_global := []; gv_per_host := ∅; gv_granted := 0 |}.

Definition duration_since (now earlier : Z) : Z := Z.max 0 (now - earlier).

Fixpoint prune (window : list Z) (now : Z) : list Z :=
  match window with
  | [] => []
  | oldest :: rest => if RATE_WINDOW <=? duration_since now oldest then prune rest now else window
  end.

Definition window_wait (window : list Z) (limit now : Z) : option Z :=
  if Z.of_nat (length window) <? limit then None
  else match window with
       | [] => None
       | oldest :: _ => Some (saturating_sub RATE_WINDOW (duration_since now oldest))
       end.

(** [Option::max]. *)
Definition option_max (a b : option Z) : option Z :=
  match a, b with
  | None, b => b
  | a, None => a
  | Some x, Some y => Some (Z.max x y)
  end.

(** One turn of [acquire]'s loop at the instant [now]: [None] is a permit, [Some wait] a sleep before
    the next turn. *)
Definition acquire_turn (g : RateGovernor) (host : string) (now : Z) (st : GovernorState)
    : option Z * GovernorState :=
  let global := prune (gv_global st) now in
  let window := prune (default [] (gv_per_host st !! host)) now in
  match option_max (window_wait window (qps_per_ip g) now) (window_wait global (qps_global g) now) with
  | None =>
      (None, {| gv_global := global ++ [now]; gv_per_host := <[host := window ++ [now]]> (gv_per_host st);
                gv_granted := S (gv_granted st) |})
  | Some wait =>
      (Some (Z.max wait MIN_GOVERNOR_SLEEP),
       {| gv_global := global; gv_per_host := <[host := window]> (gv_per_host st);
          gv_granted := gv_granted st |})
  end.

(** ** The client (client.rs) *)

Definition DEFAULT_MAX_RESPONSE_BYTES : Z := Z.shiftl 1 20.

Record CircleClient := {
  base_url : string;
  base : Url;
  auth : AuthPosture;
  auth_header : option (string * string);
  (** The ceiling of the transport, and the client's own. *)
  transport_max_response_bytes : Z;
  max_response_bytes : Z;
  poll : PollPolicy;
  retry : RetryPolicy;
  governor : RateGovernor;
}.

Definition CircleClient_new (url : string) (posture : AuthPosture)
    : result ListenerError CircleClient :=
  let? parsed := ok_or (url_parse url) (BadBaseUrl url) in
  ensure (is_http (url_scheme parsed)) (BadBaseUrl url) ;?
  ensure (url_has_host parsed) (BadBaseUrl url) ;?
  ensure (negb (carries_credential posture && negb (bool_decide (url_scheme parsed = "https"%string))))
    (InsecureAuthTransport url) ;?
  let? header := to_header posture in
  map_err Transport http_client_build ;?
  Ok {| base_url := url; base := parsed; auth := posture; auth_header := header;
        transport_max_response_bytes := DEFAULT_MAX_RESPONSE_BYTES;
        max_response_bytes := DEFAULT_MAX_RESPONSE_BYTES;
        poll := PollPolicy_default; retry := RetryPolicy_default; governor := documented |}.

Definition CircleClient_from_config (c : ListenerConfig) : result ListenerError CircleClient :=
  CircleClient_new (circle_base_url c) (AuthPosture_from_config c).

Definition with_max_response_bytes (max : Z) (c : CircleClient) : CircleClient :=
  {| base_url := base_url c; base := base c; auth := auth c; auth_header := auth_header c;
     transport_max_response_bytes := max; max_response_bytes := max;
     poll := poll c; retry := retry c; governor := governor c |}.
Definition with_policies (p : PollPolicy) (r : RetryPolicy) (g : RateGovernor) (c : CircleClient)
    : CircleClient :=
  {| base_url := base_url c; base := base c; auth := auth c; auth_header := auth_header c;
     transport_max_response_bytes := transport_max_response_bytes c;
     max_response_bytes := max_response_bytes c; poll := p; retry := r; governor := g |}.

Definition join (c : CircleClient) (path : string) : result ListenerError Url :=
  ok_or (url_join (base c) path) (BadBaseUrl (base_url c +:+ path)).

(** The end of [execute], once the permit is granted and reqwest has answered. *)
Definition read_reply (c : CircleClient) (requested_url : Url) (answer : result string HttpReply)
    : result ListenerError RawResponse :=
  let? response := transport_execute (transport_max_response_bytes c) requested_url answer in
  let length := Z.of_nat (length (body response)) in
  ensure (length <=? max_response_bytes c) (ResponseTooLarge (max_response_bytes c) length) ;?
  Ok response.
End http.
