(* ===== verification/Quorum.v ===== *)
(** Validation and signing in withdrawal-listener-attester (note_decode.rs, validate.rs,
    attester.rs): what a discovered note says, what Circle's prepared batches must say, the
    signatures over their digests and the quorum of two. *)
From S2P Require Import Prelude Text Foreign AttesterWire AttesterHttp.
From Stdlib Require Import Ascii.
Local Open Scope Z_scope.

(** ** Signatures and addresses (attester.rs) *)

Definition DIGEST_LEN : nat := 32.
Definition SIGNATURE_LEN : nat := 65.
Definition ADDRESS_LEN : nat := 20.
Definition EVM_V_OFFSET : Z := 27.
Definition MIN_SIGNATURE_THRESHOLD : Z := 2.

Abbreviation Digest := bytes.
(** r, s and v: 65 bytes. *)
Abbreviation Signature65 := bytes.

(** k256 and sha3. A signature is its 64 bytes r and s; a public key the 64 bytes of its point. *)
Class EcdsaLib := {
  SecretKey : Type;
  sign_prehash_recoverable : SecretKey -> Digest -> option (bytes * Z);
  verifying_key : SecretKey -> bytes;
  signature_from_slice : bytes -> bool;
  recover_from_prehash : Digest -> bytes -> Z -> option bytes;
  keccak : bytes -> bytes;
}.

Inductive SignError : Type :=
| DigestLength (actual : Z)
| Ecdsa
| UnrepresentableRecoveryId (recovery_id : Z).

Inductive QuorumError : Type :=
| BelowThreshold (have need : Z)
| AboveThreshold (have need : Z)
| SignatureDoesNotVerify (at_ : nat)
| DuplicateSigner (address : Address)
| NotAscending (at_ : nat).

Section attester.
Context `{EcdsaLib}.

Definition evm_v_from_recovery_id (recovery_id : Z) : option Z :=
  if (recovery_id =? 0) || (recovery_id =? 1) then Some (EVM_V_OFFSET + recovery_id) else None.

Definition Signature65_from_bytes (b : bytes) : option Signature65 :=
  if Nat.eqb (length b) SIGNATURE_LEN then Some b else None.
Definition sig_v (sig : Signature65) : Z := nth (SIGNATURE_LEN - 1) sig 0.

Definition Address_from_hex (s : string) : option Address :=
  address ← of_hex s;
  if Nat.eqb (length address) ADDRESS_LEN then Some address else None.

(** [AttesterAllowlist]'s [Deserialize]: every entry an address. *)
Definition AttesterAllowlist_deserialize (hexes : list string) : option (gset Address) :=
  list_to_set <$> mapM Address_from_hex hexes.

Definition sign (msg_hash_to_sign : bytes) (key : SecretKey) : result SignError Signature65 :=
  ensure (Nat.eqb (length msg_hash_to_sign) DIGEST_LEN)
    (DigestLength (Z.of_nat (length msg_hash_to_sign))) ;?
  let? signed := ok_or (sign_prehash_recoverable key msg_hash_to_sign) Ecdsa in
  let? v := ok_or (evm_v_from_recovery_id signed.2) (UnrepresentableRecoveryId signed.2) in
  Ok (signed.1 ++ [v]).

Definition address_from_verifying_key (point : bytes) : Address := drop 12 (keccak point).
Definition address_of (key : SecretKey) : Address := address_from_verifying_key (verifying_key key).

Definition recover_address (digest : Digest) (sig : Signature65) : option Address :=
  recovery_id ←
    (if sig_v sig =? EVM_V_OFFSET then Some 0
     else if sig_v sig =? EVM_V_OFFSET + 1 then Some 1 else None);
  if signature_from_slice (take 64 sig) then
    point ← recover_from_prehash digest (take 64 sig) recovery_id;
    Some (address_from_verifying_key point)
  else None.

(** ** The quorum *)

Record QuorumBundle := { signatures : list Signature65 }.

Fixpoint check_verifies (digest : Digest) (i : nat) (sigs : list (Address * Signature65))
    : result QuorumError unit :=
  match sigs with
  | [] => Ok tt
  | (claimed, sig) :: sigs =>
      ensure (bool_decide (recover_address digest sig = Some claimed)) (SignatureDoesNotVerify i) ;?
      check_verifies digest (S i) sigs
  end.

Fixpoint check_duplicates (addresses : list Address) : result QuorumError unit :=
  match addresses with
  | [] => Ok tt
  | address :: addresses =>
      ensure (negb (bool_decide (address ∈ addresses))) (DuplicateSigner address) ;?
      check_duplicates addresses
  end.

(** Each address from the second on, against the one before it. *)
Fixpoint check_ascending (previous : Address) (i : nat) (addresses : list Address)
    : result QuorumError unit :=
  match addresses with
  | [] => Ok tt
  | address :: addresses =>
      ensure (negb (bool_decide (bytes_le address previous))) (NotAscending i) ;?
      check_ascending address (S i) addresses
  end.

Definition assemble_quorum (msg_hash_to_sign : Digest) (sigs : list (Address * Signature65))
    : result QuorumError QuorumBundle :=
  let have := list_len sigs in
  ensure (MIN_SIGNATURE_THRESHOLD <=? have) (BelowThreshold have MIN_SIGNATURE_THRESHOLD) ;?
  ensure (have <=? MIN_SIGNATURE_THRESHOLD) (AboveThreshold have MIN_SIGNATURE_THRESHOLD) ;?
  check_verifies msg_hash_to_sign 0 sigs ;?
  check_duplicates sigs.*1 ;?
  match sigs.*1 with
  | [] => Ok tt
  | first :: rest => check_ascending first 1 rest
  end ;?
  Ok {| signatures := sigs.*2 |}.
End attester.

(** ** What a discovered note says (note_decode.rs) *)

Inductive DecodeError : Type :=
| BurnItemsMalformed
| SenderAbsent
| SenderZero
| SenderMalformed.

(** [BurnNoteMetadata]: the sender's prefix and suffix. *)
Record BurnNoteMetadata := { sender : option (Z * Z) }.

Inductive DiscoveryReject : Type :=
| TagMismatch (expected actual : Z)
| PrivateNoteUnobservable
| Decode (e : DecodeError).

Record DiscoveredDetails := {
  items : list Z;
  dd_amount : Z;
  dd_sender : BurnNoteMetadata;
}.

Record DiscoveryRecord := {
  tag : Z;
  details : option DiscoveredDetails;
}.

Inductive ValidationMismatch : Type :=
| NoBatches
| EmptyBurnIntents (batch : nat)
| MismatchAmount (batch : nat) (expected : Z) (returned : string)
| DestinationDomain (batch : nat) (expected returned : Z)
| DestinationRecipient (batch : nat) (returned : string)
| MaxFee (batch : nat) (ceiling amount : Z) (returned : string)
| DestinationCaller (batch : nat) (returned : string)
| HookData (batch : nat) (field returned : string)
| MissingMessageHash (batch : nat)
| MalformedMessageHash (batch : nat) (len : Z).

Section validate.
Context `{Hmiden : MidenLib, Hencoding : !EncodingLib, EcdsaLib}.

Definition decode_burn_payload (felts : list Z) : result DecodeError BurnItems :=
  ok_or (burn_items_decode felts) BurnItemsMalformed.

Definition read_sender (meta : BurnNoteMetadata) : result DecodeError AccountId :=
  let? felts := ok_or (sender meta) SenderAbsent in
  ensure (negb ((felts.1 =? 0) && (felts.2 =? 0))) SenderZero ;?
  ok_or (account_id_try_from_elements felts.2 felts.1) SenderMalformed.

(** ** Discovery and the prepared batches (validate.rs) *)

Record DiscoveredBurn := {
  payload : BurnItems;
  amount : Z;
  depositor : AccountId;
}.

Definition validate_discovery (record : DiscoveryRecord) (cfg : ListenerConfig)
    : result DiscoveryReject DiscoveredBurn :=
  ensure (tag record =? burn_tag cfg) (TagMismatch (burn_tag cfg) (tag record)) ;?
  let? found := ok_or (details record) PrivateNoteUnobservable in
  let? payload := map_err Decode (decode_burn_payload (items found)) in
  let? depositor := map_err Decode (read_sender (dd_sender found)) in
  Ok {| payload := payload; amount := dd_amount found; depositor := depositor |}.

(** What passed validation: one digest for each batch. *)
Record ValidatedWithdrawal := { digests : list Digest }.
Definition batch_count (validated : ValidatedWithdrawal) : nat := length (digests validated).

Definition u128_max : Z := 2 ^ 128 - 1.
Definition ZERO_BYTES32 : bytes := replicate 32 0.
Definition ZERO_HEX20 : string := "0x0000000000000000000000000000000000000000".
Definition NO_FORWARDING_CALLDATA : string := "0x".

Definition decode_hex32 (s : string) : option bytes :=
  b ← of_hex s; if Nat.eqb (length b) 32 then Some b else None.
Definition hex32_eq (s : string) (expected : bytes) : bool :=
  bool_decide (decode_hex32 s = Some expected).

Definition check_max_fee (batch : nat) (max_fee : string) (burn : DiscoveredBurn)
    (cfg : ListenerConfig) : result ValidationMismatch Z :=
  let mismatch := MaxFee batch (max_withdrawal_fee cfg) (amount burn) max_fee in
  let? fee := ok_or (parse_unsigned u128_max max_fee) mismatch in
  ensure (fee <=? Z.min (max_withdrawal_fee cfg) (amount burn)) mismatch ;?
  Ok fee.

Definition check_hook_data (batch : nat) (hook : StructuredHookData) (burn : DiscoveredBurn)
    (cfg : ListenerConfig) : result ValidationMismatch unit :=
  ensure (remote_domain hook =? lc_miden_domain cfg)
    (HookData batch "remoteDomain" (list_str (to_decimal (remote_domain hook)))) ;?
  ensure (hex32_eq (remote_depositor hook) (account_id_bytes32 (depositor burn)))
    (HookData batch "remoteDepositor" (remote_depositor hook)) ;?
  ensure (hex32_eq (remote_token hook) (account_id_bytes32 (faucet_id cfg)))
    (HookData batch "remoteToken" (remote_token hook)) ;?
  ensure (eq_ignore_ascii_case (forwarding_contract_address hook) ZERO_HEX20)
    (HookData batch "forwardingContractAddress" (forwarding_contract_address hook)) ;?
  ensure (bool_decide (forwarding_calldata hook = NO_FORWARDING_CALLDATA))
    (HookData batch "forwardingCalldata" (forwarding_calldata hook)).

Definition check_spec (batch : nat) (s : TransferSpec) (max_fee : Z) (burn : DiscoveredBurn)
    (cfg : ListenerConfig) : result ValidationMismatch unit :=
  ensure
    (match parse_unsigned u128_max (value s) with
     | Some v => (0 <? v) && bool_decide (checked_add u128_max v max_fee = Some (amount burn))
     | None => false
     end)
    (MismatchAmount batch (amount burn) (value s)) ;?
  ensure (destination_domain s =? dest_domain (payload burn))
    (DestinationDomain batch (dest_domain (payload burn)) (destination_domain s)) ;?
  ensure (hex32_eq (destination_recipient s) (dest_recipient (payload burn)))
    (DestinationRecipient batch (destination_recipient s)) ;?
  ensure (hex32_eq (destination_caller s) ZERO_BYTES32)
    (DestinationCaller batch (destination_caller s)) ;?
  check_hook_data batch (hook_data s) burn cfg.

Definition check_intent (batch : nat) (intent : BurnIntent) (burn : DiscoveredBurn)
    (cfg : ListenerConfig) : result ValidationMismatch unit :=
  let? fee := check_max_fee batch (max_fee intent) burn cfg in
  check_spec batch (spec intent) fee burn cfg.

(** With or without ["0x"]. *)
Definition decode_digest (batch : nat) (hash : string) : result ValidationMismatch Digest :=
  ensure (negb (bool_decide (hash = ""%string))) (MissingMessageHash batch) ;?
  let text := default (str_list hash) (strip_0x (str_list hash)) in
  let? decoded := ok_or (hex_decode text) (MalformedMessageHash batch (str_len hash)) in
  ensure (Nat.eqb (length decoded) DIGEST_LEN)
    (MalformedMessageHash batch (Z.of_nat (length decoded))) ;?
  Ok decoded.

Definition check_batch (batch : nat) (prepared : PreparedBatch) (burn : DiscoveredBurn)
    (cfg : ListenerConfig) : result ValidationMismatch Digest :=
  ensure (negb (bool_decide (length (burn_intents prepared) = 0%nat))) (EmptyBurnIntents batch) ;?
  collect (fun intent => check_intent batch intent burn cfg) (burn_intents prepared) ;?
  decode_digest batch (message_hash_to_sign prepared).

Definition validate_returned (response : PrepareWithdrawalResponse) (burn : DiscoveredBurn)
    (cfg : ListenerConfig) : result ValidationMismatch ValidatedWithdrawal :=
  ensure (negb (bool_decide (length (response_batches response) = 0%nat))) NoBatches ;?
  let? digests :=
    collect (fun '(batch, prepared) => check_batch batch prepared burn cfg)
      (imap pair (response_batches response)) in
  Ok {| digests := digests |}.

Definition sign_validated (validated : ValidatedWithdrawal) (key : SecretKey)
    : result SignError (list Signature65) :=
  collect (fun digest => sign digest key) (digests validated).

(** ** Signing with local keys (listener/mod.rs) *)

(** [per_batch[batch].push(..)] for each batch's signature by one key. *)
Fixpoint push_signatures (address : Address) (sigs : list Signature65)
    (per_batch : list (list (Address * Signature65))) : list (list (Address * Signature65)) :=
  match sigs, per_batch with
  | sig :: sigs, claims :: per_batch =>
      (claims ++ [(address, sig)]) :: push_signatures address sigs per_batch
  | _, _ => per_batch
  end.

Fixpoint sign_with_keys (keys : list SecretKey) (validated : ValidatedWithdrawal)
    (per_batch : list (list (Address * Signature65)))
    : result SignError (list (list (Address * Signature65))) :=
  match keys with
  | [] => Ok per_batch
  | key :: keys =>
      let? sigs := sign_validated validated key in
      sign_with_keys keys validated (push_signatures (address_of key) sigs per_batch)
  end.

Definition LocalKeyQuorumSigner_sign_batches (keys : list SecretKey) (validated : ValidatedWithdrawal)
    : result SignError (list (list (Address * Signature65))) :=
  let? per_batch := sign_with_keys keys validated (replicate (batch_count validated) []) in
  Ok (order_by fst <$> per_batch).
End validate.
