(* ===== verification/Evidence.v ===== *)
(** The burn evidence of withdrawal-listener-attester (evidence.rs, types.rs): three reads of the
    node, and the one transaction they agree consumed the burn note. *)
From S2P Require Import Prelude Text Foreign.
Local Open Scope Z_scope.

(** ** How far each fact can be trusted (types.rs) *)

Inductive ProofStrength : Type := Cryptographic | NodeTrusted.
Definition weaker_of (a b : ProofStrength) : ProofStrength :=
  match a, b with Cryptographic, Cryptographic => Cryptographic | _, _ => NodeTrusted end.

Inductive ProvenFact : Type := NoteCreatedInBlock | NoteConsumedByTransaction | NullifierSpent.
Definition is_consumption_claim (fact : ProvenFact) : bool :=
  match fact with NoteCreatedInBlock => false | _ => true end.

Record EvidenceElement := {
  el_name : string;
  el_strength : ProofStrength;
  el_proves : ProvenFact;
}.

Record EvidencePackage := {
  burn_tx_id : string;
  ev_note_id : bytes;
  ev_nullifier : bytes;
  ev_block_num : Z;
}.

Definition elements (package : EvidencePackage) : list EvidenceElement :=
  [{| el_name := "burnTxId"; el_strength := NodeTrusted; el_proves := NoteConsumedByTransaction |};
   {| el_name := "note_id"; el_strength := Cryptographic; el_proves := NoteCreatedInBlock |};
   {| el_name := "nullifier"; el_strength := NodeTrusted; el_proves := NullifierSpent |};
   {| el_name := "block_num"; el_strength := Cryptographic; el_proves := NoteCreatedInBlock |}].

(** [None] is the panic of an [expect]. *)
Definition consumption_trust (package : EvidencePackage) : option ProofStrength :=
  match el_strength <$> filter (fun e => is_consumption_claim (el_proves e) = true) (elements package) with
  | [] => None
  | first :: rest => Some (foldl weaker_of first rest)
  end.

(** ** The reads (evidence.rs) *)

Abbreviation TransactionId := bytes.

(** miden-protocol: inclusion proofs, the block one names, and the text of a transaction ID. *)
Class EvidenceLib := {
  NoteInclusionProof : Type;
  NoteInclusionProof_eq_dec :: EqDecision NoteInclusionProof;
  proof_block_num : NoteInclusionProof -> BlockNumber;
  transaction_id_to_hex : TransactionId -> string;
}.

Record EvidenceReadError := { re_rpc : string; re_cause : string }.

Inductive AmbiguityReason : Type :=
| NoSpendObserved
| NoConsumingTransaction
| AmbiguousConsumingTransactions (count : nat)
| ContradictoryTransactionRows (count : nat)
| SpendBlockDisagreesWithLinkage (spend_block linkage_block : Z)
| ConsumptionPrecedesCreation (create_block spend_block : Z).

Inductive EvidenceError : Type :=
| Read (e : EvidenceReadError)
| NoteNotObservable (note_id : NoteId)
| WrongNoteAnswered (asked answered : NoteId)
| WrongNullifierAnswered (asked answered : Nullifier)
| EvidenceReconciliation (note_id : NoteId) (reason : AmbiguityReason)
| FullBlockUpgradeNotImplemented.

Section evidence.
Context `{EvidenceLib}.

Record PublicNoteDetails := {
  pd_nullifier : Nullifier;
  inclusion_proof : NoteInclusionProof;
}.
Record NoteRecord := {
  nr_note_id : NoteId;
  nr_details : option PublicNoteDetails;
}.
Record TransactionRecord := {
  transaction_id : TransactionId;
  account_id : AccountId;
  block_num : BlockNumber;
  input_note_nullifiers : list Nullifier;
  output_note_proofs : list (NoteId * NoteInclusionProof);
}.
#[export] Instance TransactionRecord_eq_dec : EqDecision TransactionRecord.
Proof. solve_decision. Defined.
Record NullifierRecord := {
  nu_nullifier : Nullifier;
  spent_in_block : option BlockNumber;
}.

(** The first ID of each transaction that claims the nullifier, in the rows' order. *)
Fixpoint claimed_ids (rows : list TransactionRecord) (claimed : list TransactionId)
    : list TransactionId :=
  match rows with
  | [] => claimed
  | tx :: rows =>
      claimed_ids rows
        (if bool_decide (transaction_id tx ∈ claimed) then claimed
         else claimed ++ [transaction_id tx])
  end.

Definition consumes (faucet_id : AccountId) (nullifier : Nullifier) (tx : TransactionRecord) : bool :=
  bool_decide (account_id tx = faucet_id) && bool_decide (nullifier ∈ input_note_nullifiers tx).

(** The end of [assemble_evidence], from the faucet's transactions on. *)
Definition link_transaction (note_id : NoteId) (faucet_id : AccountId) (nullifier : Nullifier)
    (create_block spend_block : BlockNumber) (transactions : list TransactionRecord)
    : result EvidenceError EvidencePackage :=
  let reconciliation := EvidenceReconciliation note_id in
  let consuming := List.filter (consumes faucet_id nullifier) transactions in
  let? id :=
    match claimed_ids consuming [] with
    | [] => Err (reconciliation NoConsumingTransaction)
    | [only] => Ok only
    | many => Err (reconciliation (AmbiguousConsumingTransactions (length many)))
    end in
  let rows := List.filter (fun tx => bool_decide (transaction_id tx = id)) transactions in
  match rows with
  | [] => Err (reconciliation NoConsumingTransaction) (* the [expect]: the ID is of one of the rows *)
  | burn_tx :: _ =>
      ensure (forallb (fun row => bool_decide (row = burn_tx)) rows)
        (reconciliation (ContradictoryTransactionRows (length rows))) ;?
      ensure (block_num burn_tx =? spend_block)
        (reconciliation (SpendBlockDisagreesWithLinkage spend_block (block_num burn_tx))) ;?
      Ok {| burn_tx_id := transaction_id_to_hex (transaction_id burn_tx);
            ev_note_id := note_id; ev_nullifier := nullifier; ev_block_num := create_block |}
  end.

(** Its two earlier parts, on the note's record and on the nullifier's. *)
Definition observe_note (note_id : NoteId) (record : NoteRecord)
    : result EvidenceError PublicNoteDetails :=
  ensure (bool_decide (nr_note_id record = note_id)) (WrongNoteAnswered note_id (nr_note_id record)) ;?
  ok_or (nr_details record) (NoteNotObservable note_id).

Definition observe_spend (note_id : NoteId) (details : PublicNoteDetails) (spend : NullifierRecord)
    : result EvidenceError BlockNumber :=
  let nullifier := pd_nullifier details in
  let create_block := proof_block_num (inclusion_proof details) in
  ensure (bool_decide (nu_nullifier spend = nullifier))
    (WrongNullifierAnswered nullifier (nu_nullifier spend)) ;?
  let? spend_block :=
    ok_or (spent_in_block spend) (EvidenceReconciliation note_id NoSpendObserved) in
  ensure (create_block <? spend_block)
    (EvidenceReconciliation note_id (ConsumptionPrecedesCreation create_block spend_block)) ;?
  Ok spend_block.

(** [full_block_upgrade]: refused, whatever the package. *)
Definition full_block_upgrade (package : EvidencePackage) : result EvidenceError EvidencePackage :=
  Err FullBlockUpgradeNotImplemented.
End evidence.
