(* ===== verification/Listener.v ===== *)
(** The withdrawal of one burn (withdrawal_api.rs, submit.rs, listener/mod.rs of
    withdrawal-listener-attester) as programs over the calls it makes: Circle, the ledger, the
    signer and the evidence reads. *)
From S2P Require Import Prelude Text Foreign Ledger AttesterWire AttesterHttp Quorum Evidence.
From Stdlib Require Import Ascii.
Local Open Scope Z_scope.

(** ** Calls and programs *)

(** A request's method and body: reqwest writes the JSON. *)
Inductive Payload : Type :=
| Get
| PostPrepare (request : PrepareWithdrawalRequest)
| PostWithdraw (request : WithdrawRequest).
Record HttpRequest := {
  rq_url : Url;
  rq_header : option (string * string);
  rq_payload : Payload;
}.

Record ListenerEvent := {
  le_step : string;
  le_outcome : string;
  le_note_id : string;
  le_burn_tx_id : option string;
}.

Section prog.
Context `{EvidenceLib}.

(** A computation up to its next call, and how it goes on from each answer. Each constructor is one
    atomic action: an exchange with Circle, a ledger transaction, a permit of the rate governor. A
    panic ends the computation. *)
Inductive prog (A : Type) : Type :=
| Ret (a : A)
| Panic
| Emit (event : ListenerEvent) (k : prog A)
| Sleep (duration : Z) (k : prog A)
| Permit (host : string) (k : prog A)
| Exchange (request : HttpRequest) (k : result string HttpReply -> prog A)
| Claim (keys : list BurnKey) (k : result LedgerError ClaimOutcome -> prog A)
| Transition (key : BurnKey) (to : SubmissionStatus) (withdrawal_id : option string)
    (k : result LedgerError SubmissionRecord -> prog A)
| SignBatches (validated : ValidatedWithdrawal)
    (k : result SignError (list (list (Address * Signature65))) -> prog A)
| NoteById (id : NoteId) (k : result EvidenceReadError NoteRecord -> prog A)
| NullifierStatus (nullifier : Nullifier) (k : result EvidenceReadError NullifierRecord -> prog A)
| FaucetTransactions (faucet : AccountId)
    (k : result EvidenceReadError (list TransactionRecord) -> prog A).

Fixpoint bind {A B} (p : prog A) (f : A -> prog B) : prog B :=
  match p with
  | Ret _ a => f a
  | Panic _ => Panic _
  | Emit _ e k => Emit _ e (bind k f)
  | Sleep _ d k => Sleep _ d (bind k f)
  | Permit _ h k => Permit _ h (bind k f)
  | Exchange _ r k => Exchange _ r (fun a => bind (k a) f)
  | Claim _ keys k => Claim _ keys (fun a => bind (k a) f)
  | Transition _ key to id k => Transition _ key to id (fun a => bind (k a) f)
  | SignBatches _ v k => SignBatches _ v (fun a => bind (k a) f)
  | NoteById _ id k => NoteById _ id (fun a => bind (k a) f)
  | NullifierStatus _ n k => NullifierStatus _ n (fun a => bind (k a) f)
  | FaucetTransactions _ id k => FaucetTransactions _ id (fun a => bind (k a) f)
  end.
End prog.
Arguments Ret {_ A} a.
Arguments Panic {_ A}.
Arguments Emit {_ A} event k.
Arguments Sleep {_ A} duration k.
Arguments Permit {_ A} host k.
Arguments Exchange {_ A} request k.
Arguments Claim {_ A} keys k.
Arguments Transition {_ A} key to withdrawal_id k.
Arguments SignBatches {_ A} validated k.
Arguments NoteById {_ A} id k.
Arguments NullifierStatus {_ A} nullifier k.
Arguments FaucetTransactions {_ A} faucet k.

(** [?] in an [async fn]: an error ends the function. *)
Definition bind_ok `{EvidenceLib} {E A B} (p : prog (result E A)) (f : A -> prog (result E B))
    : prog (result E B) :=
  bind p (fun r => match r with Ok a => f a | Err e => Ret (Err e) end).

Declare Scope prog_scope.
Delimit Scope prog_scope with prog.
Notation "'do' x '<-' p 'in' k" := (bind_ok p (fun x => k))
  (at level 10, x pattern, p at level 200, k at level 200) : prog_scope.
Notation "p ';;;' k" := (bind_ok p (fun _ => k))
  (at level 100, k at level 200, right associativity) : prog_scope.
#[local] Open Scope prog_scope.

(** ** The requests (withdrawal_api.rs) *)

Definition PATH_PREPARE_WITHDRAWAL : string := "/v1/prepare-withdrawal".
Definition PATH_WITHDRAW : string := "/v1/withdraw".
Definition PATH_WITHDRAWAL : string := "/v1/withdrawal/".
Definition STATUS_PREPARE_OK : Z := 200.
Definition STATUS_WITHDRAW_CREATED : Z := 201.
Definition STATUS_WITHDRAW_CONFLICT : Z := 409.
Definition STATUS_WITHDRAWAL_OK : Z := 200.
Definition STATUS_WITHDRAWAL_NOT_FOUND : Z := 404.

Inductive SubmitGateError : Type :=
| NoAttestersConfigured
| BatchDigestCountMismatch (batches digests : nat)
| BadSignatureHex (batch at_ : nat)
| MalformedSignature (batch at_ : nat) (len : Z)
| SignerUnrecoverable (batch at_ : nat)
| SignerNotAllowlisted (batch at_ : nat) (signer : Address).

Section requests.
Context `{Hmiden : MidenLib, Hencoding : !EncodingLib, WebLib, HttpLib, EcdsaLib, AttesterJson}.

Definition hex32_of (b : bytes) : string := to_hex b.

Definition build_prepare_request (burn : DiscoveredBurn) (cfg : ListenerConfig)
    : result SchemaError PrepareWithdrawalRequest :=
  let? input := PrepareBurnIntentInput_build
    {| token := Usdc;
       value_excluding_fees := None;
       value_including_fees := Some (list_str (to_decimal (amount burn)));
       in_remote_domain := lc_miden_domain cfg;
       in_remote_depositor := hex32_of (account_id_bytes32 (depositor burn));
       final_destination_domain := dest_domain (payload burn);
       final_destination_recipient := hex32_of (dest_recipient (payload burn));
       final_destination_caller := None;
       in_salt := None;
       in_use_circle_forwarding := false;
       forwarding_options := None |} in
  Ok {| input_batches := [input] |}.

Definition build_withdraw_batch (intent : BurnIntent) (quorum : QuorumBundle) (burn_tx_id : string)
    (use_circle_forwarding : bool) : result SchemaError WithdrawBatch :=
  WithdrawBatch_new [intent] (to_hex <$> signatures quorum) burn_tx_id use_circle_forwarding.

Definition build_withdraw_request (batches : list WithdrawBatch) : result SchemaError WithdrawRequest :=
  WithdrawRequest_new batches.

(** [AuthorizedWithdrawal]: a request that passed the gate. *)
Record AuthorizedWithdrawal := { into_request : WithdrawRequest }.

(** With or without ["0x"]. *)
Definition decode_signature_hex (s : string) : option bytes :=
  hex_decode (default (str_list s) (strip_0x (str_list s))).

Definition check_signature (allowlist : gset Address) (digest : Digest) (batch at_ : nat)
    (signature_hex : string) : result SubmitGateError unit :=
  let? decoded := ok_or (decode_signature_hex signature_hex) (BadSignatureHex batch at_) in
  let? signature :=
    ok_or (Signature65_from_bytes decoded)
      (MalformedSignature batch at_ (Z.of_nat (length decoded))) in
  let? signer := ok_or (recover_address digest signature) (SignerUnrecoverable batch at_) in
  ensure (bool_decide (signer ∈ allowlist)) (SignerNotAllowlisted batch at_ signer).

Definition check_batch_signatures (allowlist : gset Address) (batch : nat)
    (pair_ : WithdrawBatch * Digest) : result SubmitGateError unit :=
  collect (fun '(at_, signature_hex) => check_signature allowlist pair_.2 batch at_ signature_hex)
    (imap pair (wb_burn_signatures pair_.1)) ;?
  Ok tt.

Definition authorize_submission (request : WithdrawRequest) (validated : ValidatedWithdrawal)
    (config : ListenerConfig) : result SubmitGateError AuthorizedWithdrawal :=
  let allowlist := attester_allowlist config in
  ensure (negb (bool_decide (allowlist = ∅))) NoAttestersConfigured ;?
  let batches := request_batches request in
  ensure (Nat.eqb (length batches) (length (digests validated)))
    (BatchDigestCountMismatch (length batches) (length (digests validated))) ;?
  collect (fun '(batch, pair_) => check_batch_signatures allowlist batch pair_)
    (imap pair (zip batches (digests validated))) ;?
  Ok {| into_request := request |}.

(** ** Circle's endpoints *)

Context `{EvidenceLib}.

(** [build_get] and [build_post]: reqwest builds every request with a joined URL, a checked header and
    a body that serializes. *)
Definition build_request (c : CircleClient) (path : string) (payload : Payload)
    : result ListenerError HttpRequest :=
  let? url := join c path in
  Ok {| rq_url := url; rq_header := auth_header c; rq_payload := payload |}.

Definition execute (c : CircleClient) (request : HttpRequest)
    : prog (result ListenerError RawResponse) :=
  Permit (url_host (base c))
    (Exchange request (fun answer => Ret (read_reply c (rq_url request) answer))).

Definition decode {A} (from : bytes -> option A) (b : bytes) (context : string)
    : result ListenerError A :=
  ok_or (from b) (MalformedResponse context).

Definition prepare (c : CircleClient) (req : PrepareWithdrawalRequest)
    : prog (result ListenerError PrepareWithdrawalResponse) :=
  do request <- Ret (build_request c PATH_PREPARE_WITHDRAWAL (PostPrepare req)) in
  do response <- execute c request in
  Ret (ensure (status response =? STATUS_PREPARE_OK) (Http (status response)) ;?
       decode (from_slice json_prepared response_checked) (body response) "prepare-withdrawal").

Definition decode_withdraw_created (b : bytes) (submitted : nat)
    : result ListenerError WithdrawSubmissionResponse :=
  let? statuses := decode (from_slice json_statuses (forallb status_checked)) b "withdraw" in
  ensure (Nat.eqb (length statuses) submitted)
    (WithdrawResponseCardinality (Z.of_nat submitted) (list_len statuses)) ;?
  Ok statuses.

Definition poll_status_once (c : CircleClient) (withdrawal_id : string)
    : prog (result ListenerError WithdrawalStatus) :=
  do request <- Ret (build_request c (PATH_WITHDRAWAL +:+ withdrawal_id) Get) in
  do response <- execute c request in
  Ret (if status response =? STATUS_WITHDRAWAL_OK then
         let? found := decode (from_slice json_status status_checked) (body response)
                         "withdrawal-status" in
         ensure (bool_decide (ws_withdrawal_id found = withdrawal_id))
           (WithdrawalIdMismatch withdrawal_id (ws_withdrawal_id found)) ;?
         Ok found
       else if status response =? STATUS_WITHDRAWAL_NOT_FOUND then
         Err (WithdrawalNotFound withdrawal_id)
       else Err (Http (status response))).

(** The polls left, of [max_attempts]. *)
Fixpoint poll_from (c : CircleClient) (withdrawal_id : string) (left_ : nat)
    : prog (result ListenerError WithdrawalStatus) :=
  match left_ with
  | O => Ret (Err (PollExhausted (pp_max_attempts (poll c))))
  | S left_ =>
      do found <- poll_status_once c withdrawal_id in
      let kind := ws_status found in
      if kind_is_retryable kind then Ret (Ok found)
      else if bool_decide (kind = KindFinalized) || bool_decide (kind = KindFailed) then Ret (Ok found)
      else if (0 <? left_)%nat then Sleep (pp_interval (poll c)) (poll_from c withdrawal_id left_)
      else poll_from c withdrawal_id left_
  end.
Definition poll_status (c : CircleClient) (withdrawal_id : string)
    : prog (result ListenerError WithdrawalStatus) :=
  poll_from c withdrawal_id (Z.to_nat (pp_max_attempts (poll c))).

(** ** Submission (submit.rs) *)

Inductive SubmitOutcome : Type :=
| SubmittedWith (statuses : WithdrawSubmissionResponse)
| SubmitConflictRecovered (withdrawal_id : string) (status_ : WithdrawalStatus)
| SubmitReconciliationRequired (burn_tx_id : string)
| ConflictEchoMismatch (submitted : list string) (echoed : string)
| SubmitAlreadySubmitted (burn_tx_id : string) (status_ : SubmissionStatus).

Inductive SubmitError : Type :=
| SubmitCircle (e : ListenerError)
| SubmitLedger (e : LedgerError)
| DuplicateBurnInRequest (burn_tx_id : string).

Inductive Attempt : Type :=
| AttemptCreated (statuses : WithdrawSubmissionResponse)
| AttemptConflict (conflict : WithdrawConflict).

(** [with_backoff] with the retries left of [max_attempts - 1]; [attempt] counts from 1. *)
Fixpoint retry_from {T} (policy : RetryPolicy) (op : prog (result ListenerError T)) (left_ : nat)
    (attempt : Z) : prog (result ListenerError T) :=
  bind op (fun r =>
    match r with
    | Ok value => Ret (Ok value)
    | Err error =>
        if is_retryable error then
          match left_ with
          | O => Ret (Err error)
          | S left_ => Sleep (backoff_for policy attempt) (retry_from policy op left_ (attempt + 1))
          end
        else Ret (Err error)
    end).
Definition with_backoff {T} (c : CircleClient) (op : prog (result ListenerError T))
    : prog (result ListenerError T) :=
  retry_from (retry c) op (Z.to_nat (rp_max_attempts (retry c) - 1)) 1.

Definition attempt_withdraw (c : CircleClient) (request : WithdrawRequest)
    : prog (result ListenerError Attempt) :=
  do built <- Ret (build_request c PATH_WITHDRAW (PostWithdraw request)) in
  do response <- execute c built in
  Ret (if status response =? STATUS_WITHDRAW_CREATED then
         map_ok AttemptCreated
           (decode_withdraw_created (body response) (length (request_batches request)))
       else if status response =? STATUS_WITHDRAW_CONFLICT then
         map_ok AttemptConflict
           (decode (from_slice json_withdraw_conflict conflict_checked) (body response)
              "withdraw-conflict")
       else Err (Http (status response))).

(** A transition of the ledger whose error ends the submission. *)
Definition transit (key : BurnKey) (to : SubmissionStatus) (withdrawal_id : option string)
    : prog (result SubmitError unit) :=
  Transition key to withdrawal_id (fun r => Ret (map_ok (fun _ => tt) (map_err SubmitLedger r))).

Fixpoint for_each {A} (f : A -> prog (result SubmitError unit)) (l : list A)
    : prog (result SubmitError unit) :=
  match l with
  | [] => Ret (Ok tt)
  | a :: l => f a ;;; for_each f l
  end.

Definition record_submission (key : BurnKey) (withdrawal_id : option string) :=
  transit key Submitted withdrawal_id.
Definition record_finalized (key : BurnKey) (withdrawal_id : option string) :=
  transit key Finalized withdrawal_id.
Definition record_reconciliation_required (key : BurnKey) (withdrawal_id : option string) :=
  transit key ReconciliationRequired withdrawal_id.
Definition record_failure (key : BurnKey) := transit key Failed None.

Definition mark_all_reconciliation (keys : list BurnKey) : prog (result SubmitError unit) :=
  for_each (fun key => record_reconciliation_required key None) keys.

Definition block_others (keys : list BurnKey) (at_ : nat) : prog (result SubmitError unit) :=
  for_each (fun '(i, key) =>
    if Nat.eqb i at_ then Ret (Ok tt) else record_reconciliation_required key None)
    (imap pair keys).

Definition block_binding_id_to (keys : list BurnKey) (at_ : nat) (withdrawal_id : string)
    : prog (result SubmitError unit) :=
  match keys !! at_ with
  | None => Panic
  | Some key => record_reconciliation_required key (Some withdrawal_id) ;;; block_others keys at_
  end.

Fixpoint position_from (i : nat) (burns : list string) (echoed : string) : option nat :=
  match burns with
  | [] => None
  | burn :: burns =>
      if eq_ignore_ascii_case burn echoed then Some i else position_from (S i) burns echoed
  end.
Definition position_of (burns : list string) (echoed : string) : option nat :=
  position_from 0 burns echoed.
Definition echoes_one_of (burns : list string) (echoed : string) : bool :=
  bool_decide (position_of burns echoed <> None).

Definition settle_failure (keys : list BurnKey) (error : ListenerError)
    : prog (result SubmitError unit) :=
  match error with
  | Http status => if status =? BAD_REQUEST then for_each record_failure keys
                   else mark_all_reconciliation keys
  | _ => mark_all_reconciliation keys
  end.

(** The first status whose burn was not submitted. *)
Definition stray_status (burns : list string) (statuses : WithdrawSubmissionResponse)
    : option WithdrawalStatus :=
  List.find (fun s => negb (echoes_one_of burns (ws_burn_tx_id s))) statuses.

(** The status of each burn, or the first burn without one. *)
Definition pair_statuses (burns : list string) (statuses : WithdrawSubmissionResponse)
    : result string (list WithdrawalStatus) :=
  collect (fun burn =>
    ok_or (List.find (fun s => eq_ignore_ascii_case (ws_burn_tx_id s) burn) statuses) burn) burns.

Definition settle_created (keys : list BurnKey) (burns : list string)
    (statuses : WithdrawSubmissionResponse) : prog (result SubmitError SubmitOutcome) :=
  match stray_status burns statuses with
  | Some stray =>
      mark_all_reconciliation keys ;;;
      Ret (Ok (ConflictEchoMismatch burns (ws_burn_tx_id stray)))
  | None =>
      match pair_statuses burns statuses with
      | Err burn => mark_all_reconciliation keys ;;; Ret (Ok (ConflictEchoMismatch burns burn))
      | Ok paired =>
          for_each (fun '(key, s) => record_submission key (Some (ws_withdrawal_id s)))
            (zip keys paired) ;;;
          Ret (Ok (SubmittedWith statuses))
      end
  end.

Definition recover_conflict (c : CircleClient) (keys : list BurnKey) (burns : list string)
    (conflict : WithdrawConflict) : prog (result SubmitError SubmitOutcome) :=
  let echoed := cf_burn_tx_id conflict in
  match position_of burns echoed with
  | None =>
      mark_all_reconciliation keys ;;; Ret (Ok (ConflictEchoMismatch burns echoed))
  | Some at_ =>
      match cf_withdrawal_id conflict with
      | None =>
          mark_all_reconciliation keys ;;; Ret (Ok (SubmitReconciliationRequired echoed))
      | Some withdrawal_id =>
          bind (poll_status c withdrawal_id) (fun r =>
            match r, burns !! at_, keys !! at_ with
            | Err error, _, _ =>
                block_binding_id_to keys at_ withdrawal_id ;;; Ret (Err (SubmitCircle error))
            | Ok found, Some burn, Some key =>
                if negb (eq_ignore_ascii_case (ws_burn_tx_id found) burn) then
                  block_binding_id_to keys at_ withdrawal_id ;;;
                  Ret (Ok (ConflictEchoMismatch burns (ws_burn_tx_id found)))
                else
                  (if bool_decide (ws_status found = KindFinalized)
                   then record_finalized key (Some withdrawal_id)
                   else record_reconciliation_required key (Some withdrawal_id)) ;;;
                  block_others keys at_ ;;;
                  Ret (Ok (SubmitConflictRecovered withdrawal_id found))
            | Ok _, _, _ => Panic
            end)
      end
  end.

(** The first key that an earlier one equals, with its place. *)
Fixpoint first_duplicate (seen : list BurnKey) (keys : list BurnKey) (i : nat) : option nat :=
  match keys with
  | [] => None
  | key :: keys =>
      if bool_decide (key ∈ seen) then Some i else first_duplicate (seen ++ [key]) keys (S i)
  end.

Definition request_burns (request : WithdrawRequest) : list string :=
  wb_burn_tx_id <$> request_batches request.
Definition request_keys (request : WithdrawRequest) : list BurnKey :=
  BurnKey_new <$> request_burns request.

(** [submit_withdraw], from the claim on. *)
Definition submit_claimed (c : CircleClient) (request : WithdrawRequest)
    : prog (result SubmitError SubmitOutcome) :=
  let burns := request_burns request in
  let keys := request_keys request in
  bind (with_backoff c (attempt_withdraw c request)) (fun r =>
    match r with
    | Ok (AttemptCreated statuses) => settle_created keys burns statuses
    | Ok (AttemptConflict conflict) => recover_conflict c keys burns conflict
    | Err error => settle_failure keys error ;;; Ret (Err (SubmitCircle error))
    end).

Definition submit_withdraw (c : CircleClient) (authorized : AuthorizedWithdrawal)
    : prog (result SubmitError SubmitOutcome) :=
  let request := into_request authorized in
  match first_duplicate [] (request_keys request) 0 with
  | Some at_ => Ret (Err (DuplicateBurnInRequest (nth at_ (request_burns request) ""%string)))
  | None =>
      Claim (request_keys request) (fun claimed =>
        match claimed with
        | Err e => Ret (Err (SubmitLedger e))
        | Ok (AlreadySeen record) =>
            Ret (Ok (SubmitAlreadySubmitted (sr_burn_key record) (sr_status record)))
        | Ok (Claimed _) => submit_claimed c request
        end)
  end.

(** ** The orchestration (listener/mod.rs) *)

Definition ONE_BATCH_PER_BURN : nat := 1.
Definition ONE_INTENT_PER_BURN : nat := 1.

Record DiscoveredNote := { dn_note_id : NoteId; dn_record : DiscoveryRecord }.

Inductive ReconciliationReason : Type :=
| ConflictNamedNoWithdrawal
| EchoMismatch (echoed : string).

Inductive Outcome : Type :=
| Withdrawn (burn_tx_id withdrawal_id : string) (status_ : WithdrawalStatus)
| ConflictRecovered (burn_tx_id withdrawal_id : string) (status_ : WithdrawalStatus)
| AlreadySubmitted (burn_tx_id : string) (status_ : SubmissionStatus)
| OutcomeReconciliation (burn_tx_id : string) (reason : ReconciliationReason).

Inductive RunError : Type :=
| RunDiscovery (e : DiscoveryReject)
| RunRequest (e : SchemaError)
| RunCircle (e : ListenerError)
| RunValidation (e : ValidationMismatch)
| BatchCardinality (returned : nat)
| IntentCardinality (returned : nat)
| RunSign (e : SignError)
| SignerCardinality (batches signed : nat)
| RunQuorum (e : QuorumError)
| RunEvidence (e : EvidenceError)
| RunGate (e : SubmitGateError)
| RunSubmit (e : SubmitError).

(** The configuration and the client; the ledger, the signer, the evidence reads and the event sink
    of [RunContext] answer the program's calls. *)
Record RunContext := { rx_config : ListenerConfig; rx_circle : CircleClient }.

Definition emit {A} (step outcome : string) (note_id : NoteId) (burn : option string) (k : prog A)
    : prog A :=
  Emit {| le_step := step; le_outcome := outcome; le_note_id := note_id_to_hex note_id;
          le_burn_tx_id := burn |} k.

Definition lift_err {E F A} (f : E -> F) (p : prog (result E A)) : prog (result F A) :=
  bind p (fun r => Ret (map_err f r)).

(** [result.inspect_err(|_| emit ..)?]. *)
Definition or_emit {E A B} (r : result E A) (step outcome : string) (note_id : NoteId)
    (burn : option string) (f : E -> RunError) (k : A -> prog (result RunError B))
    : prog (result RunError B) :=
  match r with
  | Ok a => k a
  | Err e => emit step outcome note_id burn (Ret (Err (f e)))
  end.

(** [assemble_evidence]: each read depends on what the one before answered. *)
Definition assemble_evidence (note_id : NoteId) (faucet_id : AccountId)
    : prog (result EvidenceError EvidencePackage) :=
  do details <- NoteById note_id (fun r =>
    Ret (let? record := map_err Read r in observe_note note_id record)) in
  do spend_block <- NullifierStatus (pd_nullifier details) (fun r =>
    Ret (let? spend := map_err Read r in observe_spend note_id details spend)) in
  FaucetTransactions faucet_id (fun r =>
    Ret (let? transactions := map_err Read r in
         link_transaction note_id faucet_id (pd_nullifier details)
           (proof_block_num (inclusion_proof details)) spend_block transactions)).

Definition settle (ctx : RunContext) (note_id : NoteId) (burn_tx_id : string)
    (outcome : SubmitOutcome) : prog (result RunError Outcome) :=
  match outcome with
  | SubmittedWith statuses =>
      emit "B7" "submitted" note_id (Some burn_tx_id)
        (match statuses with
         | [] => Panic
         | created :: _ =>
             match Uuid_new (ws_withdrawal_id created) with
             | Err _ => Panic
             | Ok withdrawal_id =>
                 do found <- lift_err RunCircle (poll_status (rx_circle ctx) withdrawal_id) in
                 if negb (eq_ignore_ascii_case (ws_burn_tx_id found) burn_tx_id) then
                   emit "B10" "echo-mismatch" note_id (Some burn_tx_id)
                     (Ret (Ok (OutcomeReconciliation burn_tx_id
                                 (EchoMismatch (ws_burn_tx_id found)))))
                 else
                   (if bool_decide (ws_status found = KindFinalized)
                    then lift_err RunSubmit
                           (record_finalized (BurnKey_new burn_tx_id) (Some (ws_withdrawal_id found)))
                    else Ret (Ok tt)) ;;;
                   emit "B10" "polled" note_id (Some burn_tx_id)
                     (Ret (Ok (Withdrawn burn_tx_id withdrawal_id found)))
             end
         end)
  | SubmitConflictRecovered withdrawal_id found =>
      emit "B7" "conflict-recovered" note_id (Some burn_tx_id)
        (Ret (Ok (ConflictRecovered burn_tx_id withdrawal_id found)))
  | SubmitReconciliationRequired burn =>
      emit "B7" "reconciliation-required" note_id (Some burn)
        (Ret (Ok (OutcomeReconciliation burn ConflictNamedNoWithdrawal)))
  | ConflictEchoMismatch _ echoed =>
      emit "B7" "echo-mismatch" note_id (Some burn_tx_id)
        (Ret (Ok (OutcomeReconciliation burn_tx_id (EchoMismatch echoed))))
  | SubmitAlreadySubmitted burn status_ =>
      emit "B7" "already-submitted" note_id (Some burn) (Ret (Ok (AlreadySubmitted burn status_)))
  end.

(** [run_once], from the signed quorum on. *)
Definition run_signed (ctx : RunContext) (note_id : NoteId) (intent : BurnIntent)
    (use_circle_forwarding : bool) (validated : ValidatedWithdrawal) (quorum : QuorumBundle)
    : prog (result RunError Outcome) :=
  do evidence <- lift_err RunEvidence (assemble_evidence note_id (faucet_id (rx_config ctx))) in
  let id := burn_tx_id evidence in
  emit "B7" "evidence-assembled" note_id (Some id)
    (do batch <- Ret (map_err RunRequest
                        (build_withdraw_batch intent quorum id use_circle_forwarding)) in
     do request <- Ret (map_err RunRequest (build_withdraw_request [batch])) in
     or_emit (authorize_submission request validated (rx_config ctx))
       "B7" "submit-gate-refused" note_id (Some id) RunGate (fun authorized =>
     do outcome <- lift_err RunSubmit (submit_withdraw (rx_circle ctx) authorized) in
     settle ctx note_id id outcome)).

(** [run_once], from Circle's prepared batches on. *)
Definition run_prepared (ctx : RunContext) (note_id : NoteId) (burn : DiscoveredBurn)
    (use_circle_forwarding : bool) (response : PrepareWithdrawalResponse)
    : prog (result RunError Outcome) :=
  or_emit (validate_returned response burn (rx_config ctx))
    "B5" "do-not-sign-abort" note_id None RunValidation (fun validated =>
  if negb (Nat.eqb (batch_count validated) ONE_BATCH_PER_BURN) then
    emit "B5" "batch-cardinality-refused" note_id None
      (Ret (Err (BatchCardinality (batch_count validated))))
  else
    match response_batches response with
    | [] => Panic
    | batch :: _ =>
        if negb (Nat.eqb (length (burn_intents batch)) ONE_INTENT_PER_BURN) then
          emit "B5" "intent-cardinality-refused" note_id None
            (Ret (Err (IntentCardinality (length (burn_intents batch)))))
        else
          match burn_intents batch with
          | [] => Panic
          | intent :: _ =>
              emit "B5" "validated" note_id None
                (do claims <- SignBatches validated (fun r => Ret (map_err RunSign r)) in
                 if negb (Nat.eqb (length claims) (batch_count validated)) then
                   Ret (Err (SignerCardinality (batch_count validated) (length claims)))
                 else
                   match claims, digests validated with
                   | first :: _, digest :: _ =>
                       do quorum <- Ret (map_err RunQuorum (assemble_quorum digest first)) in
                       emit "B6" "signed" note_id None
                         (run_signed ctx note_id intent use_circle_forwarding validated quorum)
                   | _, _ => Panic
                   end)
          end
    end).

Definition run_once (ctx : RunContext) (discovered : DiscoveredNote)
    : prog (result RunError Outcome) :=
  let note_id := dn_note_id discovered in
  or_emit (validate_discovery (dn_record discovered) (rx_config ctx))
    "B3" "discovery-rejected" note_id None RunDiscovery (fun burn =>
  emit "B3" "discovered" note_id None
    (do request <- Ret (map_err RunRequest (build_prepare_request burn (rx_config ctx))) in
     emit "B4" "prepare-request-built" note_id None
       (do response <- lift_err RunCircle (prepare (rx_circle ctx) request) in
        match input_batches request with
        | [] => Panic
        | input :: _ =>
            run_prepared ctx note_id burn (in_use_circle_forwarding input) response
        end))).
End requests.
