(* ===== verification/Programs.v ===== *)
(** Predicates of the listener's programs and what keeps the submit ledger as it was: when every step of a
    program keeps to a protocol, the programs that only ask and record, and the ledger's transactions, which
    burns they block and which they leave alone. *)
From S2P Require Import Prelude Text Foreign Ledger AttesterWire AttesterHttp Quorum Evidence.
From S2P Require Import Listener.
From Stdlib Require Import Ascii.
Local Open Scope Z_scope.

Section programs.
Context `{EvidenceLib}.

(** A call with what it was answered. *)
Inductive Action : Type :=
| Sent (request : HttpRequest) (answer : result string HttpReply)
| ClaimMade (keys : list BurnKey) (answer : result LedgerError ClaimOutcome)
| Moved (key : BurnKey) (to : SubmissionStatus) (withdrawal_id : option string)
    (answer : result LedgerError SubmissionRecord)
| SignatureMade (validated : ValidatedWithdrawal)
    (answer : result SignError (list (list (Address * Signature65))))
| NoteRead (id : NoteId) (answer : result EvidenceReadError NoteRecord)
| NullifierRead (nullifier : Nullifier) (answer : result EvidenceReadError NullifierRecord)
| TransactionsRead (faucet : AccountId)
    (answer : result EvidenceReadError (list TransactionRecord)).

(** What a ledger transaction can do: run as written, or fail in SQLite, before its commit or while
    reporting it. *)
Inductive ledger_call {A} (run : Ledger -> result LedgerError A * Ledger) (rows : Ledger)
    : result LedgerError A -> Ledger -> Prop :=
| ledger_runs answer rows' : run rows = (answer, rows') -> ledger_call run rows answer rows'
| ledger_refuses cause : ledger_call run rows (Err (LedgerStore cause)) rows
| ledger_unsure cause : ledger_call run rows (Err (LedgerStore cause)) (run rows).2.

Inductive program_step {A} (rows : Ledger) : prog A -> Ledger -> list Action -> prog A -> Prop :=
| step_emit e k : program_step rows (Emit e k) rows [] k
| step_sleep d k : program_step rows (Sleep d k) rows [] k
| step_permit h k : program_step rows (Permit h k) rows [] k
| step_exchange r k answer : program_step rows (Exchange r k) rows [Sent r answer] (k answer)
| step_claim keys k now answer rows' :
    ledger_call (claim_burns now keys) rows answer rows' ->
    program_step rows (Claim keys k) rows' [ClaimMade keys answer] (k answer)
| step_transition key to id k now answer rows' :
    ledger_call (transition now key to id) rows answer rows' ->
    program_step rows (Transition key to id k) rows' [Moved key to id answer] (k answer)
| step_sign v k answer : program_step rows (SignBatches v k) rows [SignatureMade v answer] (k answer)
| step_note id k answer : program_step rows (NoteById id k) rows [NoteRead id answer] (k answer)
| step_nullifier n k answer :
    program_step rows (NullifierStatus n k) rows [NullifierRead n answer] (k answer)
| step_transactions f k answer :
    program_step rows (FaucetTransactions f k) rows [TransactionsRead f answer] (k answer).

(** What one program has done so far, newest first, whatever others did to the ledger meanwhile. *)
Inductive program_trace {A} (start : prog A) : list Action -> prog A -> Prop :=
| trace_start : program_trace start [] start
| trace_step trace p rows rows' actions p' :
    program_trace start trace p -> program_step rows p rows' actions p' ->
    program_trace start (actions ++ trace) p'.

(** ** Protocols *)

(** A discipline over a ghost state [G]: which calls it admits, and what each answer changes. *)
Record Protocol (G : Type) := {
  may_exchange : G -> HttpRequest -> Prop;
  may_claim : G -> list BurnKey -> Prop;
  may_move : G -> BurnKey -> SubmissionStatus -> Prop;
  after : G -> Action -> G;
}.
Arguments may_exchange {G} _ _ _.
Arguments may_claim {G} _ _ _.
Arguments may_move {G} _ _ _ _.
Arguments after {G} _ _ _.

Section obeys.
Context {G : Type} (P : Protocol G).

(** From the ghost state [g], every run of [p] makes only admitted calls and returns with [Q]. *)
Fixpoint obeys {A} (g : G) (p : prog A) (Q : G -> A -> Prop) : Prop :=
  match p with
  | Ret a => Q g a
  | Panic => True
  | Emit _ k | Sleep _ k | Permit _ k => obeys g k Q
  | Exchange r k => may_exchange P g r /\ forall a, obeys (after P g (Sent r a)) (k a) Q
  | Claim keys k => may_claim P g keys /\ forall a, obeys (after P g (ClaimMade keys a)) (k a) Q
  | Transition key to id k =>
      may_move P g key to /\ forall a, obeys (after P g (Moved key to id a)) (k a) Q
  | SignBatches v k => forall a, obeys (after P g (SignatureMade v a)) (k a) Q
  | NoteById id k => forall a, obeys (after P g (NoteRead id a)) (k a) Q
  | NullifierStatus n k => forall a, obeys (after P g (NullifierRead n a)) (k a) Q
  | FaucetTransactions f k => forall a, obeys (after P g (TransactionsRead f a)) (k a) Q
  end.

Lemma obeys_bind {A B} g (p : prog A) (f : A -> prog B) Q :
  obeys g p (fun g a => obeys g (f a) Q) -> obeys g (bind p f) Q.
Proof.
  revert g; induction p; intros g; simpl; auto; try naive_solver.
Qed.

Lemma obeys_mono {A} g (p : prog A) (Q R : G -> A -> Prop) :
  obeys g p Q -> (forall g a, Q g a -> R g a) -> obeys g p R.
Proof. intros Hp HQR. revert g Hp; induction p; intros g; simpl; auto; naive_solver. Qed.

Lemma obeys_bind_ok {E A B} g (p : prog (result E A)) (f : A -> prog (result E B)) Q :
  obeys g p (fun g r => match r with Ok a => obeys g (f a) Q | Err e => Q g (Err e) end) ->
  obeys g (bind_ok p f) Q.
Proof.
  intros Hp. apply obeys_bind. eapply obeys_mono; [exact Hp|]. by intros g' [a|e].
Qed.

Lemma obeys_lift_err {E F A} g (h : E -> F) (p : prog (result E A)) Q :
  obeys g p (fun g r => Q g (map_err h r)) -> obeys g (lift_err h p) Q.
Proof. intros Hp. by apply obeys_bind. Qed.

Definition admits (g : G) (action : Action) : Prop :=
  match action with
  | Sent r _ => may_exchange P g r
  | ClaimMade keys _ => may_claim P g keys
  | Moved key to _ _ => may_move P g key to
  | _ => True
  end.

(** A step makes an admitted call, and the rest of the program obeys from the state after it. *)
Lemma obeys_step {A} g (p : prog A) Q rows rows' actions p' :
  obeys g p Q -> program_step rows p rows' actions p' ->
  Forall (admits g) actions /\ obeys (foldl (after P) g actions) p' Q.
Proof.
  intros Hp Hs; destruct Hs; simpl in *; try (destruct Hp as [? Hp]);
    (split; [|done || apply Hp]); repeat constructor; done.
Qed.
End obeys.

(** What a whole run of [p] does, and the ghost state after it. *)
Definition after_trace {G} (P : Protocol G) (g : G) (trace : list Action) : G :=
  foldr (fun action g => after P g action) g trace.

Lemma trace_obeys {G} (P : Protocol G) {A} g (p : prog A) Q trace p' :
  obeys P g p Q -> program_trace p trace p' ->
  obeys P (after_trace P g trace) p' Q /\
  forall later action earlier, trace = later ++ action :: earlier ->
    admits P (after_trace P g earlier) action.
Proof.
  intros Hp. induction 1 as [|trace p1 rows rows' actions p' _ [Hob Hadm] Hs].
  { split; [done|]. by intros []. }
  destruct (obeys_step _ _ _ _ _ _ _ _ Hob Hs) as [Ha Hob'].
  assert (actions = [] \/ exists action, actions = [action]) as [->|[action ->]] by (destruct Hs; eauto).
  { by split. }
  rewrite Forall_singleton in Ha. split; [done|].
  intros [|action' later] action0 earlier [= <- He]; [by subst|]. by eapply Hadm.
Qed.

(** The rule of a [for_each] loop. *)
Lemma obeys_for_each {G} (P : Protocol G) {A} (I : G -> Prop)
    (f : A -> prog (result SubmitError unit)) l g Q :
  I g -> (forall g a, a ∈ l -> I g -> obeys P g (f a) (fun g _ => I g)) ->
  (forall g r, I g -> Q g r) -> obeys P g (for_each f l) Q.
Proof.
  revert g; induction l as [|a l IH]; intros g Hg Hf HQ; simpl; [auto|].
  apply obeys_bind_ok. eapply obeys_mono; [apply Hf; [set_solver|done]|].
  intros g' [u|e] Hg'; [|auto]. apply IH; [done| |done]. intros; apply Hf; [set_solver|done].
Qed.
End programs.
Arguments may_exchange {_ G} _ _ _.
Arguments may_claim {_ G} _ _ _.
Arguments may_move {_ G} _ _ _ _.
Arguments after {_ G} _ _ _.

(** A request that does not ask Circle to release anything. *)
Definition asks_nothing (payload : Payload) : Prop :=
  match payload with PostWithdraw _ => False | _ => True end.

(** A protocol that restricts neither questions nor records of an outcome other than a failure, and
    whose state then changes along [R]. *)
Record gentle `{EvidenceLib} {G} (P : Protocol G) (R : G -> G -> Prop) : Prop := {
  gentle_exchange g r answer :
    asks_nothing (rq_payload r) -> may_exchange P g r /\ R g (after P g (Sent r answer));
  gentle_move g key to id answer :
    to <> Pending -> to <> Failed -> may_move P g key to /\ R g (after P g (Moved key to id answer));
  gentle_sign g v answer : R g (after P g (SignatureMade v answer));
  gentle_note g id answer : R g (after P g (NoteRead id answer));
  gentle_nullifier g n answer : R g (after P g (NullifierRead n answer));
  gentle_transactions g f answer : R g (after P g (TransactionsRead f answer));
}.

Create HintDb quiet.

Section quiet.
Context `{Hmiden : MidenLib, Hencoding : !EncodingLib, WebLib, HttpLib, EcdsaLib, AttesterJson, EvidenceLib}.
Context {G : Type} (P : Protocol G) (R : G -> G -> Prop) `{!PreOrder R} (Hgentle : gentle P R).

(** A program that claims nothing, sends no withdrawal and records no failure. *)
Definition quiet {A} (p : prog A) : Prop := forall g, obeys P g p (fun g' _ => R g g').

Lemma quiet_ret {A} (a : A) : quiet (Ret a).
Proof. intros g. simpl. reflexivity. Qed.
Lemma quiet_panic {A} : quiet (Panic : prog A).
Proof. by intros g. Qed.
Lemma quiet_emit {A} e (k : prog A) : quiet k -> quiet (Emit e k).
Proof. intros Hk g. apply Hk. Qed.
Lemma quiet_sleep {A} d (k : prog A) : quiet k -> quiet (Sleep d k).
Proof. intros Hk g. apply Hk. Qed.
Lemma quiet_bind {A B} (p : prog A) (f : A -> prog B) :
  quiet p -> (forall a, quiet (f a)) -> quiet (bind p f).
Proof.
  intros Hp Hf g. apply obeys_bind. eapply obeys_mono; [apply Hp|]. intros g1 a Hg1.
  eapply obeys_mono; [apply Hf|]. intros g2 b Hg2. by transitivity g1.
Qed.
Lemma quiet_bind_ok {E A B} (p : prog (result E A)) (f : A -> prog (result E B)) :
  quiet p -> (forall a, quiet (f a)) -> quiet (bind_ok p f).
Proof. intros Hp Hf. apply quiet_bind; [done|]. intros [a|e]; [apply Hf|apply quiet_ret]. Qed.
Lemma quiet_transit key to id : to <> Pending -> to <> Failed -> quiet (transit key to id).
Proof.
  intros Hp Hf g. split; [by apply (gentle_move _ _ Hgentle g key to id (Err (UnknownBurn key)))|].
  intros a. by apply (gentle_move _ _ Hgentle).
Qed.
Lemma quiet_for_each {A} (f : A -> prog (result SubmitError unit)) l :
  (forall a, quiet (f a)) -> quiet (for_each f l).
Proof.
  intros Hf. induction l as [|a l IH]; [apply quiet_ret|]. apply quiet_bind_ok; auto.
Qed.
Lemma quiet_execute c r :
  asks_nothing (rq_payload r) -> quiet (execute c r).
Proof.
  intros Hr g. split; [by apply (gentle_exchange _ _ Hgentle g r (Err ""%string))|].
  intros a. by apply (gentle_exchange _ _ Hgentle).
Qed.
#[local] Hint Resolve quiet_ret quiet_panic quiet_emit quiet_sleep quiet_for_each quiet_transit : quiet.

Lemma quiet_mark_all keys : quiet (mark_all_reconciliation keys).
Proof. apply quiet_for_each. intros. by apply quiet_transit. Qed.
Lemma quiet_block_others keys at_ : quiet (block_others keys at_).
Proof. apply quiet_for_each. intros [i key]. case_match; [apply quiet_ret|]. by apply quiet_transit. Qed.
Lemma quiet_block_binding keys at_ id : quiet (block_binding_id_to keys at_ id).
Proof.
  unfold block_binding_id_to. case_match; [|apply quiet_panic].
  apply quiet_bind_ok; [by apply quiet_transit|intros; apply quiet_block_others].
Qed.
#[local] Hint Resolve quiet_mark_all quiet_block_others quiet_block_binding : quiet.

Lemma build_request_payload c path payload request :
  build_request c path payload = Ok request -> rq_payload request = payload.
Proof. unfold build_request. intros He. inv_ok. by subst. Qed.

(** A request whose payload is not a withdrawal. *)
Lemma quiet_call {A} c path payload (f : RawResponse -> prog (result ListenerError A)) :
  asks_nothing payload -> (forall r, quiet (f r)) ->
  quiet (bind_ok (Ret (build_request c path payload)) (fun request => bind_ok (execute c request) f)).
Proof.
  intros Hpay Hf. unfold bind_ok at 1. simpl. destruct (build_request _ _ _) as [r|e] eqn:Hr; [|apply quiet_ret].
  apply quiet_bind_ok; [|done]. apply quiet_execute. by rewrite (build_request_payload _ _ _ _ Hr).
Qed.

Lemma quiet_poll_status c id : quiet (poll_status c id).
Proof.
  unfold poll_status. generalize (Z.to_nat (pp_max_attempts (poll c))) as n.
  induction n as [|n IH]; simpl; [apply quiet_ret|].
  apply quiet_bind_ok; [apply quiet_call; auto with quiet; done|]. intros found. repeat case_match; auto with quiet.
Qed.
Lemma quiet_prepare c req : quiet (prepare c req).
Proof. apply quiet_call; auto with quiet; done. Qed.
Lemma quiet_evidence id faucet : quiet (assemble_evidence id faucet).
Proof.
  unfold assemble_evidence. apply quiet_bind_ok; [intros g a; apply (gentle_note _ _ Hgentle)|].
  intros details. apply quiet_bind_ok; [intros g a; apply (gentle_nullifier _ _ Hgentle)|].
  intros spend_block g a. apply (gentle_transactions _ _ Hgentle).
Qed.
#[local] Hint Resolve quiet_poll_status quiet_prepare quiet_evidence : quiet.

Lemma quiet_settle_created keys burns statuses : quiet (settle_created keys burns statuses).
Proof.
  unfold settle_created. repeat case_match; apply quiet_bind_ok; auto with quiet.
  apply quiet_for_each. intros [key s]. by apply quiet_transit.
Qed.

Lemma quiet_recover_conflict c keys burns conflict : quiet (recover_conflict c keys burns conflict).
Proof.
  unfold recover_conflict.
  destruct (position_of _ _) as [at_|]; [|apply quiet_bind_ok; auto with quiet].
  destruct (cf_withdrawal_id _) as [id|]; [|apply quiet_bind_ok; auto with quiet].
  apply quiet_bind; [auto with quiet|]. intros [found|e]; [|apply quiet_bind_ok; auto with quiet].
  repeat case_match; try apply quiet_panic; repeat (apply quiet_bind_ok; [|intros ?]);
    auto with quiet; by apply quiet_transit.
Qed.

Lemma quiet_lift_err {E F A} (f : E -> F) (p : prog (result E A)) : quiet p -> quiet (lift_err f p).
Proof. intros Hp. apply quiet_bind; [done|]. auto with quiet. Qed.
#[local] Hint Resolve quiet_lift_err : quiet.

Lemma quiet_settle ctx note_id id outcome : quiet (settle ctx note_id id outcome).
Proof.
  destruct outcome as [[|created statuses]| | | |]; unfold settle, emit; apply quiet_emit;
    auto with quiet.
  destruct (Uuid_new (ws_withdrawal_id created)); [|apply quiet_panic].
  apply quiet_bind_ok; [auto with quiet|]. intros found. case_match; [auto with quiet|].
  apply quiet_bind_ok; [|auto with quiet]. case_match; [|auto with quiet]. by apply quiet_lift_err, quiet_transit.
Qed.

End quiet.
#[export] Hint Resolve quiet_ret quiet_panic quiet_emit quiet_sleep quiet_for_each quiet_transit
  quiet_mark_all quiet_block_others quiet_block_binding quiet_poll_status quiet_prepare
  quiet_evidence quiet_lift_err quiet_settle quiet_settle_created quiet_recover_conflict : quiet.
#[export] Hint Extern 0 (PreOrder _) => apply _ : quiet.

(** A burn that no claim takes: it has a row, in another state than failed. *)
Definition blocked (rows : Ledger) (key : BurnKey) : Prop :=
  exists row, rows !! key = Some row /\ lr_status row <> as_token Failed.

(** A burn key is lowercase, as [BurnKey::new] leaves it. *)
Definition is_key (key : BurnKey) : Prop := BurnKey_new key = key.

Lemma to_ascii_lowercase_idem a :
  to_ascii_lowercase (to_ascii_lowercase a) = to_ascii_lowercase a.
Proof. destruct a as [[] [] [] [] [] [] [] []]; reflexivity. Qed.

Lemma BurnKey_new_key s : is_key (BurnKey_new s).
Proof.
  unfold is_key, BurnKey_new, to_lowercase. rewrite str_list_str, <-list_fmap_compose. f_equal.
  apply list_fmap_ext. intros ? a _. apply to_ascii_lowercase_idem.
Qed.

Lemma parse_as_token status : SubmissionStatus_parse (as_token status) = Some status.
Proof. by destruct status. Qed.

Lemma parse_Some token status : SubmissionStatus_parse token = Some status -> token = as_token status.
Proof. unfold SubmissionStatus_parse. repeat case_decide; intros [= <-]; done. Qed.

Lemma as_token_inj s s' : as_token s = as_token s' -> s = s'.
Proof. intros He%(f_equal SubmissionStatus_parse). rewrite !parse_as_token in He. by injection He. Qed.

Lemma row_to_record_Ok key row record :
  row_to_record key row = Ok record ->
  sr_burn_key record = BurnKey_new key /\ lr_status row = as_token (sr_status record).
Proof.
  unfold row_to_record. intros He. inv_ok. subst. simpl. split; [done|]. by apply parse_Some.
Qed.

Lemma read_record_Ok key rows record :
  read_record key rows = Ok (Some record) ->
  exists row, rows !! key = Some row /\ sr_burn_key record = BurnKey_new key /\
    lr_status row = as_token (sr_status record).
Proof.
  unfold read_record. destruct (rows !! key) as [row|]; [|done].
  intros He. inv_ok. simplify_eq. eexists; split; [done|]. by apply row_to_record_Ok.
Qed.

(** A transition rewrites one row. *)
Lemma apply_transition_Ok current to id now rows updated rows' :
  apply_transition current to id now rows = Ok (updated, rows') ->
  can_transition_to (sr_status current) to = true /\
  exists timestamp, rows' = update_row (sr_burn_key current)
    {| lr_withdrawal_id := option_or id (sr_withdrawal_id current); lr_status := as_token to;
       lr_timestamp := timestamp |} rows.
Proof. unfold apply_transition. intros He. inv_ok. simpl. eauto. Qed.

Lemma update_row_blocks key row rows k :
  (k = key -> lr_status row <> as_token Failed) -> blocked rows k -> blocked (update_row key row rows) k.
Proof.
  intros Hrow (row0 & Hk & Hs). unfold update_row. destruct (rows !! key) eqn:Hkey; [|by exists row0].
  destruct (decide (k = key)) as [->|].
  - exists row. by rewrite lookup_insert_eq; auto.
  - exists row0. by rewrite lookup_insert_ne.
Qed.

Lemma update_row_ne key row rows k : k <> key -> update_row key row rows !! k = rows !! k.
Proof. intros Hne. unfold update_row. case_match; [|done]. by rewrite lookup_insert_ne. Qed.

(** ** Transitions *)

Lemma transition_blocks now key to id rows answer rows' k :
  (to = Failed -> is_key key /\ k <> key) ->
  transition now key to id rows = (answer, rows') -> blocked rows k -> blocked rows' k.
Proof.
  unfold transition, ledger_write. intros Hto. case_match eqn:Hb; [|by intros [= _ <-]].
  case_match. intros [= _ <-]. unfold transition_body in Hb. inv_ok. subst.
  match goal with Hr : read_record _ _ = _ |- _ => apply read_record_Ok in Hr as (row & Hrow & Hkey & _) end.
  apply apply_transition_Ok in Hb as (_ & ts & ->).
  apply update_row_blocks. simpl. intros ->. intros Hf. apply (as_token_inj to Failed) in Hf as ->.
  destruct (Hto eq_refl) as [Hk Hne]. by rewrite Hkey, Hk in Hne.
Qed.

Lemma transition_call_blocks now key to id rows answer rows' k :
  (to = Failed -> is_key key /\ k <> key) ->
  ledger_call (transition now key to id) rows answer rows' -> blocked rows k -> blocked rows' k.
Proof.
  intros Hto [answer' rows'' Hr|cause|cause]; [by eapply transition_blocks|done|].
  destruct (transition now key to id rows) eqn:Hr. simpl. by eapply transition_blocks.
Qed.

(** ** Claims *)

Lemma claim_one_Ok now key rows record rows' :
  is_key key -> claim_one now key rows = Ok (record, rows') ->
  ~ blocked rows key /\ blocked rows' key /\ (forall k, blocked rows k -> blocked rows' k).
Proof.
  intros Hkey He. unfold claim_one in He. inv_ok. subst.
  match goal with Hr : read_record _ _ = Ok ?o |- _ => rename Hr into Hread; destruct o as [existing|] end.
  - apply read_record_Ok in Hread as (row & Hrow & Hk & Hs). rewrite Hkey in Hk.
    destruct (blocks_resubmission (sr_status existing)) eqn:Hb; [done|].
    unfold tmap_err in He. inv_ok. apply apply_transition_Ok in He as (_ & ts & ->). rewrite Hk.
    assert (sr_status existing = Failed) as Hf by (by destruct (sr_status existing)).
    rewrite Hf in Hs. split; [|split].
    + intros (row' & ? & ?). simplify_eq.
    + unfold update_row. rewrite Hrow. eexists. rewrite lookup_insert_eq. split; [done|].
      simpl. discriminate.
    + intros k. apply update_row_blocks. simpl. discriminate.
  - assert (rows !! key = None) as Hnone.
    { unfold read_record in Hread. destruct (rows !! key); [|done]. inv_ok. done. }
    unfold tmap_err, insert_row in He. inv_ok. subst. simpl.
    split; [|split].
    + intros (row' & ? & ?). simplify_eq.
    + eexists. rewrite lookup_insert_eq. split; [done|]. simpl. discriminate.
    + intros k (row & Hk & Hs). destruct (decide (k = key)) as [->|]; [by simplify_eq|].
      exists row. by rewrite lookup_insert_ne.
Qed.

Lemma claim_all_Ok now keys rows records rows' :
  Forall is_key keys -> claim_all now keys rows = Ok (records, rows') ->
  (forall k, k ∈ keys -> ~ blocked rows k /\ blocked rows' k) /\
  (forall k, blocked rows k -> blocked rows' k).
Proof.
  revert rows records; induction keys as [|key keys IH]; intros rows records Hkeys; simpl.
  { intros He. inv_ok. split; [set_solver|done]. }
  intros He. apply Forall_cons in Hkeys as [Hkey Hkeys].
  apply tbind_Ok in He as (record & rows1 & Hone & He). apply tbind_Ok in He as (rest & rows2 & Hrest & He).
  inv_ok. subst. apply claim_one_Ok in Hone as (Hno & Hyes & Hmono); [|done].
  apply IH in Hrest as [Hin Hall]; [|done]. split; [|naive_solver].
  intros k [->|Hk]%elem_of_cons; [by auto|]. destruct (Hin k Hk). naive_solver.
Qed.

Lemma claim_burns_blocks now keys rows answer rows' :
  Forall is_key keys -> claim_burns now keys rows = (answer, rows') ->
  (forall k, blocked rows k -> blocked rows' k) /\
  (forall records k, answer = Ok (Claimed records) -> k ∈ keys -> ~ blocked rows k /\ blocked rows' k).
Proof.
  unfold claim_burns, ledger_write. intros Hkeys. destruct (claim_all now keys rows) as [[records rows1]|e] eqn:Hc.
  - intros [= <- <-]. apply claim_all_Ok in Hc as [Hin Hall]; [|done]. split; [done|]. eauto.
  - destruct e; intros [= <- <-]; (split; [done|]); discriminate.
Qed.

Lemma claim_call_blocks now keys rows answer rows' :
  Forall is_key keys -> ledger_call (claim_burns now keys) rows answer rows' ->
  (forall k, blocked rows k -> blocked rows' k) /\
  (forall records k, answer = Ok (Claimed records) -> k ∈ keys -> ~ blocked rows k /\ blocked rows' k).
Proof.
  intros Hkeys [answer' rows'' Hr|cause|cause]; [by eapply claim_burns_blocks|by split|].
  destruct (claim_burns now keys rows) eqn:Hr. simpl.
  apply claim_burns_blocks in Hr as [Hr _]; [|done]. by split.
Qed.
