(* ===== verification/SubmitOnce.v ===== *)
(** A deployment of withdrawal-listener-attester: any number of submissions in any number of
    processes over one ledger, interleaved call by call, any of which may stop at any call; and that
    a burn is sent again only after Circle refused it. *)
From S2P Require Import Prelude Text Foreign Ledger AttesterWire AttesterHttp Quorum Evidence Listener Programs.
Local Open Scope Z_scope.

(** ** The discipline of a submission *)

(** Where a submission is: it claimed nothing yet; it owns the burns it claimed and may send them;
    Circle rejected them and some are still to be recorded as failed; it may only record. *)
Inductive phase : Type :=
| Fresh
| Owning (keys : list BurnKey)
| Rejected (keys : list BurnKey)
| Spent.

(** The burns no other submission may claim because of this one. *)
Definition holds (ph : phase) : list BurnKey :=
  match ph with Owning keys | Rejected keys => keys | Fresh | Spent => [] end.

(** Circle's answers that say it created no withdrawal: 400 and 5xx. *)
Definition is_rejection (answer : result string HttpReply) : bool :=
  match answer with Ok reply => hp_status reply =? BAD_REQUEST | Err _ => false end.
Definition is_server_error (answer : result string HttpReply) : bool :=
  match answer with Ok reply => (500 <=? hp_status reply) && (hp_status reply <=? 599) | Err _ => false end.
Definition refused (answer : result string HttpReply) : bool :=
  is_rejection answer || is_server_error answer.

Section submit_once.
Context `{Hmiden : MidenLib, Hencoding : !EncodingLib, WebLib, HttpLib, EcdsaLib, AttesterJson, EvidenceLib}.

Definition submission_discipline : Protocol phase :=
  {| may_exchange := fun ph r =>
       match rq_payload r with
       | PostWithdraw request => ph = Owning (request_keys request)
       | _ => True
       end;
     may_claim := fun ph keys => ph = Fresh /\ NoDup keys /\ Forall is_key keys;
     may_move := fun ph key to =>
       match to with
       | Pending => False
       | Failed => exists rest, ph = Rejected (key :: rest)
       | _ => True
       end;
     after := fun ph action =>
       match action with
       | Sent r answer =>
           match rq_payload r, ph with
           | PostWithdraw _, Owning keys =>
               if is_rejection answer then Rejected keys
               else if is_server_error answer then Owning keys else Spent
           | _, _ => ph
           end
       | ClaimMade keys (Ok (Claimed _)) => Owning keys
       | ClaimMade _ _ => Spent
       | Moved _ Failed _ _ => match ph with Rejected (_ :: rest) => Rejected rest | _ => ph end
       | _ => ph
       end |}.
#[local] Abbreviation D := submission_discipline.

(** ** Every program keeps to it *)

Lemma discipline_gentle : gentle D eq.
Proof.
  split; try done.
  - intros ph r answer Hr. simpl. by destruct (rq_payload r).
  - intros ph key to id answer Hp Hf. by destruct to.
Qed.
#[local] Hint Resolve discipline_gentle : quiet.
#[local] Abbreviation quiet := (quiet D eq).

(** ** One submission *)

Lemma read_reply_Ok c url answer response :
  read_reply c url answer = Ok response ->
  exists reply, answer = Ok reply /\ status response = hp_status reply.
Proof.
  unfold read_reply, transport_execute. intros He. inv_ok. subst. eauto.
Qed.

Lemma collect_chunks_error chunks broken limit collected e status :
  collect_chunks chunks broken limit collected = Err e -> e <> Http status.
Proof.
  revert limit collected; induction chunks as [|chunk chunks IH]; intros limit collected; simpl.
  - destruct broken; [|done]. by intros [= <-].
  - unfold push. destruct (ensure _ _) eqn:He; simpl; [apply IH|].
    intros [= <-]. unfold ensure in He. case_match; [done|]. by injection He as <-.
Qed.

(** No reply is read as a status error before its status is looked at. *)
Lemma read_reply_error c url answer e code : read_reply c url answer = Err e -> e <> Http code.
Proof.
  unfold read_reply, transport_execute, check_not_redirected, collect_bounded, check_content_length.
  destruct answer as [reply|cause]; simpl; [|by intros [= <-]].
  case_bool_decide; simpl; [|by intros [= <-]].
  destruct (hp_content_length reply); simpl; [unfold ensure at 1; case_match; simpl; [|by intros [= <-]]|].
  all: destruct (collect_chunks _ _ _ _) as [b|e'] eqn:Hc; simpl;
    [|intros [= <-]; by eapply collect_chunks_error].
  all: unfold ensure; case_match; simpl; [done|by intros [= <-]].
Qed.

Lemma is_retryable_Http e : is_retryable e = true -> exists code, e = Http code /\ 500 <= code <= 599.
Proof. destruct e; simpl; try done. intros. bool_prop. eauto. Qed.

(** What an attempt's error says of the submission: a retried one still owns its burns, and a 400 is
    Circle's rejection. *)
Definition attempted {A} (keys : list BurnKey) (ph : phase) (r : result ListenerError A) : Prop :=
  (forall e, r = Err e -> is_retryable e = true -> ph = Owning keys) /\
  (r = Err (Http BAD_REQUEST) -> ph = Rejected keys).

Lemma obeys_attempt c request :
  obeys D (Owning (request_keys request)) (attempt_withdraw c request)
    (attempted (request_keys request)).
Proof.
  unfold attempt_withdraw, bind_ok. simpl.
  destruct (build_request _ _ _) as [built|e] eqn:Hb; simpl.
  2:{ unfold build_request, join in Hb. destruct (url_join _ _); simpl in Hb; [done|].
      injection Hb as <-. split; [by intros ? [= <-]|done]. }
  rewrite (build_request_payload _ _ _ _ Hb). split; [done|]. intros answer.
  destruct (read_reply _ _ _) as [response|e] eqn:Hr; simpl.
  - apply read_reply_Ok in Hr as (reply & -> & Hst). unfold is_rejection, is_server_error.
    rewrite <-Hst. unfold STATUS_WITHDRAW_CREATED, STATUS_WITHDRAW_CONFLICT, BAD_REQUEST.
    destruct (Z.eqb_spec (status response) 201) as [->|Hcreated].
    { unfold decode_withdraw_created, decode. destruct (from_slice _ _ _); simpl;
        [|split; [by intros ? [= <-]|done]].
      unfold ensure. case_match; simpl; split; try done; by intros ? [= <-]. }
    destruct (Z.eqb_spec (status response) 409) as [->|Hconflict].
    { unfold decode. destruct (from_slice _ _ _); simpl; split; try done; by intros ? [= <-]. }
    split.
    + intros ? [= <-] Hretry. unfold is_retryable in Hretry. rewrite Hretry.
      destruct (Z.eqb_spec (status response) 400) as [Hs|]; [|done]. by rewrite Hs in Hretry.
    + intros [= ->]. done.
  - pose proof (fun code => read_reply_error _ _ _ _ code Hr) as Hne. split.
    + intros ? [= <-] (code & -> & _)%is_retryable_Http. by destruct (Hne code).
    + intros [= ->]. by destruct (Hne BAD_REQUEST).
Qed.

Lemma obeys_retry_from c request left_ attempt :
  obeys D (Owning (request_keys request))
    (retry_from (retry c) (attempt_withdraw c request) left_ attempt)
    (fun ph r => r = Err (Http BAD_REQUEST) -> ph = Rejected (request_keys request)).
Proof.
  revert attempt; induction left_ as [|left_ IH]; intros attempt; simpl; apply obeys_bind;
    (eapply obeys_mono; [apply obeys_attempt|]); intros ph [value|e] [Hretry Hreject]; simpl; try done;
    destruct (is_retryable e) eqn:He; simpl; auto.
  rewrite (Hretry e eq_refl He). apply IH.
Qed.

Lemma obeys_record_failures keys :
  obeys D (Rejected keys) (for_each record_failure keys) (fun _ _ => True).
Proof.
  induction keys as [|key keys IH]; simpl; [done|]. split; [eauto|]. by intros [a|e]; simpl.
Qed.

Lemma quiet_obeys {A} ph (p : prog A) (Q : phase -> A -> Prop) :
  quiet p -> (forall a, Q ph a) -> obeys D ph p Q.
Proof. intros Hp HQ. eapply obeys_mono; [apply Hp|]. by intros ? a <-. Qed.

Lemma obeys_submit_claimed c request :
  obeys D (Owning (request_keys request)) (submit_claimed c request) (fun _ _ => True).
Proof.
  unfold submit_claimed. apply obeys_bind. eapply obeys_mono; [apply obeys_retry_from|].
  intros ph [[statuses|conflict]|e] Hr.
  - apply quiet_obeys; [by auto with quiet|done].
  - apply quiet_obeys; [by auto with quiet|done].
  - apply obeys_bind_ok. destruct (decide (e = Http BAD_REQUEST)) as [->|Hne].
    + rewrite (Hr eq_refl). simpl. eapply obeys_mono; [apply obeys_record_failures|]. by intros ? [].
    + assert (settle_failure (request_keys request) e = mark_all_reconciliation (request_keys request)) as ->.
      { destruct e; try done. simpl. destruct (Z.eqb_spec status BAD_REQUEST); [by subst|done]. }
      apply quiet_obeys; [by auto with quiet|]. by intros [].
Qed.

Lemma first_duplicate_None seen keys i :
  first_duplicate seen keys i = None -> NoDup keys /\ Forall (fun k => k ∉ seen) keys.
Proof.
  revert seen i; induction keys as [|key keys IH]; intros seen i; simpl.
  { intros _. split; constructor. }
  case_bool_decide as Hin; [done|]. intros [Hnd Hall]%IH. split.
  - constructor; [|done]. rewrite Forall_forall in Hall. intros Hk%Hall. set_solver.
  - constructor; [done|]. eapply Forall_impl; [exact Hall|]. set_solver.
Qed.

Lemma request_keys_are_keys request : Forall is_key (request_keys request).
Proof.
  unfold request_keys. rewrite Forall_fmap. apply Forall_forall. intros burn _. apply BurnKey_new_key.
Qed.

Lemma obeys_submit_withdraw c authorized :
  obeys D Fresh (submit_withdraw c authorized) (fun _ _ => True).
Proof.
  unfold submit_withdraw. destruct (first_duplicate _ _ _) eqn:Hd; [done|]. simpl.
  apply first_duplicate_None in Hd as [Hnd _].
  split; [split; [done|split; [done|apply request_keys_are_keys]]|].
  intros [[records|record]|e]; simpl; try done. apply obeys_submit_claimed.
Qed.

(** ** One run of the listener *)

(** Quiet steps before a submission, which starts with nothing claimed. *)
Lemma obeys_after_quiet {E A B} (p : prog (result E A)) (f : A -> prog (result E B)) :
  quiet p -> (forall a, obeys D Fresh (f a) (fun _ _ => True)) ->
  obeys D Fresh (bind_ok p f) (fun _ _ => True).
Proof. intros Hp Hf. apply obeys_bind_ok. apply quiet_obeys; [done|]. intros [a|e]; [apply Hf|done]. Qed.

Lemma obeys_run_signed ctx note_id intent fwd validated quorum :
  obeys D Fresh (run_signed ctx note_id intent fwd validated quorum) (fun _ _ => True).
Proof.
  apply obeys_after_quiet; [by auto with quiet|]. intros evidence. cbn [emit obeys].
  apply obeys_after_quiet; [by auto with quiet|]. intros batch. apply obeys_after_quiet; [by auto with quiet|]. intros request.
  unfold or_emit. destruct (authorize_submission _ _ _); [|done].
  apply obeys_bind_ok, obeys_lift_err. eapply obeys_mono; [apply obeys_submit_withdraw|].
  intros ph [outcome|e] _; simpl; [|done]. by apply quiet_obeys; [by auto with quiet|].
Qed.

Lemma obeys_run_prepared ctx note_id burn fwd response :
  obeys D Fresh (run_prepared ctx note_id burn fwd response) (fun _ _ => True).
Proof.
  unfold run_prepared, or_emit. destruct (validate_returned _ _ _) as [validated|]; [|done].
  case_match; [done|]. destruct (response_batches response); [done|].
  case_match; [done|]. destruct (burn_intents _); [done|]. cbn [emit obeys].
  apply obeys_after_quiet; [by auto with quiet|]. intros claims. case_match; [done|].
  destruct claims as [|first rest]; [done|]. destruct (digests validated) as [|digest others]; [done|].
  apply obeys_after_quiet; [by auto with quiet|]. intros quorum.
  apply obeys_run_signed.
Qed.

Lemma obeys_run_once ctx discovered :
  obeys D Fresh (run_once ctx discovered) (fun _ _ => True).
Proof.
  unfold run_once, or_emit. destruct (validate_discovery _ _); [|done]. cbn [emit obeys].
  apply obeys_after_quiet; [by auto with quiet|]. intros request. cbn [emit obeys].
  apply obeys_after_quiet; [by auto with quiet|]. intros response.
  destruct (input_batches request); [done|]. apply obeys_run_prepared.
Qed.
End submit_once.
