(* ===== verification/Deployment.v ===== *)
(** Submissions over one ledger, in any number of threads and processes, each advanced one call at a
    time and stopped at any: no burn is sent twice unless Circle refused it in between. *)
From S2P Require Import Prelude Text Foreign Ledger AttesterWire AttesterHttp Quorum Evidence Listener Programs SubmitOnce.
Local Open Scope Z_scope.

Section deployment.
Context `{Hmiden : MidenLib, Hencoding : !EncodingLib, WebLib, HttpLib, EcdsaLib, AttesterJson, EvidenceLib}.
#[local] Abbreviation D := submission_discipline.

(** A run of the listener for a discovered note, or a submission of an authorized request, with any
    configuration and client. *)
Inductive submission : prog unit -> Prop :=
| by_listener ctx discovered : submission (bind (run_once ctx discovered) (fun _ => Ret tt))
| by_request c authorized : submission (bind (submit_withdraw c authorized) (fun _ => Ret tt)).

Record Deployment := {
  dp_ledger : Ledger;
  dp_running : gmap nat (prog unit);
  dp_trace : list Action;
}.

(** Submissions start, make a call and get its answer, and end at any point; anyone may use the
    ledger's public operations. *)
Inductive deployment_step (d : Deployment) : Deployment -> Prop :=
| deployment_start n p :
    dp_running d !! n = None -> submission p ->
    deployment_step d {| dp_ledger := dp_ledger d; dp_running := <[n := p]> (dp_running d);
                         dp_trace := dp_trace d |}
| deployment_call n p rows actions p' :
    dp_running d !! n = Some p -> program_step (dp_ledger d) p rows actions p' ->
    deployment_step d {| dp_ledger := rows; dp_running := <[n := p']> (dp_running d);
                         dp_trace := actions ++ dp_trace d |}
| deployment_stop n :
    deployment_step d {| dp_ledger := dp_ledger d; dp_running := delete n (dp_running d);
                         dp_trace := dp_trace d |}
| deployment_record now key to id answer rows :
    to = Submitted \/ to = Finalized \/ to = ReconciliationRequired ->
    ledger_call (transition now key to id) (dp_ledger d) answer rows ->
    deployment_step d {| dp_ledger := rows; dp_running := dp_running d; dp_trace := dp_trace d |}.

(** From any ledger, with nothing running. *)
Inductive deployed : Deployment -> Prop :=
| deployed_first rows : deployed {| dp_ledger := rows; dp_running := ∅; dp_trace := [] |}
| deployed_step d d' : deployed d -> deployment_step d d' -> deployed d'.

(** ** The invariant *)

(** The burns a request asks Circle to release. *)
Definition carries (r : HttpRequest) (key : BurnKey) : Prop :=
  match rq_payload r with PostWithdraw request => key ∈ request_keys request | _ => False end.

Definition sent_once (trace : list Action) : Prop :=
  forall later r2 a2 middle r1 a1 earlier key,
    trace = later ++ Sent r2 a2 :: middle ++ Sent r1 a1 :: earlier ->
    carries r1 key -> carries r2 key -> refused a1 = true.

Record exclusive (rows : Ledger) (phases : gmap nat phase) (trace : list Action) : Prop := {
  held_blocked n ph key : phases !! n = Some ph -> key ∈ holds ph -> blocked rows key;
  held_keys n ph : phases !! n = Some ph -> NoDup (holds ph) /\ Forall is_key (holds ph);
  held_apart n m ph1 ph2 key :
    phases !! n = Some ph1 -> phases !! m = Some ph2 -> n <> m -> key ∈ holds ph1 -> key ∉ holds ph2;
  sent_blocked r a key :
    Sent r a ∈ trace -> carries r key -> refused a = false -> blocked rows key;
  sent_unheld r a key n ph :
    Sent r a ∈ trace -> carries r key -> refused a = false -> phases !! n = Some ph -> key ∉ holds ph;
  exclusive_sent : sent_once trace;
}.

Lemma sent_once_cons action trace :
  sent_once trace ->
  (forall r a key r1 a1, action = Sent r a -> carries r key -> Sent r1 a1 ∈ trace -> carries r1 key ->
     refused a1 = true) ->
  sent_once (action :: trace).
Proof.
  intros Hold Hnew later r2 a2 middle r1 a1 earlier key He H1' H2'.
  destruct later as [|action' later]; simplify_eq/=.
  - eapply Hnew; [done|exact H2'| |exact H1']. set_solver.
  - by eapply Hold.
Qed.

(** An action that sends no withdrawal. *)
Lemma exclusive_other rows phases trace action :
  exclusive rows phases trace -> (forall r a key, action = Sent r a -> ~ carries r key) ->
  exclusive rows phases (action :: trace).
Proof.
  intros [] Hno. split; try done.
  - intros r a key [<-|?]%elem_of_cons Hc; [by destruct (Hno r a key)|eauto].
  - intros r a key n ph [<-|?]%elem_of_cons Hc; [by destruct (Hno r a key)|eauto].
  - apply sent_once_cons; [done|]. intros r a key r1 a1 -> Hc. by destruct (Hno r a key).
Qed.

(** A submission gives up burns, and the ledger may unblock those. *)
Lemma exclusive_release rows rows' phases trace n ph ph' :
  exclusive rows phases trace -> phases !! n = Some ph ->
  (forall key, key ∈ holds ph' -> key ∈ holds ph) -> NoDup (holds ph') ->
  (forall key, blocked rows key -> (key ∈ holds ph -> key ∈ holds ph') -> blocked rows' key) ->
  exclusive rows' (<[n := ph']> phases) trace.
Proof.
  intros [] Hn Hsub Hnd Hrows. split; try done.
  - intros m ph1 key [[<- <-]|[Hne Hm]]%lookup_insert_Some Hin; [eauto|].
    apply Hrows; [eauto|]. intros Hheld. by destruct (held_apart0 n m ph ph1 key).
  - intros m ph1 [[<- <-]|[Hne Hm]]%lookup_insert_Some; [|eauto].
    split; [done|]. destruct (held_keys0 n ph Hn) as [_ Hk].
    rewrite Forall_forall in Hk |- *. auto.
  - intros m1 m2 ph1 ph2 key [[<- <-]|[? Hm1]]%lookup_insert_Some [[<- <-]|[? Hm2]]%lookup_insert_Some
      Hne Hin Hin2; try done; [| |by eapply (held_apart0 m1 m2)].
    + eapply (held_apart0 n m2); eauto.
    + eapply (held_apart0 m1 n); eauto.
  - intros r a key Hs Hc Hr. apply Hrows; [eauto|]. intros Hheld. by destruct (sent_unheld0 r a key n ph).
  - intros r a key m ph1 Hs Hc Hr [[<- <-]|[? Hm]]%lookup_insert_Some Hin; [|by eapply sent_unheld0].
    by eapply (sent_unheld0 r a key n ph); eauto.
Qed.

(** A submission that has claimed nothing. *)
Lemma exclusive_fresh rows phases trace n :
  exclusive rows phases trace -> exclusive rows (<[n := Fresh]> phases) trace.
Proof.
  intros []. split; try done.
  - intros m ph key [[<- <-]|[Hne Hm]]%lookup_insert_Some Hin; [set_solver|eauto].
  - intros m ph [[<- <-]|[Hne Hm]]%lookup_insert_Some; [split; constructor|eauto].
  - intros m1 m2 ph1 ph2 key [[<- <-]|[? Hm1]]%lookup_insert_Some [[<- <-]|[? Hm2]]%lookup_insert_Some
      Hne Hin; try set_solver; eauto.
  - intros r a key m ph Hs Hc Hr [[<- <-]|[? Hm]]%lookup_insert_Some; [set_solver|eauto].
Qed.

Lemma exclusive_claim rows rows' phases trace n keys :
  exclusive rows phases trace -> phases !! n = Some Fresh -> NoDup keys -> Forall is_key keys ->
  (forall key, blocked rows key -> blocked rows' key) ->
  (forall key, key ∈ keys -> ~ blocked rows key /\ blocked rows' key) ->
  exclusive rows' (<[n := Owning keys]> phases) trace.
Proof.
  intros [] Hn Hnd Hkeys Hmono Hclaim. split; try done.
  - intros m ph1 key [[<- <-]|[Hne Hm]]%lookup_insert_Some Hin; [by apply Hclaim|eauto].
  - intros m ph1 [[<- <-]|[Hne Hm]]%lookup_insert_Some; eauto.
  - intros m1 m2 ph1 ph2 key [[<- <-]|[? Hm1]]%lookup_insert_Some [[<- <-]|[? Hm2]]%lookup_insert_Some
      Hne Hin Hin2; try done; [| |by eapply (held_apart0 m1 m2)].
    + destruct (Hclaim key Hin) as [Hno _]. eauto.
    + destruct (Hclaim key Hin2) as [Hno _]. eauto.
  - eauto.
  - intros r a key m ph1 Hs Hc Hr [[<- <-]|[? Hm]]%lookup_insert_Some Hin; [|by eapply sent_unheld0].
    destruct (Hclaim key Hin) as [Hno _]. eauto.
Qed.

Lemma exclusive_send rows phases trace n r a request :
  exclusive rows phases trace -> rq_payload r = PostWithdraw request ->
  phases !! n = Some (Owning (request_keys request)) ->
  exclusive rows (<[n := after D (Owning (request_keys request)) (Sent r a)]> phases) (Sent r a :: trace).
Proof.
  intros Hex Hr Hn. set (ph := after _ _ _).
  assert (holds ph = request_keys request \/ holds ph = [] /\ refused a = false \/
          holds ph = [] /\ refused a = true) as Hph.
  { unfold ph, refused. simpl. rewrite Hr. destruct (is_rejection a), (is_server_error a); auto. }
  assert (refused a = false -> holds ph = []) as Hspent.
  { unfold ph, refused. simpl. rewrite Hr. by destruct (is_rejection a), (is_server_error a). }
  assert (exclusive rows (<[n := ph]> phases) trace) as Hex'.
  { eapply exclusive_release; [done|done| | |done].
    - intros key. destruct Hph as [->|[[-> _]|[-> _]]]; set_solver.
    - destruct (held_keys _ _ _ Hex n _ Hn) as [Hnd _].
      destruct Hph as [->|[[-> _]|[-> _]]]; [done|constructor..]. }
  split; try apply Hex'.
  - intros r0 a0 key [[= -> ->]|Hs]%elem_of_cons Hc Href; [|by eapply sent_blocked].
    eapply (held_blocked _ _ _ Hex); [done|]. unfold carries in Hc. by rewrite Hr in Hc.
  - intros r0 a0 key m ph0 [[= -> ->]|Hs]%elem_of_cons Hc Href Hm; [|by eapply (sent_unheld _ _ _ Hex')].
    unfold carries in Hc. rewrite Hr in Hc. apply lookup_insert_Some in Hm as [[<- <-]|[Hne Hm]].
    + rewrite Hspent by done. set_solver.
    + by eapply (held_apart _ _ _ Hex n m).
  - apply sent_once_cons; [apply Hex'|]. intros r0 a0 key r1 a1 [= <- <-] Hc Hs Hc1.
    destruct (refused a1) eqn:Href; [done|]. unfold carries in Hc. rewrite Hr in Hc.
    by destruct (sent_unheld _ _ _ Hex r1 a1 key n (Owning (request_keys request)) Hs Hc1 Href Hn).
Qed.

(** A submission in the phase [ph] makes an admitted call. *)
Lemma exclusive_call {A} rows phases trace n ph (p p' : prog A) rows' actions :
  exclusive rows phases trace -> phases !! n = Some ph ->
  program_step rows p rows' actions p' -> Forall (admits D ph) actions ->
  exclusive rows' (<[n := foldl (after D) ph actions]> phases) (actions ++ trace).
Proof.
  intros Hex Hn Hs Hadm.
  assert (<[n := ph]> phases = phases) as Hsame by (by apply insert_id).
  destruct Hs; simpl; rewrite ?Hsame; try done; try (by apply exclusive_other; [|by intros ??? [=]]).
  - rewrite Forall_singleton in Hadm. cbn [admits may_exchange submission_discipline] in Hadm.
    destruct (rq_payload r) eqn:Hr; rewrite ?Hsame;
      try (apply exclusive_other; [done|]; intros ??? [= <- <-]; unfold carries; rewrite Hr; tauto).
    subst ph.
    pose proof (exclusive_send _ _ _ n r answer request Hex Hr Hn) as Hsend.
    simpl in Hsend. by rewrite Hr in Hsend.
  - rewrite Forall_singleton in Hadm. destruct Hadm as (-> & Hnd & Hkeys).
    apply exclusive_other; [|by intros ??? [=]].
    destruct (claim_call_blocks _ _ _ _ _ Hkeys H4) as [Hmono Hclaim].
    destruct answer as [[records|record]|e];
      [eapply exclusive_claim; eauto; by intros; eapply Hclaim|..];
      (eapply exclusive_release; [done|done|set_solver|constructor|auto]).
  - rewrite Forall_singleton in Hadm. apply exclusive_other; [|by intros ??? [=]].
    destruct to; try done; rewrite ?Hsame.
    4:{ destruct Hadm as [rest ->]. destruct (held_keys _ _ _ Hex n _ Hn) as [Hnd Hkeys].
      simpl in Hnd, Hkeys. apply NoDup_cons in Hnd as [Hni Hnd]. apply Forall_cons in Hkeys as [Hkey _].
      eapply exclusive_release; [done|done|set_solver|done|]. simpl. intros key' Hk Hin.
      eapply transition_call_blocks; [|done|done]. intros _. split; [done|]. intros ->. set_solver. }
    all: rewrite <-Hsame; eapply exclusive_release;
      [done|done|auto|by eapply (held_keys _ _ _ Hex)|]; intros key' Hk _;
      eapply transition_call_blocks; [|done|done]; done.
Qed.

(** Every running submission is in a phase from which it keeps to the discipline. *)
Definition governed (running : gmap nat (prog unit)) (phases : gmap nat phase) : Prop :=
  forall n p, running !! n = Some p ->
    exists ph, phases !! n = Some ph /\ obeys D ph p (fun _ _ => True).

Lemma submission_obeys p : submission p -> obeys D Fresh p (fun _ _ => True).
Proof.
  intros []; apply obeys_bind; (eapply obeys_mono;
    [apply obeys_run_once || apply obeys_submit_withdraw|done]).
Qed.

Lemma deployed_exclusive d :
  deployed d -> exists phases, exclusive (dp_ledger d) phases (dp_trace d) /\ governed (dp_running d) phases.
Proof.
  induction 1 as [rows|d d' _ (phases & Hex & Hgov) Hstep].
  { exists ∅. split; [|by intros n p]. split; try done; try set_solver.
    intros [] * [=]. }
  destruct Hstep as [n p Hn Hp|n p rows actions p' Hn Hs|n|now key to id answer rows Hto Hcall]; simpl.
  - exists (<[n := Fresh]> phases). split.
    + by apply exclusive_fresh.
    + intros m p' [[<- <-]|[Hne Hm]]%lookup_insert_Some.
      * exists Fresh. rewrite lookup_insert_eq. split; [done|]. by apply submission_obeys.
      * rewrite lookup_insert_ne by done. by apply Hgov.
  - destruct (Hgov n p Hn) as (ph & Hph & Hob).
    destruct (obeys_step _ _ _ _ _ _ _ _ Hob Hs) as [Hadm Hob'].
    exists (<[n := foldl (after D) ph actions]> phases). split; [by eapply exclusive_call|].
    intros m q [[<- <-]|[Hne Hm]]%lookup_insert_Some.
    + rewrite lookup_insert_eq. eauto.
    + rewrite lookup_insert_ne by done. by apply Hgov.
  - exists phases. split; [done|]. intros m q [Hne Hm]%lookup_delete_Some. by apply Hgov.
  - exists phases. split; [|done].
    assert (forall key, blocked (dp_ledger d) key -> blocked rows key) as Hmono.
    { intros k. eapply transition_call_blocks; [|done]. intros ->. naive_solver. }
    destruct Hex. split; eauto.
Qed.

(** C3. No burn is paid twice because it was sent twice: in a deployment of any number of threads and
    processes over one ledger, interleaved call by call, stopped and restarted at any call, with a
    ledger that may fail at any transaction, two requests carry the same burn only if Circle refused
    the earlier one, with a 400 or a 5xx. After any other answer, or none, no request carries it
    again. *)
Theorem sent_again_only_after_refusal d later r2 a2 middle r1 a1 earlier key :
  deployed d -> dp_trace d = later ++ Sent r2 a2 :: middle ++ Sent r1 a1 :: earlier ->
  carries r1 key -> carries r2 key -> refused a1 = true.
Proof.
  intros (phases & Hex & _)%deployed_exclusive Htrace. by apply (exclusive_sent _ _ _ Hex _ _ _ _ _ _ _ _ Htrace).
Qed.
End deployment.
