(* ===== verification/ListenerProps.v ===== *)
(** What a run of the listener asks Circle to release: the one intent that passed validation against
    the discovered note, under two attesters' signatures, for the transaction that the evidence
    names. *)
From S2P Require Import Prelude Text Foreign Ledger AttesterWire AttesterHttp Quorum Evidence Listener Programs SubmitOnce.
Local Open Scope Z_scope.

Section listener_props.
Context `{Hmiden : MidenLib, Hencoding : !EncodingLib, WebLib, HttpLib, EcdsaLib, AttesterJson, EvidenceLib}.

(** ** What is checked *)

(** The intent pays the burner's destination the burned amount less a fee within the ceiling, and
    names no other caller, depositor, token or forwarding. *)
Definition pays (intent : BurnIntent) (burn : DiscoveredBurn) (cfg : ListenerConfig) : Prop :=
  (exists v fee,
     parse_unsigned u128_max (value (spec intent)) = Some v /\
     parse_unsigned u128_max (max_fee intent) = Some fee /\
     0 < v /\ v + fee = amount burn /\ fee <= max_withdrawal_fee cfg) /\
  destination_domain (spec intent) = dest_domain (payload burn) /\
  decode_hex32 (destination_recipient (spec intent)) = Some (dest_recipient (payload burn)) /\
  decode_hex32 (destination_caller (spec intent)) = Some ZERO_BYTES32 /\
  let hook := hook_data (spec intent) in
  remote_domain hook = lc_miden_domain cfg /\
  decode_hex32 (remote_depositor hook) = Some (account_id_bytes32 (depositor burn)) /\
  decode_hex32 (remote_token hook) = Some (account_id_bytes32 (faucet_id cfg)) /\
  eq_ignore_ascii_case (forwarding_contract_address hook) ZERO_HEX20 = true /\
  forwarding_calldata hook = NO_FORWARDING_CALLDATA.

(** Circle prepared one batch of one intent, which pays the burn and has this digest. *)
Definition prepared (cfg : ListenerConfig) (burn : DiscoveredBurn) (intent : BurnIntent)
    (digest : Digest) (history : list Action) : Prop :=
  exists r reply response batch req,
    Sent r (Ok reply) ∈ history /\ rq_payload r = PostPrepare req /\
    build_prepare_request burn cfg = Ok req /\
    from_slice json_prepared response_checked (concat (hp_chunks reply)) = Some response /\
    response_batches response = [batch] /\ burn_intents batch = [intent] /\
    decode_digest 0 (message_hash_to_sign batch) = Ok digest /\ pays intent burn cfg.

(** The node answered the three reads, and one transaction consumed the note after it was created. *)
Definition evidenced (cfg : ListenerConfig) (note_id : NoteId) (id : string) (history : list Action)
    : Prop :=
  exists details block transactions tx,
    NoteRead note_id (Ok {| nr_note_id := note_id; nr_details := Some details |}) ∈ history /\
    NullifierRead (pd_nullifier details)
      (Ok {| nu_nullifier := pd_nullifier details; spent_in_block := Some block |}) ∈ history /\
    TransactionsRead (faucet_id cfg) (Ok transactions) ∈ history /\
    proof_block_num (inclusion_proof details) < block /\
    tx ∈ transactions /\ consumes (faucet_id cfg) (pd_nullifier details) tx = true /\
    block_num tx = block /\ transaction_id_to_hex (transaction_id tx) = id /\
    forall tx', tx' ∈ transactions -> consumes (faucet_id cfg) (pd_nullifier details) tx' = true ->
      tx' = tx.

(** Two different attesters of the allowlist, in ascending order, signed the digest. *)
Definition signed_by_two (cfg : ListenerConfig) (digest : Digest) (texts : list string) : Prop :=
  exists a1 s1 a2 s2,
    texts = [to_hex s1; to_hex s2] /\ bytes_lt a1 a2 /\
    recover_address digest s1 = Some a1 /\ recover_address digest s2 = Some a2 /\
    a1 ∈ attester_allowlist cfg /\ a2 ∈ attester_allowlist cfg.

(** ** Validation *)

Lemma hex32_eq_true s b : hex32_eq s b = true -> decode_hex32 s = Some b.
Proof. unfold hex32_eq. intros. by bool_prop. Qed.

Lemma check_intent_pays batch intent burn cfg u :
  check_intent batch intent burn cfg = Ok u -> pays intent burn cfg.
Proof.
  unfold check_intent, check_max_fee, check_spec, check_hook_data. intros He. inv_ok. bool_prop.
  destruct (parse_unsigned u128_max (value (spec intent))) as [v|] eqn:Hv; [|done]. bool_prop.
  repeat match goal with Hh : hex32_eq _ _ = true |- _ => apply hex32_eq_true in Hh end.
  match goal with Hc : checked_add _ _ _ = Some _ |- _ => apply checked_add_Some in Hc as [Hsum _] end.
  subst. unfold pays. split; [|done]. exists v. eexists. split_and!; try done; lia.
Qed.

Lemma collect_one {E A B} (f : A -> result E B) a bs :
  collect f [a] = Ok bs -> exists b, f a = Ok b /\ bs = [b].
Proof. simpl. intros He. inv_ok. eauto. Qed.

Lemma validate_returned_one response burn cfg validated batch rest intent more :
  validate_returned response burn cfg = Ok validated ->
  response_batches response = batch :: rest -> burn_intents batch = intent :: more ->
  batch_count validated = 1%nat -> length (intent :: more) = 1%nat ->
  exists digest, response_batches response = [batch] /\ burn_intents batch = [intent] /\
    decode_digest 0 (message_hash_to_sign batch) = Ok digest /\ digests validated = [digest] /\
    pays intent burn cfg.
Proof.
  unfold validate_returned, batch_count. intros He Hb Hi Hone Hmore. rewrite Hb in He.
  apply rbind_Ok in He as ([] & _ & He). apply rbind_Ok in He as (ds & Hds & [= <-]). simpl in Hone.
  destruct more; [|done]. apply collect_Ok in Hds. destruct rest as [|batch' rest].
  2:{ apply Forall2_length in Hds. rewrite length_imap, Hone in Hds. done. }
  apply Forall2_cons_inv_l in Hds as (digest & ds' & Hbatch & ->%Forall2_nil_inv_l & ->).
  exists digest. unfold check_batch in Hbatch. rewrite Hi in Hbatch.
  apply rbind_Ok in Hbatch as ([] & _ & Hbatch). apply rbind_Ok in Hbatch as (us & Hus & Hdigest).
  apply collect_one in Hus as ([] & Hint & _). split_and!; try done. by eapply check_intent_pays.
Qed.

(** ** Quorum and gate *)

Lemma check_verifies_Ok digest i sigs u :
  check_verifies digest i sigs = Ok u ->
  Forall (fun c => recover_address digest c.2 = Some c.1) sigs.
Proof.
  revert i; induction sigs as [|[claimed sig] sigs IH]; intros i; simpl; [constructor|].
  intros He. apply rbind_Ok in He as ([] & Hsig%ensure_Ok & He). bool_prop. constructor; [done|eauto].
Qed.

Lemma assemble_quorum_two digest claims quorum :
  assemble_quorum digest claims = Ok quorum ->
  exists a1 s1 a2 s2, claims = [(a1, s1); (a2, s2)] /\ signatures quorum = [s1; s2] /\
    bytes_lt a1 a2 /\ recover_address digest s1 = Some a1 /\ recover_address digest s2 = Some a2.
Proof.
  unfold assemble_quorum. intros He.
  apply rbind_Ok in He as ([] & Hlo%ensure_Ok & He). apply rbind_Ok in He as ([] & Hhi%ensure_Ok & He).
  apply rbind_Ok in He as ([] & Hver%check_verifies_Ok & He). apply rbind_Ok in He as ([] & _ & He).
  apply rbind_Ok in He as ([] & Hasc & [= <-]). unfold list_len, MIN_SIGNATURE_THRESHOLD in *. bool_prop.
  destruct claims as [|[a1 s1] [|[a2 s2] [|]]]; simpl in *; try lia.
  apply rbind_Ok in Hasc as ([] & Hlt%ensure_Ok & _). bool_prop. apply bytes_not_le in Hlt.
  rewrite !Forall_cons in Hver. exists a1, s1, a2, s2. naive_solver.
Qed.

(** A 65-byte signature reads back from the text it is sent as. *)
Lemma decode_signature_to_hex sig : Forall is_byte sig -> decode_signature_hex (to_hex sig) = Some sig.
Proof.
  intros Hb. unfold decode_signature_hex, to_hex. rewrite str_list_str. simpl. by apply hex_decode_chars.
Qed.

Lemma check_signature_Ok allowlist digest batch at_ sig address u :
  Forall is_byte sig -> recover_address digest sig = Some address ->
  check_signature allowlist digest batch at_ (to_hex sig) = Ok u -> address ∈ allowlist.
Proof.
  intros Hb Hrec. unfold check_signature. rewrite decode_signature_to_hex by done. simpl. intros He.
  apply rbind_Ok in He as (sig' & Hsig%ok_or_Ok & He). unfold Signature65_from_bytes in Hsig.
  case_match; simplify_eq. rewrite Hrec in He. simpl in He. apply ensure_Ok in He. by bool_prop.
Qed.

Lemma authorized_signers batch validated cfg digest s1 a1 s2 a2 authorized :
  authorize_submission {| request_batches := [batch] |} validated cfg = Ok authorized ->
  digests validated = [digest] -> wb_burn_signatures batch = [to_hex s1; to_hex s2] ->
  Forall is_byte s1 -> Forall is_byte s2 ->
  recover_address digest s1 = Some a1 -> recover_address digest s2 = Some a2 ->
  authorized = {| into_request := {| request_batches := [batch] |} |} /\
  a1 ∈ attester_allowlist cfg /\ a2 ∈ attester_allowlist cfg.
Proof.
  unfold authorize_submission. intros He Hd Hsigs Hb1 Hb2 Hr1 Hr2. rewrite Hd in He. cbn in He.
  apply rbind_Ok in He as ([] & _ & He). apply rbind_Ok in He as (us & Hus & [= <-]).
  split; [done|]. apply rbind_Ok in Hus as (u & Hu & _). unfold check_batch_signatures in Hu.
  cbn [fst snd] in Hu. rewrite Hsigs in Hu. apply rbind_Ok in Hu as (us' & Hus' & _). cbn in Hus'.
  apply rbind_Ok in Hus' as (u1 & Hu1 & Hus'). apply rbind_Ok in Hus' as (us2 & Hus2 & _).
  apply rbind_Ok in Hus2 as (u2 & Hu2 & _).
  split; [exact (check_signature_Ok _ _ _ _ _ _ _ Hb1 Hr1 Hu1)|exact (check_signature_Ok _ _ _ _ _ _ _ Hb2 Hr2 Hu2)].
Qed.

(** ** Evidence *)

Lemma elem_of_claimed_ids rows claimed id :
  id ∈ claimed_ids rows claimed <-> id ∈ claimed \/ exists tx, tx ∈ rows /\ transaction_id tx = id.
Proof.
  revert claimed; induction rows as [|tx rows IH]; intros claimed; simpl.
  { set_solver. }
  rewrite IH. case_bool_decide; set_solver.
Qed.

Lemma elem_of_filter_bool {A} (f : A -> bool) l a : a ∈ List.filter f l <-> a ∈ l /\ f a = true.
Proof. rewrite !list_elem_of_In. apply filter_In. Qed.

Lemma link_transaction_Ok note_id faucet nullifier create spend transactions package :
  link_transaction note_id faucet nullifier create spend transactions = Ok package ->
  exists tx, tx ∈ transactions /\ consumes faucet nullifier tx = true /\ block_num tx = spend /\
    transaction_id_to_hex (transaction_id tx) = burn_tx_id package /\
    forall tx', tx' ∈ transactions -> consumes faucet nullifier tx' = true -> tx' = tx.
Proof.
  unfold link_transaction. intros He. apply rbind_Ok in He as (id & Hid & He).
  set (consuming := List.filter _ transactions) in Hid.
  assert (claimed_ids consuming [] = [id]) as Hone.
  { destruct (claimed_ids _ _) as [|? [|]]; by simplify_eq/=. }
  assert (forall tx, tx ∈ consuming -> transaction_id tx = id) as Hall.
  { intros tx Htx. assert (transaction_id tx ∈ claimed_ids consuming []) as Hin.
    { apply elem_of_claimed_ids. eauto. }
    rewrite Hone in Hin. set_solver. }
  assert (id ∈ claimed_ids consuming []) as Hin by (rewrite Hone; set_solver).
  apply elem_of_claimed_ids in Hin as [?|(tx & Htx & Htxid)]; [set_solver|].
  set (rows := List.filter _ transactions) in He.
  destruct rows as [|burn_tx rest] eqn:Hrows; [done|].
  apply rbind_Ok in He as ([] & Hsame%ensure_Ok & He). apply rbind_Ok in He as ([] & Hblock%ensure_Ok & [= <-]).
  bool_prop. rewrite forallb_forall in Hsame.
  assert (forall row, row ∈ transactions -> transaction_id row = id -> row = burn_tx) as Hburn.
  { intros row Hr Hrid. assert (row ∈ rows) as Hin.
    { apply elem_of_filter_bool. split; [done|]. by apply bool_decide_eq_true. }
    rewrite Hrows in Hin. apply list_elem_of_In, Hsame in Hin. by bool_prop. }
  apply elem_of_filter_bool in Htx as [Htx Hcons].
  assert (tx = burn_tx) as -> by auto. exists burn_tx. split_and!; try done.
  intros tx' Htx' Hcons'. apply Hburn; [done|]. apply Hall. by apply elem_of_filter_bool.
Qed.

(** ** The history of a run *)

(** Admits every call, but a request for a release only after a history that admits it. *)
Definition history_protocol (allowed : list Action -> WithdrawRequest -> Prop) : Protocol (list Action) :=
  {| may_exchange := fun history r =>
       match rq_payload r with PostWithdraw request => allowed history request | _ => True end;
     may_claim := fun _ _ => True;
     may_move := fun _ _ _ => True;
     after := fun history action => action :: history |}.

Definition extends (history later : list Action) : Prop := exists more, later = more ++ history.
#[export] Instance extends_preorder : PreOrder extends.
Proof.
  split; [by exists []|]. intros h1 h2 h3 [more1 ->] [more2 ->]. exists (more2 ++ more1). by rewrite app_assoc.
Qed.
Lemma extends_cons h a : extends h (a :: h).
Proof. by exists [a]. Qed.
Lemma extends_elem h h' a : extends h h' -> a ∈ h -> a ∈ h'.
Proof. intros [more ->]. set_solver. Qed.
#[local] Hint Resolve extends_cons : quiet.

Lemma history_gentle allowed : gentle (history_protocol allowed) extends.
Proof.
  split; simpl; intros; auto with quiet. split; [|auto with quiet]. by destruct (rq_payload r).
Qed.
#[local] Hint Resolve history_gentle : quiet.

Lemma after_trace_history allowed trace : after_trace (history_protocol allowed) [] trace = trace.
Proof. induction trace as [|a trace IH]; simpl; [done|]. by rewrite IH. Qed.

Section admitting.
Context (allowed : list Action -> WithdrawRequest -> Prop).
Context (Hmono : forall h h' request, extends h h' -> allowed h request -> allowed h' request).
#[local] Abbreviation HP := (history_protocol allowed).

(** Every run only extends the history. *)
Lemma obeys_extends {A} h (p : prog A) Q :
  obeys HP h p Q -> obeys HP h p (fun h' a => Q h' a /\ extends h h').
Proof.
  assert (forall h a (p : prog A), (forall h, obeys HP h p Q -> obeys HP h p (fun h' a => Q h' a /\ extends h h')) ->
    obeys HP (a :: h) p Q -> obeys HP (a :: h) p (fun h' b => Q h' b /\ extends h h')) as Hnext.
  { intros h1 a q IH Hq. eapply obeys_mono; [by apply IH|]. intros h2 b [HQ Hext].
    split; [done|]. etransitivity; [apply extends_cons|exact Hext]. }
  revert h; induction p as [a| |e k IH|d k IH|host k IH|r k IH|keys k IH|key to id k IH|v k IH|id k IH
    |n k IH|f k IH]; intros h; simpl; auto.
  - intros HQ. split; [done|reflexivity].
  - intros [Hg Hk]. split; [exact Hg|]. auto.
  - intros [Hg Hk]. split; [exact Hg|]. auto.
  - intros [Hg Hk]. split; [exact Hg|]. auto.
Qed.

(** A submission of an admitted request makes only admitted calls. *)
Lemma obeys_posting c request left_ attempt h :
  allowed h request ->
  obeys HP h (retry_from (retry c) (attempt_withdraw c request) left_ attempt) (fun _ _ => True).
Proof.
  revert attempt h; induction left_ as [|left_ IH]; intros attempt h Hadm; simpl; apply obeys_bind;
    (eapply obeys_mono; [apply (obeys_extends _ _ (fun _ _ => True))|]).
  1,3: unfold attempt_withdraw, bind_ok; simpl; destruct (build_request _ _ _) as [built|e] eqn:Hb;
    simpl; [|done]; rewrite (build_request_payload _ _ _ _ Hb); split; [done|]; intros answer;
    by destruct (read_reply _ _ _).
  - intros h' [value|e] _; [done|]. by destruct (is_retryable e).
  - intros h' [value|e] [_ Hext]; simpl; [done|]. destruct (is_retryable e); simpl; [|done].
    apply IH. by eapply Hmono.
Qed.

Lemma obeys_submission c authorized h :
  allowed h (into_request authorized) -> obeys HP h (submit_withdraw c authorized) (fun _ _ => True).
Proof.
  intros Hadm. unfold submit_withdraw. destruct (first_duplicate _ _ _); [done|].
  split; [done|]. intros [[records|record]|e]; simpl; try done.
  unfold submit_claimed, with_backoff. apply obeys_bind. eapply obeys_mono.
  { apply obeys_posting. eapply Hmono; [apply extends_cons|done]. }
  intros h1 [[statuses|conflict]|e] _.
  - eapply obeys_mono; [apply (quiet_settle_created HP extends); auto with quiet|done].
  - eapply obeys_mono; [apply (quiet_recover_conflict HP extends); auto with quiet|done].
  - apply obeys_bind_ok. eapply obeys_mono with (Q := fun _ _ => True); [|by intros ? [] _].
    unfold settle_failure, mark_all_reconciliation.
    repeat case_match; apply (obeys_for_each _ (fun _ => True)); try done; by intros.
Qed.
End admitting.

(** ** A run of the listener *)

(** A signer returns signatures of bytes. *)
Definition typed (history : list Action) : Prop :=
  forall v claims, SignatureMade v (Ok claims) ∈ history ->
    Forall (Forall (fun c => Forall is_byte c.2)) claims.

(** What a request for a release is for, from what the run did before it. *)
Definition checked_release (cfg : ListenerConfig) (note : DiscoveredNote) (history : list Action)
    (request : WithdrawRequest) : Prop :=
  exists burn intent digest id texts,
    validate_discovery (dn_record note) cfg = Ok burn /\
    prepared cfg burn intent digest history /\
    evidenced cfg (dn_note_id note) id history /\
    signed_by_two cfg digest texts /\
    request = {| request_batches := [{| wb_burn_intents := [intent]; wb_burn_signatures := texts;
                                        wb_burn_tx_id := id; wb_use_circle_forwarding := false |}] |}.

Lemma prepared_extends cfg burn intent digest h h' :
  extends h h' -> prepared cfg burn intent digest h -> prepared cfg burn intent digest h'.
Proof.
  intros Hext (r & reply & response & batch & req & Hin & Hrest).
  exists r, reply, response, batch, req. split; [by eapply extends_elem|done].
Qed.

Lemma evidenced_extends cfg note_id id h h' :
  extends h h' -> evidenced cfg note_id id h -> evidenced cfg note_id id h'.
Proof.
  intros Hext (details & block & transactions & tx & Hn & Hs & Ht & Hrest).
  exists details, block, transactions, tx. split_and!; try apply Hrest; by eapply extends_elem.
Qed.

Section run.
Context (ctx : RunContext) (note : DiscoveredNote).
#[local] Abbreviation cfg := (rx_config ctx).
Definition release_admitted (history : list Action) (request : WithdrawRequest) : Prop :=
  typed history -> checked_release cfg note history request.
#[local] Abbreviation HP := (history_protocol release_admitted).

Lemma release_admitted_extends h h' request :
  extends h h' -> release_admitted h request -> release_admitted h' request.
Proof.
  intros Hext Hadm Hty. destruct Hadm as (burn & intent & digest & id & texts & Hd & Hp & He & Hrest).
  { intros v claims Hin. eapply Hty. by eapply extends_elem. }
  exists burn, intent, digest, id, texts. split_and!; try apply Hrest; try done.
  - by eapply prepared_extends.
  - by eapply evidenced_extends.
Qed.

Lemma obeys_quiet {A} h (p : prog A) : quiet HP extends p -> obeys HP h p (fun _ _ => True).
Proof. intros Hp. eapply obeys_mono; [apply Hp|done]. Qed.

Lemma collect_chunks_Ok chunks broken limit collected b :
  collect_chunks chunks broken limit collected = Ok b -> b = collected ++ concat chunks.
Proof.
  revert limit collected; induction chunks as [|chunk chunks IH]; intros limit collected; simpl.
  - destruct broken; [done|]. intros [= <-]. by rewrite app_nil_r.
  - intros He. apply rbind_Ok in He as (limit' & _ & ->%IH). by rewrite app_assoc.
Qed.

Lemma read_reply_body c url answer response :
  read_reply c url answer = Ok response ->
  exists reply, answer = Ok reply /\ body response = concat (hp_chunks reply).
Proof.
  unfold read_reply, transport_execute. intros He. apply rbind_Ok in He as (r & He & Hr).
  apply rbind_Ok in Hr as ([] & _ & [= ->]). destruct answer as [reply|]; [|done].
  apply rbind_Ok in He as (reply' & [= <-] & He). apply rbind_Ok in He as ([] & _ & He).
  apply rbind_Ok in He as (b & Hb & [= <-]). apply rbind_Ok in Hb as ([] & _ & ->%collect_chunks_Ok). eauto.
Qed.

(** What Circle prepared was asked for in this run. *)
Lemma obeys_prepare h c req :
  obeys HP h (prepare c req) (fun h' r => forall response, r = Ok response ->
    exists r0 reply, Sent r0 (Ok reply) ∈ h' /\ rq_payload r0 = PostPrepare req /\
      from_slice json_prepared response_checked (concat (hp_chunks reply)) = Some response).
Proof.
  unfold prepare, bind_ok. simpl. destruct (build_request _ _ _) as [built|e] eqn:Hb; simpl; [|done].
  rewrite (build_request_payload _ _ _ _ Hb). split; [done|]. intros answer.
  destruct (read_reply _ _ _) as [response|e] eqn:Hr; simpl; [|done].
  intros response' Hok. apply rbind_Ok in Hok as ([] & _ & Hdec%ok_or_Ok).
  apply read_reply_body in Hr as (reply & -> & Hbody). rewrite Hbody in Hdec.
  exists built, reply. split_and!; [set_solver|by eapply build_request_payload|done].
Qed.

Lemma obeys_evidence h note_id faucet :
  obeys HP h (assemble_evidence note_id faucet) (fun h' r => extends h h' /\
    forall package, r = Ok package -> faucet = faucet_id cfg ->
      evidenced cfg note_id (burn_tx_id package) h').
Proof.
  unfold assemble_evidence, bind_ok. simpl. intros note_answer.
  destruct (let? record := map_err Read note_answer in observe_note note_id record) as [details|e] eqn:Hn;
    simpl; [|split; [apply extends_cons|done]].
  intros spend_answer.
  destruct (let? spend := map_err Read spend_answer in observe_spend note_id details spend) as [block|e] eqn:Hs;
    simpl; [|split; [exists [NullifierRead (pd_nullifier details) spend_answer; NoteRead note_id note_answer]; done|done]].
  intros tx_answer. split.
  { by exists [TransactionsRead faucet tx_answer; NullifierRead (pd_nullifier details) spend_answer;
               NoteRead note_id note_answer]. }
  intros package Ht ->. apply rbind_Ok in Hn as (record & Hn%map_err_Ok & Hobs). subst note_answer.
  apply rbind_Ok in Hobs as ([] & Hid%ensure_Ok & Hdet%ok_or_Ok). bool_prop.
  apply rbind_Ok in Hs as (spend & Hs%map_err_Ok & Hobs). subst spend_answer.
  apply rbind_Ok in Hobs as ([] & Hnull%ensure_Ok & Hobs).
  apply rbind_Ok in Hobs as (block' & Hspent%ok_or_Ok & Hobs).
  apply rbind_Ok in Hobs as ([] & Hlt%ensure_Ok & [= ->]). bool_prop.
  apply rbind_Ok in Ht as (transactions & Ht%map_err_Ok & Hlink). subst tx_answer.
  apply link_transaction_Ok in Hlink as (tx & Htx & Hcons & Hblock & Hhex & Huniq).
  destruct record as [rid rdetails], spend as [sid sblock]. simpl in *. subst.
  exists details, (block_num tx), transactions, tx. split_and!; try done; set_solver.
Qed.

Lemma obeys_run_signed_checked h burn intent validated digest quorum a1 s1 a2 s2 :
  validate_discovery (dn_record note) cfg = Ok burn -> prepared cfg burn intent digest h ->
  digests validated = [digest] -> signatures quorum = [s1; s2] -> bytes_lt a1 a2 ->
  recover_address digest s1 = Some a1 -> recover_address digest s2 = Some a2 ->
  (typed h -> Forall is_byte s1 /\ Forall is_byte s2) ->
  obeys HP h (run_signed ctx (dn_note_id note) intent false validated quorum) (fun _ _ => True).
Proof.
  intros Hburn Hprep Hdig Hsigs Hlt Hr1 Hr2 Hty. unfold run_signed. apply obeys_bind_ok, obeys_lift_err.
  eapply obeys_mono; [apply obeys_evidence|]. intros h1 [package|e] [Hext Hev]; simpl; [|done].
  specialize (Hev package eq_refl eq_refl). unfold bind_ok at 1. simpl.
  unfold build_withdraw_batch. destruct (WithdrawBatch_new _ _ _ _) as [batch|e] eqn:Hbatch; simpl; [|done].
  unfold bind_ok at 1. simpl. unfold build_withdraw_request.
  destruct (WithdrawRequest_new [batch]) as [request|e] eqn:Hreq; simpl; [|done].
  apply rbind_Ok in Hbatch as ([] & _ & Hbatch). apply rbind_Ok in Hbatch as ([] & _ & [= <-]).
  apply rbind_Ok in Hreq as ([] & _ & [= <-]). unfold or_emit.
  destruct (authorize_submission _ _ _) as [authorized|e] eqn:Hauth; [|done].
  apply obeys_bind_ok, obeys_lift_err. eapply obeys_mono.
  - apply (obeys_submission _ release_admitted_extends). intros Hty1.
    destruct Hty as [Hb1 Hb2].
    { intros v claims Hin. eapply Hty1. by eapply extends_elem. }
    rewrite Hsigs in Hauth.
    eapply authorized_signers in Hauth as (-> & Hin1 & Hin2); [|done..].
    exists burn, intent, digest, (burn_tx_id package), [to_hex s1; to_hex s2].
    split_and!; try done; [by eapply prepared_extends|]. by exists a1, s1, a2, s2.
  - intros h2 [outcome|e] _; simpl; [|done]. apply obeys_quiet. auto with quiet.
Qed.

Lemma obeys_run_prepared_checked h burn response r reply req :
  validate_discovery (dn_record note) cfg = Ok burn ->
  Sent r (Ok reply) ∈ h -> rq_payload r = PostPrepare req -> build_prepare_request burn cfg = Ok req ->
  from_slice json_prepared response_checked (concat (hp_chunks reply)) = Some response ->
  obeys HP h (run_prepared ctx (dn_note_id note) burn false response) (fun _ _ => True).
Proof.
  intros Hburn Hin Hpay Hreq Hjson. unfold run_prepared, or_emit.
  destruct (validate_returned _ _ _) as [validated|] eqn:Hval; [|done].
  destruct (negb (batch_count validated =? ONE_BATCH_PER_BURN)%nat) eqn:Hone; [done|].
  destruct (response_batches response) as [|batch rest] eqn:Hbatches; [done|].
  destruct (negb (length (burn_intents batch) =? ONE_INTENT_PER_BURN)%nat) eqn:Hints; [done|].
  destruct (burn_intents batch) as [|intent more] eqn:Hbi; [done|].
  apply negb_false_iff, Nat.eqb_eq in Hone, Hints.
  destruct (validate_returned_one _ _ _ _ _ _ _ _ Hval Hbatches Hbi Hone Hints)
    as (digest & Hb & Hi & Hdigest & Hdigs & Hpays).
  cbn [emit obeys]. apply obeys_bind_ok. simpl. intros answer.
  destruct answer as [claims|e]; simpl; [|done]. destruct (negb _); [done|].
  destruct claims as [|first others]; [done|]. rewrite Hdigs. unfold bind_ok at 1. simpl.
  destruct (assemble_quorum digest first) as [quorum|e] eqn:Hq; [|done]. cbn [emit obeys map_err bind].
  destruct (assemble_quorum_two _ _ _ Hq) as (a1 & s1 & a2 & s2 & -> & Hsigs & Hlt & Hr1 & Hr2).
  eapply (obeys_run_signed_checked _ burn intent validated digest quorum a1 s1 a2 s2); try done.
  - eapply prepared_extends; [apply extends_cons|].
    exists r, reply, response, batch, req. split_and!; done.
  - intros Hty. assert (Forall (fun c => Forall is_byte c.2) [(a1, s1); (a2, s2)]) as Hbytes.
    { specialize (Hty validated _ (list_elem_of_here _ _)). by apply Forall_cons in Hty as [? _]. }
    rewrite !Forall_cons in Hbytes. naive_solver.
Qed.

Lemma obeys_run_once_checked h : obeys HP h (run_once ctx note) (fun _ _ => True).
Proof.
  unfold run_once, or_emit. destruct (validate_discovery _ _) as [burn|] eqn:Hburn; [|done].
  cbn [emit obeys]. unfold bind_ok at 1. simpl.
  destruct (build_prepare_request burn cfg) as [req|e] eqn:Hreq; simpl; [|done].
  apply obeys_bind_ok, obeys_lift_err. eapply obeys_mono; [apply obeys_prepare|].
  intros h1 [response|e] Hresp; simpl; [|done].
  destruct (Hresp response eq_refl) as (r & reply & Hin & Hpay & Hjson).
  assert (Hreq' := Hreq). apply rbind_Ok in Hreq' as (input & Hinput & [= <-]). simpl.
  apply rbind_Ok in Hinput as ([] & _ & [= <-]). simpl.
  by eapply obeys_run_prepared_checked.
Qed.
End run.

(** C4. Whatever Circle, the signer and the node answer, a run of the listener asks Circle to release
    only this: one batch of the one intent Circle prepared for the discovered note, which pays the
    burner's destination the burned amount less a fee within the configured ceiling and nothing
    else; under the signatures of two different attesters of the allowlist, in ascending order, over
    the digest Circle gave for that intent; and for the only faucet transaction the node names as
    having consumed the note, in the block of the spend and after the note's creation. *)
Theorem listener_releases_checked_intent ctx note trace p later r answer request earlier :
  program_trace (run_once ctx note) trace p -> trace = later ++ Sent r answer :: earlier ->
  rq_payload r = PostWithdraw request -> typed earlier ->
  checked_release (rx_config ctx) note earlier request.
Proof.
  intros Hrun Htrace Hpay Hty.
  destruct (trace_obeys _ _ _ _ _ _ (obeys_run_once_checked ctx note []) Hrun) as [_ Hadm].
  specialize (Hadm _ _ _ Htrace). simpl in Hadm. rewrite Hpay, after_trace_history in Hadm. by apply Hadm.
Qed.
End listener_props.
