(* ===== verification/GovernorProps.v ===== *)
(** The rate governor of withdrawal-listener-attester (circle/rate.rs) keeps to both documented rates,
    and makes no caller wait longer than it says. *)
From S2P Require Import Prelude Text Foreign AttesterHttp.
Local Open Scope Z_scope.

(** The turns of every caller, in the order in which the mutex lets them in: the permits granted,
    oldest first, and the governor's state after them. *)
Fixpoint turns (g : RateGovernor) (calls : list (string * Z)) (st : GovernorState)
    : list (string * Z) * GovernorState :=
  match calls with
  | [] => ([], st)
  | (host, now) :: calls =>
      let '(wait, st) := acquire_turn g host now st in
      let '(granted, st) := turns g calls st in
      ((match wait with None => [(host, now)] | Some _ => [] end) ++ granted, st)
  end.

(** The clock never goes back. *)
Definition in_time (from : Z) (calls : list (string * Z)) : Prop :=
  StronglySorted (fun a b => a.2 <= b.2) calls /\ Forall (fun call => from <= call.2) calls.

(** Any [limit + 1] permits in a row span a whole window. *)
Definition spaced (limit : nat) (permits : list Z) : Prop :=
  forall i a b, permits !! i = Some a -> permits !! (i + limit)%nat = Some b -> a + RATE_WINDOW <= b.

(** ** One window *)

(** The window holds all permits but ones that are too old to matter. *)
Definition window_holds (limit now : Z) (permits window : list Z) : Prop :=
  exists old, permits = old ++ window /\ Forall (fun t => t + RATE_WINDOW <= now) old /\
    Forall (fun t => t <= now) window /\
    Z.of_nat (length window) <= limit /\ spaced (Z.to_nat limit) permits.

Lemma expired_iff now t : (RATE_WINDOW <=? duration_since now t) = true <-> t + RATE_WINDOW <= now.
Proof. unfold duration_since, RATE_WINDOW. rewrite Z.leb_le. lia. Qed.

Lemma prune_split window now :
  exists old, window = old ++ prune window now /\ Forall (fun t => t + RATE_WINDOW <= now) old.
Proof.
  induction window as [|t window (old & Heq & Hold)]; simpl; [by exists []|].
  destruct (RATE_WINDOW <=? duration_since now t) eqn:Ht; [|by exists []].
  exists (t :: old). rewrite <-app_comm_cons, <-Heq. split; [done|]. constructor; [by apply expired_iff|done].
Qed.

Lemma window_holds_later limit now now' permits window :
  window_holds limit now permits window -> now <= now' -> window_holds limit now' permits window.
Proof.
  intros (old & Hp & Hold & Hpast & Hrest) Hle. exists old. split_and!; try apply Hrest; try done;
    (eapply Forall_impl; [first [exact Hold|exact Hpast]|]; simpl; lia).
Qed.

Lemma window_holds_prune limit now now' permits window :
  window_holds limit now permits window -> now <= now' ->
  window_holds limit now' permits (prune window now').
Proof.
  intros (old & -> & Hold & Hpast & Hlen & Hsp) Hle. destruct (prune_split window now') as (old' & Heq & Hold').
  exists (old ++ old'). split_and!; try done.
  - by rewrite <-app_assoc, <-Heq.
  - apply Forall_app. split; [|done]. eapply Forall_impl; [exact Hold|]. simpl. lia.
  - rewrite Heq in Hpast. apply Forall_app in Hpast as [_ Hpast].
    eapply Forall_impl; [exact Hpast|]. simpl. lia.
  - rewrite Heq, length_app in Hlen. lia.
Qed.

Lemma window_holds_push limit now permits window :
  window_holds limit now permits window -> Z.of_nat (length window) < limit ->
  window_holds limit now (permits ++ [now]) (window ++ [now]).
Proof.
  intros (old & -> & Hold & Hpast & Hlen & Hsp) Hlt. exists old. split_and!; try done.
  - by rewrite <-app_assoc.
  - apply Forall_app. split; [done|]. constructor; [lia|constructor].
  - rewrite length_app. simpl. lia.
  - intros i a b Ha Hb. apply lookup_app_Some in Hb as [Hb|[Hge Hb]].
    + apply (Hsp i a b); [|done]. apply lookup_app_Some in Ha as [Ha|[Hge _]]; [done|].
      apply lookup_lt_Some in Hb. lia.
    + apply list_lookup_singleton_Some in Hb as [Hi <-]. rewrite length_app in Hge, Hi.
      rewrite <-app_assoc, lookup_app_l in Ha by lia.
      rewrite Forall_lookup in Hold. by eapply Hold.
Qed.

(** A full window says how long until its oldest permit expires, and one permit fewer is then left. *)
Lemma window_wait_enough limit now later window :
  1 <= limit -> Forall (fun t => t <= now) window -> Z.of_nat (length window) <= limit ->
  (forall wait, window_wait window limit now = Some wait -> now + wait <= later) -> now <= later ->
  window_wait (prune window later) limit later = None.
Proof.
  intros Hlim Hpast Hlen Hwait Hle. unfold window_wait in *.
  destruct (prune_split window later) as (old & Heq & _).
  assert (Z.of_nat (length (prune window later)) < limit) as Hlt; [|by apply Z.ltb_lt in Hlt as ->].
  destruct (Z.ltb_spec (Z.of_nat (length window)) limit) as [Hl|Hl].
  { rewrite Heq, length_app in Hl. lia. }
  destruct window as [|oldest rest]; [simpl in Hl; lia|].
  specialize (Hwait _ eq_refl). apply Forall_cons in Hpast as [Hpast _]. unfold saturating_sub, duration_since in Hwait. simpl prune.
  assert ((RATE_WINDOW <=? duration_since later oldest) = true) as -> by (apply expired_iff; lia).
  destruct (prune_split rest later) as (old' & Heq' & _).
  apply (f_equal length) in Heq'. rewrite length_app in Heq'. simpl in Hlen. lia.
Qed.

Lemma window_wait_bound window limit now wait :
  window_wait window limit now = Some wait -> 0 <= wait <= RATE_WINDOW.
Proof.
  unfold window_wait. case_match; [done|]. destruct window; [done|]. intros [= <-].
  unfold saturating_sub, duration_since, RATE_WINDOW. lia.
Qed.

(** ** The governor *)

Section governor.
Context (g : RateGovernor) (Hip : 1 <= qps_per_ip g) (Hglobal : 1 <= qps_global g).

Definition host_permits (host : string) (granted : list (string * Z)) : list Z :=
  (filter (fun permit => permit.1 = host) granted).*2.

Definition governs (now : Z) (granted : list (string * Z)) (st : GovernorState) : Prop :=
  window_holds (qps_global g) now granted.*2 (gv_global st) /\
  forall host, window_holds (qps_per_ip g) now (host_permits host granted)
                 (default [] (gv_per_host st !! host)).

Lemma host_permits_other host host' now granted :
  host <> host' -> host_permits host' (granted ++ [(host, now)]) = host_permits host' granted.
Proof.
  intros Hne. unfold host_permits. rewrite filter_app, filter_cons_False by done. simpl.
  by rewrite app_nil_r.
Qed.
Lemma host_permits_same host now granted :
  host_permits host (granted ++ [(host, now)]) = host_permits host granted ++ [now].
Proof.
  unfold host_permits. rewrite filter_app, filter_cons_True by done. by rewrite fmap_app.
Qed.

Lemma option_max_None a b : option_max a b = None <-> a = None /\ b = None.
Proof. destruct a, b; simpl; naive_solver. Qed.
Lemma option_max_Some a b w :
  option_max a b = Some w ->
  (forall x, a = Some x -> x <= w) /\ (forall x, b = Some x -> x <= w) /\ (a = Some w \/ b = Some w).
Proof.
  destruct a as [x|], b as [y|]; simpl; intros [= <-]; try (split_and!; [naive_solver lia..|]; auto).
  destruct (Z.max_spec x y) as [[_ ->]|[_ ->]]; auto.
Qed.
Lemma window_wait_None window limit now :
  1 <= limit -> window_wait window limit now = None -> Z.of_nat (length window) < limit.
Proof.
  intros Hlim. unfold window_wait. destruct (Z.ltb_spec (Z.of_nat (length window)) limit); [done|].
  destruct window; [simpl in *; lia|done].
Qed.

Lemma governs_turn now now' host granted st wait st' :
  governs now granted st -> now <= now' -> acquire_turn g host now' st = (wait, st') ->
  governs now' (granted ++ match wait with None => [(host, now')] | Some _ => [] end) st'.
Proof.
  intros [Hg Hh] Hle. unfold acquire_turn.
  pose proof (window_holds_prune _ _ _ _ _ Hg Hle) as Hg'.
  pose proof (fun h => window_holds_prune _ _ _ _ _ (Hh h) Hle) as Hh'.
  assert (forall h, window_holds (qps_per_ip g) now' (host_permits h granted) (default [] (gv_per_host st !! h)))
    as Hsame.
  { intros h. by eapply window_holds_later. }
  destruct (option_max _ _) as [w|] eqn:Hmax; intros [= <- <-].
  - rewrite app_nil_r. split; [done|]. intros h. simpl.
    destruct (decide (h = host)) as [->|]; [by rewrite lookup_insert_eq|by rewrite lookup_insert_ne].
  - apply option_max_None in Hmax as [Hw1 Hw2].
    apply window_wait_None in Hw1, Hw2; [|done..]. split; simpl.
    + rewrite fmap_app. by apply window_holds_push.
    + intros h. destruct (decide (h = host)) as [->|Hne].
      * rewrite lookup_insert_eq, host_permits_same. simpl. by apply window_holds_push.
      * by rewrite lookup_insert_ne, host_permits_other.
Qed.

Lemma governs_turns calls now granted0 st granted st' :
  governs now granted0 st -> in_time now calls -> turns g calls st = (granted, st') ->
  exists now', (forall call, call ∈ calls -> call.2 <= now') /\ now <= now' /\
    (now' = now \/ exists call, call ∈ calls /\ now' = call.2) /\
    governs now' (granted0 ++ granted) st'.
Proof.
  revert now granted0 st granted; induction calls as [|[host at_] calls IH]; intros now granted0 st granted Hgov
    [Hsort Hfrom]; simpl.
  { intros [= <- <-]. exists now. rewrite app_nil_r. split_and!; auto; [set_solver|lia]. }
  destruct (acquire_turn g host at_ st) as [wait st1] eqn:Hturn.
  destruct (turns g calls st1) as [rest st2] eqn:Hrest. intros [= <- <-].
  apply Forall_cons in Hfrom as [Hat Hfrom]. simpl in Hat. inversion Hsort as [|? ? Hs Hall]; subst.
  eapply governs_turn in Hgov; [|exact Hat|exact Hturn].
  destruct (IH at_ _ _ _ Hgov (conj Hs Hall) Hrest) as (now' & Hle & Hat' & Hor & Hgov').
  exists now'. rewrite app_assoc. split_and!; [|lia| |done].
  - intros call [->|Hin]%elem_of_cons; [done|auto].
  - right. destruct Hor as [->|(call & ? & ->)]; [exists (host, at_)|exists call]; split; set_solver.
Qed.

Lemma governs_start now : governs now [] GovernorState_default.
Proof.
  assert (forall limit, 1 <= limit -> window_holds limit now [] []) as Hempty.
  { intros limit Hlim. exists []. split_and!; try done; [constructor..|simpl; lia]. }
  split; [by apply Hempty|]. intros host. simpl. rewrite lookup_empty. by apply Hempty.
Qed.
End governor.

(** C33. Whoever asks, in whatever order: of the permits the governor grants, any 36 in a row span at
    least a second, and any 6 in a row for one host do, with the documented rates (in general, one
    more than each rate). A caller told to wait is told at most a second, and is granted the permit
    at its next turn if nobody took one meanwhile. *)
Theorem governor_keeps_rates per_ip global calls granted st :
  let g := RateGovernor_new per_ip global in
  in_time 0 calls -> turns g calls GovernorState_default = (granted, st) ->
  spaced (Z.to_nat (qps_global g)) granted.*2 /\
  (forall host, spaced (Z.to_nat (qps_per_ip g)) (host_permits host granted)) /\
  forall host now wait st', (forall call, call ∈ calls -> call.2 <= now) -> 0 <= now ->
    acquire_turn g host now st = (Some wait, st') ->
    0 < wait <= RATE_WINDOW /\
    forall later, now + wait <= later -> (acquire_turn g host later st').1 = None.
Proof.
  intros g Htime Hturns.
  assert (1 <= qps_per_ip g /\ 1 <= qps_global g) as [Hip Hgl] by (simpl; lia).
  destruct (governs_turns g Hip Hgl calls 0 [] _ _ _ (governs_start g Hip Hgl 0) Htime Hturns)
    as (now' & Hlast & Hpos & Hor & [Hg Hh]). simpl in Hg, Hh.
  split; [by destruct Hg as (? & ? & ? & ? & ? & ?)|].
  split; [intros host; by destruct (Hh host) as (? & ? & ? & ? & ? & ?)|].
  intros host now wait st' Hnow H0 Hturn.
  assert (now' <= now) as Hle by (destruct Hor as [->|(call & Hc & ->)]; [done|auto]).
  destruct (window_holds_prune _ _ now _ _ Hg Hle) as (_ & _ & _ & Hpg & Hlg & _).
  destruct (window_holds_prune _ _ now _ _ (Hh host) Hle) as (_ & _ & _ & Hph & Hlh & _).
  unfold acquire_turn in Hturn. set (window := prune (default [] _) now) in *.
  set (global_ := prune (gv_global st) now) in *.
  destruct (option_max _ _) as [w|] eqn:Hmax; [|done]. injection Hturn as <- <-.
  assert (w <= RATE_WINDOW) as Hw.
  { destruct (option_max_Some _ _ _ Hmax) as (_ & _ & [Ha|Ha]); apply window_wait_bound in Ha; lia. }
  split; [unfold MIN_GOVERNOR_SLEEP, RATE_WINDOW in *; lia|].
  intros later Hlater. unfold acquire_turn. simpl gv_global. simpl gv_per_host. rewrite lookup_insert_eq.
  assert (window_wait (prune window later) (qps_per_ip g) later = None /\
          window_wait (prune global_ later) (qps_global g) later = None) as [Hn1 Hn2].
  { destruct (option_max_Some _ _ _ Hmax) as (Hwh & Hwg & _).
    assert (now <= later) by (unfold MIN_GOVERNOR_SLEEP in *; lia).
    split; eapply (window_wait_enough _ now); try done; intros x Hx.
    - specialize (Hwh _ Hx). lia.
    - specialize (Hwg _ Hx). lia. }
  change (default [] (Some window)) with window. by rewrite Hn1, Hn2.
Qed.
