(* ===== verification/SettleProps.v ===== *)
(** A submission that claimed its burns and returned has recorded an outcome for each, unless the
    ledger refused a record. *)
From S2P Require Import Prelude Text Foreign Ledger AttesterWire AttesterHttp Quorum Evidence Listener Programs SubmitOnce ListenerProps.
Local Open Scope Z_scope.

Section settle_props.
Context `{Hmiden : MidenLib, Hencoding : !EncodingLib, WebLib, HttpLib, EcdsaLib, AttesterJson, EvidenceLib}.
#[local] Abbreviation PH := (history_protocol (fun _ _ => True)).

(** The burn left [Pending] for one of the states [T]. *)
Definition recorded (T : SubmissionStatus -> Prop) (history : list Action) (key : BurnKey) : Prop :=
  exists to id record, Moved key to id (Ok record) ∈ history /\ T to.
(** The ledger refused to record an outcome, with this error. *)
Definition ledger_failed (history : list Action) (e : LedgerError) : Prop :=
  exists key to id, Moved key to id (Err e) ∈ history.

(** States that keep a burn from being claimed again. *)
Definition closes (to : SubmissionStatus) : Prop := to <> Pending /\ to <> Failed.

Lemma recorded_extends T h h' key : extends h h' -> recorded T h key -> recorded T h' key.
Proof. intros Hext (to & id & record & Hin & HT). exists to, id, record. eauto using extends_elem. Qed.

(** A program that records the burns [K] in states [T], or reports that the ledger refused to. *)
Definition marks (T : SubmissionStatus -> Prop) (K : BurnKey -> Prop) (p : prog (result SubmitError unit))
    : Prop :=
  forall h, obeys PH h p (fun h' r => extends h h' /\
    match r with
    | Ok _ => forall key, K key -> recorded T h' key
    | Err (SubmitLedger e) => ledger_failed h' e
    | Err _ => False
    end).

Lemma marks_weaken T (K K' : BurnKey -> Prop) p :
  marks T K p -> (forall key, K' key -> K key) -> marks T K' p.
Proof.
  intros Hp HK h. eapply obeys_mono; [apply Hp|]. intros h' [u|e] [Hext Hr]; (split; [done|]); auto.
Qed.

Lemma marks_nothing T : marks T (fun _ => False) (Ret (Ok tt)).
Proof. intros h. by split; [reflexivity|]. Qed.

Lemma marks_transit (T : SubmissionStatus -> Prop) key to id : T to -> marks T (eq key) (transit key to id).
Proof.
  intros HT h. split; [done|]. intros [record|e]; simpl; (split; [apply extends_cons|]).
  - intros ? <-. exists to, id, record. split; [set_solver|done].
  - exists key, to, id. set_solver.
Qed.

Lemma marks_seq T K1 K2 p q :
  marks T K1 p -> marks T K2 q -> marks T (fun key => K1 key \/ K2 key) (bind_ok p (fun _ => q)).
Proof.
  intros Hp Hq h. apply obeys_bind_ok. eapply obeys_mono; [apply Hp|].
  intros h1 [[]|e] [Hext Hr]; [|by split].
  eapply obeys_mono; [apply Hq|]. intros h2 [[]|e] [Hext2 Hr2]; (split; [by transitivity h1|]); [|done].
  intros key [HK|HK]; [eapply recorded_extends; eauto|auto].
Qed.

Lemma marks_for_each T {A} (K : A -> BurnKey -> Prop) (f : A -> prog (result SubmitError unit)) l :
  (forall a, a ∈ l -> marks T (K a) (f a)) -> marks T (fun key => exists a, a ∈ l /\ K a key) (for_each f l).
Proof.
  induction l as [|a l IH]; intros Hf; simpl.
  - eapply marks_weaken; [apply marks_nothing|]. set_solver.
  - eapply marks_weaken; [apply (marks_seq T (K a) (fun key => exists a, a ∈ l /\ K a key))|].
    + apply Hf. set_solver.
    + apply IH. intros; apply Hf; set_solver.
    + intros key (b & [->|Hb]%elem_of_cons & HK); eauto.
Qed.

Lemma marks_all keys : marks closes (fun key => key ∈ keys) (mark_all_reconciliation keys).
Proof.
  eapply marks_weaken; [apply (marks_for_each closes eq); intros; by apply marks_transit|].
  simpl. intros key Hk. by exists key.
Qed.

Lemma marks_failures keys : marks (eq Failed) (fun key => key ∈ keys) (for_each record_failure keys).
Proof.
  eapply marks_weaken; [apply (marks_for_each (eq Failed) eq); intros; by apply marks_transit|].
  simpl. intros key Hk. by exists key.
Qed.

Definition other_than (keys : list BurnKey) (at_ : nat) (key : BurnKey) : Prop :=
  exists i, keys !! i = Some key /\ i <> at_.

Lemma marks_others keys at_ : marks closes (other_than keys at_) (block_others keys at_).
Proof.
  eapply marks_weaken.
  - apply (marks_for_each closes (fun ik k => ik.1 <> at_ /\ k = ik.2)). intros [i k] _. simpl.
    destruct (Nat.eqb_spec i at_) as [->|Hne].
    + eapply marks_weaken; [apply marks_nothing|]. naive_solver.
    + eapply marks_weaken; [by apply marks_transit|]. naive_solver.
  - simpl. intros k (i & Hi & Hne). exists (i, k). split; [|done].
    apply list_elem_of_lookup. exists i. by rewrite list_lookup_imap, Hi.
Qed.

Lemma at_or_other keys at_ key0 key :
  keys !! at_ = Some key0 -> key ∈ keys -> key0 = key \/ other_than keys at_ key.
Proof.
  intros Hat [i Hi]%list_elem_of_lookup. destruct (decide (i = at_)) as [->|Hne]; [left; congruence|].
  right. by exists i.
Qed.

Lemma marks_binding keys at_ id :
  is_Some (keys !! at_) -> marks closes (fun key => key ∈ keys) (block_binding_id_to keys at_ id).
Proof.
  intros [key Hat]. unfold block_binding_id_to. rewrite Hat.
  eapply marks_weaken; [apply marks_seq; [by apply marks_transit|apply marks_others]|].
  simpl. intros k Hk. by eapply at_or_other.
Qed.

(** ** A submission *)

(** How a submission that claimed [keys] may end. *)
Definition settled_with (keys : list BurnKey) (history : list Action)
    (r : result SubmitError SubmitOutcome) : Prop :=
  (exists e, r = Err (SubmitLedger e) /\ ledger_failed history e) \/
  (forall key, key ∈ keys -> recorded closes history key) \/
  r = Err (SubmitCircle (Http BAD_REQUEST)) /\ forall key, key ∈ keys -> recorded (eq Failed) history key.

Lemma settles_marks keys p r :
  marks closes (fun key => key ∈ keys) p ->
  forall h, obeys PH h (bind_ok p (fun _ => Ret r)) (settled_with keys).
Proof.
  intros Hp h. apply obeys_bind_ok. eapply obeys_mono; [apply Hp|].
  intros h1 [[]|e] [_ Hr]; [by right; left|]. left. destruct e as [|e|]; try done. by exists e.
Qed.

Lemma settles_two keys K1 K2 p q r :
  marks closes K1 p -> marks closes K2 q -> (forall key, key ∈ keys -> K1 key \/ K2 key) ->
  forall h, obeys PH h (bind_ok p (fun _ => bind_ok q (fun _ => Ret r))) (settled_with keys).
Proof.
  intros Hp Hq HK h. apply obeys_bind_ok. eapply obeys_mono; [apply Hp|].
  intros h1 [[]|e] [Hext1 Hr1]; [|left; destruct e as [|e|]; try done; by exists e].
  apply obeys_bind_ok. eapply obeys_mono; [apply Hq|].
  intros h2 [[]|e] [Hext2 Hr2]; [|left; destruct e as [|e|]; try done; by exists e].
  right; left. intros key [Hk|Hk]%HK; [eapply recorded_extends; eauto|auto].
Qed.

Lemma position_from_bound i burns echoed at_ :
  position_from i burns echoed = Some at_ -> (i <= at_ < i + length burns)%nat.
Proof.
  revert i; induction burns as [|burn burns IH]; intros i; simpl; [done|].
  case_match; [intros [= ->]; lia|]. intros He%IH. lia.
Qed.

Lemma settles_created keys burns statuses h :
  length keys = length burns -> obeys PH h (settle_created keys burns statuses) (settled_with keys).
Proof.
  intros Hlen. unfold settle_created. destruct (stray_status _ _); [apply settles_marks, marks_all|].
  destruct (pair_statuses burns statuses) as [paired|burn] eqn:Hp; [|apply settles_marks, marks_all].
  apply settles_marks. eapply marks_weaken.
  - apply (marks_for_each closes (fun ks k => k = ks.1)). intros [k s] _. simpl.
    eapply marks_weaken; [by apply marks_transit|]. naive_solver.
  - simpl. intros k [i Hi]%list_elem_of_lookup. apply collect_Ok, Forall2_length in Hp.
    destruct (lookup_lt_is_Some_2 paired i) as [s Hs].
    { rewrite <-Hp, <-Hlen. by eapply lookup_lt_Some. }
    exists (k, s). split; [|done]. apply list_elem_of_lookup. exists i. apply lookup_zip_with_Some. eauto.
Qed.

Lemma settles_conflict c keys burns conflict h :
  length keys = length burns -> obeys PH h (recover_conflict c keys burns conflict) (settled_with keys).
Proof.
  intros Hlen. unfold recover_conflict.
  destruct (position_of _ _) as [at_|] eqn:Hpos; [|apply settles_marks, marks_all].
  apply position_from_bound in Hpos. assert (is_Some (keys !! at_)) as Hat by (apply lookup_lt_is_Some_2; lia).
  destruct (cf_withdrawal_id _) as [id|]; [|apply settles_marks, marks_all].
  apply obeys_bind. eapply obeys_mono; [apply (quiet_poll_status PH extends); auto with quiet|].
  apply history_gentle.
  intros h1 [found|e] _; [|by apply settles_marks, marks_binding].
  destruct Hat as [key Hat]. rewrite Hat. destruct (burns !! at_) as [burn|]; [|done].
  case_match; [apply settles_marks, marks_binding; by rewrite Hat|].
  eapply settles_two; [|apply marks_others|simpl; intros k Hk; by eapply at_or_other].
  case_match; by apply marks_transit.
Qed.

Lemma settles_claimed c request h :
  obeys PH h (submit_claimed c request) (settled_with (request_keys request)).
Proof.
  assert (length (request_keys request) = length (request_burns request)) as Hlen
    by (unfold request_keys; by rewrite length_fmap).
  unfold submit_claimed. apply obeys_bind. eapply obeys_mono.
  { unfold with_backoff. by apply (obeys_posting (fun _ _ => True)). }
  intros h1 [[statuses|conflict]|e] _.
  - by apply settles_created.
  - by apply settles_conflict.
  - unfold settle_failure. destruct e; try (apply settles_marks, marks_all).
    destruct (Z.eqb_spec status BAD_REQUEST) as [->|]; [|apply settles_marks, marks_all].
    apply obeys_bind_ok. eapply obeys_mono; [apply marks_failures|].
    intros h2 [[]|e] [_ Hr]; [by right; right|]. left. destruct e as [|e|]; try done. by exists e.
Qed.

(** C16. A submission that claimed its burns and returned has recorded what became of each of them:
    submitted, finalized or to be reconciled; or all failed, and then it returns Circle's 400. The one exception is a ledger that refused a record: the submission
    then returns that ledger error. *)
Theorem submission_settles_every_burn c authorized trace r records :
  program_trace (submit_withdraw c authorized) trace (Ret r) ->
  ClaimMade (request_keys (into_request authorized)) (Ok (Claimed records)) ∈ trace ->
  settled_with (request_keys (into_request authorized)) trace r.
Proof.
  intros Hrun Hclaim.
  set (Q := fun (h : list Action) r =>
    ClaimMade (request_keys (into_request authorized)) (Ok (Claimed records)) ∈ h ->
    settled_with (request_keys (into_request authorized)) h r).
  assert (obeys PH [] (submit_withdraw c authorized) Q) as Hob.
  { unfold submit_withdraw, Q. destruct (first_duplicate _ _ _); [by intros ?%not_elem_of_nil|].
    split; [done|]. intros [[records'|record]|e]; simpl.
    - eapply obeys_mono; [apply settles_claimed|]. by intros h a Hs _.
    - intros [[=]|?%not_elem_of_nil]%elem_of_cons; done.
    - intros [[=]|?%not_elem_of_nil]%elem_of_cons; done. }
  destruct (trace_obeys _ _ _ _ _ _ Hob Hrun) as [HQ _]. rewrite after_trace_history in HQ. by apply HQ.
Qed.
End settle_props.
