(* ===== verification/RelaySample.v ===== *)
(** A small deployment of the deposit relayer: a feed of two deposits served one to a page, a faucet,
    a node and a progress file, where the laws the properties rely on hold. *)
From S2P Require Import Prelude Text Telemetry Foreign Wire Feed Mint Io MidenNode Relayer.
From S2P Require Import RelayerFacts RelayerScan RelayerProps MidenProps Sample.
From stdpp Require Import countable.
From Stdlib Require Import Ascii.
Local Open Scope Z_scope.

(** ** JSON text: braces and the bits of an encoding *)

Fixpoint to_tree (v : Value) : gen_tree string :=
  match v with
  | VNull => GenNode 0 []
  | VBool b => GenNode (if b then 1 else 2) []
  | VNumber s => GenNode 3 [GenLeaf s]
  | VString s => GenNode 4 [GenLeaf s]
  | VArray l => GenNode 5 (map to_tree l)
  | VObject m => GenNode 6 (map (fun kv => GenNode 0 [GenLeaf kv.1; to_tree kv.2]) m)
  end.
Definition key_of (t : gen_tree string) : string := match t with GenLeaf s => s | _ => ""%string end.
Fixpoint of_tree (t : gen_tree string) : Value :=
  match t with
  | GenNode 1 _ => VBool true
  | GenNode 2 _ => VBool false
  | GenNode 3 (GenLeaf s :: _) => VNumber s
  | GenNode 4 (GenLeaf s :: _) => VString s
  | GenNode 5 l => VArray (map of_tree l)
  | GenNode 6 l =>
      VObject (map (fun t => match t with
                             | GenNode _ [k; v] => (key_of k, of_tree v)
                             | _ => (""%string, VNull)
                             end) l)
  | _ => VNull
  end.

Fixpoint of_to_tree (v : Value) : of_tree (to_tree v) = v.
Proof.
  destruct v as [|[]|s|s|l|m]; simpl; try reflexivity; f_equal.
  - induction l as [|x l IH]; simpl; [reflexivity|]. by rewrite of_to_tree, IH.
  - induction m as [|[k x] m IH]; simpl; [reflexivity|]. by rewrite of_to_tree, IH.
Qed.

Fixpoint bits (p : positive) : list ascii :=
  match p with xH => [] | xO p => "0"%char :: bits p | xI p => "1"%char :: bits p end.
Fixpoint of_bits (l : list ascii) : positive :=
  match l with
  | [] => xH
  | a :: l => if bool_decide (a = "0"%char) then xO (of_bits l) else xI (of_bits l)
  end.
Lemma of_bits_bits p : of_bits (bits p) = p.
Proof. induction p as [p IH|p IH|]; simpl; by rewrite ?IH. Qed.

#[export] Instance sample_state_json : StateJson := {|
  json_pretty := fun v => list_str ("{"%char :: "}"%char :: bits (encode (to_tree v)));
  json_raw := fun s =>
    match str_list s with
    | _ :: _ :: l => of_tree <$> decode (of_bits l)
    | _ => None
    end;
|}.
#[export] Instance sample_state_laws : StateJsonLaws.
Proof.
  split; intros v; change (json_pretty v) with (list_str ("{"%char :: "}"%char :: bits (encode (to_tree v)))).
  - unfold json_raw. cbn [sample_state_json]. rewrite str_list_str, of_bits_bits, decode_encode.
    cbn [fmap option_fmap option_map]. by rewrite of_to_tree.
  - unfold is_blank. rewrite str_list_str. generalize (bits (encode (to_tree v))). intros l.
    cbn [chars foldr]. fold (chars l). destruct (chars l) as [|[|b c] cs]; [done|done|].
    by destruct (is_continuation b).
Qed.

(** ** The feed *)

Definition sample_entry (n : Z) : Value :=
  VObject [("payload"%string, VString (to_hex [n]));
           ("messageHash"%string, VString (to_hex (repeat n 32)));
           ("attestation"%string, VString (to_hex (repeat 0 65)))].
(** An entry whose payload is no deposit intent. *)
Definition sample_feed : list Value := [sample_entry 3; sample_entry 0; sample_entry 2].
(** A cursor says in unary how many entries are newer. *)
Definition cursor_of (n : nat) : CircleCursor := list_str (repeat "a"%char n).
Definition cursor_index (c : CircleCursor) : nat := length (str_list c).
Definition sample_older (c : CircleCursor) : list Value := drop (cursor_index c) sample_feed.

Lemma cursor_index_of n : cursor_index (cursor_of n) = n.
Proof. unfold cursor_index, cursor_of. by rewrite str_list_str, repeat_length. Qed.

#[export] Instance sample_feed_lib : FeedLib := {|
  json_list_response := fun b =>
    match b with [n] => Some (take 1 (drop (Z.to_nat n) sample_feed)) | _ => None end;
  attestation_error := fun v => "not an attestation"%string;
  json_compact := json_pretty;
  parse_with_rel := fun header => Some [("next"%string, [("pageAfter"%string, header)])];
  feed_url_path := fun u => ""%string;
  feed_url_at := fun u path => ""%string;
  feed_url_append := fun u key value => if bool_decide (key = "pageAfter"%string) then value else u;
|}.

#[export] Instance sample_mint : MintLib := {|
  PublicKey := bytes;
  DepositIntent := bytes;
  MintNote := bytes;
  MidenNote := bytes;
  Rng := Z;
  public_key_read := Some;
  public_key_commitment := fun k => k;
  deposit_intent := fun p => if bool_decide (p = [0]) then None else Some p;
  draw_serial := fun rng => ([rng], rng + 1);
  mint_note := fun sender target domain intent signature key serial => Some intent;
  mint_nonce := fun n => n;
  note_of_mint := fun n => n;
|}.

Record RelayScript := {
  rs_now : Z;
  rs_minted : list bytes;
  rs_submits : list (result RelayFailure bytes);
  rs_replaces : list bool;
  rs_cancels : list bool;
}.
Definition relay_script_eta (now : Z) (w : RelayScript) : RelayScript :=
  {| rs_now := now; rs_minted := rs_minted w; rs_submits := rs_submits w;
     rs_replaces := rs_replaces w; rs_cancels := rs_cancels w |}.

#[export] Instance sample_miden_client : MidenClient RelayScript := {|
  mc_retain_unminted := fun nonces w =>
    (Ok (List.filter (fun n => bool_decide (n ∉ rs_minted w)) nonces), w);
  mc_submit_notes := fun notes w =>
    let '(r, l) := pop (rs_submits w) (Ok [1]) in
    (r, {| rs_now := rs_now w; rs_minted := rs_minted w; rs_submits := l;
           rs_replaces := rs_replaces w; rs_cancels := rs_cancels w |});
|}.
#[export] Instance sample_relay_world : RelayWorld RelayScript := {|
  feed_get := fun url w =>
    let n := cursor_index url in
    (FeedAnswered 200
       (if bool_decide (drop (S n) sample_feed = []) then None else Some (Some (cursor_of (S n))))
       [Some [Z.of_nat n]], w);
  fs_reads := fun w => (true, w);
  fs_replaces := fun w =>
    let '(r, l) := pop (rs_replaces w) true in
    (r, {| rs_now := rs_now w; rs_minted := rs_minted w; rs_submits := rs_submits w;
           rs_replaces := l; rs_cancels := rs_cancels w |});
  instant_now := fun w => (rs_now w, relay_script_eta (rs_now w + 1000000000) w);
  relay_cancelled := fun w =>
    let '(r, l) := pop (rs_cancels w) false in
    (r, {| rs_now := rs_now w; rs_minted := rs_minted w; rs_submits := rs_submits w;
           rs_replaces := rs_replaces w; rs_cancels := l |});
  relay_pause := fun d w => (false, relay_script_eta (rs_now w + d) w);
|}.

Definition sample_feed_at (w : RelayScript) : list Value := sample_feed.

Lemma sample_grows : feed_grows sample_feed_at.
Proof. split; intros; intros w; unfold grew, sample_feed_at; reflexivity. Qed.

Lemma sample_page_url client domain resume :
  page_url client domain resume = default ""%string resume.
Proof. by destruct resume. Qed.

Lemma sample_below w resume :
  below sample_feed_at sample_older w resume = drop (cursor_index (default ""%string resume)) sample_feed.
Proof. by destruct resume. Qed.

Definition sample_next (n : nat) : option CircleCursor :=
  if bool_decide (drop (S n) sample_feed = []) then None else Some (cursor_of (S n)).

(** What the feed answers at a cursor. *)
Lemma sample_decode n :
  Page_decode [Z.of_nat n] (sample_next n) =
  Ok {| page_entries := decode_entries 1 (take 1 (drop n sample_feed)); page_next := sample_next n |}.
Proof.
  unfold Page_decode. cbn [json_list_response sample_feed_lib]. rewrite Nat2Z.id.
  generalize (take 1 (drop n sample_feed)). intros values. unfold sample_next.
  by destruct (bool_decide _).
Qed.

Lemma sample_page client domain resume w reply w' page :
  feed_get (page_url client domain resume) w = (reply, w') -> read_page client reply = Ok page ->
  page = {| page_entries :=
              decode_entries 1 (take 1 (drop (cursor_index (default ""%string resume)) sample_feed));
            page_next := sample_next (cursor_index (default ""%string resume)) |}.
Proof.
  rewrite sample_page_url. cbn [feed_get sample_relay_world].
  generalize (cursor_index (default ""%string resume)). intros n [= <- _] Hr.
  pose proof (sample_decode n) as Hd. unfold sample_next in *. unfold read_page in Hr.
  destruct (bool_decide _); inv_ok; simplify_eq;
    match goal with E : read_page_body _ _ = Ok _ |- _ => injection E as <- end; congruence.
Qed.

Lemma drop_next {A} n (l : list A) : drop n l = take 1 (drop n l) ++ drop (S n) l.
Proof. rewrite <-(take_drop 1 (drop n l)) at 1. by rewrite drop_drop, Nat.add_1_r. Qed.

Lemma sample_honest : honest_feed sample_feed_at sample_older.
Proof.
  split.
  - exact sample_grows.
  - intros w. apply (bool_decide_unpack _). vm_compute. reflexivity.
  - intros client domain resume w reply w' page Hget Hread.
    rewrite (sample_page _ _ _ _ _ _ _ Hget Hread), sample_below.
    set (n := cursor_index _). exists (take 1 (drop n sample_feed)), (drop (S n) sample_feed).
    split; [apply drop_next|]. split; [done|]. simpl. unfold sample_next, sample_older.
    case_bool_decide; [done|]. by rewrite cursor_index_of.
Qed.

Lemma sample_pages : pages_not_empty.
Proof.
  intros client domain resume w reply w' page cursor Hget Hread.
  rewrite (sample_page _ _ _ _ _ _ _ Hget Hread). set (n := cursor_index _). simpl. unfold sample_next.
  case_bool_decide as Hd; [done|]. intros _ He. apply Hd. rewrite <-Nat.add_1_r, <-drop_drop.
  by destruct (drop n sample_feed).
Qed.

(** ** A deployment *)

Definition relay_config : Config := {|
  rc_circle_url := ""; rc_page_size := 10; rc_request_timeout := 1000000000;
  rc_poll_interval := 5000000000; rc_remote_domain := 10001; rc_miden_node_url := "https://node";
  rc_prover_url := None; rc_prover_timeout := 1; rc_expiration_delta := 10;
  rc_faucet_account_id := [7]; rc_relayer_account_id := [8]; rc_attester_public_key := [2] |}.
Definition relay_script (submits : list (result RelayFailure bytes)) (cancels : list bool) : RelayScript :=
  {| rs_now := 0; rs_minted := [[2]]; rs_submits := submits; rs_replaces := []; rs_cancels := cancels |}.

(** Installed, started and run until the token is cancelled after a page. *)
Definition relayer_after (scans : nat) (w : RelayScript) : Relayer RelayScript :=
  (run_until scans 10 (Relayer_new relay_config true (assembled relay_config 0 NoFile w)).2).2.
Lemma relayer_after_lives scans w : lives sample_feed_at relay_config (relayer_after scans w).
Proof. apply ran, started, installed. Qed.

(** Told to stop after its first page, then started again and run for a scan. *)
Definition relay_stopped : Relayer RelayScript := relayer_after 1 (relay_script [] [false; false; true]).
Definition relay_again : Relayer RelayScript :=
  (Relayer_new relay_config true (restart relay_config 5 (relay_script [] []) relay_stopped)).2.
Lemma relay_again_lives : lives sample_feed_at relay_config relay_again.
Proof. apply started, restarted; [apply relayer_after_lives|]. unfold grew, sample_feed_at. reflexivity. Qed.

(** The newest deposit is minted, and the node refuses the transaction of the oldest one as expired. *)
Definition expired_failure : RelayFailure :=
  client_failure "transaction_submit" (ClientRpc (RequestError SubmitProvenTx InvalidArgument
    (Some (AddTransaction AddExpired)))).
Definition relay_expired : Relayer RelayScript :=
  (Relayer_new relay_config true (assembled relay_config 0 NoFile 
    {| rs_now := 0; rs_minted := [[3]]; rs_submits := [Err expired_failure]; rs_replaces := [];
       rs_cancels := [] |})).2.

(** ** A node *)

Record SampleNode := { sn_clock : Z; sn_synced : Z }.
(** A block a second; a transaction is committed in block 4. *)
#[export] Instance sample_node : NodeLib SampleNode := {|
  TransactionRequest := list bytes;
  used_nonces_slot := "used_nonces";
  xreserve_attesters_slot := "attesters";
  nonce_map_key := fun n => n;
  node_open := fun config v => (Ok tt, v);
  node_sync := fun v => (Ok tt, {| sn_clock := sn_clock v; sn_synced := sn_clock v / 1000000000 |});
  node_knows_account := fun a v => (Ok true, v);
  node_import_account := fun a v => (Ok tt, v);
  node_watch_account := fun a v => (Ok tt, v);
  node_map_item := fun a slot key v => (Ok EMPTY_WORD, v);
  node_build_request := fun notes delta => Some notes;
  node_submit := fun a request v => (Ok [1], v);
  node_transactions := fun t v =>
    (Ok [{| tr_status := if 4 <=? sn_synced v then Committed 4 else Pending; tr_expiration_block := 10 |}], v);
  node_sync_height := fun v => (Ok (sn_synced v), v);
  node_sleep := fun d v => {| sn_clock := sn_clock v + d; sn_synced := sn_synced v |};
|}.

Lemma sample_node_chain : node_chain sn_clock sn_synced 1000000000 10.
Proof.
  split; intros; simpl in *; simplify_eq; simpl; try lia.
  match goal with E : _ = Some _ |- _ => injection E as <- end. simpl. lia.
Qed.
