(* ===== verification/ListenerSample.v ===== *)
(** A small withdrawal for withdrawal-listener-attester: instances of its outside libraries, one burn
    and the answers of Circle, the node and two signers; and an interpreter that runs a program
    against such answers. *)
From S2P Require Import Prelude Text Foreign Ledger AttesterWire AttesterHttp Quorum Evidence Listener Programs SubmitOnce Deployment Sample.
Local Open Scope Z_scope.

(** ** Scripted runs *)

Inductive Answer `{EvidenceLib} : Type :=
| AnswerExchange (a : result string HttpReply)
| AnswerAt (now : Z)
| AnswerSign (a : result SignError (list (list (Address * Signature65))))
| AnswerNote (a : result EvidenceReadError NoteRecord)
| AnswerNullifier (a : result EvidenceReadError NullifierRecord)
| AnswerTransactions (a : result EvidenceReadError (list TransactionRecord)).

Section script.
Context `{EvidenceLib}.

(** The trace, the ledger and the rest of the program once the answers run out. *)
Fixpoint script {A} (answers : list Answer) (trace : list Action) (rows : Ledger) (p : prog A)
    : list Action * Ledger * prog A :=
  match p with
  | Ret a => (trace, rows, Ret a)
  | Panic => (trace, rows, Panic)
  | Emit _ k | Sleep _ k | Permit _ k => script answers trace rows k
  | Exchange r k =>
      match answers with
      | AnswerExchange a :: answers => script answers (Sent r a :: trace) rows (k a)
      | _ => (trace, rows, p)
      end
  | Claim keys k =>
      match answers with
      | AnswerAt now :: answers =>
          let a := claim_burns now keys rows in
          script answers (ClaimMade keys a.1 :: trace) a.2 (k a.1)
      | _ => (trace, rows, p)
      end
  | Transition key to id k =>
      match answers with
      | AnswerAt now :: answers =>
          let a := transition now key to id rows in
          script answers (Moved key to id a.1 :: trace) a.2 (k a.1)
      | _ => (trace, rows, p)
      end
  | SignBatches v k =>
      match answers with
      | AnswerSign a :: answers => script answers (SignatureMade v a :: trace) rows (k a)
      | _ => (trace, rows, p)
      end
  | NoteById id k =>
      match answers with
      | AnswerNote a :: answers => script answers (NoteRead id a :: trace) rows (k a)
      | _ => (trace, rows, p)
      end
  | NullifierStatus n k =>
      match answers with
      | AnswerNullifier a :: answers => script answers (NullifierRead n a :: trace) rows (k a)
      | _ => (trace, rows, p)
      end
  | FaucetTransactions f k =>
      match answers with
      | AnswerTransactions a :: answers => script answers (TransactionsRead f a :: trace) rows (k a)
      | _ => (trace, rows, p)
      end
  end.

(** Each action of a script is a step, so what every step keeps holds at its end. *)
Lemma script_ind {A} (I : list Action -> Ledger -> prog A -> Prop) answers trace rows (p : prog A) :
  (forall trace rows p rows' actions p', I trace rows p -> program_step rows p rows' actions p' ->
     I (actions ++ trace) rows' p') ->
  I trace rows p ->
  let '(trace', rows', p') := script answers trace rows p in I trace' rows' p'.
Proof.
  intros Hstep.
  assert (forall trace rows p rows' action p', I trace rows p -> program_step rows p rows' [action] p' ->
     I (action :: trace) rows' p') as Hone by (intros; by eapply (Hstep _ _ _ _ [_])).
  assert (forall trace rows p p', I trace rows p -> program_step rows p rows [] p' -> I trace rows p')
    as Hnone by (intros; by eapply (Hstep _ _ _ _ [])).
  revert answers trace rows; induction p; intros answers trace rows Hi; simpl; try done;
    try (match goal with IH : context [script _ _ _ ?p] |- context [script _ _ _ ?p] => apply IH end;
         eapply Hnone; [exact Hi|constructor]);
    (destruct answers as [|[] answers]; try done);
    match goal with IH : context [script _ _ _ (?k _)] |- context [script _ _ _ (?k _)] => apply IH end;
    (eapply Hone; [exact Hi|econstructor; try (constructor; apply surjective_pairing)]).
Qed.

Lemma script_trace {A} (start : prog A) answers rows :
  program_trace start (script answers [] rows start).1.1 (script answers [] rows start).2.
Proof.
  pose proof (script_ind (fun trace _ p => program_trace start trace p) answers [] rows start) as Hs.
  destruct (script answers [] rows start) as [[trace rows'] p']. apply Hs; [|constructor].
  intros. by eapply trace_step.
Qed.
End script.

(** ** The outside libraries *)

Definition sample_address (key : Z) : Address := repeat key 20.

(** A key signs by writing itself down. *)
#[export] Instance sample_ecdsa : EcdsaLib := {|
  SecretKey := Z;
  sign_prehash_recoverable := fun key digest => Some (repeat key 64, 0);
  verifying_key := fun key => repeat key 64;
  signature_from_slice := fun b => true;
  recover_from_prehash := fun digest sig id => Some sig;
  keccak := take 32;
|}.
#[export] Instance sample_encoding : EncodingLib := {|
  circle_domain_default := 10001;
  burn_items_decode := fun l => match l with [d] => Some d | _ => None end;
  account_id_try_from_elements := fun suffix prefix => Some [prefix];
|}.
#[export] Instance sample_http : HttpLib := {|
  header_name_ok := fun s => true;
  header_value_ok := fun s => true;
  http_client_build := Ok tt;
  url_host := fun u => sample_host;
|}.
#[export] Instance sample_evidence : EvidenceLib := {|
  NoteInclusionProof := Z;
  proof_block_num := fun b => b;
  transaction_id_to_hex := to_hex;
|}.

(** ** One withdrawal *)

Definition sample_listener_config : ListenerConfig :=
  {| faucet_id := sample_faucet; burn_tag := 5; lc_miden_domain := 10001; max_withdrawal_fee := 10;
     circle_base_url := sample_host; attester_key_handles := [];
     attester_allowlist := {[ sample_address 1; sample_address 2 ]};
     api_auth_token := None; api_auth_header := None |}.

Definition sample_note : NoteId := left_pad 32 0 [65].
Definition sample_discovered : DiscoveredNote :=
  {| dn_note_id := sample_note;
     dn_record := {| tag := 5; details := Some {| items := [3]; dd_amount := 100;
                                                  dd_sender := {| sender := Some (9, 0) |} |} |} |}.

Definition zero_hex32 : string := to_hex ZERO_BYTES32.
Definition sample_prepared_intent : BurnIntent :=
  {| max_block_height := "1"; max_fee := "5";
     spec := {| version := 1; source_domain := 0; destination_domain := 3;
                source_contract := zero_hex32; destination_contract := zero_hex32;
                source_token := zero_hex32; destination_token := zero_hex32;
                source_depositor := zero_hex32; destination_recipient := to_hex (repeat 17 32);
                source_signer := zero_hex32; destination_caller := zero_hex32; value := "95";
                salt := zero_hex32;
                hook_data := {| remote_domain := 10001;
                                remote_depositor := to_hex (left_pad 32 0 [9]);
                                remote_token := to_hex (left_pad 32 0 [7]);
                                forwarding_contract_address := ZERO_HEX20;
                                forwarding_calldata := "0x" |} |} |}.
Definition sample_prepared : PrepareWithdrawalResponse :=
  {| response_batches := [{| burn_intents := [sample_prepared_intent]; encoded := "0x";
                             message_hash_to_sign := to_hex (repeat 42 32) |}] |}.
Definition sample_status (kind : WithdrawalStatusKind) : WithdrawalStatus :=
  {| ws_withdrawal_id := "00000000-0000-0000-0000-000000000001"; ws_burn_tx_id := "0xAB";
     ws_status := kind; ws_attestation_payload := None; ws_attestation := None;
     ws_use_circle_forwarding := false; ws_transaction_hash := None; ws_failure_reason := None;
     ws_transfer_spec_hashes := [] |}.

(** One byte says which reply a body is. *)
#[export] Instance sample_attester_json : AttesterJson := {|
  json_prepared := fun b => if decide (b = [1]) then Some sample_prepared else None;
  json_statuses := fun b => if decide (b = [2]) then Some [sample_status KindCreated] else None;
  json_status := fun b => if decide (b = [3]) then Some (sample_status KindFinalized) else None;
  json_withdraw_conflict := fun b =>
    if decide (b = [4]) then Some {| cf_withdrawal_id := None; cf_burn_tx_id := "0xab" |} else None;
|}.

Definition sample_circle : CircleClient :=
  {| base_url := sample_host; base := sample_host; auth := NoAuth; auth_header := None;
     transport_max_response_bytes := DEFAULT_MAX_RESPONSE_BYTES;
     max_response_bytes := DEFAULT_MAX_RESPONSE_BYTES;
     poll := PollPolicy_default; retry := RetryPolicy_default; governor := documented |}.
Definition sample_context : RunContext :=
  {| rx_config := sample_listener_config; rx_circle := sample_circle |}.

Definition http_reply (path : string) (code : Z) (b : bytes) : result string HttpReply :=
  Ok {| hp_url := sample_host +:+ path; hp_status := code; hp_content_length := None; hp_chunks := [b];
        hp_broken := None |}.
Definition sample_signature (key : Z) : Signature65 := repeat key 64 ++ [27].
Definition sample_tx : TransactionRecord :=
  {| transaction_id := [171]; account_id := sample_faucet; block_num := 8;
     input_note_nullifiers := [left_pad 32 1 [65]]; output_note_proofs := [] |}.

(** Circle prepares, the signers sign, the node proves the burn and Circle's first answer to the
    withdrawal is a 503. *)
Definition answers_to_503 : list Answer :=
  [AnswerExchange (http_reply "/v1/prepare-withdrawal" 200 [1]);
   AnswerSign (Ok [[(sample_address 1, sample_signature 1); (sample_address 2, sample_signature 2)]]);
   AnswerNote (Ok {| nr_note_id := sample_note;
                     nr_details := Some {| pd_nullifier := left_pad 32 1 [65];
                                           inclusion_proof := 4 |} |});
   AnswerNullifier (Ok {| nu_nullifier := left_pad 32 1 [65]; spent_in_block := Some 8 |});
   AnswerTransactions (Ok [sample_tx]);
   AnswerAt 1000;
   AnswerExchange (http_reply "/v1/withdraw" 503 [])].
(** The second attempt is accepted and the withdrawal finalized. *)
Definition answers_to_end : list Answer :=
  answers_to_503 ++
  [AnswerExchange (http_reply "/v1/withdraw" 201 [2]);
   AnswerAt 1001;
   AnswerExchange (http_reply "/v1/withdrawal/00000000-0000-0000-0000-000000000001" 200 [3]);
   AnswerAt 1002].

Definition sample_withdraw_request : WithdrawRequest :=
  {| request_batches := [{| wb_burn_intents := [sample_prepared_intent];
                            wb_burn_signatures := [to_hex (sample_signature 1); to_hex (sample_signature 2)];
                            wb_burn_tx_id := "0xab"; wb_use_circle_forwarding := false |}] |}.
Definition sample_withdraw : HttpRequest :=
  {| rq_url := sample_host +:+ PATH_WITHDRAW; rq_header := None;
     rq_payload := PostWithdraw sample_withdraw_request |}.

(** The whole run, and the actions of its end. *)
Definition sample_listener_run :=
  script answers_to_end [] ∅ (run_once sample_context sample_discovered).
Lemma sample_listener_run_sends :
  drop 3 sample_listener_run.1.1 =
  [Sent sample_withdraw (http_reply "/v1/withdraw" 201 [2]);
   Sent sample_withdraw (http_reply "/v1/withdraw" 503 []);
   ClaimMade ["0xab"%string]
     (Ok (Claimed [{| sr_burn_key := "0xab"; sr_withdrawal_id := None; sr_status := Pending;
                      sr_timestamp := 1000 |}]))] ++
  drop 6 sample_listener_run.1.1.
Proof. vm_compute. reflexivity. Qed.

(** ** The same submission in a deployment *)

Definition sample_authorized : AuthorizedWithdrawal := {| into_request := sample_withdraw_request |}.
Definition sample_submission : prog unit :=
  bind (submit_withdraw sample_circle sample_authorized) (fun _ => Ret tt).
Definition submission_answers : list Answer :=
  [AnswerAt 1000; AnswerExchange (http_reply "/v1/withdraw" 503 []);
   AnswerExchange (http_reply "/v1/withdraw" 201 [2]); AnswerAt 1001].
Definition sample_deployment : Deployment :=
  let '(trace, rows, p) := script submission_answers [] ∅ sample_submission in
  {| dp_ledger := rows; dp_running := <[0%nat := p]> ∅; dp_trace := trace |}.

Lemma sample_deployed : deployed sample_deployment.
Proof.
  pose proof (script_ind (fun trace rows p =>
    deployed {| dp_ledger := rows; dp_running := <[0%nat := p]> ∅; dp_trace := trace |})
    submission_answers [] ∅ sample_submission) as Hs.
  unfold sample_deployment. destruct (script _ _ _ _) as [[trace rows] p]. apply Hs; clear.
  - intros trace rows p rows' actions p' Hd Hs. eapply deployed_step; [exact Hd|].
    pose proof (deployment_call {| dp_ledger := rows; dp_running := <[0%nat := p]> ∅; dp_trace := trace |}
      0%nat p rows' actions p' (lookup_insert_eq _ _ _) Hs) as Hstep.
    simpl in Hstep. by rewrite insert_insert_eq in Hstep.
  - eapply deployed_step; [apply (deployed_first ∅)|]. by apply deployment_start; [|apply by_request].
Qed.
