(* ===== verification/Observations.v ===== *)
(** The validation matrix (xusdc-validation/src/observations*.rs, assertions*.rs): what the rows record, and
    the checks of rows A to J over it. *)
From S2P Require Import Prelude Text Foreign.
From Stdlib Require Import Ascii.
Local Open Scope Z_scope.

(** ** Rows C and F (observations_cf.rs) *)

Inductive Verdict : Type := Accepted | Rejected (err : string).

(** [Verdict::from_execute] on the result of a client-side execute. *)
Definition from_execute {T} (r : result string T) : Verdict :=
  match r with Ok _ => Accepted | Err e => Rejected e end.
Definition is_accepted (v : Verdict) : bool := match v with Accepted => true | Rejected _ => false end.
Definition verdict_error (v : Verdict) : option string :=
  match v with Rejected e => Some e | Accepted => None end.

(** [[u64; 4]]. *)
Definition Word4 : Type := (Z * Z * Z * Z)%type.
Definition MARKER_SET : Word4 := (1, 0, 0, 0).
Definition MARKER_CLEAR : Word4 := (0, 0, 0, 0).

Record C1SetAttester := {
  a_marker_after_enable : Word4;
  a_marker_after_rotate : Word4;
  b_marker_after_rotate : Word4;
  mint_by_a : Verdict;
  mint_by_b : Verdict;
}.
Record C2MinBurn := {
  raised_min : Z;
  committed_after_raise : Z;
  burn_below_raised : Verdict;
  lowered_min : Z;
  committed_after_lower : Z;
  burn_at_lowered : Verdict;
}.
Record C3MaxSupply := {
  committed_cap : Z;
  max_supply_readback : Z;
  over_cap_mint : Verdict;
  within_cap_mint : Verdict;
}.
Record C4Pause := {
  is_paused_after_pause : Word4;
  mint_while_paused : Verdict;
  burn_while_paused : Verdict;
  owner_set_attester_while_paused_marker : Word4;
  owner_set_min_burn_while_paused : Z;
  is_paused_after_unpause : Word4;
  mint_after_unpause : Verdict;
}.
Record C5RoleRotation := {
  new_pauser_membership_after_grant : Word4;
  is_paused_after_new_pauser_pause : Word4;
  new_pauser_membership_after_revoke : Word4;
  revoked_pauser_pause : Verdict;
}.
Record AdminGateReject := {
  agr_op : string;
  agr_sender : string;
  agr_expected_gate : string;
  agr_verdict : Verdict;
  note_unconsumed : bool;
}.
Record RowF := {
  non_allowlisted_note : Verdict;
  tx_script : Verdict;
}.
Record RowsCfObservations := {
  cf_main_commit : string;
  cf_faucet_id : string;
  c1 : C1SetAttester;
  c2 : C2MinBurn;
  c3 : C3MaxSupply;
  c4 : C4Pause;
  c5 : C5RoleRotation;
  c6 : list AdminGateReject;
  row_f : RowF;
}.

(** ** Rows D and E (observations_de.rs) *)

Record MintHappy := {
  mh_label : string;
  hook_data_len : Z;
  mh_amount_units : Z;
  mh_supply_before : Z;
  mh_supply_after : Z;
  mh_nonce_marker_after : Word4;
  note_serial : Word4;
  expected_serial : Word4;
  note_is_p2id : bool;
  mh_note_tag : Z;
  expected_tag : Z;
  mh_note_asset_amount : Z;
  mh_note_asset_is_faucet : bool;
  recipient_balance_before : Z;
  recipient_balance_after : Z;
  mh_note_commit_block : Z;
  recipient_consume_block : Z;
}.
Record MintNegative := {
  mn_label : string;
  mn_expected_error : string;
  mn_verdict : Verdict;
  mn_supply_before : Z;
  mn_supply_after : Z;
  mn_nonce_marker_after : Word4;
  expects_nonce_set : bool;
}.
Record RowsDeObservations := {
  de_main_commit : string;
  de_faucet_id : string;
  de_recipient_id : string;
  row_d : list MintHappy;
  row_e : list MintNegative;
}.

(** ** Rows G to J (observations_gj.rs) *)

Record BurnTwoBlock := {
  g_label : string;
  g_amount_units : Z;
  g_supply_before : Z;
  g_supply_after : Z;
  holder_balance_before : Z;
  holder_balance_after : Z;
  g_note_id : string;
  g_note_tag : Z;
  g_note_commit_block : Z;
  consume_block : Z;
  committed_before_consume : bool;
  g_discovered_by_syncnotes : bool;
  found_after_consume : bool;
  nullifier_recorded_after_consume : bool;
  g_note_asset_amount : Z;
  g_note_asset_is_faucet : bool;
  getnotesbyid_note_bytes_hex : string;
  getnotesbyid_inclusion_proof_bytes_hex : string;
  getnotesbyid_inclusion_block : Z;
}.
Record BurnSameBlock := {
  h_label : string;
  h_amount_units : Z;
  mechanism : string;
  h_note_tag : Z;
  h_note_id : string;
  consume_accepted : bool;
  executed_supply_delta : option Z;
  submit_via_user_rpc_rejected : bool;
  submit_rejection_error : string;
  onchain_supply_before : Z;
  onchain_supply_after : Z;
  committed_note_found : bool;
  nullifier_recorded : bool;
  h_discovered_by_syncnotes : bool;
  raw_getnotesbyid_response : string;
}.
Record BurnNegative := {
  bn_label : string;
  bn_expected_error : string;
  bn_verdict : Verdict;
  bn_supply_before : Z;
  bn_supply_after : Z;
}.
Record SupplyStep := { step_label : string; step_supply : Z }.
Record ConservationLedger := {
  total_minted : Z;
  total_burned : Z;
  final_supply : Z;
  ledger_steps : list SupplyStep;
  holder_final_balance : Z;
}.
Record RowsGjObservations := {
  gj_main_commit : string;
  gj_faucet_id : string;
  gj_holder_id : string;
  row_g : BurnTwoBlock;
  row_h : BurnSameBlock;
  row_i : list BurnNegative;
  row_j : ConservationLedger;
}.

(** ** Rows K and L (observations_kl.rs) *)

Record PathNCommit := {
  pn_op : string;
  pn_kind : string;
  pn_commit_block : option Z;
  pn_effect : string;
}.
Record RowKObservations := {
  auto_executes : bool;
  k_commits : list PathNCommit;
  ntx_log_evidence : list string;
  no_cause : option string;
  posture : string;
}.
Record ScannedLog := {
  sl_service : string;
  sl_path : string;
  sl_bytes : Z;
  sl_lines : Z;
  sl_error_lines : Z;
  sl_warn_lines : Z;
}.
Record FlaggedLine := { fl_service : string; fl_line : string }.
Record TriagedLine := {
  tl_service : string;
  tl_line : string;
  tl_pattern : string;
  tl_explanation : string;
}.
Record RowLObservations := {
  scanned : list ScannedLog;
  unexpected_errors : list FlaggedLine;
  panics : list FlaggedLine;
  expected_errors : list TriagedLine;
  triaged_warnings : list TriagedLine;
  untriaged_warnings : list FlaggedLine;
}.
(** [RowLObservations::default()]. *)
Definition RowL_default : RowLObservations :=
  {| scanned := []; unexpected_errors := []; panics := []; expected_errors := [];
     triaged_warnings := []; untriaged_warnings := [] |}.

(** ** Text *)

(** [str::contains]. *)
Fixpoint contains_at (l p : list ascii) : bool :=
  starts_with l p || match l with [] => false | _ :: l' => contains_at l' p end.
Definition contains (s p : string) : bool := contains_at (str_list s) (str_list p).
(** [Display] of an unsigned integer. *)
Definition decimal (v : Z) : string := list_str (to_decimal v).

Inductive Finding : Type :=
| NotRecognized (ctx : string)
| Mismatch (ctx what : string)
| ValueMismatch (ctx : string) (got expected : Z)
| WordMismatch (ctx : string) (got expected : Word4)
| NotRejected (ctx expected : string)
| WrongGate (ctx expected : string) (code : Z) (err : string)
| NotAccepted (ctx err : string)
| Unmet (ctx what : string)
| InContext (ctx : string) (f : Finding).

Abbreviation Judged := (result Finding unit).
Definition context (ctx : string) (r : Judged) : Judged := map_err (InContext ctx) r.

(** What the harness takes from other projects: the protocol's error codes, the production faucet's
    allowlists, storage layout and identifier, and a fetched account. *)
Class FaucetLib := {
  (** [MasmError::new(msg).code().as_canonical_u64()]. *)
  masm_error_code : string -> Z;
  FIXED_XUSDC_BURN_TAG : Z;
  account_id_is_public : AccountId -> bool;
  (** [AccountId]'s [Display], [try_from_elements] and [EthEmbeddedAccountId]'s 32 bytes. *)
  account_id_display : AccountId -> string;
  account_id_from_elements : Z -> Z -> option AccountId;
  embedded_bytes32 : AccountId -> bytes;
  FaucetAccount : Type;
  fa_id : FaucetAccount -> AccountId;
  fa_nonce : FaucetAccount -> Z;
  (** The account's note-script and tx-script allowlist slots, when they can be read. *)
  fa_note_allowlist : FaucetAccount -> option (gset bytes);
  fa_tx_allowlist : FaucetAccount -> option (gset bytes);
  (** [storage().get_item(name)] and [storage().get_map_item(name, key)]. *)
  fa_item : FaucetAccount -> string -> option Word4;
  fa_map_item : FaucetAccount -> string -> Word4 -> option Word4;
  allowed_note_scripts : gset bytes;
  expiration_script_root : bytes;
  domain_config_slot : string;
  IDENTIFIER_CONFIG_SLOT_LABEL : string;
  source_domain_config_slot : string;
  xreserve_contract_hi_slot : string;
  xreserve_contract_lo_slot : string;
  (** [XReserveIdentifierInitNote::identifier_for]. *)
  identifier_for : AccountId -> Word4;
  (** [bytes32_to_storage_map_key]. *)
  storage_map_key : bytes -> Word4;
  token_config_slot : string;
  min_burn_slot : string;
  is_paused_slot : string;
  owner_config_slot : string;
  used_nonces_slot : string;
  xreserve_attesters_slot : string;
  (** [bytes32_to_packed_felts], the halves of its eight elements. *)
  packed_felts : bytes -> Word4 * Word4;
}.

(** ** Rows A and B (observations.rs, config.rs, assertions.rs) *)

Record DomainParams := {
  dp_domain : Z;
  dp_source_domain : Z;
  dp_xreserve_contract : bytes;
  dp_identifier_bytes : bytes;
}.

Section rows_ab.
Context `{FaucetLib}.

Record RowsAbObservations := {
  ab_main_commit : string;
  ab_faucet_id : AccountId;
  ab_deployed : option FaucetAccount;
  ab_deploy_tx_id : string;
  ab_deploy_block : Z;
  ab_owner_id : AccountId;
  ab_domain_params : DomainParams;
  ab_reinit_params : DomainParams;
  ab_first_note_id : string;
  ab_second_note_id : string;
  ab_reinit_error : option string;
  ab_after_reinit : option FaucetAccount;
  ab_second_note_consumed : bool;
}.

Definition ERR_IDENTIFIER_REINIT_TEXT : string := "identifier has already been initialized".

Definition storage_word (account : FaucetAccount) (name : string) : result Finding Word4 :=
  ok_or (fa_item account name) (Unmet name "the deployed faucet carries the slot").

Definition assert_row_a (obs : RowsAbObservations) : Judged :=
  let? account := ok_or (ab_deployed obs) (NotRecognized "row A") in
  ensure (bool_decide (fa_id account = ab_faucet_id obs)) (Mismatch "row A" "account id") ;?
  ensure (account_id_is_public (fa_id account)) (Unmet "row A" "public account") ;?
  ensure (fa_nonce account =? 1) (ValueMismatch "row A: nonce" (fa_nonce account) 1) ;?
  let? allowlist := ok_or (fa_note_allowlist account) (Unmet "row A" "readable note allowlist") in
  ensure (negb (bool_decide (allowlist = ∅))) (Unmet "row A" "non-empty note allowlist") ;?
  ensure (bool_decide (allowlist = allowed_note_scripts)) (Mismatch "row A" "note allowlist") ;?
  let? tx_allowlist := ok_or (fa_tx_allowlist account) (Unmet "row A" "readable tx allowlist") in
  ensure (bool_decide (tx_allowlist = {[expiration_script_root]})) (Mismatch "row A" "tx allowlist").

Definition assert_domain_config_slots (account : FaucetAccount) (params : DomainParams) (ctx : string)
    : Judged :=
  let? domain := storage_word account domain_config_slot in
  ensure (bool_decide (domain = (dp_domain params, 0, 0, 0)))
    (WordMismatch ctx domain (dp_domain params, 0, 0, 0)) ;?
  let? identifier := storage_word account IDENTIFIER_CONFIG_SLOT_LABEL in
  let expected_identifier := identifier_for (fa_id account) in
  ensure (bool_decide (identifier = expected_identifier))
    (WordMismatch ctx identifier expected_identifier) ;?
  ensure (negb (bool_decide (identifier = MARKER_CLEAR))) (Unmet ctx "non-empty identifier") ;?
  let? source_domain := storage_word account source_domain_config_slot in
  ensure (bool_decide (source_domain = (dp_source_domain params, 0, 0, 0)))
    (WordMismatch ctx source_domain (dp_source_domain params, 0, 0, 0)) ;?
  let packed := packed_felts (dp_xreserve_contract params) in
  let? xrc_hi := storage_word account xreserve_contract_hi_slot in
  let? xrc_lo := storage_word account xreserve_contract_lo_slot in
  ensure (bool_decide (xrc_hi = packed.1)) (Mismatch ctx "xreserve_contract_hi") ;?
  ensure (bool_decide (xrc_lo = packed.2)) (Mismatch ctx "xreserve_contract_lo").

Definition assert_row_b (obs : RowsAbObservations) : Judged :=
  let? account := ok_or (ab_deployed obs) (NotRecognized "row B") in
  assert_domain_config_slots account (ab_domain_params obs) "row B (post-init read-back)" ;?
  let? err := ok_or (ab_reinit_error obs) (Unmet "row B" "the second identifier_init fails") in
  ensure (contains err ERR_IDENTIFIER_REINIT_TEXT)
    (WrongGate "row B" ERR_IDENTIFIER_REINIT_TEXT 0 err) ;?
  let? after := ok_or (ab_after_reinit obs) (Unmet "row B" "an account fetched after the attempt") in
  ensure (fa_nonce after =? 1) (ValueMismatch "row B: nonce" (fa_nonce after) 1) ;?
  assert_domain_config_slots after (ab_domain_params obs) "row B (post-reinit-attempt)" ;?
  ensure (negb (ab_second_note_consumed obs)) (Unmet "row B" "the second note stays unconsumed").
End rows_ab.

(** ** Shared checks *)

Section checks.
Context `{FaucetLib}.

Definition err_code_for (msg : string) : Z := masm_error_code msg.

(** The error is the expected gate's: by its message, or by the code the message hashes to. *)
Definition carries_gate (err expected : string) : bool :=
  contains err expected || contains err (String.append "err_code: " (decimal (err_code_for expected))).

Definition assert_rejected_with (v : Verdict) (expected ctx : string) : Judged :=
  match v with
  | Accepted => Err (NotRejected ctx expected)
  | Rejected err =>
      ensure (carries_gate err expected) (WrongGate ctx expected (err_code_for expected) err)
  end.

Definition assert_accepted (v : Verdict) (ctx : string) : Judged :=
  match v with Accepted => Ok tt | Rejected err => Err (NotAccepted ctx err) end.

Definition assert_word (actual expected : Word4) (ctx : string) : Judged :=
  ensure (bool_decide (actual = expected)) (WordMismatch ctx actual expected).

(** ** Rows C and F (assertions_cf.rs) *)

Definition ERR_ATTESTER_NOT_ALLOWLISTED : string :=
  "deposit attester pubkey commitment is not allowlisted".
Definition ERR_BURN_BELOW_MIN : string :=
  "amount to be burned must exceed specified minimum burn amount".
Definition ERR_SUPPLY_CAP : string :=
  "token_supply plus the amount passed to distribute would exceed the maximum supply".
Definition ERR_PAUSED : string := "the contract is paused".
Definition ERR_NOT_OWNER : string := "note sender is not the owner".
Definition ERR_LACKS_ROLE : string := "note sender does not hold the required role".
Definition ERR_NOTE_NOT_ALLOWLISTED : string :=
  "input note script root is not in the note script allowlist".
Definition ERR_TX_SCRIPT_NOT_ALLOWLISTED : string :=
  "transaction script root is not in the tx script allowlist".

Definition assert_c1 (o : C1SetAttester) : Judged :=
  assert_word (a_marker_after_enable o) MARKER_SET "C1: attester A after set_attester(A, enabled=1)" ;?
  assert_word (a_marker_after_rotate o) MARKER_CLEAR "C1: attester A after rotation (must be disabled)" ;?
  assert_word (b_marker_after_rotate o) MARKER_SET "C1: attester B after rotation (must be enabled)" ;?
  assert_rejected_with (mint_by_a o) ERR_ATTESTER_NOT_ALLOWLISTED
    "C1: mint attested by the rotated-out A" ;?
  assert_accepted (mint_by_b o) "C1: mint attested by the active B".

Definition assert_c2 (o : C2MinBurn) : Judged :=
  ensure (committed_after_raise o =? raised_min o)
    (ValueMismatch "C2: min_burn_size after the raise" (committed_after_raise o) (raised_min o)) ;?
  ensure (lowered_min o <? raised_min o) (Unmet "C2" "the raised minimum exceeds the lowered one") ;?
  assert_rejected_with (burn_below_raised o) ERR_BURN_BELOW_MIN "C2: a burn below the raised minimum" ;?
  ensure (committed_after_lower o =? lowered_min o)
    (ValueMismatch "C2: min_burn_size after the lower" (committed_after_lower o) (lowered_min o)) ;?
  assert_accepted (burn_at_lowered o) "C2: a burn exactly at the lowered minimum".

Definition assert_c3 (o : C3MaxSupply) : Judged :=
  ensure (max_supply_readback o =? committed_cap o)
    (ValueMismatch "C3: max_supply" (max_supply_readback o) (committed_cap o)) ;?
  assert_rejected_with (over_cap_mint o) ERR_SUPPLY_CAP "C3: a mint exceeding the supply cap" ;?
  assert_accepted (within_cap_mint o) "C3: a mint within the supply cap (baseline)".

Definition assert_c4 (o : C4Pause) : Judged :=
  assert_word (is_paused_after_pause o) MARKER_SET "C4: is_paused after the DOM_PAUSER pause" ;?
  assert_rejected_with (mint_while_paused o) ERR_PAUSED "C4: a mint while paused" ;?
  assert_rejected_with (burn_while_paused o) ERR_PAUSED "C4: a burn while paused" ;?
  assert_word (owner_set_attester_while_paused_marker o) MARKER_SET
    "C4/F6: the owner's set_attester committed WHILE PAUSED" ;?
  ensure (0 <? owner_set_min_burn_while_paused o)
    (Unmet "C4/F6" "set_min_burn_size while paused commits a non-zero value") ;?
  assert_word (is_paused_after_unpause o) MARKER_CLEAR "C4: is_paused after the DOM_PAUSER unpause" ;?
  assert_accepted (mint_after_unpause o) "C4: a mint after unpause".

Definition assert_c5 (o : C5RoleRotation) : Judged :=
  assert_word (new_pauser_membership_after_grant o) MARKER_SET
    "C5: the new pauser's DOM_PAUSER membership after the DOM_MANAGER grant" ;?
  assert_word (is_paused_after_new_pauser_pause o) MARKER_SET
    "C5: is_paused after the NEW pauser pauses (capability proven)" ;?
  assert_word (new_pauser_membership_after_revoke o) MARKER_CLEAR
    "C5: the new pauser's membership after the DOM_MANAGER revoke" ;?
  assert_rejected_with (revoked_pauser_pause o) ERR_LACKS_ROLE "C5: a pause by the revoked account".

(** The loop of [assert_c6], with the two gates seen so far. *)
Fixpoint c6_loop (rejects : list AdminGateReject) (saw_owner_gate saw_role_gate : bool)
    : result Finding (bool * bool) :=
  match rejects with
  | [] => Ok (saw_owner_gate, saw_role_gate)
  | r :: rejects =>
      let ctx := String.concat "" ["C6: "; agr_op r; " from a "; agr_sender r] in
      assert_rejected_with (agr_verdict r) (agr_expected_gate r) ctx ;?
      ensure (note_unconsumed r) (Unmet ctx "the rejected note stays unconsumed") ;?
      c6_loop rejects (saw_owner_gate || bool_decide (agr_expected_gate r = ERR_NOT_OWNER))
        (saw_role_gate || bool_decide (agr_expected_gate r = ERR_LACKS_ROLE))
  end.
Definition assert_c6 (rejects : list AdminGateReject) : Judged :=
  ensure (negb (Nat.eqb (length rejects) 0)) (Unmet "C6" "a non-empty negative set") ;?
  let? seen := c6_loop rejects false false in
  ensure seen.1 (Unmet "C6" "an authority-gated reject") ;?
  ensure seen.2 (Unmet "C6" "a role-gated reject").

Definition assert_f (o : RowF) : Judged :=
  assert_rejected_with (non_allowlisted_note o) ERR_NOTE_NOT_ALLOWLISTED
    "F: the faucet consuming a non-allowlisted (P2ID) note" ;?
  assert_rejected_with (tx_script o) ERR_TX_SCRIPT_NOT_ALLOWLISTED
    "F: a tx-script transaction against the faucet".

Definition cf_assert_all (o : RowsCfObservations) : Judged :=
  assert_c1 (c1 o) ;? assert_c2 (c2 o) ;? assert_c3 (c3 o) ;? assert_c4 (c4 o) ;?
  assert_c5 (c5 o) ;? assert_c6 (c6 o) ;? assert_f (row_f o).

(** ** Rows D and E (assertions_de.rs) *)

Definition ERR_XRESERVE_NONCE_REPLAY : string := "deposit intent nonce has already been used".
Definition ERR_XRESERVE_SIG_INVALID : string := "deposit attestation signature verification failed".
Definition ERR_XRESERVE_DISALLOWED_PUB_KEY : string :=
  "deposit attester pubkey commitment is not allowlisted".
Definition ERR_XRESERVE_FEE_NONZERO : string := "mint fee amount must be zero".

(** A 64-bit sum, as a release build computes it; a debug build stops on overflow instead. *)
Definition add_u64 (a b : Z) : Z := wrap 64 (a + b).

(** One variant of [assert_d]. *)
Definition assert_mint (v : MintHappy) : Judged :=
  let ctx := String.concat "" ["D["; mh_label v; "]"] in
  let supply := add_u64 (mh_supply_before v) (mh_amount_units v) in
  let balance := add_u64 (recipient_balance_before v) (mh_amount_units v) in
  ensure (0 <? mh_amount_units v) (Unmet ctx "a non-zero amount") ;?
  ensure (mh_supply_after v =? supply) (ValueMismatch ctx (mh_supply_after v) supply) ;?
  ensure (bool_decide (mh_nonce_marker_after v = MARKER_SET))
    (WordMismatch ctx (mh_nonce_marker_after v) MARKER_SET) ;?
  ensure (bool_decide (note_serial v = expected_serial v))
    (WordMismatch ctx (note_serial v) (expected_serial v)) ;?
  ensure (note_is_p2id v) (Unmet ctx "a canonical P2ID note") ;?
  ensure (mh_note_tag v =? expected_tag v) (ValueMismatch ctx (mh_note_tag v) (expected_tag v)) ;?
  ensure (mh_note_asset_amount v =? mh_amount_units v)
    (ValueMismatch ctx (mh_note_asset_amount v) (mh_amount_units v)) ;?
  ensure (mh_note_asset_is_faucet v) (Unmet ctx "the note asset is this faucet's") ;?
  ensure (recipient_balance_after v =? balance) (ValueMismatch ctx (recipient_balance_after v) balance) ;?
  ensure (mh_note_commit_block v <? recipient_consume_block v)
    (Unmet ctx "the consume commits in a strictly later block").
Fixpoint for_all {A} (f : A -> Judged) (l : list A) : Judged :=
  match l with [] => Ok tt | a :: l => f a ;? for_all f l end.
Definition assert_d (variants : list MintHappy) : Judged :=
  ensure (existsb (fun v => hook_data_len v =? 0) variants) (Unmet "D" "an empty-hookData mint") ;?
  ensure (existsb (fun v => 0 <? hook_data_len v) variants) (Unmet "D" "a hookData-bearing mint") ;?
  for_all assert_mint variants.

Definition assert_negative (n : MintNegative) : Judged :=
  let ctx := String.concat "" ["E["; mn_label n; "]"] in
  assert_rejected_with (mn_verdict n) (mn_expected_error n) ctx ;?
  ensure (mn_supply_after n =? mn_supply_before n)
    (ValueMismatch ctx (mn_supply_after n) (mn_supply_before n)) ;?
  let expected_marker := if expects_nonce_set n then MARKER_SET else MARKER_CLEAR in
  ensure (bool_decide (mn_nonce_marker_after n = expected_marker))
    (WordMismatch ctx (mn_nonce_marker_after n) expected_marker).
(** [assertions_de::REQUIRED_NEGATIVES]. *)
Definition REQUIRED_MINT_NEGATIVES : list string :=
  ["replayed-nonce"; "forged-signature"; "non-allowlisted-attester"; "nonzero-fee"; "tampered-payload"].
Definition assert_e (negatives : list MintNegative) : Judged :=
  for_all assert_negative negatives ;?
  for_all (fun label => ensure (existsb (fun n => bool_decide (mn_label n = label)) negatives)
                          (Unmet "E" label)) REQUIRED_MINT_NEGATIVES ;?
  ensure (existsb (fun n => bool_decide (mn_label n = "replayed-nonce") && expects_nonce_set n) negatives)
    (Unmet "E" "replayed-nonce reuses a committed nonce").

Definition de_assert_all (o : RowsDeObservations) : Judged := assert_d (row_d o) ;? assert_e (row_e o).

(** ** Rows G to J (assertions_gj.rs) *)

Definition ERR_WRONG_ASSET_ORIGIN : string := "the faucet is not the origin of the asset".

Definition is_empty (s : string) : bool := bool_decide (s = "").

Definition assert_g (o : BurnTwoBlock) : Judged :=
  let ctx := String.concat "" ["G["; g_label o; "]"] in
  ensure (0 <? g_amount_units o) (Unmet ctx "a non-zero amount") ;?
  let? expected_supply := ok_or (checked_sub (g_supply_before o) (g_amount_units o))
                            (ValueMismatch ctx (g_supply_before o) (g_amount_units o)) in
  ensure (g_supply_after o =? expected_supply) (ValueMismatch ctx (g_supply_after o) expected_supply) ;?
  let? expected_holder := ok_or (checked_sub (holder_balance_before o) (g_amount_units o))
                            (ValueMismatch ctx (holder_balance_before o) (g_amount_units o)) in
  ensure (holder_balance_after o =? expected_holder)
    (ValueMismatch ctx (holder_balance_after o) expected_holder) ;?
  ensure (g_note_tag o =? FIXED_XUSDC_BURN_TAG) (ValueMismatch ctx (g_note_tag o) FIXED_XUSDC_BURN_TAG) ;?
  ensure (g_note_asset_amount o =? g_amount_units o)
    (ValueMismatch ctx (g_note_asset_amount o) (g_amount_units o)) ;?
  ensure (g_note_asset_is_faucet o) (Unmet ctx "the note asset is this faucet's") ;?
  ensure (committed_before_consume o) (Unmet ctx "committed before consumption") ;?
  ensure (g_discovered_by_syncnotes o) (Unmet ctx "discovered by SyncNotes") ;?
  ensure (found_after_consume o) (Unmet ctx "returned after consumption") ;?
  ensure (nullifier_recorded_after_consume o) (Unmet ctx "nullifier recorded") ;?
  ensure (g_note_commit_block o <? consume_block o)
    (Unmet ctx "the consume commits in a strictly later block") ;?
  ensure (negb (is_empty (getnotesbyid_note_bytes_hex o))) (Unmet ctx "captured note") ;?
  ensure (negb (is_empty (getnotesbyid_inclusion_proof_bytes_hex o))) (Unmet ctx "captured proof") ;?
  ensure (getnotesbyid_inclusion_block o =? g_note_commit_block o)
    (ValueMismatch ctx (getnotesbyid_inclusion_block o) (g_note_commit_block o)).

Definition assert_h (o : BurnSameBlock) : Judged :=
  let ctx := String.concat "" ["H["; h_label o; "]"] in
  ensure (consume_accepted o) (Unmet ctx "the consume is accepted") ;?
  ensure (h_note_tag o =? FIXED_XUSDC_BURN_TAG) (ValueMismatch ctx (h_note_tag o) FIXED_XUSDC_BURN_TAG) ;?
  ensure (bool_decide (executed_supply_delta o = Some (h_amount_units o)))
    (Mismatch ctx "executed supply delta") ;?
  ensure (submit_via_user_rpc_rejected o) (Unmet ctx "the submission is rejected") ;?
  ensure (negb (is_empty (submit_rejection_error o))) (Unmet ctx "captured rejection") ;?
  ensure (onchain_supply_after o =? onchain_supply_before o)
    (ValueMismatch ctx (onchain_supply_after o) (onchain_supply_before o)) ;?
  ensure (negb (committed_note_found o)) (Unmet ctx "no committed note") ;?
  ensure (negb (nullifier_recorded o)) (Unmet ctx "no nullifier") ;?
  ensure (negb (h_discovered_by_syncnotes o)) (Unmet ctx "not discovered") ;?
  ensure (negb (is_empty (raw_getnotesbyid_response o))) (Unmet ctx "captured response") ;?
  ensure (negb (is_empty (mechanism o))) (Unmet ctx "mechanism recorded").

Definition assert_burn_negative (n : BurnNegative) : Judged :=
  let ctx := String.concat "" ["I["; bn_label n; "]"] in
  assert_rejected_with (bn_verdict n) (bn_expected_error n) ctx ;?
  ensure (bn_supply_after n =? bn_supply_before n)
    (ValueMismatch ctx (bn_supply_after n) (bn_supply_before n)).
(** [assertions_gj::REQUIRED_NEGATIVES]. *)
Definition REQUIRED_BURN_NEGATIVES : list string := ["below-min"; "while-paused"; "wrong-asset"].
Definition assert_i (negatives : list BurnNegative) : Judged :=
  for_all assert_burn_negative negatives ;?
  for_all (fun label => ensure (existsb (fun n => bool_decide (bn_label n = label)) negatives)
                          (Unmet "I" label)) REQUIRED_BURN_NEGATIVES.

Definition assert_j (o : ConservationLedger) : Judged :=
  ensure (total_burned o <=? total_minted o) (ValueMismatch "J" (total_minted o) (total_burned o)) ;?
  let expected := total_minted o - total_burned o in
  ensure (final_supply o =? expected) (ValueMismatch "J" (final_supply o) expected) ;?
  let? last := ok_or (last (ledger_steps o)) (Unmet "J" "a recorded supply ledger") in
  ensure (step_supply last =? final_supply o) (ValueMismatch "J" (step_supply last) (final_supply o)) ;?
  ensure (holder_final_balance o =? expected) (ValueMismatch "J" (holder_final_balance o) expected).

Definition gj_assert_all (o : RowsGjObservations) : Judged :=
  assert_g (row_g o) ;? assert_h (row_h o) ;? assert_i (row_i o) ;? assert_j (row_j o).
End checks.
