(* ===== verification/LogScan.v ===== *)
(** Rows K and L of the validation matrix: scanning the services' logs, the liveness verdict of the
    ntx-builder and the two checks over them (xusdc-validation/src/rows_kl.rs, assertions_kl.rs), with
    the log manifest of the evidence (evidence.rs) and the sanity gate's own log check. Text is bytes:
    every character the scan looks for is ASCII, and no byte of a longer character is. *)
From S2P Require Import Prelude Text Observations.
From Stdlib Require Import Ascii.
Local Open Scope Z_scope.

(** ** Row K's vocabulary *)

Definition NTX_EXECUTION_MARKER : string := "executing network transaction".
Definition POSTURE_PATH_N_LIVE : string :=
  "path N LIVE: the node's ntx-builder auto-executes routed+allowlisted consumptions against the network-account faucet (mint, burn, and admin all observed committing on this run); client-side execution (path C) remains open to any permissionless relayer and stays the harness posture for probes/negatives".
Definition POSTURE_PATH_C_ONLY : string := "relayer executes client-side (path C)".

(** ** Expected lines *)

Record ExpectedLogLine := { el_level : string; el_pattern : string; el_explanation : string }.

Definition EXPECTED_LOG_LINES : list ExpectedLogLine := [
  {| el_level := "ERROR";
     el_pattern := "Network transactions may not be submitted by users yet";
     el_explanation := "the Row-H F7 RIV deliberately SUBMITS the faucet's consume of a never-committed burn note via user RPC and records the node's rejection as evidence that a committed same-block create+consume is unreachable on this stack; the sequencer logs that deliberate rejection here" |};
  {| el_level := "ERROR";
     el_pattern := "all notes failed to be executed";
     el_explanation := "the ntx-builder attempting a deliberately-unconsumable routed allowlisted note — the rows-A/B second identifier_init (init-once) and the rows-C6 non-authorized-sender admin notes; the on-chain MASM gate rejecting them NODE-SIDE is the negative's evidence (doomed notes are retried with backoff, so the line recurs). A failing POSITIVE cannot hide here: every positive commit is guarded by its row's bounded committed-effect poll" |};
  {| el_level := "ERROR";
     el_pattern := "network transaction failed";
     el_explanation := "the wrapper line of the same deliberately-unconsumable routed-note attempts (see 'all notes failed to be executed'): rows-A/B second identifier_init + rows-C6 non-authorized-sender admin notes, rejected by the on-chain MASM gates node-side" |};
  {| el_level := "ERROR";
     el_pattern := "Graceful shutdown timed out; exiting process";
     el_explanation := "teardown: the harness SIGTERMs the four services in reverse start order and a service exceeding the grace window logs this while exiting — shutdown lifecycle, not attributable to any transaction" |};
  {| el_level := "WARN";
     el_pattern := "RPC connection failed while opening block subscription, retrying";
     el_explanation := "startup ordering: the ntx-builder starts before the sequencer RPC listens and retries its block subscription with backoff until the sequencer is up" |};
  {| el_level := "WARN";
     el_pattern := "block subscription failed, reconnecting";
     el_explanation := "teardown ordering: the sequencer stops first (reverse start order), dropping the ntx-builder's block subscription" |}
].

(** Row L requires these four; the stack that runs the services writes the logs named by the second
    list (stack.rs). *)
Definition REQUIRED_SERVICE_LOGS : list string := ["ntx-builder"; "sequencer"; "tx-prover"; "validator"].
Definition V16_SERVICES : list string := ["validator"; "sequencer"; "ntx-builder"; "prover"].
Definition log_name (svc : string) : string := String.append svc ".log".

(** ** Lines *)

(** [strip_ansi]: [csi] while the bytes of an [ESC \[] sequence are skipped, through its final byte. *)
Fixpoint strip_from (csi : bool) (l : list ascii) : list ascii :=
  match l with
  | [] => []
  | c :: l =>
      if csi then strip_from (negb ((64 <=? code c) && (code c <=? 126))) l
      else if code c =? 27 then
        match l with
        | d :: l' => if code d =? 91 then strip_from true l' else strip_from false l
        | [] => []
        end
      else c :: strip_from false l
  end.
Definition strip_ansi (line : string) : string := list_str (strip_from false (str_list line)).

(** [split_whitespace], one string per token. *)
Definition tokens (s : string) : list string :=
  (fun w => list_str (concat w)) <$> split_ws (chars (str_list s)) [].
Fixpoint first_level (ts : list string) : option string :=
  match ts with
  | [] => None
  | t :: ts =>
      if bool_decide (t = "ERROR") then Some "ERROR"
      else if bool_decide (t = "WARN") then Some "WARN" else first_level ts
  end.
Definition line_level (line : string) : option string := first_level (tokens (strip_ansi line)).
Definition is_panic_line (line : string) : bool := contains (strip_ansi line) "panicked".

(** [str::lines]: cut at each line feed, with the carriage return before it; no line after the last
    line feed, and a last line without one keeps its carriage return. *)
Definition strip_cr (r : list ascii) : list ascii :=
  match r with c :: r' => if code c =? 13 then rev r' else rev r | [] => [] end.
Fixpoint lines_from (l cur : list ascii) : list (list ascii) :=
  match l with
  | [] => match cur with [] => [] | _ => [rev cur] end
  | c :: l => if code c =? 10 then strip_cr cur :: lines_from l [] else lines_from l (c :: cur)
  end.
Definition lines (text : string) : list string := list_str <$> lines_from (str_list text) [].

(** ** Scanning one log *)

Definition find_expected (expected : list ExpectedLogLine) (level line : string) : option ExpectedLogLine :=
  List.find (fun e => bool_decide (el_level e = level) && contains line (el_pattern e)) expected.

Definition flagged (service line : string) : FlaggedLine := {| fl_service := service; fl_line := line |}.
Definition triaged (service line : string) (e : ExpectedLogLine) : TriagedLine :=
  {| tl_service := service; tl_line := line; tl_pattern := el_pattern e;
     tl_explanation := el_explanation e |}.

Definition push_scanned (s : ScannedLog) (o : RowLObservations) : RowLObservations :=
  {| scanned := scanned o ++ [s]; unexpected_errors := unexpected_errors o; panics := panics o;
     expected_errors := expected_errors o; triaged_warnings := triaged_warnings o;
     untriaged_warnings := untriaged_warnings o |}.
Definition push_unexpected (f : FlaggedLine) (o : RowLObservations) : RowLObservations :=
  {| scanned := scanned o; unexpected_errors := unexpected_errors o ++ [f]; panics := panics o;
     expected_errors := expected_errors o; triaged_warnings := triaged_warnings o;
     untriaged_warnings := untriaged_warnings o |}.
Definition push_panic (f : FlaggedLine) (o : RowLObservations) : RowLObservations :=
  {| scanned := scanned o; unexpected_errors := unexpected_errors o; panics := panics o ++ [f];
     expected_errors := expected_errors o; triaged_warnings := triaged_warnings o;
     untriaged_warnings := untriaged_warnings o |}.
Definition push_expected (t : TriagedLine) (o : RowLObservations) : RowLObservations :=
  {| scanned := scanned o; unexpected_errors := unexpected_errors o; panics := panics o;
     expected_errors := expected_errors o ++ [t]; triaged_warnings := triaged_warnings o;
     untriaged_warnings := untriaged_warnings o |}.
Definition push_triaged (t : TriagedLine) (o : RowLObservations) : RowLObservations :=
  {| scanned := scanned o; unexpected_errors := unexpected_errors o; panics := panics o;
     expected_errors := expected_errors o; triaged_warnings := triaged_warnings o ++ [t];
     untriaged_warnings := untriaged_warnings o |}.
Definition push_untriaged (f : FlaggedLine) (o : RowLObservations) : RowLObservations :=
  {| scanned := scanned o; unexpected_errors := unexpected_errors o; panics := panics o;
     expected_errors := expected_errors o; triaged_warnings := triaged_warnings o;
     untriaged_warnings := untriaged_warnings o ++ [f] |}.

Definition scan_line (service : string) (expected : list ExpectedLogLine) (out : RowLObservations)
    (raw : string) : RowLObservations :=
  let line := strip_ansi raw in
  if is_panic_line line then push_panic (flagged service line) out
  else
    match line_level line with
    | None => out
    | Some level =>
        match find_expected expected level line with
        | Some e =>
            if bool_decide (level = "ERROR") then push_expected (triaged service line e) out
            else if bool_decide (level = "WARN") then push_triaged (triaged service line e) out else out
        | None =>
            if bool_decide (level = "ERROR") then push_unexpected (flagged service line) out
            else if bool_decide (level = "WARN") then push_untriaged (flagged service line) out else out
        end
    end.
Definition scan_log_text (service text : string) (expected : list ExpectedLogLine)
    (out : RowLObservations) : RowLObservations :=
  foldl (scan_line service expected) out (lines text).

(** ** Scanning a directory *)

(** A file of the log directory: its text, when it can be read as UTF-8, and its length, when its
    metadata can be read. *)
Record LogFile := { lf_text : option string; lf_len : option Z }.
(** What [fs::read_dir] lists, by file name; [None] when the directory cannot be read. *)
Definition LogDir : Type := option (gmap string LogFile).

(** [Path::file_stem] and [Path::extension] of a file name: cut at its last dot, unless that is the
    first character or there is none. *)
Fixpoint cut_last_dot (l : list ascii) : option (list ascii * list ascii) :=
  match l with
  | [] => None
  | c :: l =>
      match cut_last_dot l with
      | Some (s, e) => Some (c :: s, e)
      | None => if code c =? 46 then Some ([], l) else None
      end
  end.
Definition file_stem (name : string) : string :=
  match cut_last_dot (str_list name) with Some ((_ :: _) as s, _) => list_str s | _ => name end.
Definition extension (name : string) : option string :=
  match cut_last_dot (str_list name) with Some (_ :: _, e) => Some (list_str e) | _ => None end.

Definition is_log (f : string * LogFile) : bool := bool_decide (extension f.1 = Some "log").
(** The logs of a directory in [Path] order. *)
Definition log_files (files : gmap string LogFile) : list (string * LogFile) :=
  order_by (fun f => str_bytes f.1) (List.filter is_log (map_to_list files)).

Definition scan_file (dir : string) (expected : list ExpectedLogLine) (l : RowLObservations)
    (name : string) (text : string) (len : option Z) : RowLObservations :=
  let service := file_stem name in
  let level_lines lvl := Z.of_nat (length (List.filter (fun ln => bool_decide (line_level ln = Some lvl)) (lines text))) in
  scan_log_text service text expected
    (push_scanned
       {| sl_service := service; sl_path := String.concat "/" [dir; name]; sl_bytes := default 0 len;
          sl_lines := Z.of_nat (length (lines text)); sl_error_lines := level_lines "ERROR";
          sl_warn_lines := level_lines "WARN" |} l).

(** Why a directory could not be scanned: it, or one of its logs, could not be read. *)
Inductive ScanError : Type := ReadingDir (dir : string) | ReadingLog (name : string).

Fixpoint scan_files (dir : string) (expected : list ExpectedLogLine) (fs : list (string * LogFile))
    (l : RowLObservations) : result ScanError RowLObservations :=
  match fs with
  | [] => Ok l
  | (name, f) :: fs =>
      let? text := ok_or (lf_text f) (ReadingLog name) in
      scan_files dir expected fs (scan_file dir expected l name text (lf_len f))
  end.
Definition scan_logs (dir : string) (files : LogDir) (expected : list ExpectedLogLine)
    : result ScanError RowLObservations :=
  let? files := ok_or files (ReadingDir dir) in
  scan_files dir expected (log_files files) RowL_default.

(** ** The manifest of the evidence file (evidence.rs), whose counts are of lines that contain the
    level anywhere *)

Record LogManifestEntry := {
  lm_service : string;
  lm_path : string;
  lm_bytes : Z;
  lm_error_lines : Z;
  lm_warn_lines : Z;
}.
Definition level_counts (text : option string) : Z * Z :=
  match text with
  | Some text =>
      let count p := Z.of_nat (length (List.filter (fun l => contains l p) (lines text))) in
      (count "ERROR", count "WARN")
  | None => (0, 0)
  end.
Definition log_manifest (dir : string) (files : LogDir) : list LogManifestEntry :=
  match files with
  | None => []
  | Some files =>
      order_by (fun e => str_bytes (lm_service e))
        ((fun '(name, f) =>
            let counts := level_counts (lf_text f) in
            {| lm_service := file_stem name; lm_path := String.concat "/" [dir; name];
               lm_bytes := default 0 (lf_len f); lm_error_lines := counts.1;
               lm_warn_lines := counts.2 |})
         <$> List.filter is_log (map_to_list files))
  end.

(** ** Row K *)

Definition ntx_execution_evidence (ntx_log_text : string) : list string :=
  List.filter (fun l => contains l NTX_EXECUTION_MARKER) (strip_ansi <$> lines ntx_log_text).

(** [format!("[{},{},{},{}]")] of a word. *)
Definition show_word (m : Word4) : string :=
  let '(a, b, c, d) := m in
  String.concat "" ["["; decimal a; ","; decimal b; ","; decimal c; ","; decimal d; "]"].
Definition admin_commit (op effect : string) : PathNCommit :=
  {| pn_op := op; pn_kind := "admin"; pn_commit_block := None; pn_effect := effect |}.
Definition show_bool (b : bool) : string := if b then "true" else "false".

Definition admin_commits (cf : RowsCfObservations) : list PathNCommit :=
  let marker w := String.append "attester A allowlist marker " (show_word w) in
  let membership w := String.append "new-pauser membership " (show_word w) in
  let paused w := String.append "is_paused " (show_word w) in
  let min_burn v := String.append "min_burn_size " (decimal v) in
  [ admin_commit "set_attester(A, enabled=1)" (marker (a_marker_after_enable (c1 cf)));
    admin_commit "set_attester(A, enabled=0) [C1 rotation]" (marker (a_marker_after_rotate (c1 cf)));
    admin_commit "set_attester(B, enabled=1) [C1 rotation]"
      (String.append "attester B allowlist marker " (show_word (b_marker_after_rotate (c1 cf))));
    admin_commit "set_min_burn_size (C2 raise)" (min_burn (committed_after_raise (c2 cf)));
    admin_commit "set_min_burn_size (C2 lower)" (min_burn (committed_after_lower (c2 cf)));
    admin_commit "set_max_supply (C3)" (String.append "max_supply " (decimal (max_supply_readback (c3 cf))));
    admin_commit "pause (C4, DOM_PAUSER)" (paused (is_paused_after_pause (c4 cf)));
    admin_commit "set_attester while paused (C4/F6)"
      (String.append "attester allowlist marker " (show_word (owner_set_attester_while_paused_marker (c4 cf))));
    admin_commit "set_min_burn_size while paused (C4/F6)" (min_burn (owner_set_min_burn_while_paused (c4 cf)));
    admin_commit "unpause (C4, DOM_PAUSER)" (paused (is_paused_after_unpause (c4 cf)));
    admin_commit "role grant DOM_PAUSER (C5, DOM_MANAGER)" (membership (new_pauser_membership_after_grant (c5 cf)));
    admin_commit "pause (C5, new DOM_PAUSER)" (paused (is_paused_after_new_pauser_pause (c5 cf)));
    admin_commit "role revoke DOM_PAUSER (C5, DOM_MANAGER)" (membership (new_pauser_membership_after_revoke (c5 cf))) ].

Definition mint_commit (v : MintHappy) : PathNCommit :=
  {| pn_op := String.append "mint " (mh_label v); pn_kind := "mint";
     pn_commit_block := Some (mh_note_commit_block v);
     pn_effect := String.concat "" ["token_supply "; decimal (mh_supply_before v); " → ";
       decimal (mh_supply_after v); "; usedNonces[nonce] set; recipient P2ID emitted"] |}.
Definition burn_commit (g : BurnTwoBlock) : PathNCommit :=
  {| pn_op := "burn two-block"; pn_kind := "burn"; pn_commit_block := Some (consume_block g);
     pn_effect := String.concat "" ["token_supply "; decimal (g_supply_before g); " → ";
       decimal (g_supply_after g); "; nullifier recorded: ";
       show_bool (nullifier_recorded_after_consume g)] |}.
Definition pathn_commits_from (cf : RowsCfObservations) (de : RowsDeObservations) (gj : RowsGjObservations)
    : list PathNCommit :=
  admin_commits cf ++ (mint_commit <$> row_d de) ++ [burn_commit (row_g gj)].

Definition of_pn_kind (kind : string) (c : PathNCommit) : bool := bool_decide (pn_kind c = kind).

Definition derive_row_k (commits : list PathNCommit) (evidence : list string) : RowKObservations :=
  let has_mint := existsb (of_pn_kind "mint") commits in
  let has_burn := existsb (of_pn_kind "burn") commits in
  let has_marker := negb (Nat.eqb (length evidence) 0) in
  let live := has_mint && has_burn && has_marker in
  let missing :=
    (if has_mint then [] else ["no path-N mint commit was observed"])
    ++ (if has_burn then [] else ["no path-N burn commit was observed"])
    ++ (if has_marker then []
        else ["no 'executing network transaction' markers were found in ntx-builder.log"]) in
  {| auto_executes := live; k_commits := commits; ntx_log_evidence := evidence;
     no_cause := if live then None else Some (String.append (String.concat "; " missing)
       " — stack: the v0.16.0-alpha.2 four-service topology with the network-tx auth token wired (sequencer --rpc.network-tx-auth-header-value / ntx-builder --rpc.auth-header-value; see VALIDATION-RECORD.md §3)");
     posture := if live then POSTURE_PATH_N_LIVE else POSTURE_PATH_C_ONLY |}.

(** ** The two checks (assertions_kl.rs) *)

Definition assert_commit (c : PathNCommit) : Judged :=
  ensure (negb (is_blank (pn_op c)) && negb (is_blank (pn_effect c)))
    (Unmet "row K" "every commit carries its op and effect") ;?
  ensure (bool_decide (pn_kind c ∈ ["mint"; "burn"; "admin"])) (Mismatch "row K: commit kind" (pn_kind c)).

Definition assert_k (k : RowKObservations) : Judged :=
  ensure (negb (is_blank (posture k))) (Unmet "row K" "a recorded posture") ;?
  for_all assert_commit (k_commits k) ;?
  let mints := length (List.filter (of_pn_kind "mint") (k_commits k)) in
  let burns := length (List.filter (of_pn_kind "burn") (k_commits k)) in
  if auto_executes k then
    ensure (Nat.leb 1 mints) (Unmet "row K" "a YES has a mint commit") ;?
    ensure (Nat.leb 1 burns) (Unmet "row K" "a YES has a burn commit") ;?
    ensure (negb (Nat.eqb (length (ntx_log_evidence k)) 0)) (Unmet "row K" "a YES has log markers") ;?
    ensure (bool_decide (no_cause k = None)) (Unmet "row K" "a YES has no cause")
  else
    ensure (match no_cause k with Some cause => negb (is_blank cause) | None => false end)
      (Unmet "row K" "a NO records its cause") ;?
    ensure (contains (posture k) "client-side (path C)") (Mismatch "row K: posture" (posture k)) ;?
    ensure (Nat.eqb mints 0 && Nat.eqb burns 0) (Unmet "row K" "a NO contradicts no commit").

Definition find_scanned (l : RowLObservations) (service : string) : option ScannedLog :=
  List.find (fun s => bool_decide (sl_service s = service)) (scanned l).
Definition assert_archived (l : RowLObservations) (required : string) : Judged :=
  match find_scanned l required with
  | None => Err (Unmet required "the service log is archived")
  | Some s => ensure (0 <? sl_bytes s) (Unmet required "the service log is not empty")
  end.
Definition none_flagged (what : string) (ls : list FlaggedLine) : Judged :=
  match ls with [] => Ok tt | first :: _ => Err (Unmet what (fl_line first)) end.
Definition assert_l (l : RowLObservations) : Judged :=
  for_all (assert_archived l) REQUIRED_SERVICE_LOGS ;?
  none_flagged "row L: panic" (panics l) ;?
  none_flagged "row L: unexpected error" (unexpected_errors l) ;?
  none_flagged "row L: untriaged warning" (untriaged_warnings l) ;?
  for_all (fun t => ensure (negb (is_blank (tl_explanation t))) (Unmet (tl_service t) "an explanation"))
    (expected_errors l ++ triaged_warnings l).

(** ** The verdicts of a whole run (record.rs, bin/lnv5_full_matrix.rs) *)

Definition MATRIX_ROW_IDS : list string := ["A"; "B"; "C"; "D"; "E"; "F"; "G"; "H"; "I"; "J"; "K"; "L"].
Definition MATRIX_ROW_TITLES : list (string * string) := [
  ("A", "deploy + recognize");
  ("B", "identifier_init init-once");
  ("C", "admin suite (C1–C6)");
  ("D", "mint happy path");
  ("E", "mint negatives");
  ("F", "auth boundary (F5)");
  ("G", "burn two-block (Circle read-path)");
  ("H", "burn same-block (F7 RIV evidence)");
  ("I", "burn negatives");
  ("J", "conservation ledger");
  ("K", "ntx-builder liveness (path N)");
  ("L", "clean logs") ]%string.
Definition title_of (id : string) : string :=
  match List.find (fun r => bool_decide (r.1 = id)) MATRIX_ROW_TITLES with Some r => r.2 | None => "" end.

Section matrix.
Context `{FaucetLib}.

(** [FullMatrixObservations]. *)
Record FullMatrix := {
  m_ab : RowsAbObservations;
  m_cf : RowsCfObservations;
  m_de : RowsDeObservations;
  m_gj : RowsGjObservations;
  m_k : RowKObservations;
  m_l : RowLObservations;
}.

Inductive MatrixError : Type := ReadingNtxLog (path : string) | ScanningLogs (e : ScanError).

(** [run_full_matrix], from the four sub-runs on: what the archived logs of the run say. *)
Definition full_matrix (log_dir : string) (files : LogDir) (ab : RowsAbObservations)
    (cf : RowsCfObservations) (de : RowsDeObservations) (gj : RowsGjObservations)
    : result MatrixError FullMatrix :=
  let ntx_log := match files with Some files => files !! "ntx-builder.log"%string | None => None end in
  let? ntx_text := ok_or (mbind lf_text ntx_log) (ReadingNtxLog (String.append log_dir "/ntx-builder.log")) in
  let k := derive_row_k (pathn_commits_from cf de gj) (ntx_execution_evidence ntx_text) in
  let? l := map_err ScanningLogs (scan_logs log_dir files EXPECTED_LOG_LINES) in
  Ok {| m_ab := ab; m_cf := cf; m_de := de; m_gj := gj; m_k := k; m_l := l |}.

(** A row's verdict, with the failure chain of a row that failed. *)
Record RowOutcome := { ro_row : string; ro_title : string; ro_pass : bool; ro_detail : option Finding }.

Definition row_c (cf : RowsCfObservations) : Judged :=
  context "C1 set_attester + rotation" (assert_c1 (c1 cf)) ;?
  context "C2 set_min_burn_size" (assert_c2 (c2 cf)) ;?
  context "C3 set_max_supply" (assert_c3 (c3 cf)) ;?
  context "C4 pause/unpause (F6)" (assert_c4 (c4 cf)) ;?
  context "C5 role rotation" (assert_c5 (c5 cf)) ;?
  context "C6 non-authorized-sender negatives" (assert_c6 (c6 cf)).
Definition matrix_results (m : FullMatrix) : list (string * Judged) := [
  ("A", assert_row_a (m_ab m)); ("B", assert_row_b (m_ab m)); ("C", row_c (m_cf m));
  ("D", assert_d (row_d (m_de m))); ("E", assert_e (row_e (m_de m))); ("F", assert_f (row_f (m_cf m)));
  ("G", assert_g (row_g (m_gj m))); ("H", assert_h (row_h (m_gj m))); ("I", assert_i (row_i (m_gj m)));
  ("J", assert_j (row_j (m_gj m))); ("K", assert_k (m_k m)); ("L", assert_l (m_l m)) ]%string.
Definition outcome_of (r : string * Judged) : RowOutcome :=
  {| ro_row := r.1; ro_title := title_of r.1; ro_pass := is_ok r.2;
     ro_detail := match r.2 with Ok _ => None | Err e => Some e end |}.
Definition full_matrix_outcomes (m : FullMatrix) : list RowOutcome := outcome_of <$> matrix_results m.

Inductive OutcomesError : Type := WrongCount (got : nat) | WrongOrder (expected found : string).
Fixpoint rows_in_order (outcomes : list RowOutcome) (ids : list string) : result OutcomesError unit :=
  match outcomes, ids with
  | o :: outcomes, id :: ids =>
      ensure (bool_decide (ro_row o = id)) (WrongOrder id (ro_row o)) ;? rows_in_order outcomes ids
  | _, _ => Ok tt
  end.
Definition validate_row_outcomes (outcomes : list RowOutcome) : result OutcomesError unit :=
  ensure (Nat.eqb (length outcomes) (length MATRIX_ROW_IDS)) (WrongCount (length outcomes)) ;?
  rows_in_order outcomes MATRIX_ROW_IDS.
Definition any_failed (outcomes : list RowOutcome) : bool := existsb (fun o => negb (ro_pass o)) outcomes.

(** The command (bin/lnv5_full_matrix.rs), after the record is written. *)
Inductive MatrixExit : Type := AllRowsPass | RowsFailed (outcomes : list RowOutcome) | BadOutcomes (e : OutcomesError).
Definition lnv5_exit (m : FullMatrix) : MatrixExit :=
  let outcomes := full_matrix_outcomes m in
  match validate_row_outcomes outcomes with
  | Err e => BadOutcomes e
  | Ok _ => if any_failed outcomes then RowsFailed outcomes else AllRowsPass
  end.
End matrix.
