(* ===== verification/Sanity.v ===== *)
(** The sanity gate's decisions that need no node (xusdc-validation/src/sanity/mod.rs, net.rs,
    record.rs, checks.rs): which URL is local, which mode a run has, the ledger of checks, how a
    rejection is judged, the log check, and the verdict of the record. *)
From S2P Require Import Prelude Text Foreign Observations LogScan Feed.
From Stdlib Require Import Ascii.
Local Open Scope Z_scope.

(** ** Mandated amounts *)

Definition MINT_ROUND_UNITS : Z := 100000000.
Definition MINT_NONROUND_UNITS : Z := 123456789.
Definition BURN_UNITS : Z := 50000000.
Definition DEPLOY_MAX_SUPPLY : Z := 1000000000000.
Definition RAISED_MAX_SUPPLY : Z := 3000000000000.
Definition RAISED_MIN_BURN : Z := BURN_UNITS + 1.
Definition LOWERED_MIN_BURN : Z := 1.

(** ** URLs *)

Definition scheme_separator : list ascii := str_list "://".
(** The text before and after the first, and after the last, ["://"]. *)
Fixpoint split_scheme (l : list ascii) : option (list ascii * list ascii) :=
  if starts_with l scheme_separator then Some ([], drop 3 l)
  else
    match l with
    | [] => None
    | c :: l => match split_scheme l with Some (s, r) => Some (c :: s, r) | None => None end
    end.
Fixpoint after_last_scheme (l : list ascii) : option (list ascii) :=
  match l with
  | [] => None
  | c :: l' =>
      match after_last_scheme l' with
      | Some r => Some r
      | None => if starts_with l scheme_separator then Some (drop 3 l) else None
      end
  end.
(** [split(c).next()]. *)
Fixpoint until (c : ascii) (l : list ascii) : list ascii :=
  match l with [] => [] | d :: l => if bool_decide (d = c) then [] else d :: until c l end.
(** [rsplit_once(':')]. *)
Fixpoint rsplit_colon (l : list ascii) : option (list ascii * list ascii) :=
  match l with
  | [] => None
  | d :: l =>
      match rsplit_colon l with
      | Some (h, p) => Some (d :: h, p)
      | None => if bool_decide (d = ":"%char) then Some ([], l) else None
      end
  end.

(** The host of an authority, as [is_loopback] reads it. *)
Definition authority_host (authority : list ascii) : list ascii :=
  match authority with
  | "["%char :: rest => until "]" rest
  | _ => match rsplit_colon authority with Some (h, _) => h | None => authority end
  end.
Definition loopback_hosts : list (list ascii) := str_list <$> ["127.0.0.1"; "localhost"; "::1"].
Definition is_loopback (rpc_url : string) : bool :=
  let url := str_list rpc_url in
  let after_scheme := default url (after_last_scheme url) in
  let authority := until "/" after_scheme in
  bool_decide (to_ascii_lowercase <$> authority_host authority ∈ loopback_hosts).

(** [parse_url_parts] (net.rs): what the client is built to dial. *)
Inductive UrlError : Type := BadPort (url : string) | NoHost (url : string).
Definition parse_url_parts (rpc_url : string) : result UrlError (string * string * option Z) :=
  let url := str_list rpc_url in
  let '(scheme, rest) := match split_scheme url with
                         | Some (s, r) => (list_str s, r)
                         | None => ("http"%string, url)
                         end in
  let rest := str_list (trim_end_slashes (list_str rest)) in
  let? parts :=
    match rsplit_colon rest with
    | Some (h, p) =>
        let? port := ok_or (parse_unsigned u16_max (list_str p)) (BadPort rpc_url) in
        Ok (h, Some port)
    | None => Ok (rest, None)
    end in
  ensure (negb (bool_decide (parts.1 = []))) (NoHost rpc_url) ;?
  Ok (scheme, list_str parts.1, parts.2).

(** ** The run's mode *)

Record RunMode := { deployed_fresh : bool; local_node : bool; run_admin : bool }.
Inductive ModeError : Type := RemoteFreshDeploy (rpc_url : string).
Definition decide_run_mode (faucet_id : option AccountId) (rpc_url : string) : result ModeError RunMode :=
  let fresh := bool_decide (faucet_id = None) in
  let local := is_loopback rpc_url in
  if fresh && negb local then Err (RemoteFreshDeploy rpc_url)
  else Ok {| deployed_fresh := fresh; local_node := local; run_admin := fresh |}.

(** ** The ledger and the report *)

Record Check := {
  ck_id : string;
  ck_area : string;
  ck_what : string;
  ck_pass : bool;
  ck_detail : string;
}.
Abbreviation Ledger := (list Check).
Definition record (id area what : string) (pass : bool) (detail : string) (led : Ledger) : Ledger :=
  led ++ [{| ck_id := id; ck_area := area; ck_what := what; ck_pass := pass; ck_detail := detail |}].

Record SanityReport := {
  sr_rpc_url : string;
  sr_node_version : string;
  sr_deployed_fresh : bool;
  sr_local_node : bool;
  sr_faucet_id : string;
  sr_owner_id : string;
  sr_recipient_id : string;
  sr_holder_id : string;
  sr_attester_commitment_hex : string;
  sr_attester_supplied : bool;
  sr_checks : Ledger;
}.
Definition failures (r : SanityReport) : list Check := List.filter (fun c => negb (ck_pass c)) (sr_checks r).
Definition all_passed (r : SanityReport) : bool := Nat.eqb (length (failures r)) 0.

(** ** Rejections (checks.rs) *)

Definition truncate (s : string) (n : nat) : string :=
  if Nat.leb (length (chars (str_list s))) n then s else String.append (take_chars n s) "…".

Section judging.
Context `{FaucetLib}.

Definition record_rejection (id area what : string) (verdict : Verdict) (expected : string) (led : Ledger)
    : Ledger :=
  match verdict with
  | Accepted => record id area what false "ACCEPTED (defect — the gate did not fire)" led
  | Rejected msg =>
      let code_marker := String.append "err_code: " (decimal (err_code_for expected)) in
      let ok := contains msg expected || contains msg code_marker in
      let detail :=
        if ok then String.concat "" ["REJECTED with the '"; expected; "' gate ("; code_marker; ")"]
        else String.concat "" ["REJECTED but NOT with '"; expected; "' (nor its "; code_marker; "): ";
               truncate msg 200] in
      record id area what ok detail led
  end.
End judging.

(** ** The log check *)

Definition missing_service (l : RowLObservations) (svc : string) : list string :=
  match find_scanned l svc with
  | None => [String.append svc " (absent)"]
  | Some s => if (sl_bytes s =? 0) || (sl_lines s =? 0) then [String.append svc " (empty)"] else []
  end.
Definition show_flagged (f : FlaggedLine) : string := String.concat "" ["["; fl_service f; "] "; fl_line f].
Definition count_str {A} (l : list A) : string := decimal (Z.of_nat (length l)).
Definition log_what : string :=
  "the node's four v16 service logs are present, non-empty, and free of unexpected ERROR / panic / untriaged-WARN lines".

(** [{e:#}] of a failed scan. *)
Definition log_check (show_error : ScanError -> string) (log_dir : string) (files : LogDir) (led : Ledger)
    : Ledger :=
  match scan_logs log_dir files EXPECTED_LOG_LINES with
  | Ok l =>
      let missing := concat (missing_service l <$> V16_SERVICES) in
      let flagged_clean :=
        Nat.eqb (length (unexpected_errors l)) 0 && Nat.eqb (length (panics l)) 0
        && Nat.eqb (length (untriaged_warnings l)) 0 in
      let pass := Nat.eqb (length missing) 0 && flagged_clean in
      let detail :=
        if pass then
          String.concat "" ["all "; count_str V16_SERVICES;
            " required service logs present + non-empty; 0 unexpected ERROR, 0 panic, 0 untriaged WARN (";
            count_str (triaged_warnings l); " triaged-WARN lines)"]
        else if negb (Nat.eqb (length missing) 0) then
          String.append "INCOMPLETE service-log set: " (String.concat ", " missing)
        else
          String.concat "" ["UNCLEAN: "; count_str (unexpected_errors l); " unexpected ERROR, ";
            count_str (panics l); " panic, "; count_str (untriaged_warnings l); " untriaged WARN; e.g. ";
            String.concat " | " (show_flagged <$>
              take 5 (panics l ++ unexpected_errors l ++ untriaged_warnings l))] in
      record "NODE-LOGS-CLEAN" "logs" log_what pass detail led
  | Err e =>
      record "NODE-LOGS-CLEAN" "logs" log_what false
        (String.concat "" ["could not scan "; log_dir; ": "; show_error e]) led
  end.
