(* ===== verification/LogScanProps.v ===== *)
(** Properties of the log rows: row L passes exactly on a complete set of logs whose every line is
    clean, a set the services of the stack do not write; and row K passes exactly when the run saw the
    network execute a mint, so that no recorded NO passes it. *)
From S2P Require Import Prelude Text Observations LogScan Sanity.
From Stdlib Require Import Ascii.
Local Open Scope Z_scope.

(** ** Lines *)

(** Stripping is idempotent: it leaves no escape character. *)
Lemma strip_from_no_esc l : forall csi, Forall (fun c => code c <> 27) (strip_from csi l).
Proof.
  induction l as [l IH] using (induction_ltof1 _ (@length ascii)); unfold ltof in IH.
  destruct l as [|c l]; intros csi; cbn [strip_from]; [constructor|].
  destruct csi; [apply IH; simpl; lia|]. destruct (Z.eqb_spec (code c) 27).
  - destruct l as [|d l]; [constructor|]. destruct (code d =? 91); apply IH; simpl; lia.
  - constructor; [done|]. apply IH; simpl; lia.
Qed.
Lemma strip_from_id l : Forall (fun c => code c <> 27) l -> strip_from false l = l.
Proof.
  induction 1 as [|c l Hc _ IH]; cbn [strip_from]; [done|]. rewrite (proj2 (Z.eqb_neq _ _) Hc). by rewrite IH.
Qed.
Lemma strip_ansi_idemp s : strip_ansi (strip_ansi s) = strip_ansi s.
Proof. unfold strip_ansi. rewrite str_list_str, strip_from_id; [done|apply strip_from_no_esc]. Qed.

Lemma first_level_cases ts lvl : first_level ts = Some lvl -> lvl = "ERROR"%string \/ lvl = "WARN"%string.
Proof.
  induction ts as [|t ts IH]; simpl; [done|]. repeat case_bool_decide; [intros [= <-]; auto..|exact IH].
Qed.

(** A line row L has nothing to say about: no panic, and its level, if it has one, is explained. *)
Definition clean_line (expected : list ExpectedLogLine) (raw : string) : Prop :=
  is_panic_line raw = false /\
  forall lvl, line_level raw = Some lvl ->
    exists e, e ∈ expected /\ el_level e = lvl /\ contains (strip_ansi raw) (el_pattern e) = true.

Lemma line_level_strip raw : line_level (strip_ansi raw) = line_level raw.
Proof. unfold line_level. by rewrite strip_ansi_idemp. Qed.
Lemma is_panic_strip raw : is_panic_line (strip_ansi raw) = is_panic_line raw.
Proof. unfold is_panic_line. by rewrite strip_ansi_idemp. Qed.

Lemma find_expected_spec expected lvl line :
  match find_expected expected lvl line with
  | Some e => e ∈ expected /\ el_level e = lvl /\ contains line (el_pattern e) = true
  | None => ~ exists e, e ∈ expected /\ el_level e = lvl /\ contains line (el_pattern e) = true
  end.
Proof.
  unfold find_expected. destruct (List.find _ expected) as [e|] eqn:Hf.
  - apply find_some in Hf as [Hin [Hl Hc]%andb_true_iff]. apply bool_decide_eq_true in Hl.
    split_and!; [by apply list_elem_of_In|done..].
  - intros (e & Hin%list_elem_of_In & <- & Hc). apply (find_none _ _ Hf) in Hin.
    by rewrite bool_decide_eq_true_2, Hc in Hin.
Qed.

(** ** Observations *)

(** What row L refuses is absent. *)
Definition unflagged (o : RowLObservations) : Prop :=
  panics o = [] /\ unexpected_errors o = [] /\ untriaged_warnings o = [].
(** Every triaged line is one of the expected ones. *)
Definition explained (expected : list ExpectedLogLine) (o : RowLObservations) : Prop :=
  Forall (fun t => exists e, e ∈ expected /\ tl_explanation t = el_explanation e)
    (expected_errors o ++ triaged_warnings o).

Lemma scan_line_spec service expected o raw :
  (unflagged (scan_line service expected o raw) <-> unflagged o /\ clean_line expected raw)
  /\ scanned (scan_line service expected o raw) = scanned o
  /\ (explained expected o -> explained expected (scan_line service expected o raw)).
Proof.
  unfold scan_line, clean_line. rewrite is_panic_strip, line_level_strip.
  destruct (is_panic_line raw).
  { split_and!; [|done|done]. unfold unflagged. simpl. rewrite app_nil. naive_solver. }
  destruct (line_level raw) as [lvl|] eqn:Hl; [|split_and!; [naive_solver|done|done]].
  pose proof (find_expected_spec expected lvl (strip_ansi raw)) as Hf.
  destruct (find_expected expected lvl (strip_ansi raw)) as [e|];
    apply first_level_cases in Hl as [-> | ->]; simpl.
  - split_and!; [|done|]; [unfold unflagged; simpl; naive_solver|].
    unfold explained. simpl. rewrite !Forall_app, Forall_singleton. intros [??]. split_and!; [done| |done].
    exists e. naive_solver.
  - split_and!; [|done|]; [unfold unflagged; simpl; naive_solver|].
    unfold explained. simpl. rewrite !Forall_app, Forall_singleton. intros [??]. split_and!; [done..|].
    exists e. naive_solver.
  - split_and!; [|done|done]. unfold unflagged. simpl. rewrite app_nil. naive_solver.
  - split_and!; [|done|done]. unfold unflagged. simpl. rewrite app_nil. naive_solver.
Qed.

Lemma scan_lines_spec service expected ls : forall o,
  let o' := foldl (scan_line service expected) o ls in
  (unflagged o' <-> unflagged o /\ Forall (clean_line expected) ls)
  /\ scanned o' = scanned o /\ (explained expected o -> explained expected o').
Proof.
  induction ls as [|raw ls IH]; intros o; simpl; [split_and!; [|done|done]; naive_solver|].
  destruct (IH (scan_line service expected o raw)) as (Hu & Hs & He).
  destruct (scan_line_spec service expected o raw) as (Hu' & Hs' & He').
  split_and!; [|by rewrite Hs|by auto]. rewrite Hu, Hu', Forall_cons. tauto.
Qed.

(** ** File names *)

Lemma code_inj a b : code a = code b -> a = b.
Proof.
  unfold code. intros E%N2Z.inj. rewrite <-(ascii_N_embedding a), <-(ascii_N_embedding b). by f_equal.
Qed.
Lemma code_dot c : (code c =? 46) = bool_decide (c = "."%char).
Proof.
  case_bool_decide as Hc; [by subst|]. apply Z.eqb_neq. intros E. apply Hc, code_inj. by rewrite E.
Qed.

Lemma cut_last_dot_none l : "."%char ∉ l -> cut_last_dot l = None.
Proof.
  induction l as [|c l IH]; simpl; [done|]. rewrite not_elem_of_cons. intros [Hc Hl]. rewrite IH by done.
  rewrite code_dot, bool_decide_eq_false_2; [done|congruence].
Qed.
Lemma cut_last_dot_app s e : "."%char ∉ e -> cut_last_dot (s ++ "."%char :: e) = Some (s, e).
Proof.
  intros He. induction s as [|c s IH]; simpl; [by rewrite cut_last_dot_none|]. by rewrite IH.
Qed.
Lemma cut_last_dot_Some l s e : cut_last_dot l = Some (s, e) -> l = s ++ "."%char :: e.
Proof.
  revert s. induction l as [|c l IH]; simpl; [done|]. intros s.
  destruct (cut_last_dot l) as [[s' e']|]; [intros [= <- <-]; by rewrite (IH s')|].
  rewrite code_dot. case_bool_decide as Hc; [|done]. subst. by intros [= <- <-].
Qed.

(** The log of a service. *)
Lemma log_name_stem svc : svc <> ""%string ->
  file_stem (log_name svc) = svc /\ extension (log_name svc) = Some "log"%string.
Proof.
  intros Hne. unfold file_stem, extension, log_name.
  assert (E : str_list (String.append svc ".log") = str_list svc ++ "."%char :: str_list "log").
  { by rewrite str_list_app. }
  rewrite E, cut_last_dot_app; [|by apply (bool_decide_unpack _)].
  destruct (str_list svc) as [|c l] eqn:Hl; [|split; [|done]; by rewrite <-(list_str_list svc), Hl].
  destruct Hne. by rewrite <-(list_str_list svc), Hl.
Qed.
Lemma stem_log_name name : extension name = Some "log"%string -> name = log_name (file_stem name).
Proof.
  unfold file_stem, extension. destruct (cut_last_dot (str_list name)) as [[[|c s] e]|] eqn:Hc; try done.
  intros [= He]. apply cut_last_dot_Some in Hc. unfold log_name.
  rewrite <-(list_str_list name) at 1. rewrite Hc. apply (f_equal str_list) in He.
  rewrite str_list_str in He. rewrite He, <-(list_str_list (String.append _ _)), str_list_app, str_list_str.
  done.
Qed.

(** ** Directories *)

Lemma log_files_spec files name f : (name, f) ∈ log_files files <->
  files !! name = Some f /\ extension name = Some "log"%string.
Proof.
  unfold log_files. rewrite elem_of_order_by, list_elem_of_In, filter_In, <-list_elem_of_In,
    elem_of_map_to_list. unfold is_log. by rewrite bool_decide_eq_true.
Qed.

Definition scanned_view (s : ScannedLog) : string * Z := (sl_service s, sl_bytes s).
Definition file_view (f : string * LogFile) : string * Z := (file_stem f.1, default 0 (lf_len f.2)).

Lemma scan_files_spec dir expected fs : forall o l, scan_files dir expected fs o = Ok l ->
  (unflagged l <-> unflagged o /\
     forall name f text, (name, f) ∈ fs -> lf_text f = Some text -> Forall (clean_line expected) (lines text))
  /\ scanned_view <$> scanned l = (scanned_view <$> scanned o) ++ (file_view <$> fs)
  /\ (explained expected o -> explained expected l).
Proof.
  induction fs as [|[name f] fs IH]; intros o l; simpl.
  - intros [= <-]. split_and!; [|by rewrite app_nil_r|done]. setoid_rewrite elem_of_nil. naive_solver.
  - destruct (lf_text f) as [text|] eqn:Ht; [|done]. simpl. intros Hs%IH. destruct Hs as (Hu & Hv & He).
    unfold scan_file, scan_log_text in *.
    match type of Hu with context [foldl ?g ?o1 _] => destruct (scan_lines_spec (file_stem name) expected (lines text) o1) as (Hu' & Hv' & He') end.
    split_and!; [|by rewrite Hv, Hv'; simpl; rewrite fmap_app, <-app_assoc|by auto].
    rewrite Hu, Hu'. setoid_rewrite elem_of_cons. unfold unflagged at 1. simpl. split.
    + intros [[? Hl] Hr]. split; [done|]. intros n g t [[= -> ->]|Hin] Hg; [|by eapply Hr].
      rewrite Ht in Hg. by injection Hg as <-.
    + intros [? Hall]. split; [split; [done|by eapply Hall; [left|]]|].
      intros. eapply Hall; [by right|done].
Qed.

(** The archive of a service is what its log file is. *)
Lemma archived_spec dir files expected l svc : svc <> ""%string ->
  scan_logs dir (Some files) expected = Ok l ->
  (assert_archived l svc = Ok tt
   <-> exists f n, files !! log_name svc = Some f /\ lf_len f = Some n /\ 0 < n).
Proof.
  intros Hne Hs. apply scan_files_spec in Hs as (_ & Hv & _). simpl in Hv.
  assert (Hview : forall b, (svc, b) ∈ scanned_view <$> scanned l
                  <-> exists f, files !! log_name svc = Some f /\ b = default 0 (lf_len f)).
  { intros b. rewrite Hv. setoid_rewrite list_elem_of_fmap. split.
    - intros ([name f] & [= -> ->] & [Hf He%stem_log_name]%log_files_spec). exists f.
      by rewrite <-He.
    - intros (f & Hf & ->). destruct (log_name_stem svc Hne) as [Hst Hex].
      exists (log_name svc, f). split; [unfold file_view; simpl; by rewrite Hst|]. by apply log_files_spec. }
  unfold assert_archived, find_scanned.
  destruct (List.find _ (scanned l)) as [s|] eqn:Hf.
  - apply find_some in Hf as [Hin Hsv%bool_decide_eq_true].
    assert (Hb : (svc, sl_bytes s) ∈ scanned_view <$> scanned l).
    { apply list_elem_of_fmap. exists s. split; [by unfold scanned_view; rewrite Hsv|by apply list_elem_of_In]. }
    apply Hview in Hb as (f & Hff & Hb). rewrite Hb. split.
    + intros Hp. exists f. destruct (lf_len f) as [n|]; [|done]. exists n. split_and!; [done..|].
      simpl in Hp. by destruct (Z.ltb_spec 0 n).
    + intros (g & n & Hg & Hn & Hpos). rewrite Hff in Hg. injection Hg as <-. rewrite Hn. simpl.
      by rewrite (proj2 (Z.ltb_lt 0 n)).
  - split; [done|]. intros (f & n & Hff & Hn & _).
    assert (Hb : (svc, default 0 (lf_len f)) ∈ scanned_view <$> scanned l) by (apply Hview; eauto).
    apply list_elem_of_fmap in Hb as (s & [= Hsv _] & Hin%list_elem_of_In).
    apply (find_none _ _ Hf) in Hin. by rewrite bool_decide_eq_true_2 in Hin.
Qed.

Lemma for_all_ok {A} (f : A -> Judged) (l : list A) : for_all f l = Ok tt <-> Forall (fun a => f a = Ok tt) l.
Proof.
  induction l as [|a l IH]; simpl; [split; [constructor|done]|]. rewrite Forall_cons, <-IH.
  destruct (f a) as [[]|e]; simpl; naive_solver.
Qed.
Lemma ensure_ok {E} (b : bool) (e : E) : ensure b e = Ok tt <-> b = true.
Proof. by destruct b. Qed.
Lemma bind_ok {E A} (r : result E unit) (k : unit -> result E A) a :
  rbind r k = Ok a <-> r = Ok tt /\ k tt = Ok a.
Proof. destruct r as [[]|e]; simpl; naive_solver. Qed.
Lemma none_flagged_ok what ls : none_flagged what ls = Ok tt <-> ls = [].
Proof. by destruct ls. Qed.

Lemma expected_explained : Forall (fun e => is_blank (el_explanation e) = false) EXPECTED_LOG_LINES.
Proof. by vm_compute; repeat constructor. Qed.

(** C39. Row L passes exactly when each required service has a non-empty log and no line of any log panics or
    carries a level no expected line explains. *)
Theorem row_l_exact dir files l : scan_logs dir (Some files) EXPECTED_LOG_LINES = Ok l ->
  (assert_l l = Ok tt <->
     Forall (fun svc => exists f n, files !! log_name svc = Some f /\ lf_len f = Some n /\ 0 < n)
       REQUIRED_SERVICE_LOGS
     /\ forall name f text, files !! name = Some f -> extension name = Some "log"%string ->
          lf_text f = Some text -> Forall (clean_line EXPECTED_LOG_LINES) (lines text)).
Proof.
  intros Hs. pose proof Hs as Hspec. apply scan_files_spec in Hspec as (Hu & _ & He).
  assert (Hx : for_all (fun t => ensure (negb (is_blank (tl_explanation t))) (Unmet (tl_service t) "an explanation"))
                 (expected_errors l ++ triaged_warnings l) = Ok tt).
  { apply for_all_ok. eapply Forall_impl; [apply He; constructor|]. intros t (e & Hin & ->). apply ensure_ok.
    pose proof expected_explained as Hall. rewrite Forall_forall in Hall. by rewrite (Hall e). }
  unfold assert_l. rewrite !bind_ok, for_all_ok, !none_flagged_ok. split.
  - intros (Ha & Hp & Hue & Huw & _). split.
    + apply Forall_forall. intros svc Hin. rewrite Forall_forall in Ha.
      apply (archived_spec dir _ EXPECTED_LOG_LINES l); [|done|by apply Ha]. intros ->. revert Hin. by apply (bool_decide_unpack _).
    + assert (Huf : unflagged l) by done. apply Hu in Huf as [_ Hall]. intros name f text Hf Hex Ht.
      apply (Hall name f text); [by apply log_files_spec|done].
  - intros [Ha Hall]. split; [|assert (Huf : unflagged l); [|by destruct Huf as (?&?&?)]].
    + apply Forall_forall. intros svc Hin. rewrite Forall_forall in Ha.
      apply (archived_spec dir files EXPECTED_LOG_LINES); [|done|by apply Ha]. intros ->. revert Hin. by apply (bool_decide_unpack _).
    + apply Hu. split; [done|]. intros name f text [??]%log_files_spec Ht. by eapply Hall.
Qed.

(** A line of each level, one of them an expected error. *)
Definition sample_log : string := list_str (str_list "INFO ready" ++ [ascii_of_nat 10]
  ++ str_list "ERROR network transaction failed").
Definition sample_logs : gmap string LogFile :=
  list_to_map ((fun svc => (log_name svc, {| lf_text := Some sample_log; lf_len := Some 44 |})) <$> REQUIRED_SERVICE_LOGS).
Lemma row_l_exact_witness :
  Forall (fun svc => exists f n, sample_logs !! log_name svc = Some f /\ lf_len f = Some n /\ 0 < n)
    REQUIRED_SERVICE_LOGS
  /\ forall name f text, sample_logs !! name = Some f -> extension name = Some "log"%string ->
       lf_text f = Some text -> Forall (clean_line EXPECTED_LOG_LINES) (lines text).
Proof.
  eapply (proj1 (row_l_exact "logs" sample_logs _ ltac:(vm_compute; reflexivity))). vm_compute. reflexivity.
Defined.

(** The stack writes no log row L would find under [tx-prover]: its prover logs to [prover.log]. *)
Theorem row_l_fails_on_its_stack dir files l :
  (forall name, is_Some (files !! name) -> name ∈ log_name <$> V16_SERVICES) ->
  scan_logs dir (Some files) EXPECTED_LOG_LINES = Ok l -> assert_l l <> Ok tt.
Proof.
  intros Hstack Hs. unfold assert_l. rewrite bind_ok, for_all_ok. intros [Ha _]. rewrite Forall_forall in Ha.
  assert (Hin : "tx-prover"%string ∈ REQUIRED_SERVICE_LOGS) by by apply (bool_decide_unpack _).
  apply Ha, (archived_spec dir files EXPECTED_LOG_LINES) in Hin as (f & n & Hf & _); [|done..].
  assert (Hname : log_name "tx-prover" ∈ log_name <$> V16_SERVICES) by (apply Hstack; by exists f).
  revert Hname. by apply (bool_decide_unpack _).
Qed.
Lemma row_l_fails_on_its_stack_witness :
  let files : gmap string LogFile :=
    list_to_map ((fun svc => (log_name svc, {| lf_text := Some "INFO ready"%string; lf_len := Some 10 |})) <$> V16_SERVICES) in
  match scan_logs "logs" (Some files) EXPECTED_LOG_LINES with Ok l => assert_l l <> Ok tt | Err _ => False end.
Proof.
  intros files. destruct (scan_logs "logs" (Some files) EXPECTED_LOG_LINES) as [l|e] eqn:Hs;
    [|by vm_compute in Hs].
  apply (row_l_fails_on_its_stack "logs" files l); [|exact Hs].
  intros name [f Hf]. apply elem_of_list_to_map_2, list_elem_of_fmap in Hf as (svc & [= -> _] & Hin).
  apply list_elem_of_fmap. exists svc. split; [reflexivity|exact Hin].
Defined.

(** ** Row K *)

Lemma chars_head a l : exists c cs, chars (a :: l) = (a :: c) :: cs.
Proof.
  cbn [chars foldr]. change (foldr _ [] l) with (chars l).
  destruct (chars l) as [|[|b c] cs]; [by eexists _, _..|]. destruct (is_continuation b); by eexists _, _.
Qed.
(** A text that starts with two ASCII characters, the first no whitespace, is not blank. *)
Lemma not_blank a b s : is_continuation b = false -> is_whitespace [a] = false ->
  is_blank (String.String a (String.String b s)) = false.
Proof.
  intros Hb Ha. change (forallb is_whitespace (chars (a :: b :: str_list s)) = false).
  destruct (chars_head b (str_list s)) as (c & cs & E).
  assert (E' : chars (a :: b :: str_list s) = [a] :: (b :: c) :: cs).
  { change (chars (a :: b :: str_list s)) with
      (match chars (b :: str_list s) with
       | (b' :: c') :: cs' => if is_continuation b' then (a :: b' :: c') :: cs' else [a] :: chars (b :: str_list s)
       | _ => [a] :: chars (b :: str_list s) end). rewrite E. by rewrite Hb. }
  rewrite E'. simpl. by rewrite Ha.
Qed.

Lemma commits_well_formed cf de gj : Forall (fun c => assert_commit c = Ok tt) (pathn_commits_from cf de gj).
Proof.
  assert (Hc : forall op kind block effect, is_blank op = false -> is_blank effect = false ->
    kind ∈ ["mint"; "burn"; "admin"]%string ->
    assert_commit {| pn_op := op; pn_kind := kind; pn_commit_block := block; pn_effect := effect |} = Ok tt).
  { intros op kind block effect Ho He Hk. unfold assert_commit. simpl. rewrite Ho, He. simpl.
    by rewrite bool_decide_eq_true_2. }
  unfold pathn_commits_from. rewrite !Forall_app, Forall_fmap. split_and!.
  - unfold admin_commits, admin_commit. repeat constructor; (apply Hc; [by apply not_blank..|by apply (bool_decide_unpack _)]).
  - apply Forall_forall. intros v _. apply Hc; [by apply not_blank..|by apply (bool_decide_unpack _)].
  - constructor; [|constructor]. apply Hc; [by apply not_blank..|by apply (bool_decide_unpack _)].
Qed.

Lemma admin_no_kind cf kind : kind <> "admin"%string -> List.filter (of_pn_kind kind) (admin_commits cf) = [].
Proof.
  intros Hk. unfold admin_commits, admin_commit. cbn [List.filter of_pn_kind pn_kind].
  unfold of_pn_kind. cbn [pn_kind]. by rewrite bool_decide_eq_false_2 by congruence.
Qed.
Lemma commits_of_kind cf de gj kind : kind <> "admin"%string ->
  List.filter (of_pn_kind kind) (pathn_commits_from cf de gj)
  = List.filter (of_pn_kind kind) (mint_commit <$> row_d de)
    ++ List.filter (of_pn_kind kind) [burn_commit (row_g gj)].
Proof. intros Hk. unfold pathn_commits_from. by rewrite !List.filter_app, admin_no_kind. Qed.
Lemma mints_counted cf de gj :
  length (List.filter (of_pn_kind "mint") (pathn_commits_from cf de gj)) = length (row_d de).
Proof.
  rewrite commits_of_kind by done. rewrite app_nil_r. induction (row_d de) as [|v vs IH]; [done|].
  cbn [fmap list_fmap List.filter]. simpl. f_equal. exact IH.
Qed.
Lemma burns_counted cf de gj :
  length (List.filter (of_pn_kind "burn") (pathn_commits_from cf de gj)) = 1%nat.
Proof. rewrite commits_of_kind by done. by induction (row_d de). Qed.

Lemma existsb_filter {A} (f : A -> bool) (l : list A) : existsb f l = negb (Nat.eqb (length (List.filter f l)) 0).
Proof. induction l as [|a l IH]; simpl; [done|]. by destruct (f a). Qed.

(** Row K of a whole run passes exactly when the run minted and the ntx-builder's log shows it executing
    network transactions; so no run whose verdict is NO passes the row. *)
Theorem row_k_exact cf de gj evidence :
  let k := derive_row_k (pathn_commits_from cf de gj) evidence in
  (assert_k k = Ok tt <-> row_d de <> [] /\ evidence <> []) /\ (assert_k k = Ok tt -> auto_executes k = true).
Proof.
  intros k.
  assert (Hlive : auto_executes k = true <-> row_d de <> [] /\ evidence <> []).
  { unfold k, derive_row_k. cbn [auto_executes]. rewrite !existsb_filter, mints_counted, burns_counted.
    destruct (row_d de), evidence; simpl; naive_solver. }
  assert (Hpass : assert_k k = Ok tt <-> auto_executes k = true); [|rewrite Hlive in Hpass; tauto].
  unfold assert_k. rewrite !bind_ok, for_all_ok.
  replace (k_commits k) with (pathn_commits_from cf de gj) by done.
  rewrite mints_counted, burns_counted.
  destruct (auto_executes k) eqn:Ha.
  - rewrite !bind_ok, !ensure_ok. destruct (proj1 Hlive eq_refl) as [Hm He]. split; [done|]. intros _.
    split_and!; [|apply commits_well_formed|by destruct (row_d de)|done|by destruct evidence|].
    + unfold k, derive_row_k in *. cbn [auto_executes posture] in *. rewrite Ha. by vm_compute.
    + unfold k, derive_row_k in *. cbn [auto_executes no_cause] in *. by rewrite Ha.
  - rewrite !bind_ok, !ensure_ok. split; [|done]. intros (_ & _ & _ & _ & Hn).
    by rewrite andb_false_r in Hn.
Qed.

(** ** What the verdicts say *)

Section matrix.
Context `{FaucetLib}.

Lemma outcomes_valid m : validate_row_outcomes (full_matrix_outcomes m) = Ok tt.
Proof. reflexivity. Qed.

Lemma any_failed_false outcomes : any_failed outcomes = false <-> Forall (fun o => ro_pass o = true) outcomes.
Proof.
  unfold any_failed. rewrite Forall_forall. split.
  - intros Hf o Hin. destruct (ro_pass o) eqn:Hp; [done|]. rewrite <-Hf. apply (proj2 (existsb_exists _ _)).
    exists o. rewrite Hp. by rewrite <-list_elem_of_In.
  - intros Hall. apply not_true_is_false. intros (o & Hin%list_elem_of_In & Hp)%existsb_exists.
    by rewrite Hall in Hp.
Qed.
Lemma outcomes_pass m : any_failed (full_matrix_outcomes m) = false <->
  Forall (fun r => r.2 = Ok tt) (matrix_results m).
Proof.
  rewrite any_failed_false. unfold full_matrix_outcomes. rewrite Forall_fmap.
  apply Forall_iff. intros [id [[]|e]]; simpl; split; done.
Qed.

(** The services of the stack write their four logs and no other, so no run of the whole matrix on it
    ends with every row passed, whatever the sub-runs observed. *)
Theorem stack_run_never_passes log_dir files ab cf de gj m :
  (forall name, is_Some (files !! name) -> name ∈ log_name <$> V16_SERVICES) ->
  full_matrix log_dir (Some files) ab cf de gj = Ok m ->
  exists outcomes, lnv5_exit m = RowsFailed outcomes.
Proof.
  intros Hstack Hm. unfold full_matrix in Hm. inv_ok. unfold lnv5_exit. rewrite outcomes_valid.
  destruct (any_failed _) eqn:Hf; [by eexists|]. apply outcomes_pass in Hf. unfold matrix_results in Hf.
  do 12 (apply Forall_cons in Hf as [? Hf]). exfalso.
  by eapply (row_l_fails_on_its_stack log_dir files).
Qed.
End matrix.
