(* ===== verification/SanityDriver.v ===== *)
(** The sanity gate's driver and check families (xusdc-validation/src/sanity/driver.rs, checks.rs,
    mintburn.rs, actors.rs): mint payloads, notes and the calls that emit, await, probe and consume them;
    mints, negatives, the burn arc and what a burn note must look like. The client and the node are the
    world a method runs in, asked one call at a time; every submitted transaction is kept. The burn's
    evidence is assembled by the withdrawal attester's own program (Listener, Evidence). The wording of
    errors leaves out transaction ids, durations and debug renderings. *)
From S2P Require Import Prelude Text Foreign Ledger AttesterWire AttesterHttp Quorum Evidence Listener.
From S2P Require Import Io Observations LogScan Sanity.
From Stdlib Require Import Ascii.
Local Open Scope Z_scope.
Local Open Scope io_scope.

(** ** Mint payloads (mintburn.rs) *)

Definition MINT_DOMAIN : Z := 7.
Definition BASE_VECTOR : string := "di-pos-empty-hookdata".
Definition HOOKDATA_VECTOR : string := "di-pos-hookdata".
Definition SCALE : Z := 1.
Definition AMOUNT_BYTE_OFF : nat := 8.
Definition REMOTE_RECIPIENT_BYTE_OFF : nat := 76.
Definition MAX_FEE_BYTE_OFF : nat := 172.
Definition NONCE_BYTE_OFF : nat := 204.

(** [payload[off..off + field.len()].copy_from_slice(field)]. *)
Definition splice (off : nat) (field payload : bytes) : bytes :=
  take off payload ++ field ++ drop (off + length field) payload.
(** [payload[off] ^= salt]. *)
Definition xor_at (off : nat) (salt : Z) (payload : bytes) : bytes :=
  match payload !! off with Some b => <[off := Z.lxor b salt]> payload | None => payload end.
Definition uint256_be (value : Z) : bytes := be_bytes 32 value.

Record MintDomainConfig := { md_domain : Z; md_remote_token : bytes }.

(** Of a deposit intent's header: the recipient, the nonce and the amount as it carries them. *)
Record DepositHeader := { dh_remote_recipient : bytes; dh_nonce : bytes; dh_amount : bytes }.
(** What the adversarial mint note is put together from: the intent's codec and reducer, account ids, assets,
    tags, the stock note's storage and attachments, and the elements of keys and signatures. *)
Class FeeNoteLib `{FaucetLib} := {
  SCALE_EXP : Z;
  parse_deposit_intent_header : bytes -> result string DepositHeader;
  account_id_of_bytes32 : bytes -> result string AccountId;
  reduced_amount : bytes -> Z -> result string Z;
  fungible_asset : AccountId -> Z -> result string (AccountId * Z);
  (** [NoteTag::with_account_target]. *)
  account_target_tag : AccountId -> Z;
  (** [MintNoteStorage::new_fungible_public] of a P2ID recipient and serial, an asset and a tag. *)
  mint_storage : AccountId * Word4 -> AccountId * Z -> Z -> result string unit;
  deposit_intent_to_packed_felts : bytes -> result string (list Z);
  XUSDC_MINT_INTENT_ATTACHMENT_SCHEME : Z;
  XUSDC_MINT_ATTESTATION_ATTACHMENT_SCHEME : Z;
  attachment_scheme : Z -> result string unit;
  attachment_words : list Word4 -> result string unit;
  public_key_elements : bytes -> list Z;
  signature_felts : bytes -> list Z;
  network_account_target : AccountId -> result string unit;
}.

(** The xUSDC encoding's test vector and field offsets, the harness's keys, and the inclusion proofs of
    the evidence reads. *)
Class SanityLib `{FaucetLib} := {
  sanity_evidence_lib :: EvidenceLib;
  sanity_fee_lib :: FeeNoteLib;
  (** The bytes of the canonical vector of an id, and its [hook_data_len] field. *)
  vector_bytes : string -> bytes;
  vector_hook_data_len : string -> Z;
  base_remote_token : bytes;
  remote_domain_off : nat;
  remote_token_off : nat;
  SigningKey : Type;
  keccak256 : bytes -> bytes;
  (** [sign_prehash_recoverable], as the 65 bytes of the signature. *)
  sign_prehash : SigningKey -> bytes -> bytes;
  (** [AssetAmount::new]. *)
  amount_ok : Z -> bool;
}.

Section payload.
Context `{SanityLib}.

Definition for_deployed_faucet (domain : Z) (faucet_id : AccountId) : MintDomainConfig :=
  {| md_domain := domain; md_remote_token := embedded_bytes32 faucet_id |}.

Definition mint_payload_from (vector_id : string) (recipient : AccountId) (amount_raw max_fee_raw nonce_salt : Z) : bytes :=
  let payload := splice AMOUNT_BYTE_OFF (uint256_be amount_raw) (vector_bytes vector_id) in
  let payload := splice MAX_FEE_BYTE_OFF (uint256_be max_fee_raw) payload in
  let payload := splice REMOTE_RECIPIENT_BYTE_OFF (embedded_bytes32 recipient) payload in
  if negb (nonce_salt =? 0) then xor_at NONCE_BYTE_OFF nonce_salt payload else payload.
Definition mint_payload_for (config : MintDomainConfig) (recipient : AccountId)
    (amount_raw max_fee_raw nonce_salt : Z) : bytes :=
  let payload := mint_payload_from BASE_VECTOR recipient amount_raw max_fee_raw nonce_salt in
  splice remote_token_off (md_remote_token config)
    (splice remote_domain_off (be_bytes 4 (md_domain config)) payload).
Definition mint_payload_opt (config : option MintDomainConfig) (recipient : AccountId)
    (amount_raw max_fee_raw nonce_salt : Z) : bytes :=
  match config with
  | Some c => mint_payload_for c recipient amount_raw max_fee_raw nonce_salt
  | None => mint_payload_from BASE_VECTOR recipient amount_raw max_fee_raw nonce_salt
  end.
Definition lnv2_domain_params : DomainParams :=
  {| dp_domain := MINT_DOMAIN; dp_source_domain := 3;
     dp_xreserve_contract := (fun i => 16 + Z.of_nat i) <$> seq 0 32;
     dp_identifier_bytes := base_remote_token |}.
(** The payload of a mint on a faucet whose identifier is its own id. *)
Definition mint_payload_own_id (faucet_id : AccountId) (vector_id : string) (recipient : AccountId)
    (amount_raw max_fee_raw nonce_salt : Z) : bytes :=
  splice remote_token_off (embedded_bytes32 faucet_id)
    (mint_payload_from vector_id recipient amount_raw max_fee_raw nonce_salt).
Definition raw_for_units (units : Z) : Z := units * SCALE.
Definition nonce_key (payload : bytes) : Word4 := storage_map_key (take 32 (drop NONCE_BYTE_OFF payload)).

(** ** Attestations (actors.rs) *)

Record AttesterKey := {
  signing_key : SigningKey;
  pubkey_sec1 : bytes;
  commitment_word : Word4;
  commitment_hex : string;
}.
Record Attestation := { att_signature : bytes; att_public_key : bytes }.
Definition attestation_over_digest (k : AttesterKey) (digest : bytes) : Attestation :=
  {| att_signature := sign_prehash (signing_key k) digest; att_public_key := pubkey_sec1 k |}.
Definition attestation_for (k : AttesterKey) (payload : bytes) : Attestation :=
  attestation_over_digest k (keccak256 payload).

(** The seven wallets and the two attester keys of a run. *)
Record Actors := {
  owner : AccountId;
  pauser : AccountId;
  manager : AccountId;
  blk_manager : AccountId;
  recipient : AccountId;
  holder : AccountId;
  new_pauser : AccountId;
  attester : AttesterKey;
  attester_b : AttesterKey;
}.

(** ** Notes and requests *)

Record BurnItemsOf := { bi_amount : Z; bi_dest_domain : Z; bi_dest_recipient : bytes }.

(** What the stock mint note of the harness carries: its storage's recipient, serial number, amount and tag,
    and the words of its two attachments. *)
Record FeeNote := {
  fe_recipient : AccountId;
  fe_serial : Word4;
  fe_asset : AccountId * Z;
  fe_tag : Z;
  fe_intent : list Word4;
  fe_attestation : list Word4;
}.
(** What a note is built as: the constructor called and its arguments. *)
Inductive NoteSpec : Type :=
| XUsdcMint (sender faucet : AccountId) (payload : bytes) (a : Attestation)
| XReserveBurn (sender faucet : AccountId) (items : BurnItemsOf)
(** Two adversarial notes: a mint with a fee, a burn of another faucet's asset. *)
| MintWithFee (sender faucet : AccountId) (payload : bytes) (a : Attestation) (content : FeeNote)
| BurnWrongAsset (sender faucet asset_faucet : AccountId) (items : BurnItemsOf)
| XReserveGrantRole (sender faucet : AccountId) (role : string) (member : AccountId)
| XReserveRevokeRole (sender faucet : AccountId) (role : string) (member : AccountId)
(** A stock payment note of so much of the target's own asset. *)
| StockP2id (sender target : AccountId) (amount : Z)
| XReserveSetAttester (sender faucet : AccountId) (commitment : Word4) (enabled : Z)
| XReservePause (sender faucet : AccountId)
| XReserveUnpause (sender faucet : AccountId)
| XReserveTransferOwnership (sender faucet new_owner : AccountId)
| XReserveAcceptOwnership (sender faucet : AccountId)
| XReserveIdentifierInit (sender faucet : AccountId)
| MinBurnAmountConfig (sender faucet : AccountId) (min_burn_amount : Z)
| SetMaxSupplyConfig (sender faucet : AccountId) (max_supply : Z).
(** A note found on the node, with its fungible assets. *)
Record FoundNote := { fn_id : bytes; fn_assets : list (AccountId * Z) }.
(** A built note with the serial number drawn for it, or one the node returned. *)
Inductive Note : Type := Built (spec : NoteSpec) (serial : Word4) | Found (n : FoundNote).

Inductive TxRequest : Type :=
| OwnOutputNotes (foreign : bool) (notes : list Note)
| ConsumeNotes (foreign : bool) (notes : list Note)
| InputNotes (notes : list Note)
| CustomScript (script : bytes).

(** A committed note as [GetNotesById] returns it: a public one with its inclusion proof. *)
Record CapturedNote := {
  cn_id : bytes;
  cn_note_bytes : bytes;
  cn_nullifier : Nullifier;
  cn_proof : NoteInclusionProof;
  cn_proof_bytes : bytes;
}.
Definition cn_inclusion_block (n : CapturedNote) : Z := proof_block_num (cn_proof n).
Inductive FetchedNote : Type := PublicNote (n : CapturedNote) | PrivateNote (id : bytes).

Inductive TxStatus : Type := Committed (block : Z) | Discarded (cause : string) | Pending.

(** An anyhow error: its contexts, outermost first, then its message. *)
Definition Failure : Type := list string.
(** [{e:#}]. *)
Definition show_failure (e : Failure) : string := String.concat ": " e.
(** [.context(c)], and [anyhow!("{c}: {e}")]. *)
Definition in_context {A} (c : string) (r : result string A) : result Failure A := map_err (fun e => [c; e]) r.
Definition worded {A} (c : string) (r : result string A) : result Failure A :=
  map_err (fun e => [String.concat ": " [c; e]]) r.

(** ** The adversarial mint note (mintburn.rs) *)

(** The whole words of a list of elements, and the padding to a word's end. *)
Fixpoint words_of (felts : list Z) : list Word4 :=
  match felts with a :: b :: c :: d :: felts => (a, b, c, d) :: words_of felts | _ => [] end.
Definition padded (felts : list Z) : list Z := felts ++ replicate (Nat.modulo (4 - Nat.modulo (length felts) 4) 4) 0.

(** The amount field's elements of an intent packed with [fee_raw] there; [None] is a panic. *)
Definition fee_limbs_for (fee_raw : Z) : option (list Z) :=
  match deposit_intent_to_packed_felts (splice AMOUNT_BYTE_OFF (uint256_be fee_raw) (vector_bytes BASE_VECTOR)) with
  | Err _ => None
  | Ok packed =>
      let limbs := take 8 (drop (Nat.div AMOUNT_BYTE_OFF 4) packed) in
      if Nat.eqb (length limbs) 8 then Some limbs else None
  end.
Definition attachment (scheme_c words_c : string) (scheme : Z) (words : list Word4) : result Failure (list Word4) :=
  in_context scheme_c (attachment_scheme scheme) ;? in_context words_c (attachment_words words) ;? Ok words.
(** [mint_note_with_fee], up to the note's builder. *)
Definition fee_note (faucet : AccountId) (payload : bytes) (a : Attestation) (fee_limbs : list Z)
    : result Failure FeeNote :=
  let? header := worded "deposit intent payload rejected by the 04 codec" (parse_deposit_intent_header payload) in
  let? recipient_id := worded "remoteRecipient is not a valid account id"
                         (account_id_of_bytes32 (dh_remote_recipient header)) in
  let? amount := worded "amount rejected by the 04 reducer" (reduced_amount (dh_amount header) SCALE_EXP) in
  let? asset := worded "attested amount" (fungible_asset faucet amount) in
  let serial := storage_map_key (dh_nonce header) in
  let tag := account_target_tag recipient_id in
  in_context "mint-note fungible-public storage" (mint_storage (recipient_id, serial) asset tag) ;?
  let? felts := worded "packing the deposit intent" (deposit_intent_to_packed_felts payload) in
  let? intent := attachment "scheme-4 intent attachment scheme" "building the scheme-4 DepositIntent attachment"
                   XUSDC_MINT_INTENT_ATTACHMENT_SCHEME (words_of (padded felts)) in
  let? attestation :=
    attachment "scheme-5 attestation attachment scheme" "building the custom scheme-5 attestation attachment"
      XUSDC_MINT_ATTESTATION_ATTACHMENT_SCHEME
      (words_of (fee_limbs ++ public_key_elements (att_public_key a) ++ signature_felts (att_signature a) ++ [0; 0; 0])) in
  worded "faucet id is not a public network account" (network_account_target faucet) ;?
  Ok {| fe_recipient := recipient_id; fe_serial := serial; fe_asset := asset; fe_tag := tag; fe_intent := intent;
        fe_attestation := attestation |}.

Record DeployParams := {
  dep_owner : AccountId;
  dep_pauser : AccountId;
  dep_manager : AccountId;
  dep_blk_manager : AccountId;
  dep_max_supply : Z;
  dep_domain : DomainParams;
}.

(** The client's calls. [execute_transaction] runs a transaction without submitting it. *)
Class HarnessNode (W : Type) := {
  sync_state : W -> result string unit * W;
  get_account_details : AccountId -> W -> result string (option FaucetAccount) * W;
  submit_new_transaction : AccountId -> TxRequest -> W -> result string bytes * W;
  get_transaction : bytes -> W -> result string (option TxStatus) * W;
  execute_transaction : AccountId -> TxRequest -> W -> result string unit * W;
  get_consumable_notes : AccountId -> W -> result string (list FoundNote) * W;
  get_account : AccountId -> W -> result string (option (list (AccountId * Z))) * W;
  nullifier_commit_height : Note -> W -> result string (option Z) * W;
  sync_notes_contains : Z -> Note -> W -> result string bool * W;
  get_sync_height : W -> result string Z * W;
  get_notes_by_id : bytes -> W -> result string (list FetchedNote) * W;
  (** [SyncTransactions] of an account up to a block, as the records the attester's evidence takes. *)
  sync_transactions : Z -> AccountId -> W -> result string (list TransactionRecord) * W;
  note_id : Note -> bytes;
  note_nullifier : Note -> Nullifier;
  (** A note's constructor: the serial number drawn for it, or why it was refused. *)
  build_note : NoteSpec -> W -> result string Word4 * W;
  request_error : TxRequest -> option string;
  add_account : AccountId -> bool -> W -> result string unit * W;
  now : W -> Z * W;
  sleep : Z -> W -> W;
}.
End payload.

(** ** The driver *)

Section driver.
Context `{SanityLib} {W : Type} `{!HarnessNode W}.

(** The client and the node, the transactions submitted so far, newest first, and the ledger of
    checks. *)
Record Harness := {
  h_world : W;
  h_submitted : list (AccountId * TxRequest);
  h_ledger : Ledger;
}.
Definition set_world (w : W) (h : Harness) : Harness :=
  {| h_world := w; h_submitted := h_submitted h; h_ledger := h_ledger h |}.
Definition push_submitted (s : AccountId * TxRequest) (h : Harness) : Harness :=
  {| h_world := h_world h; h_submitted := s :: h_submitted h; h_ledger := h_ledger h |}.
Definition set_ledger (led : Ledger) (h : Harness) : Harness :=
  {| h_world := h_world h; h_submitted := h_submitted h; h_ledger := led |}.
Abbreviation act A := (io Harness Failure A).

Definition ask {A} (call : W -> result string A * W) : act A := fun h =>
  let '(r, w) := call (h_world h) in
  (map_err (fun e => [e]) r, set_world w h).
Definition with_context {A} (c : string) (m : act A) : act A := io_map_err (cons c) m.
Definition submit (sender : AccountId) (req : TxRequest) : act bytes := fun h =>
  let '(r, w) := submit_new_transaction sender req (h_world h) in
  (map_err (fun e => [e]) r, push_submitted (sender, req) (set_world w h)).
Definition recorded (f : Ledger -> Ledger) : act unit := fun h => (Ok tt, set_ledger (f (h_ledger h)) h).
Definition read_clock : act Z := fun h =>
  let '(t, w) := now (h_world h) in (Ok t, set_world w h).
Definition pause_for (ms : Z) : act unit := fun h =>
  (Ok tt, set_world (sleep ms (h_world h)) h).
Definition build_request (req : TxRequest) (c : string) : act TxRequest :=
  match request_error req with Some e => io_err [c; e] | None => io_ret req end.

(** The waiting loops: look, and past the deadline give up, else pause and look again. *)
Fixpoint poll {A} (fuel : nat) (deadline pause : Z) (timeout : Failure) (look : act (option A)) : act A :=
  match fuel with
  | O => io_err timeout
  | S fuel =>
      let% found := look in
      match found with
      | Some a => io_ret a
      | None =>
          let% t := read_clock in
          if deadline <? t then io_err timeout
          else pause_for pause ;% poll fuel deadline pause timeout look
      end
  end.
(** No wait looks more often than every half second for five minutes. *)
Definition POLLS : nat := 602.
Definition poll_for {A} (limit pause : Z) (timeout : Failure) (look : act (option A)) : act A :=
  let% t := read_clock in poll POLLS (t + limit) pause timeout look.

Definition TX_COMMIT_TIMEOUT : Z := 240000.
Definition PATHN_TIMEOUT : Z := 300000.
Definition NOTE_SYNC_TIMEOUT : Z := 240000.

(** *** Reading the faucet *)

Definition is_zero_word (w : Word4) : bool := bool_decide (w = MARKER_CLEAR).
Definition value_slot (a : FaucetAccount) (name : string) : result Failure Word4 :=
  ok_or (fa_item a name) [String.concat "" ["reading value slot '"; name; "'"]].
Definition token_supply (a : FaucetAccount) : result Failure Z :=
  map_ok (fun '(e0, _, _, _) => e0) (value_slot a token_config_slot).
Definition max_supply (a : FaucetAccount) : result Failure Z :=
  map_ok (fun '(_, e1, _, _) => e1) (value_slot a token_config_slot).
Definition min_burn (a : FaucetAccount) : result Failure Z :=
  map_ok (fun '(e0, _, _, _) => e0)
    (ok_or (fa_item a min_burn_slot) ["reading the stock MinBurnAmount floor slot"%string]).
Definition domain_config (a : FaucetAccount) : result Failure Z :=
  let? w := value_slot a domain_config_slot in
  let '(raw, _, _, _) := w in
  ok_or (try_from_max u32_max raw)
    [String.concat "" ["faucet domain-config slot holds "; decimal raw;
       ", which does not fit a u32 domain id"]].
Definition identifier_config (a : FaucetAccount) : result Failure Word4 :=
  value_slot a IDENTIFIER_CONFIG_SLOT_LABEL.
Definition is_paused (a : FaucetAccount) : result Failure bool :=
  map_ok (fun '(e0, _, _, _) => negb (e0 =? 0)) (value_slot a is_paused_slot).
Definition used_nonce_marker (a : FaucetAccount) (key : Word4) : result Failure Word4 :=
  ok_or (fa_map_item a used_nonces_slot key) ["reading usedNonces"%string].
Definition attester_marker (a : FaucetAccount) (commitment : Word4) : result Failure Word4 :=
  ok_or (fa_map_item a xreserve_attesters_slot commitment) ["reading xReserveAttesters"%string].
Definition owner_config (a : FaucetAccount) : result Failure (AccountId * option AccountId) :=
  let? w := value_slot a owner_config_slot in
  let '(e0, e1, e2, e3) := w in
  let? owner := ok_or (account_id_from_elements e0 e1) ["decoding owner_config current owner"%string] in
  if (e2 =? 0) && (e3 =? 0) then Ok (owner, None)
  else
    let? nominated :=
      ok_or (account_id_from_elements e2 e3) ["decoding owner_config nominated owner"%string] in
    Ok (owner, Some nominated).

Definition of_faucet (faucet_id : AccountId) (asset : AccountId * Z) : bool :=
  bool_decide (asset.1 = faucet_id).
Definition wallet_balance (assets : list (AccountId * Z)) (faucet_id : AccountId) : Z :=
  foldr Z.add 0 (snd <$> List.filter (of_faucet faucet_id) assets).
(** The assets of a note: a burn note carries the faucet's own, a mint or an administration note
    none. *)
Definition note_assets (n : Note) : list (AccountId * Z) :=
  match n with
  | Built (XReserveBurn _ faucet items) _ => [(faucet, bi_amount items)]
  | Built (StockP2id _ target amount) _ => [(target, amount)]
  | Built (BurnWrongAsset _ _ asset_faucet items) _ => [(asset_faucet, bi_amount items)]
  | Built _ _ => []
  | Found n => fn_assets n
  end.
Definition policed_faucet_foreign (n : Note) (faucet_id : AccountId) : bool :=
  existsb (of_faucet faucet_id) (note_assets n).

(** *** Transactions *)

Record SanityDriver := { d_faucet_id : AccountId; d_mint_config : option MintDomainConfig }.

Definition sync : act unit := with_context "syncing client state" (ask sync_state).

Definition fetch_faucet (d : SanityDriver) : act FaucetAccount :=
  sync ;%
  let% found := with_context (String.concat "" ["GetAccount("; account_id_display (d_faucet_id d); ")"])
                  (ask (get_account_details (d_faucet_id d))) in
  io_lift (ok_or found
    [String.append "the node does not recognize the faucet " (account_id_display (d_faucet_id d))]).

Definition look_commit (tx : bytes) : act (option Z) :=
  sync ;%
  let% status := with_context "querying tx status" (ask (get_transaction tx)) in
  let% status := io_lift (ok_or status ["tx not tracked"%string]) in
  match status with
  | Committed block => io_ret (Some block)
  | Discarded cause => io_err [String.append "tx DISCARDED: " cause]
  | Pending => io_ret None
  end.
Definition wait_commit (tx : bytes) : act Z :=
  poll_for TX_COMMIT_TIMEOUT 500 ["tx did not commit"%string] (look_commit tx).

Definition emit (d : SanityDriver) (sender : AccountId) (note : Note) : act Z :=
  let% req := build_request (OwnOutputNotes (policed_faucet_foreign note (d_faucet_id d)) [note])
                "building an emit request" in
  let% tx := with_context "submitting an emit transaction" (submit sender req) in
  wait_commit tx.

Definition emitted (d : SanityDriver) (sender : AccountId) (note : Note) (op : string) : act unit :=
  let% _ := with_context (String.concat "" ["emitting the "; op; " note"]) (emit d sender note) in
  io_ret tt.

(** The faucet, once it is as [ready] asks. *)
Definition look_ready (d : SanityDriver) (ready : FaucetAccount -> bool) : act (option FaucetAccount) :=
  let% account := fetch_faucet d in io_ret (if ready account then Some account else None).
Definition commit_via_ntx (d : SanityDriver) (sender : AccountId) (note : Note) (op : string)
    (ready : FaucetAccount -> bool) : act FaucetAccount :=
  emitted d sender note op ;%
  poll_for PATHN_TIMEOUT 2000 [String.concat "" ["path-N commit of '"; op; "' timed out"]]
    (look_ready d ready).

Definition note_spent_block (note : Note) : act (option Z) :=
  sync ;% with_context "querying nullifier commit heights" (ask (nullifier_commit_height note)).
Definition commit_via_ntx_consumed (d : SanityDriver) (sender : AccountId) (note : Note) (op : string)
    : act Z :=
  emitted d sender note op ;%
  poll_for PATHN_TIMEOUT 2000 [String.concat "" ["path-N consumption of '"; op; "' timed out"]]
    (note_spent_block note).

Definition syncnotes_discovers (tag : Z) (note : Note) : act bool :=
  sync ;% with_context "SyncNotes" (ask (sync_notes_contains tag note)).

(** The faucet's consumption of the note, executed and not submitted. *)
Definition probe_consume (d : SanityDriver) (note : Note) : act Verdict :=
  sync ;%
  let% req := build_request (InputNotes [note]) "building a probe consume request" in
  let% r := io_try (ask (execute_transaction (d_faucet_id d) req)) in
  io_ret (match r with Ok _ => Accepted | Err e => Rejected (show_failure e) end).

Definition carries (faucet_id : AccountId) (amount_units : Z) (n : FoundNote) : bool :=
  existsb (fun a => of_faucet faucet_id a && (a.2 =? amount_units)) (fn_assets n).
Definition look_target (d : SanityDriver) (target : AccountId) (amount_units : Z) : act (option Note) :=
  sync ;%
  let% consumable := with_context "querying the target's consumable notes" (ask (get_consumable_notes target)) in
  io_ret (Found <$> List.find (carries (d_faucet_id d) amount_units) consumable).
Definition wait_for_target_note (d : SanityDriver) (target : AccountId) (amount_units : Z) : act Note :=
  poll_for NOTE_SYNC_TIMEOUT 1000 ["the target did not receive its committed P2ID note"%string]
    (look_target d target amount_units).

Definition target_consume (d : SanityDriver) (target : AccountId) (note : Note) : act Z :=
  let% req := build_request (ConsumeNotes (policed_faucet_foreign note (d_faucet_id d)) [note])
                "building the target consume request" in
  let% tx := with_context "submitting the target consume" (submit target req) in
  wait_commit tx.

Definition balance_of (d : SanityDriver) (account_id : AccountId) : act Z :=
  sync ;%
  let% found := with_context "client get_account" (ask (get_account account_id)) in
  io_ret (match found with Some assets => wallet_balance assets (d_faucet_id d) | None => 0 end).

Definition build (spec : NoteSpec) (c : string) : act Note :=
  let% serial := with_context c (ask (build_note spec)) in io_ret (Built spec serial).
End driver.

Definition SALT_MINT_ROUND : Z := 17.
Definition SALT_MINT_NONROUND : Z := 34.
Definition SALT_MINT_TO_HOLDER : Z := 51.
Definition SALT_WRONG_ATTESTER : Z := 68.
Definition SALT_FORGED_SIG : Z := 85.
Definition SALT_OVER_CAP : Z := 102.
Definition BURN_DEST_DOMAIN : Z := 3.

(** A built note as the harness reads it, and the decoders it calls: those of an earlier release of the
    listener, whose discovery took no separate amount. *)
Class BurnNoteView `{SanityLib} := {
  note_tag_of : Note -> Z;
  note_num_attachments_of : Note -> Z;
  (** [NetworkAccountTarget::try_from(note.attachments())]. *)
  network_account_target_of : Note -> result string AccountId;
  (** [NoteAttachmentScheme::new] of the withdrawal scheme, and the elements of the first attachment
      that has it. *)
  withdrawal_scheme_new : result string Z;
  attachment_elements : Note -> Z -> option (list Z);
  NUM_PAYLOAD_ITEMS : nat;
  decode_burn_payload : list Z -> result string BurnItemsOf;
  (** [validate_discovery] of the tag and the items with the note's sender, for a listener of the burn
      tag and the faucet: the depositor. *)
  listener_config_error : Z -> AccountId -> option string;
  validate_discovery : Z -> list Z -> Note -> Z -> AccountId -> result string AccountId;
  note_id_display : Note -> string;
}.

Section checks.
Context `{BurnNoteView} {W : Type} `{!HarnessNode W}.
Abbreviation act A := (io (Harness (W := W)) Failure A).

Definition u64_range (v : Z) : Z := wrap 64 v.

Definition mint_note_for (sender faucet_id : AccountId) (a : AttesterKey) (recipient : AccountId)
    (amount_units nonce_salt : Z) (config : option MintDomainConfig) : act (Note * bytes) :=
  let payload := mint_payload_opt config recipient amount_units 0 nonce_salt in
  let% note := build (XUsdcMint sender faucet_id payload (attestation_for a payload))
                 "building a production mint note" in
  io_ret (note, payload).
Definition mint_note_forged_sig (sender faucet_id : AccountId) (a : AttesterKey) (recipient : AccountId)
    (amount_units nonce_salt : Z) (config : option MintDomainConfig) : act Note :=
  let payload := mint_payload_opt config recipient amount_units 0 nonce_salt in
  let forged := attestation_over_digest a (replicate 32 238) in
  build (XUsdcMint sender faucet_id payload forged) "building a forged-signature mint note".

Definition burn_items (amount : Z) : result Failure BurnItemsOf :=
  ensure (amount_ok amount) ["valid burn AssetAmount"%string] ;?
  Ok {| bi_amount := amount; bi_dest_domain := BURN_DEST_DOMAIN; bi_dest_recipient := replicate 32 171 |}.

Definition supply_of (d : SanityDriver) : act Z :=
  let% a := fetch_faucet d in io_lift (token_supply a).
(** [token_supply(a).map(..).unwrap_or(false)]. *)
Definition supply_is (p : Z -> bool) (a : FaucetAccount) : bool :=
  match token_supply a with Ok s => p s | Err _ => false end.

(** ** The burn note itself *)

Definition withdrawal_payload_items (note : Note) : result string (list Z) :=
  let? scheme := map_err (String.append "invalid withdrawal scheme: ") withdrawal_scheme_new in
  let? elements := ok_or (attachment_elements note scheme) "missing withdrawal-payload attachment"%string in
  Ok (take NUM_PAYLOAD_ITEMS elements).

(** [0x{v:08X}]. *)
Definition upper_hex (a : ascii) : ascii :=
  if (97 <=? code a) && (code a <=? 102) then ascii_of_N (Z.to_N (code a - 32)) else a.
Definition show_hex32 (v : Z) : string :=
  String.append "0x" (list_str (upper_hex <$> hex_chars (be_bytes 4 v))).

Definition assert_burn_note_structure (note : Note) (faucet_id : AccountId) (expected : BurnItemsOf)
    : result string string :=
  let tag := note_tag_of note in
  ensure (tag =? FIXED_XUSDC_BURN_TAG)
    (String.concat "" ["burn tag "; show_hex32 tag; " != "; show_hex32 FIXED_XUSDC_BURN_TAG]) ;?
  let num := note_num_attachments_of note in
  ensure (num =? 2)
    (String.concat "" ["burn note carries "; decimal num;
       " attachments, expected exactly 2 (routing + withdrawal)"]) ;?
  let? target := map_err (String.append "no decodable NetworkAccountTarget attachment: ")
                   (network_account_target_of note) in
  ensure (bool_decide (target = faucet_id))
    (String.concat "" ["routing attachment targets "; account_id_display target; " != faucet ";
       account_id_display faucet_id]) ;?
  let? items := withdrawal_payload_items note in
  let? decoded := map_err (String.append "DC-7 decode failed: ") (decode_burn_payload items) in
  ensure (bi_amount decoded =? bi_amount expected)
    (String.concat "" ["burn payload amount "; decimal (bi_amount decoded); " != expected ";
       decimal (bi_amount expected)]) ;?
  ensure (bi_dest_domain decoded =? bi_dest_domain expected)
    (String.concat "" ["destDomain "; decimal (bi_dest_domain decoded); " != ";
       decimal (bi_dest_domain expected)]) ;?
  ensure (bool_decide (bi_dest_recipient decoded = bi_dest_recipient expected))
    "destRecipient mismatch"%string ;?
  Ok (String.concat "" ["tag "; show_hex32 tag; ", NetworkAccountTarget + withdrawal payload → faucet, amount=";
        decimal (bi_amount decoded); " destDomain="; decimal (bi_dest_domain decoded);
        " (DC-7 decoded)"]).

Definition assert_attester_consumable (note : Note) (faucet_id : AccountId) : result string string :=
  let? items := withdrawal_payload_items note in
  let? _ := match listener_config_error FIXED_XUSDC_BURN_TAG faucet_id with
            | Some e => Err (String.append "building the attester listener config: " e)
            | None => Ok tt
            end in
  let? depositor := map_err (String.append "attester validate_discovery REJECTED the burn note: ")
                      (validate_discovery (note_tag_of note) items note FIXED_XUSDC_BURN_TAG faucet_id) in
  let? payload := map_err (String.append "attester decode_burn_payload failed: ") (decode_burn_payload items) in
  Ok (String.concat "" ["attester validate_discovery ACCEPTED (depositor "; account_id_display depositor;
        ", amount "; decimal (bi_amount payload); "); decode_burn_payload OK"]).

(** ** Mints *)

Definition show_word4 (w : Word4) : string :=
  let '(a, b, c, e) := w in
  String.concat "" ["["; decimal a; ", "; decimal b; ", "; decimal c; ", "; decimal e; "]"].

Definition mint_and_assert (d : SanityDriver) (relayer_id : AccountId) (a : AttesterKey)
    (recipient_id : AccountId) (amount salt : Z) (id label : string) : act unit :=
  let% supply_before := supply_of d in
  let% made := mint_note_for relayer_id (d_faucet_id d) a recipient_id amount salt (d_mint_config d) in
  let key := nonce_key made.2 in
  let% committed :=
    with_context (String.concat "" ["committing mint "; label; " via path N"])
      (commit_via_ntx d relayer_id made.1 (String.append "mint " label)
         (supply_is (fun s => u64_range (supply_before + amount) <=? s))) in
  let% supply_after := io_lift (token_supply committed) in
  recorded (record id "mint"
    (String.append label ": token_supply rises by EXACTLY the deposit amount (scale-0 identity)")
    (supply_after =? u64_range (supply_before + amount))
    (String.concat "" ["supply "; decimal supply_before; " → "; decimal supply_after; " (Δ ";
       decimal (saturating_sub supply_after supply_before); ", expected "; decimal amount; ")"])) ;%
  let% marker := io_lift (used_nonce_marker committed key) in
  recorded (record (String.append id "-NONCE") "mint"
    (String.append label ": usedNonces[nonce] marker written") (negb (is_zero_word marker))
    (String.append "marker " (show_word4 marker))) ;%
  let dest := String.concat "" [label; ": recipient receives a P2ID of EXACTLY "; decimal amount; " units"] in
  let% received := io_try (wait_for_target_note d recipient_id amount) in
  recorded (record (String.append id "-DEST") "mint" dest (is_ok received)
    match received with
    | Ok _ => String.concat "" ["recipient "; account_id_display recipient_id; " ← "; decimal amount; " units"]
    | Err e => String.append "no matching P2ID: " (hd ""%string e)
    end).

(** ** Negatives *)

Definition mint_rejected (d : SanityDriver) (relayer_id : AccountId) (a : AttesterKey)
    (recipient_id : AccountId) (amount salt : Z) (id area what expected : string) : act unit :=
  let% made := mint_note_for relayer_id (d_faucet_id d) a recipient_id amount salt (d_mint_config d) in
  let% v := probe_consume d made.1 in
  recorded (record_rejection id area what v expected).

Definition negatives_suite (d : SanityDriver) (relayer_id : AccountId)
    (mint_attester wrong_attester : AttesterKey) (recipient_id : AccountId) : act unit :=
  let% supply_before := supply_of d in
  mint_rejected d relayer_id wrong_attester recipient_id MINT_ROUND_UNITS SALT_WRONG_ATTESTER
    "NEG-WRONG-ATTESTER" "attestation" "a mint by a non-allowlisted attester is REJECTED"
    ERR_XRESERVE_DISALLOWED_PUB_KEY ;%
  let% forged := mint_note_forged_sig relayer_id (d_faucet_id d) mint_attester recipient_id
                   MINT_ROUND_UNITS SALT_FORGED_SIG (d_mint_config d) in
  let% v := probe_consume d forged in
  recorded (record_rejection "NEG-FORGED-SIG" "attestation" "a mint with a forged signature is REJECTED"
    v ERR_XRESERVE_SIG_INVALID) ;%
  mint_rejected d relayer_id mint_attester recipient_id MINT_ROUND_UNITS SALT_MINT_ROUND
    "NEG-REPLAY" "fund-safety" "a replayed nonce is REJECTED (no double-mint)"
    ERR_XRESERVE_NONCE_REPLAY ;%
  let% faucet_now := fetch_faucet d in
  let% cap_now := io_lift (max_supply faucet_now) in
  let% supply_now := io_lift (token_supply faucet_now) in
  let over_cap_amount := saturating_add u64_max (saturating_sub cap_now supply_now) 1 in
  mint_rejected d relayer_id mint_attester recipient_id over_cap_amount SALT_OVER_CAP
    "NEG-OVER-CAP" "fund-safety"
    (String.concat "" ["a mint exceeding the faucet's CURRENT cap ("; decimal cap_now; ", supply ";
       decimal supply_now; ") is REJECTED"])
    ERR_SUPPLY_CAP ;%
  let% supply_after := supply_of d in
  recorded (record "NEG-NO-SUPPLY-MOVE" "fund-safety" "no rejected mint moved token_supply"
    (supply_after =? supply_before)
    (String.concat "" ["supply "; decimal supply_before; " → "; decimal supply_after; " (unchanged)"])).

(** ** The burn arc *)

Definition fund_and_burn (d : SanityDriver) (mint_attester : AttesterKey) (relayer_id holder_id : AccountId)
    (amount mint_salt : Z) (id_prefix : string) : act Note :=
  let% mint := mint_note_for relayer_id (d_faucet_id d) mint_attester holder_id amount mint_salt
                 (d_mint_config d) in
  let% supply_before_fund := supply_of d in
  with_context "funding the holder for the burn"
    (commit_via_ntx d relayer_id mint.1 "mint → holder (burn funding)"
       (supply_is (fun s => u64_range (supply_before_fund + amount) <=? s))) ;%
  let% p2id := with_context "holder P2ID" (wait_for_target_note d holder_id amount) in
  with_context "holder consuming its P2ID" (target_consume d holder_id p2id) ;%
  let% holder_bal := balance_of d holder_id in
  recorded (record (String.append id_prefix "-FUND") "burn"
    "the holder holds the minted xUSDC before burning" (amount <=? holder_bal)
    (String.concat "" ["holder balance "; decimal holder_bal; " (need ≥ "; decimal amount; ")"])) ;%
  let% items := io_lift (burn_items amount) in
  let% burn := build (XReserveBurn holder_id (d_faucet_id d) items) "building the production burn note" in
  let% supply_before_burn := supply_of d in
  let target_supply := saturating_sub supply_before_burn amount in
  let% committed :=
    with_context "committing the burn via path N"
      (commit_via_ntx d holder_id burn (String.append "burn " (decimal amount))
         (supply_is (fun s => s =? target_supply))) in
  let% supply := io_lift (token_supply committed) in
  recorded (record (String.append id_prefix "-AMOUNT") "burn"
    "token_supply decrements by EXACTLY the burned amount" (supply =? target_supply)
    (String.concat "" ["supply "; decimal supply_before_burn; " → "; decimal supply; " (Δ -";
       decimal amount; " expected)"])) ;%
  io_ret burn.

(** A judgement's row: its detail, or why it was refused. *)
Definition judged_row (id what : string) (r : result string string) : Ledger -> Ledger :=
  record id "burn" what (is_ok r) match r with Ok detail => detail | Err e => e end.

(** *** The burn's evidence (sanity/evidence.rs) *)

(** The three reads, fetched before the attester's assembler runs. *)
Record Prefetched := {
  pf_note : NoteRecord;
  pf_nullifier : NullifierRecord;
  pf_txs : list TransactionRecord;
}.
(** A program of the attester whose reads the port answers. The port answers nothing else. *)
Fixpoint run_reads {A} (port : Prefetched) (p : prog A) : option A :=
  match p with
  | Ret a => Some a
  | NoteById _ k => run_reads port (k (Ok (pf_note port)))
  | NullifierStatus _ k => run_reads port (k (Ok (pf_nullifier port)))
  | FaucetTransactions _ k => run_reads port (k (Ok (pf_txs port)))
  | _ => None
  end.

Fixpoint find_record (id : bytes) (fetched : list FetchedNote) : option NoteRecord :=
  match fetched with
  | [] => None
  | PublicNote n :: fetched =>
      if bool_decide (cn_id n = id)
      then Some {| nr_note_id := id;
                   nr_details := Some {| pd_nullifier := cn_nullifier n; inclusion_proof := cn_proof n |} |}
      else find_record id fetched
  | PrivateNote id' :: fetched =>
      if bool_decide (id' = id) then Some {| nr_note_id := id; nr_details := None |} else find_record id fetched
  end.
Definition fetch_note_record (id : bytes) : act NoteRecord :=
  let% fetched := with_context (String.concat "" ["GetNotesById("; to_hex id; ")"]) (ask (get_notes_by_id id)) in
  io_lift (ok_or (find_record id fetched)
    [String.concat "" ["the node did not return the committed burn note "; to_hex id; " via GetNotesById"]]).
Definition fetch_faucet_txs (faucet_id : AccountId) : act (list TransactionRecord) :=
  let% tip := with_context "reading the chain tip for SyncTransactions" (ask get_sync_height) in
  with_context (String.concat "" ["SyncTransactions("; account_id_display faucet_id; ")"])
    (ask (sync_transactions tip faucet_id)).

Definition show_package (p : EvidencePackage) : string :=
  String.concat "" ["DC-8 packet assembled: note_id="; to_hex (ev_note_id p); ", nullifier=";
    to_hex (ev_nullifier p); ", block_num="; decimal (ev_block_num p); ", burnTxId="; burn_tx_id p].
Definition assembled (port : Prefetched) (id : bytes) (faucet_id : AccountId) : result Failure string :=
  match run_reads port (assemble_evidence id faucet_id) with
  | Some (Ok package) => Ok (show_package package)
  | _ => Err ["assemble_evidence refused to build a DC-8 packet"%string]
  end.
Definition assert_burn_evidence (burn : Note) (faucet_id : AccountId) : act string :=
  let id := note_id burn in
  let% note := with_context "GetNotesById read failed" (fetch_note_record id) in
  let% spent := with_context "SyncNullifiers read failed" (ask (nullifier_commit_height burn)) in
  let% txs := with_context "SyncTransactions read failed" (fetch_faucet_txs faucet_id) in
  io_lift (assembled
    {| pf_note := note; pf_nullifier := {| nu_nullifier := note_nullifier burn; spent_in_block := spent |};
       pf_txs := txs |} id faucet_id).

Definition burn_and_assert (d : SanityDriver) (mint_attester : AttesterKey)
    (relayer_id holder_id : AccountId) : act unit :=
  let% expected_items := io_lift (burn_items BURN_UNITS) in
  let% burn := fund_and_burn d mint_attester relayer_id holder_id BURN_UNITS SALT_MINT_TO_HOLDER "BURN" in
  recorded (judged_row "BURN-STRUCT" "the burn note is a correct public XReserveBurnNote"
    (assert_burn_note_structure burn (d_faucet_id d) expected_items)) ;%
  recorded (judged_row "BURN-ATTESTER"
    "the burn note is discoverable + decodable by the withdrawal attester"
    (assert_attester_consumable burn (d_faucet_id d))) ;%
  let% found := io_try (syncnotes_discovers FIXED_XUSDC_BURN_TAG burn) in
  recorded (record "BURN-DISCOVER" "burn"
    "the committed burn note is discoverable by exact-tag SyncNotes on the node"
    match found with Ok b => b | Err _ => false end
    match found with
    | Ok true => String.concat "" ["SyncNotes(tag "; show_hex32 FIXED_XUSDC_BURN_TAG; ") returned note ";
                    note_id_display burn]
    | Ok false => "SyncNotes(tag) did NOT return the committed burn note"
    | Err e => show_failure e
    end) ;%
  let% evidence := io_try (assert_burn_evidence burn (d_faucet_id d)) in
  recorded (judged_row "BURN-EVIDENCE"
    "the DC-8 evidence packet (note_id/nullifier/block_num/burnTxId) assembles via the attester's assemble_evidence"
    (map_err show_failure evidence)).
End checks.
