(* ===== verification/Stack.v ===== *)
(** The local node of the validation harness (xusdc-validation/src/stack.rs, config.rs): where it lives, how
    it is started and stopped, and the run that owns it and tears it down on every way out. The node's
    scripts belong to another repository; they are calls of the world. *)
From S2P Require Import Prelude Text Foreign Io Observations LogScan Sanity SanityDriver.
From Stdlib Require Import Ascii.
Local Open Scope Z_scope.
Local Open Scope io_scope.

(** ** Configuration (config.rs) *)

Definition RPC_PORT : Z := 57291.
Definition VALIDATOR_PORT : Z := 50101.
Definition NTX_BUILDER_PORT : Z := 50301.
Definition TX_PROVER_PORT : Z := 50051.
Definition NETWORK_TX_AUTH_TOKEN : string := "lnv-local-network-tx-auth".
Definition DEFAULT_V16_NODE_DIR : string := "/home/agent/work/miden-client-v16".

Definition lnv1 : DomainParams :=
  {| dp_domain := 1313; dp_source_domain := 7; dp_xreserve_contract := replicate 32 193;
     dp_identifier_bytes := replicate 32 29 |}.
Definition lnv1_reinit_attempt : DomainParams :=
  {| dp_domain := 9999; dp_source_domain := 42; dp_xreserve_contract := replicate 32 238;
     dp_identifier_bytes := replicate 32 42 |}.

(** [Path::join] on Unix: an absolute path replaces the one it is joined to. *)
Fixpoint ends_with_slash (s : string) : bool :=
  match s with
  | EmptyString => false
  | String c EmptyString => bool_decide (c = "/"%char)
  | String _ s => ends_with_slash s
  end.
Definition path_join (dir path : string) : string :=
  match path with
  | String "/" _ => path
  | _ =>
      if bool_decide (dir = ""%string) || ends_with_slash dir then String.append dir path
      else String.concat "/" [dir; path]
  end.

Record StackConfig := {
  run_root : string;
  client_repo_dir : string;
  rpc_port : Z;
  validator_port : Z;
  ntx_builder_port : Z;
  tx_prover_port : Z;
  network_tx_auth_token : string;
}.
(** [StackConfig::new], given the value of MIDEN_V16_NODE_DIR. *)
Definition StackConfig_new (node_dir : option string) (root : string) : StackConfig :=
  {| run_root := root; client_repo_dir := default DEFAULT_V16_NODE_DIR node_dir; rpc_port := RPC_PORT;
     validator_port := VALIDATOR_PORT; ntx_builder_port := NTX_BUILDER_PORT; tx_prover_port := TX_PROVER_PORT;
     network_tx_auth_token := NETWORK_TX_AUTH_TOKEN |}.
Definition loopback_url (port : Z) : string := String.append "http://127.0.0.1:" (decimal port).
Definition rpc_url (c : StackConfig) : string := loopback_url (rpc_port c).
Definition validator_url (c : StackConfig) : string := loopback_url (validator_port c).
Definition ntx_builder_url (c : StackConfig) : string := loopback_url (ntx_builder_port c).
Definition tx_prover_url (c : StackConfig) : string := loopback_url (tx_prover_port c).
Definition log_dir (c : StackConfig) : string := path_join (client_repo_dir c) "target/test-node/data/logs".

Record RunConfig := {
  rc_stack : StackConfig;
  rc_max_supply : Z;
  rc_domain_params : DomainParams;
  rc_reinit_params : DomainParams;
  rc_keep_stack : bool;
}.
Definition fresh_under (node_dir : option string) (repo_root track label : string) : RunConfig :=
  let root := path_join (path_join (path_join repo_root "local-node-data") track) label in
  {| rc_stack := StackConfig_new node_dir root; rc_max_supply := 1000000000000; rc_domain_params := lnv1;
     rc_reinit_params := lnv1_reinit_attempt; rc_keep_stack := false |}.
Definition fresh (node_dir : option string) (repo_root label : string) : RunConfig :=
  fresh_under node_dir repo_root "lnv1" label.
Definition set_keep_stack (keep : bool) (c : RunConfig) : RunConfig :=
  {| rc_stack := rc_stack c; rc_max_supply := rc_max_supply c; rc_domain_params := rc_domain_params c;
     rc_reinit_params := rc_reinit_params c; rc_keep_stack := keep |}.

(** ** The node's scripts (stack.rs) *)

Definition RPC_READY_TIMEOUT : Z := 60000.
Definition STOP_TIMEOUT : Z := 30000.

Record Service := { sv_name : string; sv_log_path : string }.

Definition node_build_target_dir (run_root : string) (caller_override : option string) : string :=
  let own := path_join run_root "node-cargo-target" in
  match caller_override with Some dir => if is_blank dir then own else dir | None => own end.

(** A command: the script bash runs, where, with what in its environment and which argument. *)
Record ScriptRun := {
  sr_script : string;
  sr_dir : string;
  sr_path : string;
  sr_tmpdir : string;
  sr_target_dir : string;
  sr_arg : option string;
}.
Inductive ExitStatus : Type := ExitSuccess | ExitFailure (shown : string).

(** The machine the harness runs on. *)
Class StackWorld (W : Type) := {
  env_var : string -> option string;
  port_open : Z -> W -> bool * W;
  path_exists : string -> W -> bool * W;
  create_dir_all : string -> W -> result string unit * W;
  run_bash : ScriptRun -> W -> result string ExitStatus * W;
  (** [println!], and the seconds since the epoch. *)
  say : string -> W -> W;
  unix_secs : W -> Z * W;
}.

Section stack.
Context `{SanityLib} {W : Type} `{!HarnessNode W, !StackWorld W}.
Abbreviation act A := (io (Harness (W := W)) Failure A).

(** A call that cannot fail. *)
Definition observe {A} (call : W -> A * W) : act A := fun h =>
  let '(a, w) := call (h_world h) in (Ok a, set_world w h).

Definition run_node_script (config : StackConfig) (script : string) (extra_arg : option string) : act unit :=
  let script_path := path_join (path_join (client_repo_dir config) "scripts") script in
  let% found := observe (path_exists script_path) in
  if negb found then
    io_err [String.concat "" ["the v16 node script "; script_path;
              " does not exist — set MIDEN_V16_NODE_DIR to the client repo (currently ";
              client_repo_dir config; ")"]]
  else
    let home := default "/home/agent"%string (env_var "HOME") in
    let target_dir := node_build_target_dir (run_root config) (env_var "CARGO_TARGET_DIR") in
    observe (create_dir_all target_dir) ;%
    let% status :=
      with_context (String.append "running " script_path)
        (ask (run_bash {| sr_script := script_path; sr_dir := client_repo_dir config;
                          sr_path := String.concat "" [home; "/.cargo/bin:"; default ""%string (env_var "PATH")];
                          sr_tmpdir := default (String.append home "/tmp") (env_var "TMPDIR");
                          sr_target_dir := target_dir; sr_arg := extra_arg |})) in
    match status with
    | ExitSuccess => io_ret tt
    | ExitFailure shown => io_err [String.concat "" [script_path; " exited with "; shown]]
    end.

(** *** The stack and what owns it *)

Record NodeStack := { ns_config : StackConfig; ns_keep_on_drop : bool; ns_running : bool }.
Abbreviation holding A := (io (NodeStack * Harness (W := W)) Failure A).

Definition outside {A} (m : act A) : holding A := fun '(s, h) =>
  let '(r, h) := m h in (r, (s, h)).
Definition keep_on_drop : holding unit :=
  io_modify (fun '(s, h) =>
    ({| ns_config := ns_config s; ns_keep_on_drop := true; ns_running := ns_running s |}, h)).
Definition not_running (s : NodeStack) : NodeStack :=
  {| ns_config := ns_config s; ns_keep_on_drop := ns_keep_on_drop s; ns_running := false |}.

Definition look_port (want : bool) (port : Z) : act (option unit) :=
  let% open := observe (port_open port) in
  io_ret (if Bool.eqb open want then Some tt else None).

(** The script of [stop_node] is also the one [stop] runs. *)
Definition stop_node (config : StackConfig) : act unit :=
  with_context "stopping the v16 node via stop-test-node.sh" (run_node_script config "stop-test-node.sh" None).
Definition stop : holding unit := fun '(s, h) =>
  if negb (ns_running s) then (Ok tt, (s, h))
  else
    (outside (stop_node (ns_config s)) ;%
     io_modify (fun '(s, h) => (not_running s, h)) ;%
     outside (poll_for STOP_TIMEOUT 100
                [String.concat "" ["port "; decimal (rpc_port (ns_config s));
                   " is still open after stop-test-node.sh — a foreign process holds it"]]
                (look_port false (rpc_port (ns_config s))))) (s, h).
(** [Drop]: stops the node unless it is kept; how that ends is ignored. *)
Definition drop_stack (s : NodeStack) (h : Harness) : Harness :=
  if ns_keep_on_drop s then h else (stop (s, h)).2.2.
(** A block that owns the stack, dropped where the block is left. *)
Definition owning {A} (s : NodeStack) (m : holding A) : act A := fun h =>
  let '(r, (s, h)) := m (s, h) in (r, drop_stack s h).

(** The node's start, up to the script. *)
Definition start_node (config : StackConfig) : act unit :=
  let% used := observe (port_open (rpc_port config)) in
  if used then
    io_err [String.concat "" ["port "; decimal (rpc_port config);
              " is already in use — a previous node is still running; stop it before a fresh run"]]
  else
    with_context "starting the v16 node via start-test-node.sh --background"
      (run_node_script config "start-test-node.sh" (Some "--background"%string)).
Definition started_stack (config : StackConfig) : NodeStack :=
  {| ns_config := config; ns_keep_on_drop := false; ns_running := true |}.
Definition bootstrap_and_start (config : StackConfig) : act NodeStack :=
  start_node config ;%
  fun h =>
    match poll_for RPC_READY_TIMEOUT 250
            [String.concat "" ["the v16 sequencer RPC did not accept connections on port ";
               decimal (rpc_port config); " within 60s"]]
            (look_port true (rpc_port config)) h with
    | (Ok _, h) => (Ok (started_stack config), h)
    | (Err e, h) => let '(_, (s, h)) := stop (started_stack config, h) in (Err e, drop_stack s h)
    end.
Definition services (s : NodeStack) : list Service :=
  (fun name => {| sv_name := name;
                  sv_log_path := path_join (log_dir (ns_config s)) (log_name name) |}) <$> V16_SERVICES.

Definition stop_unless_kept (cfg : RunConfig) : holding unit :=
  if rc_keep_stack cfg then io_ret tt
  else io_map_err (cons "stopping the node stack"%string) stop.
(** A run on a stack of its own: what it does on it, then the stop, then what it does once it is down. *)
Definition on_stack {A B} (cfg : RunConfig) (run : act A) (after : A -> act B) : act B :=
  let% s := with_context "bootstrapping + starting the local node stack" (bootstrap_and_start (rc_stack cfg)) in
  owning s
    ((if rc_keep_stack cfg then keep_on_drop else io_ret tt) ;%
     let% obs := outside run in
     stop_unless_kept cfg ;%
     outside (after obs)).

(** *** lnv_stack *)

Definition println (line : string) : act unit := observe (fun w => (tt, say line w)).
Fixpoint print_all (lines : list string) : act unit :=
  match lines with [] => io_ret tt | line :: lines => println line ;% print_all lines end.

(** [args] without the command's own name. *)
Definition lnv_stack (repo_root : string) (args : list string) : act unit :=
  let under label := path_join (path_join (path_join repo_root "local-node-data") "lnv1") label in
  let configured label := StackConfig_new (env_var "MIDEN_V16_NODE_DIR") (under label) in
  match args with
  | "up"%string :: args =>
      let% label :=
        match args with
        | label :: _ => io_ret label
        | [] => let% seconds := observe unix_secs in io_ret (String.append "manual-" (decimal seconds))
        end in
      let config := configured label in
      let% s := bootstrap_and_start config in
      owning s
        (keep_on_drop ;%
         outside (print_all
           ([String.concat "" ["v16 node UP (rpc "; rpc_url config; ")"];
             String.append "  logs: " (log_dir config)]
            ++ ((fun v => String.concat "" ["  service "; sv_name v; ": "; sv_log_path v]) <$> services s)
            ++ ["stop with: cargo run -p xusdc-validation --bin lnv_stack -- down"%string])))
  | "down"%string :: _ => stop_node (configured "_"%string) ;% println "v16 node stopped"
  | _ => io_err ["usage: lnv_stack up [label] | lnv_stack down"%string]
  end.
End stack.

(** ** A run leaves no node behind *)

(** What stop-test-node.sh promises: it is there, it succeeds, and once it has run the node's port is
    closed and stays so, whatever looks at it and for however long. *)
Class StopsNode `{SanityLib} (W : Type) `{!HarnessNode W, !StackWorld W} (config : StackConfig) (Down : W -> Prop) := {
  script_there script w : (path_exists (path_join (path_join (client_repo_dir config) "scripts") script) w).1 = true;
  script_stops w path tmpdir target :
    let run := {| sr_script := path_join (path_join (client_repo_dir config) "scripts") "stop-test-node.sh";
                  sr_dir := client_repo_dir config; sr_path := path; sr_tmpdir := tmpdir;
                  sr_target_dir := target; sr_arg := None |} in
    (run_bash run w).1 = Ok ExitSuccess /\ Down (run_bash run w).2;
  down_closed w : Down w -> (port_open (rpc_port config) w).1 = false /\ Down (port_open (rpc_port config) w).2;
  down_now w : Down w -> Down (now w).2;
}.

Section torn_down.
Context `{SanityLib} {W : Type} `{!HarnessNode W, !StackWorld W} (config : StackConfig) (Down : W -> Prop).
Context `{!StopsNode W config Down}.
Abbreviation act A := (io (Harness (W := W)) Failure A).
#[local] Arguments path_join : simpl never.
#[local] Arguments String.append : simpl never.
#[local] Arguments node_build_target_dir : simpl never.
Abbreviation taken_down h := (Down (h_world (W := W) h)).

Lemma stop_node_down (h : Harness) :
  exists h', stop_node config h = (Ok tt, h') /\ taken_down h'.
Proof.
  unfold stop_node, with_context, io_map_err, run_node_script, io_bind, observe, ask.
  pose proof (script_there "stop-test-node.sh" (h_world h)) as Hf.
  destruct (path_exists _ _) as [found w]. simpl in Hf. subst found. simpl.
  destruct (create_dir_all _ w) as [made w']. simpl.
  unfold with_context, io_map_err. simpl.
  match goal with |- context [run_bash ?run ?w0] => destruct (script_stops w0 (sr_path run)
    (sr_tmpdir run) (sr_target_dir run)) as [Hr Hd]; simpl in Hr, Hd; destruct (run_bash run w0) as [r w1] end.
  simpl in Hr, Hd. subst r. simpl. eauto.
Qed.

(** The look that follows the script finds the port closed. *)
Lemma port_stays_closed (limit pause : Z) (e : Failure) (h : Harness) :
  taken_down h -> exists h', poll_for limit pause e (look_port false (rpc_port config)) h = (Ok tt, h') /\ taken_down h'.
Proof.
  intros Hh. unfold poll_for, io_bind, read_clock. apply down_now in Hh. destruct (now (h_world h)) as [t w].
  simpl in *. unfold POLLS. change 602%nat with (S 601). cbn [poll].
  unfold io_bind, look_port, observe. simpl. apply down_closed in Hh as [Hp Hd].
  unfold io_bind. simpl. destruct (port_open _ w) as [open w']. simpl in *. subst open. simpl. eauto.
Qed.

Lemma stop_down (s : NodeStack) (h : Harness) :
  ns_config s = config -> ns_running s = true ->
  exists h', stop (s, h) = (Ok tt, (not_running s, h')) /\ taken_down h'.
Proof.
  intros Hc Hr. unfold stop. rewrite Hr, Hc. simpl. unfold io_bind, outside, io_modify.
  destruct (stop_node_down h) as (h1 & -> & H1). simpl.
  match goal with |- context [poll_for _ _ ?e _ _] =>
    destruct (port_stays_closed STOP_TIMEOUT 100 e h1 H1) as (h2 & -> & H2) end. eauto.
Qed.
Lemma drop_down (s : NodeStack) (h : Harness) :
  ns_config s = config -> ns_keep_on_drop s = false -> (ns_running s = true \/ taken_down h) ->
  taken_down (drop_stack s h).
Proof.
  intros Hc Hk Hr. unfold drop_stack. rewrite Hk. destruct (ns_running s) eqn:Es.
  - by destruct (stop_down s h Hc Es) as (h' & -> & Hh).
  - destruct Hr as [|Hh]; [done|]. unfold stop. by rewrite Es.
Qed.

(** A stack that is not running: dropping it does nothing. *)
Lemma drop_stopped (s : NodeStack) (h : Harness) : ns_running s = false -> drop_stack s h = h.
Proof. intros Es. unfold drop_stack, stop. rewrite Es. by destruct (ns_keep_on_drop s). Qed.

(** A start that fails takes down what its script started. *)
Lemma failed_start (h : Harness) :
  match bootstrap_and_start config h with
  | (Ok s, _) => s = started_stack config
  | (Err e, h') => taken_down h' \/ start_node config h = (Err e, h')
  end.
Proof.
  unfold bootstrap_and_start, io_bind. destruct (start_node config h) as [[[]|e] h1]; [|by right].
  destruct (poll_for _ _ _ _ h1) as [[[]|e] h2]; [done|].
  destruct (stop_down (started_stack config) h2 eq_refl eq_refl) as (h3 & -> & Hh). left. by rewrite drop_stopped.
Qed.

(** A run that does not keep its stack leaves no node behind, whatever the run does and wherever it
    fails: unless the port was in use or the start script failed, the node is down at the end. *)
Lemma on_stack_down {A B} cfg (run : act A) (after : A -> act B) (h : Harness) :
  rc_stack cfg = config -> rc_keep_stack cfg = false ->
  (forall a h, taken_down h -> taken_down (after a h).2) ->
  taken_down (on_stack cfg run after h).2 \/ exists e, (start_node config h).1 = Err e.
Proof.
  intros Hc Hk Ha. unfold on_stack, io_bind at 1, with_context, io_map_err at 1. rewrite Hc.
  pose proof (failed_start h) as Hf. destruct (bootstrap_and_start config h) as [[s|e] h1]; simpl in *.
  - left. subst s. unfold owning. rewrite Hk. unfold io_bind at 1, io_ret at 1, io_bind at 1, outside at 1.
    destruct (run h1) as [[a|e] h2].
    + unfold io_bind, stop_unless_kept, io_map_err. rewrite Hk.
      destruct (stop_down (started_stack config) h2 eq_refl eq_refl) as (h3 & -> & Hh). simpl.
      specialize (Ha a h3 Hh). destruct (after a h3) as [r h4]. by apply drop_down; [..|right].
    + apply drop_down; [done..|]. by left.
  - destruct Hf as [Hf| ->]; [by left|right; eauto].
Qed.
End torn_down.
