(* ===== verification/Actors.v ===== *)
(** What a harness run is set up with (xusdc-validation/src/actors.rs, client.rs, deploy.rs): the wallets and
    attester keys of a run and where their secrets go, the client, and the faucet account the production
    builder makes. Keys, keystore, files and the account builder are calls and functions of other crates. *)
From S2P Require Import Prelude Text Foreign Io Observations LogScan Sanity SanityDriver Stack.
From Stdlib Require Import Ascii.
Local Open Scope Z_scope.
Local Open Scope io_scope.

(** Why a file could not be created. *)
Inductive OpenError : Type := AlreadyExists | OpenFailed (e : string).

Class ActorWorld `{SanityLib} (W : Type) := {
  actor_machine :: StackWorld W;
  (** A fresh Falcon key, a 32-byte seed and a fresh secp256k1 key, from the system's entropy. *)
  WalletKey : Type;
  new_wallet_key : W -> WalletKey * W;
  os_seed : W -> bytes * W;
  random_signing_key : W -> SigningKey * W;
  (** The public wallet account of a key. *)
  wallet_account : WalletKey -> bytes -> result string AccountId;
  keystore_add_key : WalletKey -> AccountId -> W -> result string unit * W;
  (** Of a signing key: the secret scalar, the compressed public key, and the key of a scalar. *)
  scalar_of : SigningKey -> bytes;
  sec1_of : SigningKey -> bytes;
  key_from_slice : bytes -> result string SigningKey;
  (** [PublicKey::read_from_bytes] and [to_commitment]; [Word::to_hex]. *)
  commitment_of_sec1 : bytes -> result string Word4;
  word_to_hex : Word4 -> string;
  (** [OpenOptions] with [create_new], the mode and the flags, and the writing of the opened file. *)
  create_new_file : string -> Z -> Z -> W -> result OpenError unit * W;
  write_all : string -> string -> W -> result string unit * W;
  (** The keystore of a directory, and the client built over an RPC port and a store. *)
  open_keystore : string -> W -> result string unit * W;
  build_miden_client : Z -> string -> W -> result string unit * W;
  (** The assembler with the standards library linked in, the assembled xreserve library, its binding to its
      storage slots, the token component, the production components, their auth component, and the account
      they build. *)
  Assembler : Type;
  Library : Type;
  Component : Type;
  Components : Type;
  TokenFaucet : Type;
  TokenName : Type;
  TokenSymbol : Type;
  USDCX_DECIMALS : Z;
  xreserve_assembler : result string Assembler;
  assemble_library : Assembler -> result string Library;
  storage_slot_name : string -> result string string;
  bind_component : Library -> list (string * option Word4) -> string -> result string Component;
  token_name : string -> result string TokenName;
  token_symbol : string -> result string TokenSymbol;
  (** Name, symbol, decimals, largest and initial supply, and whether the largest can be changed. *)
  token_faucet : TokenName -> TokenSymbol -> Z -> Z -> Z -> bool -> result string TokenFaucet;
  stablecoin_components : TokenFaucet -> Component -> AccountId -> AccountId -> AccountId -> AccountId ->
    Z * Z * bytes -> result string Components;
  auth_component : result string Components;
  account_of : bytes -> bool -> bool -> Components -> Components -> result string AccountId;
}.

Section actors.
Context `{SanityLib} {W : Type} `{!HarnessNode W, !ActorWorld W}.
Abbreviation act A := (io (Harness (W := W)) Failure A).

(** A failure of another crate, with the context given to it. *)
Definition lift_in {A} (c : string) (r : result string A) : act A := io_lift (in_context c r).
(** [anyhow!("{c}: {e}")]. *)
Definition lift_as {A} (c : string) (r : result string A) : act A := io_lift (worded c r).

(** ** Secrets (actors.rs) *)

Definition hex_text (b : bytes) : string := list_str (hex_chars b).
Definition O_NOFOLLOW : Z := 131072.
Definition SECRET_MODE : Z := 384.

(** On Unix: only a fresh file, readable by its owner alone. *)
Definition write_secret_file (path contents : string) : act unit :=
  let% opened := observe (create_new_file path SECRET_MODE O_NOFOLLOW) in
  match opened with
  | Ok _ => with_context (String.append "writing " path) (ask (write_all path contents))
  | Err AlreadyExists =>
      io_err [String.concat "" ["refusing to write a secret to "; path; " — the path already exists (a secret is never written over an existing file or symlink). Remove it deliberately or choose a fresh path."]]
  | Err (OpenFailed e) => io_err [String.concat "" ["creating "; path; " fresh with mode 0600"]; e]
  end.

Definition secret_path (run_root label : string) : string :=
  path_join run_root (String.concat "" ["attester-"; label; ".secret.hex"]).
Definition from_signing_key (signing_key : SigningKey) (run_root label : string) (persist : bool) : act AttesterKey :=
  let sec1 := sec1_of signing_key in
  io_lift (ensure (Nat.eqb (length sec1) 33) ["compressed secp256k1 pubkey must be 33 bytes"%string]) ;%
  let% commitment := lift_as "parsing the SEC1 pubkey into miden-crypto" (commitment_of_sec1 sec1) in
  (if persist then write_secret_file (secret_path run_root label) (hex_text (scalar_of signing_key))
   else io_ret tt) ;%
  io_ret {| signing_key := signing_key; pubkey_sec1 := sec1; commitment_word := commitment;
            commitment_hex := word_to_hex commitment |}.
Definition create_attester (run_root label : string) : act AttesterKey :=
  let% key := observe random_signing_key in from_signing_key key run_root label true.
(** The operator's key is kept in memory only. *)
Definition from_secret_scalar (scalar : bytes) (run_root label : string) : act AttesterKey :=
  let% key := lift_as "the supplied attester secret is not a valid secp256k1 scalar" (key_from_slice scalar) in
  from_signing_key key run_root label false.

(** ** Wallets *)

Definition create_wallet : act AccountId :=
  let% key := observe new_wallet_key in
  let% seed := observe os_seed in
  let% account := lift_in "building a wallet account" (wallet_account key seed) in
  let% added := observe (keystore_add_key key account) in
  lift_as "adding the wallet key to the keystore" added ;%
  with_context "registering the wallet with the client" (ask (add_account account false)) ;%
  io_ret account.
Definition create_actors (run_root : string) : act Actors :=
  let% owner := with_context "creating the owner wallet" create_wallet in
  let% pauser := with_context "creating the DOM_PAUSER wallet" create_wallet in
  let% manager := with_context "creating the DOM_MANAGER wallet" create_wallet in
  let% blk_manager := with_context "creating the BLK_MANAGER wallet" create_wallet in
  let% recipient := with_context "creating the recipient wallet" create_wallet in
  let% holder := with_context "creating the holder wallet" create_wallet in
  let% new_pauser := with_context "creating the C5 new-pauser wallet" create_wallet in
  let% attester := with_context "creating local test attester A" (create_attester run_root "a") in
  let% attester_b := with_context "creating local test attester B" (create_attester run_root "b") in
  io_ret {| owner := owner; pauser := pauser; manager := manager; blk_manager := blk_manager;
            recipient := recipient; holder := holder; new_pauser := new_pauser; attester := attester;
            attester_b := attester_b |}.

(** ** The client (client.rs) *)

Definition client_root (stack : StackConfig) (label : string) : string :=
  path_join (run_root stack) (String.append "client-" label).
(** The client's seed is drawn by the call that builds it. *)
Definition build_client (stack : StackConfig) (label : string) : act unit :=
  let root := client_root stack label in
  with_context (String.append "creating " root) (ask (create_dir_all root)) ;%
  let% keystore := observe (open_keystore (path_join root "keystore")) in
  lift_as "creating the filesystem keystore" keystore ;%
  with_context "building the miden client" (ask (build_miden_client (rpc_port stack) (path_join root "store.sqlite3"))).

(** ** The faucet (deploy.rs) *)

Definition first_element (v : Z) : Word4 := (v, 0, 0, 0).
(** The seven slots of the xreserve component: a word each, or an empty map. *)
Definition xreserve_slots (identifier_name : string) (domain : option DomainParams) : list (string * option Word4) :=
  let '(domain_w, source_domain_w, (hi, lo)) :=
    match domain with
    | None => (MARKER_CLEAR, MARKER_CLEAR, (MARKER_CLEAR, MARKER_CLEAR))
    | Some p => (first_element (dp_domain p), first_element (dp_source_domain p), packed_felts (dp_xreserve_contract p))
    end in
  [(domain_config_slot, Some domain_w); (identifier_name, Some MARKER_CLEAR);
   (source_domain_config_slot, Some source_domain_w); (xreserve_contract_hi_slot, Some hi);
   (xreserve_contract_lo_slot, Some lo); (used_nonces_slot, None); (xreserve_attesters_slot, None)].
Definition build_xreserve_component_seeded (domain : option DomainParams) : act Component :=
  let% assembler := lift_as "linking StandardsLib into the xreserve assembler" xreserve_assembler in
  let% library := lift_as "the shipped xreserve library failed to assemble" (assemble_library assembler) in
  let% identifier_name := lift_in "the identifier slot label is a valid constant"
                            (storage_slot_name IDENTIFIER_CONFIG_SLOT_LABEL) in
  lift_in "binding the xreserve library + all seven slots as a component"
    (bind_component library (xreserve_slots identifier_name domain) "xusdc-production-faucet").
Definition build_xreserve_component : act Component := build_xreserve_component_seeded None.

Definition production_components (component : Component) (p : DeployParams) : act Components :=
  let% name := lift_in "the USDCx token name" (token_name "USDCx") in
  let% symbol := lift_in "the USDCX token symbol" (token_symbol "USDCX") in
  io_lift (ensure (amount_ok (dep_max_supply p)) ["invalid max_supply"%string]) ;%
  io_lift (ensure (amount_ok 0) ["zero token_supply"%string]) ;%
  let% faucet := lift_in "building the FungibleFaucet component"
                   (token_faucet name symbol USDCX_DECIMALS (dep_max_supply p) 0 true) in
  let domain := dep_domain p in
  lift_as "composing the production faucet"
    (stablecoin_components faucet component (dep_owner p) (dep_pauser p) (dep_manager p) (dep_blk_manager p)
       (dp_domain domain, dp_source_domain domain, dp_xreserve_contract domain)).
(** A public account with its asset callbacks enabled. *)
Definition build_faucet_account (p : DeployParams) (init_seed : bytes) : act AccountId :=
  let% component := build_xreserve_component in
  let% components := production_components component p in
  let% auth := lift_as "building the frozen AuthNetworkAccount component" auth_component in
  lift_in "building the deployable production faucet account" (account_of init_seed true true auth components).
Definition build_faucet (p : DeployParams) : act AccountId :=
  let% seed := observe os_seed in build_faucet_account p seed.

(** ** What becomes of secrets *)

(** An operator's secret is never written: reading the key asks the world nothing. *)
Theorem supplied_secret_stays scalar root label (h : Harness (W := W)) :
  (from_secret_scalar scalar root label h).2 = h.
Proof.
  unfold from_secret_scalar, from_signing_key, lift_as, io_bind, io_lift.
  destruct (key_from_slice scalar) as [key|e]; simpl; [|done].
  destruct (Nat.eqb _ 33); simpl; [|done]. by destruct (commitment_of_sec1 _).
Qed.

(** What happens to the files of a run that makes its own keys. [R] is any relation of worlds that the calls
    about keys, accounts and the keystore keep to. *)
Section files.
Context (R : W -> W -> Prop) `{!Reflexive R, !Transitive R}.
Definition on_worlds (h h' : Harness (W := W)) : Prop := R (h_world h) (h_world h').
#[local] Instance on_worlds_refl : Reflexive on_worlds.
Proof. intros h. unfold on_worlds. reflexivity. Qed.
#[local] Instance on_worlds_trans : Transitive on_worlds.
Proof. intros h1 h2 h3 H12 H23. unfold on_worlds in *. by etransitivity. Qed.

Lemma keeps_observe {A} (call : W -> A * W) : (forall w, R w (call w).2) -> keeps on_worlds (observe call).
Proof. intros Hc h. unfold observe, on_worlds. specialize (Hc (h_world h)). by destruct (call (h_world h)). Qed.
Lemma keeps_ask {A} (call : W -> result string A * W) : (forall w, R w (call w).2) -> keeps on_worlds (ask call).
Proof. intros Hc h. unfold ask, on_worlds. specialize (Hc (h_world h)). by destruct (call (h_world h)). Qed.

Context (key_kept : forall w, R w (new_wallet_key w).2) (seed_kept : forall w, R w (os_seed w).2)
  (signing_kept : forall w, R w (random_signing_key w).2)
  (keystore_kept : forall k id w, R w (keystore_add_key k id w).2)
  (account_kept : forall id b w, R w (add_account id b w).2).

Lemma wallet_keeps : keeps on_worlds create_wallet.
Proof.
  unfold create_wallet, lift_in, lift_as, with_context.
  repeat (apply keeps_bind; [apply _|..|intros ?]);
    eauto using keeps_observe, keeps_ask, keeps_lift, keeps_ret, keeps_map_err, on_worlds_refl.
Qed.

(** Both keys' secrets: each is written, if at all, to a file that did not exist and that the call which
    created it gave mode 0600; nothing else of the run touches a file. *)
Context (secret_written : forall label contents w w1, (label = "a" \/ label = "b")%string ->
  forall run_root, create_new_file (secret_path run_root label) SECRET_MODE O_NOFOLLOW w = (Ok tt, w1) ->
  R w (write_all (secret_path run_root label) contents w1).2).
Context (refused : forall label w e w1 run_root,
  create_new_file (secret_path run_root label) SECRET_MODE O_NOFOLLOW w = (Err e, w1) -> R w w1).

Lemma attester_keeps run_root label : (label = "a" \/ label = "b")%string ->
  keeps on_worlds (create_attester run_root label).
Proof.
  intros Hl. unfold create_attester, from_signing_key, lift_as.
  apply keeps_bind; [apply _|by apply keeps_observe|intros key].
  apply keeps_bind; [apply _|apply keeps_lift; apply _|intros _].
  apply keeps_bind; [apply _|apply keeps_lift; apply _|intros c].
  apply keeps_bind; [apply _| |intros _; apply keeps_ret; apply _].
  intros h. unfold write_secret_file, io_bind, observe, with_context, io_map_err, ask, on_worlds.
  destruct (create_new_file _ _ _ (h_world h)) as [[[]|[|e]] w1] eqn:Hc; simpl; [|by eapply refused..].
  pose proof (secret_written label (hex_text (scalar_of key)) _ _ Hl run_root Hc) as Hw.
  by destruct (write_all _ _ w1).
Qed.

Theorem secrets_only_in_fresh_files run_root : keeps on_worlds (create_actors run_root).
Proof.
  unfold create_actors, with_context.
  repeat (apply keeps_bind; [apply _|apply keeps_map_err; first [apply wallet_keeps|by apply attester_keeps; auto]
    |intros ?]). apply keeps_ret. apply _.
Qed.
End files.
End actors.
