(* ===== verification/SanityAdmin.v ===== *)
(** The administration checks of the sanity gate with the restore that follows them, and a whole run
    (xusdc-validation/src/sanity/admin.rs, admin_restore.rs, mod.rs, bin/sanity_e2e.rs): the mode, the
    set-up, the faucet under test, the check families, the report and the exit. *)
From S2P Require Import Prelude Text Foreign Io Observations LogScan Sanity SanityDriver Stack Actors.
From Stdlib Require Import Ascii.
Local Open Scope Z_scope.
Local Open Scope io_scope.

Definition SALT_PAUSED_MINT : Z := 119.
Definition SALT_MINT_AFTER_UNPAUSE : Z := 136.
Definition SALT_DISABLED_ATTESTER : Z := 153.
Definition SALT_MINT_TO_HOLDER_2 : Z := 161.
Definition SALT_ENFORCE_CAP : Z := 178.
Definition ERR_MAX_SUPPLY_BELOW_SUPPLY : string := "new max supply is less than current token supply".

(** ** What there is to do about ownership *)

Inductive OwnershipRestore : Type :=
| NothingToRestore
| TransferBack
| CancelNomination
| UnexpectedOwner (id : AccountId).
Definition plan_ownership_restore (cur_owner : AccountId) (nominated : option AccountId)
    (orig_owner ephemeral : AccountId) : OwnershipRestore :=
  if decide (cur_owner = ephemeral) then TransferBack
  else if decide (cur_owner = orig_owner) then
    if decide (nominated = Some ephemeral) then CancelNomination else NothingToRestore
  else UnexpectedOwner cur_owner.

Definition MAX_OWNERSHIP_RECONCILE_ATTEMPTS : nat := 4.

(** [OwnershipOps]: the calls of the reconciliation. *)
Record OwnershipOps (S : Type) := {
  op_observe : io S Failure (AccountId * option AccountId);
  op_transfer_back : io S Failure unit;
  op_cancel_nomination : io S Failure unit;
}.
Arguments op_observe {S}. Arguments op_transfer_back {S}. Arguments op_cancel_nomination {S}.

Inductive OwnershipOutcome : Type :=
| Restored
| OwnerUnexpected (id : AccountId)
| Unresolved (remaining : OwnershipRestore)
| ObserveFailed (err : string).

Definition attempt_label (label : string) (r : result Failure unit) : string :=
  match r with
  | Ok _ => String.append label ": committed"
  | Err e => String.concat "" [label; ": attempt failed ("; show_failure e; ") — re-observing"]
  end.

(** The loop, with the attempts still allowed: [0] is the last cycle, which only verifies. *)
Fixpoint reconcile_from {S} (budget : nat) (ops : OwnershipOps S) (orig_owner ephemeral : AccountId)
    (trace : list string) : io S Failure (OwnershipOutcome * list string) :=
  let% seen := io_try (op_observe ops) in
  match seen with
  | Err e => io_ret (ObserveFailed (show_failure e), trace)
  | Ok (cur_owner, nominated) =>
      match plan_ownership_restore cur_owner nominated orig_owner ephemeral with
      | NothingToRestore => io_ret (Restored, trace)
      | UnexpectedOwner other => io_ret (OwnerUnexpected other, trace)
      | TransferBack =>
          match budget with
          | O => io_ret (Unresolved TransferBack, trace)
          | Datatypes.S budget =>
              let% res := io_try (op_transfer_back ops) in
              reconcile_from budget ops orig_owner ephemeral
                (trace ++ [attempt_label "transfer-back from the ephemeral wallet" res])
          end
      | CancelNomination =>
          match budget with
          | O => io_ret (Unresolved CancelNomination, trace)
          | Datatypes.S budget =>
              let% res := io_try (op_cancel_nomination ops) in
              reconcile_from budget ops orig_owner ephemeral
                (trace ++ [attempt_label "cancel a dangling ephemeral nomination" res])
          end
      end
  end.
Definition reconcile_ownership {S} (ops : OwnershipOps S) (orig_owner ephemeral : AccountId)
    : io S Failure (OwnershipOutcome * list string) :=
  reconcile_from MAX_OWNERSHIP_RECONCILE_ATTEMPTS ops orig_owner ephemeral [].

Section admin.
Context `{BurnNoteView} {W : Type} `{!HarnessNode W}.
Abbreviation act A := (io (Harness (W := W)) Failure A).

(** A reading of the faucet, false when it cannot be read. *)
Definition reads {A} (r : result Failure A) (p : A -> bool) : bool :=
  match r with Ok a => p a | Err _ => false end.

Definition max_supply_config_note (sender faucet_id : AccountId) (cap : Z) : act Note :=
  io_lift (ensure (amount_ok cap) ["invalid maximum supply"%string]) ;%
  build (SetMaxSupplyConfig sender faucet_id cap) "building the maximum-supply configuration note".
Definition min_burn_config_note (sender faucet_id : AccountId) (amount : Z) : act Note :=
  io_lift (ensure (amount_ok amount) ["invalid minimum burn amount"%string]) ;%
  build (MinBurnAmountConfig sender faucet_id amount) "building the minimum-burn configuration note".

Definition set_attester_enabled (d : SanityDriver) (owner_id : AccountId) (commitment : Word4)
    (enabled : bool) (op : string) : act unit :=
  let% note := build (XReserveSetAttester owner_id (d_faucet_id d) commitment (if enabled then 1 else 0))
                 (String.concat "" ["building the "; op; " note"]) in
  with_context (String.append "committing " op)
    (commit_via_ntx d owner_id note op
       (fun a => reads (attester_marker a commitment) (fun m => negb (Bool.eqb (is_zero_word m) enabled)))) ;%
  io_ret tt.
Definition allowlist_attester (d : SanityDriver) (owner_id : AccountId) (a : AttesterKey) : act unit :=
  set_attester_enabled d owner_id (commitment_word a) true "set_attester(mint attester, enabled=1)".

(** ** The checks *)

Definition admin_row (id what detail : string) : act unit := recorded (record id "admin" what true detail).
Definition rejected_row (id what : string) (v : Verdict) (expected : string) : act unit :=
  recorded (record_rejection id "admin" what v expected).
(** A burn of the mandated amount, executed and not submitted. *)
Definition probe_burn (d : SanityDriver) (holder_id : AccountId) (c : string) : act Verdict :=
  let% items := io_lift (burn_items BURN_UNITS) in
  let% note := build (XReserveBurn holder_id (d_faucet_id d) items) c in
  probe_consume d note.

Definition pause_checks (d : SanityDriver) (actors : Actors) (mint_attester : AttesterKey)
    (relayer_id recipient_id : AccountId) : act unit :=
  let pauser_id := pauser actors in
  let% pause := build (XReservePause pauser_id (d_faucet_id d)) "pause note" in
  with_context "pausing"
    (commit_via_ntx d pauser_id pause "pause" (fun a => reads (is_paused a) id)) ;%
  admin_row "ADMIN-PAUSE" "pause sets is_paused" "is_paused = true" ;%
  mint_rejected d relayer_id mint_attester recipient_id MINT_ROUND_UNITS SALT_PAUSED_MINT
    "ADMIN-PAUSE-MINT" "admin" "a mint while paused is REJECTED" ERR_PAUSED ;%
  let% v := probe_burn d (holder actors) "building a burn probe note" in
  rejected_row "ADMIN-PAUSE-BURN" "a burn while paused is REJECTED" v ERR_PAUSED ;%
  let% unpause := build (XReserveUnpause pauser_id (d_faucet_id d)) "unpause note" in
  with_context "unpausing"
    (commit_via_ntx d pauser_id unpause "unpause" (fun a => reads (is_paused a) negb)) ;%
  admin_row "ADMIN-UNPAUSE" "unpause clears is_paused" "is_paused = false" ;%
  mint_and_assert d relayer_id mint_attester recipient_id MINT_ROUND_UNITS SALT_MINT_AFTER_UNPAUSE
    "ADMIN-UNPAUSE-MINT" "mint after unpause".

Definition attester_checks (d : SanityDriver) (actors : Actors) (mint_attester : AttesterKey)
    (relayer_id recipient_id : AccountId) : act unit :=
  let owner_id := owner actors in
  with_context "disabling the mint attester"
    (set_attester_enabled d owner_id (commitment_word mint_attester) false
       "set_attester(mint attester, enabled=0)") ;%
  admin_row "ADMIN-ATTESTER-DISABLE" "set_attester(enabled=0) removes the attester from the allowlist"
    "attester allowlist marker cleared" ;%
  mint_rejected d relayer_id mint_attester recipient_id MINT_ROUND_UNITS SALT_DISABLED_ATTESTER
    "ADMIN-ATTESTER-ROTATED-OUT" "admin" "a mint by the rotated-out (disabled) attester is REJECTED"
    ERR_XRESERVE_DISALLOWED_PUB_KEY ;%
  with_context "re-enabling the mint attester"
    (set_attester_enabled d owner_id (commitment_word mint_attester) true
       "set_attester(mint attester, re-enabled=1)") ;%
  admin_row "ADMIN-ATTESTER-REENABLE" "set_attester(enabled=1) re-adds the attester to the allowlist"
    "attester allowlist marker set again".

Definition min_burn_checks (d : SanityDriver) (actors : Actors) (mint_attester : AttesterKey)
    (relayer_id : AccountId) : act unit :=
  let owner_id := owner actors in
  let% raise := with_context "set_min_burn_size(raise) note"
                  (min_burn_config_note owner_id (d_faucet_id d) RAISED_MIN_BURN) in
  with_context "raising min_burn_size"
    (commit_via_ntx d owner_id raise "set_min_burn_size(raise)"
       (fun a => reads (min_burn a) (Z.eqb RAISED_MIN_BURN))) ;%
  admin_row "ADMIN-MINBURN-RAISE" "set_min_burn_size raises the minimum (read back)"
    (String.append "min_burn_size = " (decimal RAISED_MIN_BURN)) ;%
  let% v := probe_burn d (holder actors) "below-min burn probe" in
  rejected_row "ADMIN-MINBURN-REJECT" "a burn below the raised minimum is REJECTED" v ERR_BURN_BELOW_MIN ;%
  let% lower := with_context "set_min_burn_size(lower) note"
                  (min_burn_config_note owner_id (d_faucet_id d) LOWERED_MIN_BURN) in
  with_context "lowering min_burn_size"
    (commit_via_ntx d owner_id lower "set_min_burn_size(lower)"
       (fun a => reads (min_burn a) (Z.eqb LOWERED_MIN_BURN))) ;%
  admin_row "ADMIN-MINBURN-LOWER" "set_min_burn_size lowers the minimum (read back)"
    (String.append "min_burn_size = " (decimal LOWERED_MIN_BURN)) ;%
  with_context "the at/above-min post-unpause burn"
    (fund_and_burn d mint_attester relayer_id (holder actors) BURN_UNITS SALT_MINT_TO_HOLDER_2
       "ADMIN-BURN-OK") ;%
  io_ret tt.

Definition max_supply_checks (d : SanityDriver) (actors : Actors) (mint_attester : AttesterKey)
    (relayer_id recipient_id : AccountId) : act unit :=
  let owner_id := owner actors in
  let% setcap := with_context "set_max_supply(raise) note"
                   (max_supply_config_note owner_id (d_faucet_id d) RAISED_MAX_SUPPLY) in
  let% acct := with_context "raising max_supply"
                 (commit_via_ntx d owner_id setcap "set_max_supply(raise)"
                    (fun a => reads (max_supply a) (Z.eqb RAISED_MAX_SUPPLY))) in
  let% cap := io_lift (max_supply acct) in
  recorded (record "ADMIN-MAXSUPPLY-RAISE" "admin" "set_max_supply mutates + reads back the cap"
    (cap =? RAISED_MAX_SUPPLY) (String.append "max_supply = " (decimal cap))) ;%
  let% supply_now := supply_of d in
  let tight_cap := u64_range (supply_now + BURN_UNITS) in
  let% tighten := with_context "set_max_supply(tighten) note"
                    (max_supply_config_note owner_id (d_faucet_id d) tight_cap) in
  with_context "tightening max_supply"
    (commit_via_ntx d owner_id tighten "set_max_supply(tighten)"
       (fun a => reads (max_supply a) (Z.eqb tight_cap))) ;%
  mint_rejected d relayer_id mint_attester recipient_id (BURN_UNITS * 2) SALT_ENFORCE_CAP
    "ADMIN-MAXSUPPLY-ENFORCE" "admin" "a mint exceeding the MUTATED (tightened) max_supply is REJECTED"
    ERR_SUPPLY_CAP ;%
  let% supply_guard := supply_of d in
  let% below := with_context "set_max_supply(below current supply) note"
                  (max_supply_config_note owner_id (d_faucet_id d) (saturating_sub supply_guard 1)) in
  let% v := probe_consume d below in
  rejected_row "ADMIN-MAXSUPPLY-BELOW-SUPPLY"
    "set_max_supply BELOW the current token_supply is REJECTED (the mutability guard)" v
    ERR_MAX_SUPPLY_BELOW_SUPPLY.

Definition ownership_checks (d : SanityDriver) (actors : Actors) : act unit :=
  let owner_id := owner actors in
  let% rogue := build (XReserveSetAttester (holder actors) (d_faucet_id d) (commitment_word (attester_b actors)) 1)
                  "unauthorized set_attester note" in
  let% v := probe_consume d rogue in
  rejected_row "ADMIN-OWNER-GATE" "an unauthorized admin note is REJECTED" v ERR_NOT_OWNER ;%
  let new_owner_id := new_pauser actors in
  let% transfer := build (XReserveTransferOwnership owner_id (d_faucet_id d) new_owner_id)
                     "transfer_ownership note" in
  with_context "committing transfer_ownership"
    (commit_via_ntx_consumed d owner_id transfer "transfer_ownership") ;%
  admin_row "ADMIN-OWNER-TRANSFER" "transfer_ownership (step 1) commits"
    (String.append "pending owner ← " (account_id_display new_owner_id)) ;%
  let% accept := build (XReserveAcceptOwnership new_owner_id (d_faucet_id d)) "accept_ownership note" in
  let% done := io_try (commit_via_ntx_consumed d new_owner_id accept "accept_ownership") in
  recorded (record "ADMIN-OWNER-ACCEPT" "admin" "accept_ownership (step 2) completes the 2-step transfer"
    (is_ok done)
    match done with
    | Ok _ => String.append "owner ← " (account_id_display new_owner_id)
    | Err e => show_failure e
    end).

Definition admin_checks (d : SanityDriver) (actors : Actors) (mint_attester : AttesterKey)
    (relayer_id recipient_id : AccountId) : act unit :=
  pause_checks d actors mint_attester relayer_id recipient_id ;%
  attester_checks d actors mint_attester relayer_id recipient_id ;%
  min_burn_checks d actors mint_attester relayer_id ;%
  max_supply_checks d actors mint_attester relayer_id recipient_id ;%
  ownership_checks d actors.

(** ** The restore *)

Definition cancel_nomination (d : SanityDriver) (owner_id : AccountId) : act unit :=
  let% note := build (XReserveTransferOwnership owner_id (d_faucet_id d) owner_id)
                 "transfer_ownership (cancel nomination) note" in
  with_context "committing the nomination cancel"
    (commit_via_ntx_consumed d owner_id note "transfer_ownership (cancel dangling nomination)") ;%
  io_ret tt.
Definition restore_ownership (d : SanityDriver) (from_id to_id : AccountId) : act unit :=
  let% back := build (XReserveTransferOwnership from_id (d_faucet_id d) to_id)
                 "transfer_ownership (restore) note" in
  with_context "committing the ownership restore transfer"
    (commit_via_ntx_consumed d from_id back "transfer_ownership (restore to original owner)") ;%
  let% accept := build (XReserveAcceptOwnership to_id (d_faucet_id d)) "accept_ownership (restore) note" in
  with_context "accepting the ownership restore"
    (commit_via_ntx_consumed d to_id accept "accept_ownership (restore)") ;%
  io_ret tt.

Definition observe_owner (d : SanityDriver) : act (AccountId * option AccountId) :=
  let% acct := fetch_faucet d in io_lift (owner_config acct).
Definition DriverOwnershipOps (d : SanityDriver) (orig_owner ephemeral : AccountId) : OwnershipOps Harness :=
  {| op_observe := observe_owner d;
     op_transfer_back := restore_ownership d ephemeral orig_owner;
     op_cancel_nomination := cancel_nomination d orig_owner |}.

Definition show_restore (r : OwnershipRestore) : string :=
  match r with
  | NothingToRestore => "None"
  | TransferBack => "TransferBack"
  | CancelNomination => "CancelNomination"
  | UnexpectedOwner id => String.concat "" ["UnexpectedOwner("; account_id_display id; ")"]
  end.
Definition restore_ownership_to_original (d : SanityDriver) (orig_owner ephemeral : AccountId) : act unit :=
  let% ended := reconcile_ownership (DriverOwnershipOps d orig_owner ephemeral) orig_owner ephemeral in
  let steps := match ended.2 with
               | [] => ""%string
               | trace => String.concat "" [" ["; String.concat "; " trace; "]"]
               end in
  recorded (record "ADMIN-OWNER-RESTORE" "admin"
    "ownership restored to the ORIGINAL owner (the ephemeral wallet retains no control)"
    match ended.1 with Restored => true | _ => false end
    match ended.1 with
    | Restored =>
        String.concat "" ["owner = "; account_id_display orig_owner;
          "; the ephemeral wallet retains no control"; steps]
    | OwnerUnexpected other =>
        String.concat "" ["faucet owned by an UNEXPECTED account "; account_id_display other;
          " (neither the original owner nor the ephemeral wallet) — cannot restore"; steps]
    | Unresolved remaining =>
        String.concat "" ["RESTORE UNRESOLVED after "; decimal 4; " reconcile attempts — still needs ";
          show_restore remaining; "; the ephemeral wallet may retain control"; steps]
    | ObserveFailed e =>
        String.concat "" ["RESTORE UNVERIFIED — could not read the on-chain owner: "; e; steps]
    end).

Definition restore_unpause (d : SanityDriver) (pauser_id : AccountId) : act unit :=
  let% note := build (XReserveUnpause pauser_id (d_faucet_id d)) "unpause note (restore)" in
  let% _ := commit_via_ntx d pauser_id note "unpause (restore)" (fun a => reads (is_paused a) negb) in
  io_ret tt.
Definition restore_min_burn (d : SanityDriver) (owner_id : AccountId) (target : Z) : act unit :=
  let% note := with_context "set_min_burn_size(restore) note"
                 (min_burn_config_note owner_id (d_faucet_id d) target) in
  let% _ := commit_via_ntx d owner_id note "set_min_burn_size(restore)"
              (fun a => reads (min_burn a) (Z.eqb target)) in
  io_ret tt.
Definition restore_max_supply (d : SanityDriver) (owner_id : AccountId) (target : Z) : act unit :=
  let% note := with_context "set_max_supply(restore) note"
                 (max_supply_config_note owner_id (d_faucet_id d) target) in
  let% _ := commit_via_ntx d owner_id note "set_max_supply(restore)"
              (fun a => reads (max_supply a) (Z.eqb target)) in
  io_ret tt.

(** One step of the policy restore, when it is needed: whether it went well and what it did. *)
Definition restore_step (needed : bool) (m : act unit) (done failed : string) : act (bool * list string) :=
  if needed then
    let% r := io_try m in
    io_ret match r with
           | Ok _ => (true, [done])
           | Err e => (false, [String.concat "" [failed; " FAILED ("; show_failure e; ")"]])
           end
  else io_ret (true, []).

Definition restore_faucet (d : SanityDriver) (actors : Actors) (mint_attester : AttesterKey)
    (orig_min_burn orig_max_supply : Z) : act unit :=
  let owner_id := owner actors in
  restore_ownership_to_original d owner_id (new_pauser actors) ;%
  let% read := io_try (fetch_faucet d) in
  match read with
  | Err e =>
      recorded (record "ADMIN-RESTORE" "admin" "faucet restored to the pre-run owner + policy" false
        (String.append "RESTORE FAILED — could not read the faucet: " (show_failure e)))
  | Ok acct =>
      let% unpaused := restore_step (reads (is_paused acct) id) (restore_unpause d (pauser actors))
                         "unpaused" "unpause" in
      let% allowed :=
        restore_step (reads (attester_marker acct (commitment_word mint_attester)) is_zero_word)
          (set_attester_enabled d owner_id (commitment_word mint_attester) true
             "set_attester(restore, enabled=1)")
          "mint attester re-allowlisted" "attester re-allowlist" in
      let% floor :=
        restore_step (negb (reads (min_burn acct) (Z.eqb orig_min_burn)))
          (restore_min_burn d owner_id orig_min_burn)
          (String.append "min_burn_size ← " (decimal orig_min_burn)) "min_burn_size restore" in
      let supply_now := match token_supply acct with Ok s => s | Err _ => 0 end in
      let restored_max := Z.max orig_max_supply supply_now in
      let% cap :=
        restore_step (negb (reads (max_supply acct) (Z.eqb restored_max)))
          (restore_max_supply d owner_id restored_max)
          (if restored_max =? orig_max_supply then String.append "max_supply ← " (decimal orig_max_supply)
           else String.concat "" ["max_supply ← "; decimal restored_max; " (orig "; decimal orig_max_supply;
                  " < supply "; decimal supply_now; " after test-minting)"])
          "max_supply restore" in
      let actions := unpaused.2 ++ allowed.2 ++ floor.2 ++ cap.2 in
      recorded (record "ADMIN-POLICY-RESTORE" "admin"
        "faucet policy restored to the pre-run deployment values (unpaused, attester allowlisted, min/max)"
        (unpaused.1 && allowed.1 && floor.1 && cap.1)
        match actions with
        | [] => "no policy drift to restore (faucet already at the pre-run values)"
        | _ => String.concat "; " actions
        end)
  end.

(** The checks, then the restore whatever they returned; their error is the suite's. *)
Definition admin_suite (d : SanityDriver) (actors : Actors) (mint_attester : AttesterKey)
    (relayer_id recipient_id : AccountId) : act unit :=
  let% policy_before := fetch_faucet d in
  let% orig_min_burn := io_lift (min_burn policy_before) in
  let% orig_max_supply := io_lift (max_supply policy_before) in
  let% checked := io_try (admin_checks d actors mint_attester relayer_id recipient_id) in
  restore_faucet d actors mint_attester orig_min_burn orig_max_supply ;%
  io_lift checked.
End admin.

Record SanityConfig := {
  sc_rpc_url : string;
  sc_faucet_id : option AccountId;
  sc_run_root : string;
  sc_attester_secret : option bytes;
  sc_node_log_dir : option string;
}.

(** What a run needs besides the node: the client built at a parsed URL, keys and accounts, and the
    log directory. *)
Class RunSetup `{SanityLib} (W : Type) := {
  setup_actors :: ActorWorld W;
  open_client : string * string * option Z -> string -> W -> result string unit * W;
  read_log_dir : string -> W -> LogDir * W;
}.

Definition show_scan_error (e : ScanError) : string :=
  match e with
  | ReadingDir dir => String.append "reading the log dir " dir
  | ReadingLog name => String.append "reading the service log " name
  end.

Section run.
Context `{BurnNoteView} {W : Type} `{!HarnessNode W, !RunSetup W}.
Abbreviation act A := (io (Harness (W := W)) Failure A).

Definition register_existing_faucet (id : AccountId) : act unit :=
  let% found := with_context "GetAccount for the supplied --faucet-id" (ask (get_account_details id)) in
  let% _ := io_lift (ok_or found ["the node does not recognize the supplied faucet"%string]) in
  with_context "registering the supplied faucet with the client" (ask (add_account id true)).

Definition look_commit_bare (tx : bytes) : act (option Z) :=
  with_context "sync while waiting for a tx" (ask sync_state) ;%
  let% status := ask (get_transaction tx) in
  let% status := io_lift (ok_or status ["tx not tracked"%string]) in
  match status with
  | Committed block => io_ret (Some block)
  | Discarded cause => io_err [String.append "tx DISCARDED: " cause]
  | Pending => io_ret None
  end.
(** The wait before there is a driver. *)
Definition wait_commit_bare (tx : bytes) : act Z :=
  poll_for TX_COMMIT_TIMEOUT 500 ["tx did not commit"%string] (look_commit_bare tx).

Definition deploy_fresh_faucet (actors : Actors) : act AccountId :=
  let owner_id := owner actors in
  let% faucet_id := build_faucet {| dep_owner := owner_id; dep_pauser := pauser actors;
                           dep_manager := manager actors; dep_blk_manager := blk_manager actors;
                           dep_max_supply := DEPLOY_MAX_SUPPLY;
                           dep_domain := lnv2_domain_params |} in
  let% note1 := build (XReserveIdentifierInit owner_id faucet_id) "building the identifier_init note" in
  let% emit1 := build_request (OwnOutputNotes false [note1]) "building the owner identifier_init emit" in
  let% emit1_tx := with_context "submitting the owner identifier_init emit" (submit owner_id emit1) in
  wait_commit_bare emit1_tx ;%
  with_context "registering the new faucet account with the client" (ask (add_account faucet_id false)) ;%
  let% deploy := build_request (InputNotes [note1]) "building the deploy request" in
  let% deploy_tx := with_context "submitting the faucet deploy (+identifier_init) transaction"
                      (submit faucet_id deploy) in
  wait_commit_bare deploy_tx ;%
  io_ret faucet_id.

Definition resolve_deployed_mint_config (d : SanityDriver) (faucet_id : AccountId) : act MintDomainConfig :=
  let% faucet := fetch_faucet d in
  let% domain := io_lift (domain_config faucet) in
  let config := for_deployed_faucet domain faucet_id in
  let% stored_identifier := io_lift (identifier_config faucet) in
  let expected_identifier := storage_map_key (md_remote_token config) in
  io_lift (ensure (bool_decide (stored_identifier = expected_identifier))
    ["the deployed faucet's stored identifier key does not match its own ID's"%string]) ;%
  io_ret config.

Definition mode_failure (e : ModeError) : Failure :=
  match e with RemoteFreshDeploy url =>
    [String.concat "" ["REFUSED: a fresh deploy + the DESTRUCTIVE admin suite is a LOCAL-only action, but rpc_url '";
       url; "' is not a loopback node. Devnet deployment is OUT OF SCOPE — target an ALREADY-deployed faucet with a faucet id (the non-destructive re-check) instead."]]
  end.
Definition url_failure (e : UrlError) : Failure :=
  match e with
  | BadPort url => [String.concat "" ["parsing the RPC port from '"; url; "'"]]
  | NoHost url => [String.concat "" ["could not parse a host from RPC URL '"; url; "'"]]
  end.

Definition scan_node_logs (dir : string) : act unit := fun h =>
  let '(files, w) := read_log_dir dir (h_world h) in
  (Ok tt, set_ledger (log_check show_scan_error dir files (h_ledger h)) (set_world w h)).

(** The supplied attester key, when there is one. *)
Definition supplied_key (cfg : SanityConfig) : act (option AttesterKey) :=
  match sc_attester_secret cfg with
  | Some scalar =>
      let% key := with_context "loading the supplied attester secret"
                    (from_secret_scalar scalar (sc_run_root cfg) "supplied") in
      io_ret (Some key)
  | None => io_ret None
  end.

(** The check families, in order; administration only when the mode says so. *)
Definition run_checks (d : SanityDriver) (mode : RunMode) (actors : Actors) (mint_attester : AttesterKey)
    : act unit :=
  let relayer_id := manager actors in
  (if deployed_fresh mode then allowlist_attester d (owner actors) mint_attester else io_ret tt) ;%
  mint_and_assert d relayer_id mint_attester (recipient actors) MINT_ROUND_UNITS SALT_MINT_ROUND
    "MINT-ROUND" "100 xUSDC (round)" ;%
  mint_and_assert d relayer_id mint_attester (recipient actors) MINT_NONROUND_UNITS SALT_MINT_NONROUND
    "MINT-NONROUND" "123.456789 xUSDC (P0 regression)" ;%
  negatives_suite d relayer_id mint_attester (attester_b actors) (recipient actors) ;%
  burn_and_assert d mint_attester relayer_id (holder actors) ;%
  (if run_admin mode then admin_suite d actors mint_attester relayer_id (recipient actors) else io_ret tt).

(** A run from the choice of the faucet on. *)
Definition run_from (cfg : SanityConfig) (node_version : string) (mode : RunMode) (actors : Actors)
    (mint_attester : AttesterKey) (faucet_id : AccountId) : act SanityReport :=
  let d config := {| d_faucet_id := faucet_id; d_mint_config := Some config |} in
  let fresh_config := for_deployed_faucet MINT_DOMAIN faucet_id in
  let% config :=
    if deployed_fresh mode then io_ret fresh_config
    else resolve_deployed_mint_config (d fresh_config) faucet_id in
  run_checks (d config) mode actors mint_attester ;%
  match sc_node_log_dir cfg with Some dir => scan_node_logs dir | None => io_ret tt end ;%
  let% checks := io_gets h_ledger in
  io_ret {| sr_rpc_url := sc_rpc_url cfg; sr_node_version := node_version;
            sr_deployed_fresh := deployed_fresh mode; sr_local_node := local_node mode;
            sr_faucet_id := account_id_display faucet_id; sr_owner_id := account_id_display (owner actors);
            sr_recipient_id := account_id_display (recipient actors);
            sr_holder_id := account_id_display (holder actors);
            sr_attester_commitment_hex := commitment_hex mint_attester;
            sr_attester_supplied := bool_decide (is_Some (sc_attester_secret cfg));
            sr_checks := checks |}.

Definition run_sanity (cfg : SanityConfig) (node_version : string) : act SanityReport :=
  let% mode := io_lift (map_err mode_failure (decide_run_mode (sc_faucet_id cfg) (sc_rpc_url cfg))) in
  let% endpoint := io_lift (map_err url_failure (parse_url_parts (sc_rpc_url cfg))) in
  ask (open_client endpoint (sc_run_root cfg)) ;%
  with_context "initial sync" (ask sync_state) ;%
  let% supplied := supplied_key cfg in
  io_lift (ensure (deployed_fresh mode || bool_decide (is_Some (sc_attester_secret cfg)))
    ["the existing-faucet re-check (--faucet-id) requires the deployed faucet's ALREADY-ALLOWLISTED attester secret via --attester-secret-file <PATH> / SANITY_ATTESTER_SECRET — never on argv"%string]) ;%
  let% actors := with_context "creating local test actors (never Circle keys)" (create_actors (sc_run_root cfg)) in
  let mint_attester := default (attester actors) supplied in
  let% faucet_id :=
    match sc_faucet_id cfg with
    | Some id => register_existing_faucet id ;% io_ret id
    | None => deploy_fresh_faucet actors
    end in
  run_from cfg node_version mode actors mint_attester faucet_id.

(** ** The binary (bin/sanity_e2e.rs) *)

(** From the configuration to the report: the locality boundary again, and the run. *)
Inductive Exit : Type := Ran (report : SanityReport) | Refused | Errored (e : Failure).
Definition sanity_main (cfg : SanityConfig) (node_version : string) (h : Harness) : Exit * Harness :=
  if bool_decide (sc_faucet_id cfg = None) && negb (is_loopback (sc_rpc_url cfg)) then (Refused, h)
  else
    match run_sanity cfg node_version h with
    | (Ok report, h) => (Ran report, h)
    | (Err e, h) => (Errored ("running the sanity suite"%string :: e), h)
    end.
End run.
