(* ===== verification/SanityProps.v ===== *)
(** Properties of the sanity gate: what a run may submit and from which accounts, the reconciliation of the
    faucet's ownership by the driver's own notes over a small chain, and the polls that are enough. *)
From S2P Require Import Prelude Text Foreign Ledger Evidence Listener Programs ListenerProps.
From S2P Require Import Io Observations LogScan Sanity SanityDriver Stack Actors SanityAdmin.
From Stdlib Require Import Ascii.
From stdpp Require countable.
Local Open Scope Z_scope.
Local Open Scope io_scope.

(** ** What a run submits *)

Section submits.
Context `{BurnNoteView} {W : Type} `{!HarnessNode W, !RunSetup W}.
Abbreviation act A := (io (Harness (W := W)) Failure A).

(** The faucet a built note is addressed to. *)
Definition spec_faucet (spec : NoteSpec) : AccountId :=
  match spec with
  | XUsdcMint _ f _ _ | XReserveBurn _ f _ | MintWithFee _ f _ _ _ | BurnWrongAsset _ f _ _
  | XReserveGrantRole _ f _ _ | XReserveRevokeRole _ f _ _ | StockP2id _ f _
  | XReserveSetAttester _ f _ _ | XReservePause _ f
  | XReserveUnpause _ f | XReserveTransferOwnership _ f _ | XReserveAcceptOwnership _ f
  | XReserveIdentifierInit _ f | MinBurnAmountConfig _ f _ | SetMaxSupplyConfig _ f _ => f
  end.
(** A note that asks a faucet for its services and administers nothing: a mint, or a burn. *)
Definition serves (spec : NoteSpec) : bool :=
  match spec with XUsdcMint _ _ _ _ | XReserveBurn _ _ _ => true | _ => false end.

(** What may be submitted: by the accounts [own], notes built as [N] allows and the consumption of notes
    received; by the accounts [I], transactions that take notes in as [N] allows; and no other script. *)
Definition note_allowed (N : NoteSpec -> Prop) (n : Note) : Prop :=
  match n with Built spec _ => N spec | Found _ => False end.
Definition allowed (own : AccountId -> Prop) (N : NoteSpec -> Prop) (I : AccountId -> Prop)
    (s : AccountId * TxRequest) : Prop :=
  match s.2 with
  | OwnOutputNotes _ notes => own s.1 /\ Forall (note_allowed N) notes
  | ConsumeNotes _ _ => own s.1
  | InputNotes notes => I s.1 /\ Forall (note_allowed N) notes
  | CustomScript _ => False
  end.
(** The wallets a run makes for itself. *)
Definition wallet (actors : Actors) (id : AccountId) : Prop :=
  id ∈ [owner actors; pauser actors; manager actors; blk_manager actors; recipient actors; holder actors;
        new_pauser actors].
(** Of a deployed faucet: the run's wallets send mints and burns addressed to it and consume what they
    receive; no account but those wallets submits anything. *)
Definition leaves_alone (actors : Actors) (faucet : AccountId) : AccountId * TxRequest -> Prop :=
  allowed (wallet actors) (fun spec => serves spec = true /\ spec_faucet spec = faucet) (fun _ => False).
(** Of a faucet of the run's own: any note addressed to it, and the faucet's own consumption of such notes. *)
Definition about (actors : Actors) (faucet : AccountId) : AccountId * TxRequest -> Prop :=
  allowed (wallet actors) (fun spec => spec_faucet spec = faucet) (fun account => account = faucet).

Definition submits (P : AccountId * TxRequest -> Prop) (h h' : Harness (W := W)) : Prop :=
  exists new, h_submitted h' = new ++ h_submitted h /\ Forall P new.

#[export] Instance submits_refl P : Reflexive (submits P).
Proof. intros h. by exists []. Qed.
#[export] Instance submits_trans P : Transitive (submits P).
Proof.
  intros a b c (n1 & E1 & F1) (n2 & E2 & F2). exists (n2 ++ n1). rewrite E2, E1, <-app_assoc.
  split; [done|]. by apply Forall_app.
Qed.


Section rules.
Context (P : AccountId * TxRequest -> Prop).
Abbreviation mild := (keeps (submits P)).

(** *** Steps that submit nothing *)

Lemma same_submits (h h' : Harness (W := W)) : h_submitted h' = h_submitted h -> submits P h h'.
Proof. intros He. by exists []. Qed.

Lemma mild_ret {A} (a : A) : mild (io_ret (E := Failure) a).
Proof. apply keeps_ret; typeclasses eauto. Qed.
Lemma mild_lift {A} (r : result Failure A) : mild (io_lift r).
Proof. apply keeps_lift; typeclasses eauto. Qed.
Lemma mild_try {A} (m : act A) : mild m -> mild (io_try (F := Failure) m).
Proof. intros. by apply keeps_try. Qed.
Lemma mild_err {A} (e : Failure) : mild (io_err (A := A) e).
Proof. apply keeps_err; typeclasses eauto. Qed.
Lemma mild_ask {A} (call : W -> result string A * W) : mild (ask call).
Proof. intros h. apply same_submits. unfold ask. by destruct (call (h_world h)). Qed.
Lemma mild_clock : mild read_clock.
Proof. intros h. apply same_submits. unfold read_clock. by destruct (now (h_world h)). Qed.
Lemma mild_pause ms : mild (pause_for ms).
Proof. intros h. by apply same_submits. Qed.
Lemma mild_recorded f : mild (recorded f).
Proof. intros h. by apply same_submits. Qed.
Lemma mild_request req c : mild (build_request req c).
Proof. unfold build_request. destruct (request_error req); [apply mild_err|apply mild_ret]. Qed.
Lemma mild_context {A} c (m : act A) : mild m -> mild (with_context c m).
Proof. intros. by apply keeps_map_err. Qed.
Lemma mild_bind {A B} (m : act A) (k : A -> act B) : mild m -> (forall a, mild (k a)) -> mild (io_bind m k).
Proof. apply keeps_bind. typeclasses eauto. Qed.
Lemma mild_build spec c : mild (build spec c).
Proof. apply mild_bind; [apply mild_context, mild_ask|]. intros. apply mild_ret. Qed.

Lemma mild_poll {A} fuel deadline pause timeout (look : act (option A)) :
  mild look -> mild (poll fuel deadline pause timeout look).
Proof.
  intros Hl. induction fuel as [|fuel IH]; simpl; [apply mild_err|].
  apply mild_bind; [done|]. intros [a|]; [apply mild_ret|].
  apply mild_bind; [apply mild_clock|]. intros t. destruct (deadline <? t); [apply mild_err|].
  apply mild_bind; [apply mild_pause|done].
Qed.

Lemma mild_submit sender req : P (sender, req) -> mild (submit sender req).
Proof.
  intros Hg h. unfold submit. destruct (submit_new_transaction sender req (h_world h)) as [r w].
  exists [(sender, req)]. split; [done|by constructor].
Qed.
End rules.

End submits.

Create HintDb mild.
#[export] Hint Resolve mild_ask mild_clock mild_pause mild_recorded mild_request mild_build mild_ret
  mild_lift mild_err mild_poll : mild.

Section then_rules.
Context `{BurnNoteView} {W : Type} `{!HarnessNode W, !RunSetup W}.
Abbreviation act A := (io (Harness (W := W)) Failure A).
Context (P : AccountId * TxRequest -> Prop).
Abbreviation mild := (keeps (submits P)).

(** A request is submitted as it was built. *)
Lemma mild_request_then {A} req c (k : TxRequest -> act A) : mild (k req) -> mild (io_bind (build_request req c) k).
Proof.
  intros Hk. unfold build_request. destruct (request_error req); [|exact Hk].
  intros h. apply same_submits. done.
Qed.

Lemma mild_assoc {A B C} (m : act A) (k : A -> act B) (k' : B -> act C) :
  mild (io_bind m (fun a => io_bind (k a) k')) -> mild (io_bind (io_bind m k) k').
Proof. intros Hm h. specialize (Hm h). unfold io_bind in *. by destruct (m h) as [[a|e] h1]. Qed.
(** A built note is the one asked for. *)
Lemma mild_build_then {A} spec c (k : Note -> act A) :
  (forall serial, mild (k (Built spec serial))) -> mild (io_bind (build spec c) k).
Proof. intros Hk. apply mild_assoc, mild_bind; [apply mild_context, mild_ask|exact Hk]. Qed.
Lemma mild_ret_then {A B} (a : A) (k : A -> act B) : mild (k a) -> mild (io_bind (io_ret a) k).
Proof. done. Qed.

Lemma mild_mint_then {A} sender faucet key recipient amount salt config (k : Note * bytes -> act A) :
  (forall serial payload a,
     mild (k (Built (XUsdcMint sender faucet payload a) serial, payload))) ->
  mild (io_bind (mint_note_for sender faucet key recipient amount salt config) k).
Proof. intros Hk. apply mild_assoc, mild_build_then. intros serial. by apply mild_ret_then, Hk. Qed.

End then_rules.

(** Walks a method: binds and branches are split, each call is one the database knows. *)
Ltac mild_step :=
  match goal with
  | |- context [fst (_, _)] => progress cbn [fst snd]
  | |- keeps _ (io_bind (build_request _ _) _) => apply mild_request_then
  | |- keeps _ (io_bind (build _ _) _) => apply mild_build_then; intros ?
  | |- keeps _ (io_bind (mint_note_for _ _ _ _ _ _ _) _) => apply mild_mint_then; intros ? ? ?
  | |- keeps _ (io_bind (io_ret _) _) => apply mild_ret_then; cbv beta
  | |- keeps _ (io_bind _ _) => apply mild_bind; [|intros ?]
  | |- keeps _ (with_context _ _) => apply mild_context
  | |- keeps _ (io_try _) => apply mild_try
  | |- keeps _ (if ?b then _ else _) => destruct b
  | |- keeps _ (match ?x with _ => _ end) => destruct x
  | |- keeps _ _ => solve [eauto with mild]
  end.
Ltac mild_walk := repeat mild_step.

Section methods.
Context `{BurnNoteView} {W : Type} `{!HarnessNode W, !RunSetup W}.
Context (own : AccountId -> Prop) (N : NoteSpec -> Prop) (I : AccountId -> Prop) (d : SanityDriver).
Context (N_mint : forall sender payload a, N (XUsdcMint sender (d_faucet_id d) payload a)).
Context (N_burn : forall sender items, N (XReserveBurn sender (d_faucet_id d) items)).
Abbreviation act A := (io (Harness (W := W)) Failure A).
Abbreviation mild := (keeps (submits (allowed own N I))).
#[local] Hint Resolve N_mint N_burn : mild.
#[local] Hint Extern 1 (own _) => assumption : mild.
#[local] Hint Extern 1 (note_allowed _ (Built _ _)) => progress simpl : mild.

(** *** The driver *)

Lemma mild_poll_for {A} limit pause timeout (look : act (option A)) :
  mild look -> mild (poll_for limit pause timeout look).
Proof. intros. unfold poll_for. mild_walk. Qed.
#[local] Hint Resolve mild_poll_for : mild.

Lemma mild_sync : mild sync.
Proof. unfold sync. mild_walk. Qed.
#[local] Hint Resolve mild_sync : mild.
Lemma mild_fetch : mild (fetch_faucet d).
Proof. unfold fetch_faucet. mild_walk. Qed.
#[local] Hint Resolve mild_fetch : mild.
Lemma mild_wait_commit tx : mild (wait_commit tx).
Proof. apply mild_poll_for. unfold look_commit. mild_walk. Qed.
#[local] Hint Resolve mild_wait_commit : mild.

Lemma mild_emit sender note : own sender -> note_allowed N note -> mild (emit d sender note).
Proof.
  intros Ho Hs. apply mild_request_then. mild_walk. apply mild_submit. split; [done|by constructor].
Qed.
Lemma mild_emitted sender note op : own sender -> note_allowed N note -> mild (emitted d sender note op).
Proof. intros. unfold emitted. mild_walk. by apply mild_emit. Qed.
Lemma mild_commit sender note op ready :
  own sender -> note_allowed N note -> mild (commit_via_ntx d sender note op ready).
Proof.
  intros. unfold commit_via_ntx, look_ready. apply mild_bind; [by apply mild_emitted|]. intros _.
  apply mild_poll_for. mild_walk.
Qed.
Lemma mild_probe note : mild (probe_consume d note).
Proof. unfold probe_consume. mild_walk. Qed.
Lemma mild_target_note target amount : mild (wait_for_target_note d target amount).
Proof. apply mild_poll_for. unfold look_target. mild_walk. Qed.
Lemma mild_target_consume target note : own target -> mild (target_consume d target note).
Proof. intros. apply mild_request_then. mild_walk. by apply mild_submit. Qed.
Lemma mild_balance id : mild (balance_of d id).
Proof. unfold balance_of. mild_walk. Qed.
Lemma mild_syncnotes tag note : mild (syncnotes_discovers tag note).
Proof. unfold syncnotes_discovers. mild_walk. Qed.
#[local] Hint Resolve mild_probe mild_target_note mild_target_consume mild_balance mild_syncnotes : mild.

(** *** The check families *)

Lemma mild_supply : mild (supply_of d).
Proof. unfold supply_of. mild_walk. Qed.
#[local] Hint Resolve mild_supply mild_commit : mild.

Lemma mild_mint_and_assert relayer key recipient amount salt id label :
  own relayer -> mild (mint_and_assert d relayer key recipient amount salt id label).
Proof. intros.
  unfold mint_and_assert. mild_walk.
Qed.
Lemma mild_mint_rejected relayer key recipient amount salt id area what expected :
  mild (mint_rejected d relayer key recipient amount salt id area what expected).
Proof. unfold mint_rejected. mild_walk. Qed.
#[local] Hint Resolve mild_mint_and_assert mild_mint_rejected : mild.
Lemma mild_negatives relayer key wrong recipient : mild (negatives_suite d relayer key wrong recipient).
Proof. unfold negatives_suite, mint_note_forged_sig. mild_walk. Qed.

Lemma mild_fund_and_burn key relayer holder amount salt prefix :
  own relayer -> own holder -> mild (fund_and_burn d key relayer holder amount salt prefix).
Proof. intros.
  unfold fund_and_burn. mild_walk.
Qed.
#[local] Hint Resolve mild_negatives mild_fund_and_burn : mild.
Lemma mild_evidence burn faucet_id : mild (assert_burn_evidence burn faucet_id).
Proof. unfold assert_burn_evidence, fetch_note_record, fetch_faucet_txs. mild_walk. Qed.
#[local] Hint Resolve mild_evidence : mild.
Lemma mild_burn_and_assert key relayer holder :
  own relayer -> own holder -> mild (burn_and_assert d key relayer holder).
Proof. intros. unfold burn_and_assert. mild_walk. Qed.
#[local] Hint Resolve mild_burn_and_assert : mild.

End methods.

(** *** Administration, where any note addressed to the faucet may be submitted *)

Section administration.
Context `{BurnNoteView} {W : Type} `{!HarnessNode W, !RunSetup W}.
Context (d : SanityDriver).
Abbreviation act A := (io (Harness (W := W)) Failure A).
Context (actors : Actors) (mint_attester : AttesterKey) (relayer_id recipient_id : AccountId).
Context (relayer_own : wallet actors relayer_id).
Abbreviation mild := (keeps (submits (W := W) (about actors (d_faucet_id d)))).
Lemma wallet_of id : id ∈ [owner actors; pauser actors; manager actors; blk_manager actors; recipient actors;
  holder actors; new_pauser actors] -> wallet actors id.
Proof. done. Qed.
Ltac own_wallet := first [assumption|apply wallet_of; set_solver +].
#[local] Hint Extern 1 (wallet actors _) => own_wallet : mild.
#[local] Hint Extern 1 (note_allowed _ (Built _ _)) => done : mild.
#[local] Hint Extern 1 (forall _, _ = d_faucet_id d) => done : mild.
#[local] Hint Resolve mild_poll_for mild_sync mild_fetch mild_wait_commit mild_emit mild_emitted mild_commit
  mild_probe mild_supply : mild.
#[local] Hint Extern 1 (keeps _ (mint_and_assert _ _ _ _ _ _ _ _)) =>
  apply mild_mint_and_assert; first [done|own_wallet] : mild.
#[local] Hint Extern 1 (keeps _ (mint_rejected _ _ _ _ _ _ _ _ _ _)) => by apply mild_mint_rejected : mild.
#[local] Hint Extern 1 (keeps _ (fund_and_burn _ _ _ _ _ _ _)) =>
  apply mild_fund_and_burn; first [done|own_wallet] : mild.

Lemma mild_spent note : mild (note_spent_block note).
Proof. unfold note_spent_block. mild_walk. Qed.
#[local] Hint Resolve mild_spent : mild.
Lemma mild_consumed sender spec serial op :
  wallet actors sender -> spec_faucet spec = d_faucet_id d ->
  mild (commit_via_ntx_consumed d sender (Built spec serial) op).
Proof. intros. unfold commit_via_ntx_consumed. mild_walk. Qed.
#[local] Hint Extern 1 (keeps _ (commit_via_ntx_consumed _ _ _ _)) =>
  apply mild_consumed; first [done|own_wallet] : mild.

(** A configuration note, once built, is addressed as asked. *)
Lemma mild_checked_then {A} (ok : result Failure unit) c c' spec (k : Note -> act A) :
  (forall serial, mild (k (Built spec serial))) ->
  mild (io_bind (with_context c (io_lift ok ;% build spec c')) k).
Proof.
  intros Hk h. unfold io_bind, with_context, io_map_err, io_lift, build, ask, io_ret.
  destruct ok; [|by apply same_submits]. unfold io_bind, with_context, io_map_err.
  destruct (build_note spec (h_world h)) as [[serial|e] w]; [|by apply same_submits].
  exact (Hk serial (set_world w h)).
Qed.

Lemma mild_set_attester owner_id commitment enabled op :
  wallet actors owner_id -> mild (set_attester_enabled d owner_id commitment enabled op).
Proof. intros. unfold set_attester_enabled. mild_walk. Qed.
#[local] Hint Resolve mild_set_attester : mild.
Lemma mild_admin_row id what detail : mild (admin_row id what detail).
Proof. apply mild_recorded. Qed.
Lemma mild_rejected_row id what v expected : mild (rejected_row id what v expected).
Proof. apply mild_recorded. Qed.
Lemma mild_probe_burn holder_id c : wallet actors holder_id -> mild (probe_burn d holder_id c).
Proof. intros. unfold probe_burn. mild_walk. Qed.
#[local] Hint Resolve mild_admin_row mild_rejected_row mild_probe_burn : mild.

Lemma mild_pause_checks : mild (pause_checks d actors mint_attester relayer_id recipient_id).
Proof. unfold pause_checks. mild_walk. Qed.
Lemma mild_attester_checks : mild (attester_checks d actors mint_attester relayer_id recipient_id).
Proof. unfold attester_checks. mild_walk. Qed.
Lemma mild_min_burn_checks : mild (min_burn_checks d actors mint_attester relayer_id).
Proof. unfold min_burn_checks, min_burn_config_note. repeat (apply mild_checked_then; intros ?) || mild_step. Qed.
Lemma mild_max_supply_checks : mild (max_supply_checks d actors mint_attester relayer_id recipient_id).
Proof. unfold max_supply_checks, max_supply_config_note. repeat (apply mild_checked_then; intros ?) || mild_step. Qed.
Lemma mild_ownership_checks : mild (ownership_checks d actors).
Proof. unfold ownership_checks. mild_walk. Qed.
#[local] Hint Resolve mild_pause_checks mild_attester_checks mild_min_burn_checks mild_max_supply_checks
  mild_ownership_checks : mild.
Lemma mild_admin_checks : mild (admin_checks d actors mint_attester relayer_id recipient_id).
Proof. unfold admin_checks. mild_walk. Qed.

Lemma mild_reconcile budget ops orig ephemeral trace :
  mild (op_observe ops) -> mild (op_transfer_back ops) -> mild (op_cancel_nomination ops) ->
  mild (reconcile_from budget ops orig ephemeral trace).
Proof.
  intros Ho Ht Hc. revert trace. induction budget as [|budget IH]; intros trace; simpl;
    (apply mild_bind; [by apply mild_try|]; intros [[cur nominated]|e]; [|apply mild_ret]);
    destruct (plan_ownership_restore cur nominated orig ephemeral); mild_walk.
Qed.
Lemma mild_restore_ownership orig ephemeral :
  wallet actors orig -> wallet actors ephemeral -> mild (restore_ownership_to_original d orig ephemeral).
Proof.
  intros. unfold restore_ownership_to_original. apply mild_bind; [|intros; apply mild_recorded].
  apply mild_reconcile; cbn [DriverOwnershipOps op_observe op_transfer_back op_cancel_nomination];
    unfold observe_owner, restore_ownership, cancel_nomination; mild_walk.
Qed.
Lemma mild_restore_step needed m dn failed : mild m -> mild (restore_step needed m dn failed).
Proof. intros. unfold restore_step. mild_walk. Qed.
Lemma mild_restore min_b max_s : mild (restore_faucet d actors mint_attester min_b max_s).
Proof.
  unfold restore_faucet. apply mild_bind; [apply mild_restore_ownership; own_wallet|]. intros _.
  apply mild_bind; [mild_walk|]. intros [acct|e]; [|apply mild_recorded].
  repeat (apply mild_bind; [apply mild_restore_step;
    unfold restore_unpause, allowlist_attester, restore_min_burn, restore_max_supply, min_burn_config_note,
      max_supply_config_note; repeat (apply mild_checked_then; intros ?) || mild_step|intros ?]).
  apply mild_recorded.
Qed.
#[local] Hint Resolve mild_admin_checks mild_restore : mild.
Lemma mild_admin_suite : mild (admin_suite d actors mint_attester relayer_id recipient_id).
Proof. unfold admin_suite. mild_walk. Qed.
End administration.

(** *** What a run is set up with is made without submitting anything *)

Section set_up.
Context `{SanityLib} {W : Type} `{!HarnessNode W, !ActorWorld W}.
Lemma mild_observe P {A} (call : W -> A * W) : keeps (submits P) (observe call).
Proof. intros h. apply same_submits. unfold observe. by destruct (call (h_world h)). Qed.
#[local] Hint Resolve mild_observe : mild.
Lemma mild_build_faucet P p : keeps (submits (W := W) P) (build_faucet p).
Proof.
  unfold build_faucet, build_faucet_account, build_xreserve_component, build_xreserve_component_seeded,
    production_components, lift_in, lift_as. mild_walk.
Qed.
Lemma mild_wallet P : keeps (submits (W := W) P) create_wallet.
Proof. unfold create_wallet, lift_in, lift_as. mild_walk. Qed.
Lemma mild_signing_key P key root label persist :
  keeps (submits (W := W) P) (from_signing_key key root label persist).
Proof. unfold from_signing_key, write_secret_file, lift_as. mild_walk. Qed.
#[local] Hint Resolve mild_build_faucet mild_wallet mild_signing_key : mild.
Lemma mild_actors P root : keeps (submits (W := W) P) (create_actors root).
Proof. unfold create_actors, create_attester. mild_walk. Qed.
Lemma mild_client P cfg label : keeps (submits (W := W) P) (build_client cfg label).
Proof. unfold build_client, lift_as. mild_walk. Qed.
End set_up.
#[export] Hint Resolve mild_observe mild_build_faucet mild_wallet mild_signing_key mild_actors mild_client : mild.

(** *** The run *)

Section runs.
Context `{BurnNoteView} {W : Type} `{!HarnessNode W, !RunSetup W}.
Abbreviation act A := (io (Harness (W := W)) Failure A).

Lemma mild_gets P {A} (f : Harness (W := W) -> A) : keeps (submits P) (io_gets (E := Failure) f).
Proof. intros h. by apply same_submits. Qed.
Lemma mild_logs P dir : keeps (submits (W := W) P) (scan_node_logs dir).
Proof. intros h. apply same_submits. unfold scan_node_logs. by destruct (read_log_dir dir (h_world h)). Qed.
Lemma mild_register P id : keeps (submits (W := W) P) (register_existing_faucet id).
Proof. unfold register_existing_faucet. mild_walk. Qed.
Lemma mild_resolve own N I d id : keeps (submits (W := W) (allowed own N I)) (resolve_deployed_mint_config d id).
Proof.
  unfold resolve_deployed_mint_config. apply mild_bind; [apply mild_fetch|]. intros account. mild_walk.
Qed.
#[local] Hint Resolve mild_gets mild_logs mild_register mild_resolve : mild.

Lemma mild_supplied P cfg : keeps (submits (W := W) P) (supplied_key cfg).
Proof. unfold supplied_key, from_secret_scalar, lift_as. mild_walk. Qed.
#[local] Hint Resolve mild_supplied : mild.
Ltac own_wallet := unfold wallet; set_solver +.

(** The checks, for the faucet addressed by what they may submit. *)
Lemma mild_run_checks N I d mode actors key :
  (forall sender payload a, N (XUsdcMint sender (d_faucet_id d) payload a)) ->
  (forall sender items, N (XReserveBurn sender (d_faucet_id d) items)) ->
  (deployed_fresh mode = true \/ run_admin mode = true -> keeps (submits (W := W) (allowed (wallet actors) N I))
     (allowlist_attester d (owner actors) key)
   /\ keeps (submits (W := W) (allowed (wallet actors) N I)) (admin_suite d actors key (manager actors) (recipient actors))) ->
  keeps (submits (W := W) (allowed (wallet actors) N I)) (run_checks d mode actors key).
Proof.
  intros N_mint N_burn Hadmin. unfold run_checks. apply mild_bind.
  { destruct (deployed_fresh mode); [apply Hadmin; by left|apply mild_ret]. }
  intros _. apply mild_bind; [apply mild_mint_and_assert; first [done|own_wallet]|]. intros _.
  apply mild_bind; [apply mild_mint_and_assert; first [done|own_wallet]|]. intros _.
  apply mild_bind; [by apply mild_negatives|]. intros _.
  apply mild_bind; [apply mild_burn_and_assert; first [done|own_wallet]|]. intros _.
  destruct (run_admin mode); [apply Hadmin; by right|apply mild_ret].
Qed.
Lemma mild_checks_deployed d mode actors key :
  deployed_fresh mode = false -> run_admin mode = false ->
  keeps (submits (W := W) (leaves_alone actors (d_faucet_id d))) (run_checks d mode actors key).
Proof. intros Hf Ha. apply mild_run_checks; [done..|]. rewrite Hf, Ha. by intros [?|?]. Qed.
Lemma mild_checks_about d mode actors key :
  keeps (submits (W := W) (about actors (d_faucet_id d))) (run_checks d mode actors key).
Proof.
  apply mild_run_checks; [done..|]. intros _. split; [apply mild_set_attester|apply mild_admin_suite]; own_wallet.
Qed.

Lemma run_from_deployed cfg version mode actors key id :
  deployed_fresh mode = false -> run_admin mode = false ->
  keeps (submits (W := W) (leaves_alone actors id)) (run_from cfg version mode actors key id).
Proof.
  intros Hf Ha. unfold run_from. rewrite Hf. apply mild_bind; [apply mild_resolve|]. intros config.
  apply mild_bind; [by apply (mild_checks_deployed {| d_faucet_id := id; d_mint_config := Some config |})|].
  intros _. mild_walk.
Qed.
Lemma run_from_about cfg version mode actors key id :
  keeps (submits (W := W) (about actors id)) (run_from cfg version mode actors key id).
Proof.
  unfold run_from. apply mild_bind; [destruct (deployed_fresh mode); [apply mild_ret|apply mild_resolve]|].
  intros config.
  apply mild_bind; [apply (mild_checks_about {| d_faucet_id := id; d_mint_config := Some config |})|].
  intros _. mild_walk.
Qed.

(** *** The accounts of a run are the ones it made *)

(** Nothing was submitted, or the run made its wallets, with nothing submitted before, and [T] holds of
    them from that state on. *)
Definition with_own_wallets (root : string) (T : Actors -> Harness (W := W) -> Harness (W := W) -> Prop)
    (h h' : Harness (W := W)) : Prop :=
  h_submitted h' = h_submitted h \/
  exists h0 actors h1, create_actors root h0 = (Ok actors, h1) /\ h_submitted h1 = h_submitted h /\ T actors h1 h'.

Lemma quiet_same {A} (m : act A) h : (forall P, keeps (submits P) m) -> h_submitted (m h).2 = h_submitted h.
Proof. intros Hm. destruct (Hm (fun _ => False) h) as ([|x new] & -> & Hf); [done|by inversion Hf]. Qed.

Lemma own_bind {A B} root T (m : act A) (k : A -> act B) h :
  (forall P, keeps (submits P) m) -> (forall a h1, with_own_wallets root T h1 (k a h1).2) ->
  with_own_wallets root T h (io_bind m k h).2.
Proof.
  intros Hm Hk. pose proof (quiet_same m h Hm) as Hs. unfold io_bind. destruct (m h) as [[a|e] h1]; simpl in *.
  - destruct (Hk a h1) as [He|(h0 & actors & h2 & Hc & Hs2 & Ht)]; [left; congruence|right].
    exists h0, actors, h2. split_and!; [done|congruence|done].
  - by left.
Qed.
Lemma own_actors {B} c root T (k : Actors -> act B) h :
  (forall actors h1, T actors h1 (k actors h1).2) ->
  with_own_wallets root T h (io_bind (with_context c (create_actors root)) k h).2.
Proof.
  intros Hk. pose proof (quiet_same _ h (fun P => mild_actors P root)) as Hs.
  unfold io_bind, with_context, io_map_err. destruct (create_actors root h) as [[actors|e] h1] eqn:Hc; simpl in *.
  - right. by exists h, actors, h1.
  - by left.
Qed.

Lemma mild_register_then {A} P id (k : AccountId -> act A) :
  keeps (submits P) (k id) -> keeps (submits P) (io_bind (register_existing_faucet id ;% io_ret id) k).
Proof. intros Hk. apply mild_assoc, mild_bind; [apply mild_register|]. by intros _. Qed.

Lemma own_ret {A B} root T (a : A) (k : A -> act B) h :
  with_own_wallets root T h (k a h).2 -> with_own_wallets root T h (io_bind (io_ret a) k h).2.
Proof. done. Qed.

Lemma run_deployed cfg version id h : sc_faucet_id cfg = Some id ->
  with_own_wallets (sc_run_root cfg) (fun actors h1 h' => submits (leaves_alone actors id) h1 h')
    h (run_sanity cfg version h).2.
Proof.
  intros Hid. unfold run_sanity. rewrite Hid. apply own_ret.
  do 5 (apply own_bind; [intros; solve [mild_walk]|intros ? ?]).
  apply own_actors. intros actors h5.
  refine ((_ : keeps (submits (leaves_alone actors id)) _) h5).
  apply mild_register_then. by apply run_from_deployed.
Qed.

(** The run's own faucet: the production builder makes it for the run's wallets, next after them. *)
Definition own_params (actors : Actors) : DeployParams :=
  {| dep_owner := owner actors; dep_pauser := pauser actors; dep_manager := manager actors;
     dep_blk_manager := blk_manager actors; dep_max_supply := DEPLOY_MAX_SUPPLY;
     dep_domain := lnv2_domain_params |}.
Definition about_own_faucet (actors : Actors) (h1 h' : Harness (W := W)) : Prop :=
  h_submitted h' = h_submitted h1 \/
  exists faucet h2, build_faucet (own_params actors) h1 = (Ok faucet, h2) /\ submits (about actors faucet) h1 h'.

(** A method that can return one value only. *)
Definition yields {A} (a : A) (m : act A) : Prop := forall h b, (m h).1 = Ok b -> b = a.
Lemma yields_bind {A B} (b : B) (m : act A) (k : A -> act B) :
  (forall a, yields b (k a)) -> yields b (io_bind m k).
Proof. intros Hk h c. unfold io_bind. destruct (m h) as [[a|e] h']; [apply Hk|done]. Qed.
Lemma yields_ret {A} (a : A) : yields a (io_ret a).
Proof. intros h b E. by injection E. Qed.

Lemma mild_wait_bare P tx : keeps (submits (W := W) P) (wait_commit_bare tx).
Proof.
  unfold wait_commit_bare, poll_for. apply mild_bind; [apply mild_clock|]. intros t. apply mild_poll.
  unfold look_commit_bare. mild_walk.
Qed.

(** What follows the building of the faucet. *)
Lemma deploy_own {B} actors (k : AccountId -> act B) h :
  (forall faucet, keeps (submits (about actors faucet)) (k faucet)) ->
  about_own_faucet actors h (io_bind (deploy_fresh_faucet actors) k h).2.
Proof.
  intros Hk. unfold deploy_fresh_faucet. fold (own_params actors).
  pose proof (quiet_same _ h (fun P => mild_build_faucet P (own_params actors))) as Hs.
  unfold io_bind at 1 2. destruct (build_faucet (own_params actors) h) as [[faucet|e] h2] eqn:Hb; simpl in *;
    [right|by left].
  exists faucet, h2. split; [done|].
  match goal with |- context [match ?m h2 with _ => _ end] => set (rest := m) end.
  assert (Hr : keeps (submits (about actors faucet)) rest /\ yields faucet rest).
  { subst rest. split.
    - mild_walk; try apply mild_wait_bare; apply mild_submit; (split; [|by constructor]); [own_wallet|done].
    - repeat (apply yields_bind; intros ?). apply yields_ret. }
  destruct Hr as [Hr Hy]. specialize (Hr h2). specialize (Hy h2).
  destruct (rest h2) as [[f|e] h3]; simpl in *.
  - rewrite (Hy f eq_refl). etrans; [by apply same_submits|]. etrans; [exact Hr|apply Hk].
  - etrans; [by apply same_submits|exact Hr].
Qed.

Lemma run_fresh cfg version h : sc_faucet_id cfg = None ->
  with_own_wallets (sc_run_root cfg) about_own_faucet h (run_sanity cfg version h).2.
Proof.
  intros Hid. unfold run_sanity. rewrite Hid.
  do 6 (apply own_bind; [intros; solve [mild_walk]|intros ? ?]).
  apply own_actors. intros actors hm. apply deploy_own. intros faucet. apply run_from_about.
Qed.

End runs.

(** ** Waiting *)

Section waiting.
Context `{BurnNoteView} {W : Type} `{!HarnessNode W}.
Abbreviation act A := (io (Harness (W := W)) Failure A).
(** A clock that reading and asking do not turn back and that sleeping advances. *)
Context (clock : W -> Z).
Context (now_reads : forall w, (now w).1 = clock w /\ clock w <= clock (now w).2).
Context (sleep_advances : forall ms w, clock w + ms <= clock (sleep ms w)).

Definition steady {A} (look : act A) : Prop :=
  forall h, clock (h_world h) <= clock (h_world (look h).2).

Lemma poll_step {A} fuel deadline pause timeout (look : act (option A)) h :
  poll (S fuel) deadline pause timeout look h =
  match look h with
  | (Err e, h1) => (Err e, h1)
  | (Ok (Some a), h1) => (Ok a, h1)
  | (Ok None, h1) =>
      let t := (now (h_world h1)).1 in
      let h2 := set_world (now (h_world h1)).2 h1 in
      if deadline <? t then (Err timeout, h2)
      else poll fuel deadline pause timeout look (set_world (sleep pause (h_world h2)) h2)
  end.
Proof.
  cbn [poll]. unfold io_bind at 1. destruct (look h) as [[[a|]|e] h1]; try done.
  unfold io_bind at 1, read_clock. destruct (now (h_world h1)) as [t w]. cbn. by destruct (deadline <? t).
Qed.

Lemma poll_enough {A} deadline pause timeout (look : act (option A)) : steady look -> 0 < pause ->
  forall fuel more h, deadline < clock (h_world h) + pause * Z.of_nat fuel ->
  poll (S fuel + more) deadline pause timeout look h = poll (S fuel) deadline pause timeout look h.
Proof.
  intros Hl Hp. induction fuel as [|fuel IH]; intros more h Hd; cbn [Nat.add]; rewrite !poll_step;
    specialize (Hl h); destruct (look h) as [[[a|]|e] h1]; try done; cbn [snd] in Hl; cbv zeta;
    destruct (now_reads (h_world h1)) as [-> Hw].
  - by rewrite (proj2 (Z.ltb_lt _ _)) by lia.
  - destruct (deadline <? _); [done|]. apply (IH more). cbn [h_world set_world].
    pose proof (sleep_advances pause (now (h_world h1)).2). lia.
Qed.

(** The polls allowed are enough: with any more of them every wait the harness makes ends the same, five
    minutes looking every half second, one looking every 250 ms, half a minute looking every 100 ms. *)
Theorem polls_suffice {A} limit pause timeout (look : act (option A)) more h :
  steady look -> 0 < pause -> limit < 601 * pause ->
  (let% t := read_clock in poll (POLLS + more) (t + limit) pause timeout look) h
  = poll_for limit pause timeout look h.
Proof.
  intros Hl Hp Hlim. unfold poll_for, io_bind, read_clock. destruct (now_reads (h_world h)) as [Ht Hw].
  destruct (now (h_world h)) as [t w]. cbn [fst snd] in *.
  change POLLS with (S 601). apply poll_enough; [done|lia|]. cbn [h_world set_world]. lia.
Qed.
End waiting.

(** Owned by the original owner, the ephemeral wallet not nominated. *)
Definition owner_back (orig ephemeral : AccountId) (seen : AccountId * option AccountId) : Prop :=
  seen.1 = orig /\ seen.2 <> Some ephemeral.

Lemma plan_nothing cur nominated orig ephemeral :
  plan_ownership_restore cur nominated orig ephemeral = NothingToRestore ->
  owner_back orig ephemeral (cur, nominated).
Proof.
  unfold plan_ownership_restore, owner_back. intros Hp. repeat case_decide; try discriminate. done.
Qed.
Lemma plan_back cur nominated orig ephemeral : orig <> ephemeral ->
  owner_back orig ephemeral (cur, nominated) ->
  plan_ownership_restore cur nominated orig ephemeral = NothingToRestore.
Proof. unfold plan_ownership_restore, owner_back. intros Hne [Ho Hn]. simpl in *. by repeat case_decide; subst. Qed.

(** [OwnershipOps] over a chain whose owner is the original or the ephemeral one. *)
Section chain.
Context {S : Type} (ops : OwnershipOps S) (orig ephemeral : AccountId).
(** What the chain holds, and how much may still fail. *)
Context (view : S -> AccountId * option AccountId) (left_to_fail : S -> nat).

(** From [s]: an attempt that returns leaves the owner back; one that fails uses up a failure, with the
    owner still one of the two. *)
Definition effective_at (attempt : io S Failure unit) (s : S) : Prop :=
  let '(r, s') := attempt s in
  match r with
  | Ok _ => owner_back orig ephemeral (view s')
  | Err _ => (view s').1 ∈ [orig; ephemeral] /\ (left_to_fail s' < left_to_fail s)%nat
  end.
(** Each attempt is effective in the states the plan makes it in. *)
Record Effective : Prop := {
  effective_observe : forall s, exists s', op_observe ops s = (Ok (view s), s')
    /\ view s' = view s /\ left_to_fail s' = left_to_fail s;
  effective_transfer : forall s, (view s).1 = ephemeral -> effective_at (op_transfer_back ops) s;
  effective_cancel : forall s, view s = (orig, Some ephemeral) -> effective_at (op_cancel_nomination ops) s;
}.

Definition restored_within (n : nat) (trace : list string) (r : result Failure (OwnershipOutcome * list string)) : Prop :=
  exists trace', r = Ok (Restored, trace') /\ (length trace' <= length trace + n)%nat.

Lemma reconcile_back budget s trace : Effective -> orig <> ephemeral -> owner_back orig ephemeral (view s) ->
  let '(r, s') := reconcile_from budget ops orig ephemeral trace s in
  restored_within 0 trace r /\ owner_back orig ephemeral (view s') /\ left_to_fail s' = left_to_fail s.
Proof.
  intros Hh Hne Hb. destruct (effective_observe Hh s) as (s1 & E & Ev & El).
  destruct budget; cbn [reconcile_from]; unfold io_bind, io_try; rewrite E;
    destruct (view s) as [cur nominated] eqn:Es; rewrite plan_back by done;
    (split; [|by rewrite Ev]); exists trace; (split; [done|lia]).
Qed.

Lemma restored_weaken n m trace trace' r :
  (length trace' + n <= length trace + m)%nat -> restored_within n trace' r -> restored_within m trace r.
Proof. intros Hl (t & -> & Ht). exists t. split; [done|lia]. Qed.

(** One attempt: after it the owner is back, or the owner is still one of the two and less may fail. *)
Lemma reconcile_attempt budget attempt label s trace :
  Effective -> orig <> ephemeral -> effective_at attempt s ->
  (forall s trace, (view s).1 ∈ [orig; ephemeral] -> (left_to_fail s < budget)%nat ->
     let '(r, s') := reconcile_from budget ops orig ephemeral trace s in
     restored_within (Datatypes.S (left_to_fail s)) trace r /\ owner_back orig ephemeral (view s')) ->
  (left_to_fail s <= budget)%nat ->
  let '(r, s') :=
    (let% res := io_try attempt in
     reconcile_from budget ops orig ephemeral (trace ++ [attempt_label label res])) s in
  restored_within (Datatypes.S (left_to_fail s)) trace r /\ owner_back orig ephemeral (view s').
Proof.
  intros Hh Hne Ha IH Hlt. unfold effective_at in Ha. unfold io_bind, io_try. destruct (attempt s) as [[u|e] s1].
  - pose proof (reconcile_back budget s1 (trace ++ [attempt_label label (Ok u)]) Hh Hne Ha) as Hb.
    destruct (reconcile_from _ _ _ _ _ s1) as [r s']. destruct Hb as (Hr & Hb & _). split; [|done].
    eapply restored_weaken; [|exact Hr]. rewrite length_app. simpl. lia.
  - destruct Ha as [Hv Hl].
    assert (Hl' : (left_to_fail s1 < budget)%nat) by lia.
    specialize (IH s1 (trace ++ [attempt_label label (Err e)]) Hv Hl').
    destruct (reconcile_from _ _ _ _ _ s1) as [r s']. destruct IH as [Hr Hb]. split; [|done].
    eapply restored_weaken; [|exact Hr]. rewrite length_app. simpl. lia.
Qed.

Lemma reconcile_enough budget : Effective -> orig <> ephemeral -> forall s trace,
  (view s).1 ∈ [orig; ephemeral] -> (left_to_fail s < budget)%nat ->
  let '(r, s') := reconcile_from budget ops orig ephemeral trace s in
  restored_within (Datatypes.S (left_to_fail s)) trace r /\ owner_back orig ephemeral (view s').
Proof.
  intros Hh Hne. induction budget as [|budget IH]; intros s trace Ho Hlt; [lia|].
  cbn [reconcile_from]. unfold io_bind at 1, io_try at 1.
  destruct (effective_observe Hh s) as (s1 & -> & Ev & El). destruct (view s) as [cur nominated] eqn:Es.
  rewrite <-El. unfold plan_ownership_restore. destruct (decide (cur = ephemeral)) as [->|He].
  { apply reconcile_attempt; [done..| |exact IH|lia]. apply Hh. by rewrite Ev. }
  destruct (decide (cur = orig)) as [->|Hc].
  2: { simpl in Ho. apply elem_of_cons in Ho as [->|Ho%list_elem_of_singleton]; congruence. }
  destruct (decide (nominated = Some ephemeral)) as [->|Hn].
  - apply reconcile_attempt; [done..| |exact IH|lia]. by apply Hh.
  - split; [exists trace; split; [done|lia]|]. rewrite Ev. by split.
Qed.
End chain.

(** *** The driver's own attempts *)

(** What the faucet makes of a note of [sender] it takes in, from one ownership (the owner, the nominated
    one) to the next: the owner nominates, or nominates itself and so clears the nomination; the nominated
    one accepts. No other note moves the ownership. *)
Definition takes (faucet sender : AccountId) (spec : NoteSpec) (was is_ : AccountId * option AccountId) : Prop :=
  match spec with
  | XReserveTransferOwnership a f to =>
      a = sender /\ f = faucet /\ was.1 = sender /\ is_.1 = sender
      /\ (is_.2 = Some to \/ to = sender /\ is_.2 = None)
  | XReserveAcceptOwnership a f => a = sender /\ f = faucet /\ was.2 = Some sender /\ is_ = (sender, None)
  | _ => is_ = was
  end.

Section delivery.
Context `{SanityLib} {W : Type} `{!HarnessNode W} (d : SanityDriver) (orig ephemeral : AccountId).
(** The ownership on the chain, and how many calls and deliveries may still fail. *)
Context (owned : W -> AccountId * option AccountId) (failures : W -> nat).

Definition same_chain (w w' : W) : Prop := owned w' = owned w /\ failures w' = failures w.
(** The chain: it shows the ownership it holds; a note delivered was taken in; one that the faucet could
    have taken in fails to be delivered, or to be built, only so many times, and then, whatever of it was
    committed, the owner is still one of the two. A note the faucet refuses fails without that. *)
Record Deliveries : Prop := {
  delivery_sync : forall w, exists w', sync_state w = (Ok tt, w') /\ same_chain w w';
  delivery_read : forall w, exists a w', get_account_details (d_faucet_id d) w = (Ok (Some a), w')
    /\ owner_config a = Ok (owned w) /\ same_chain w w';
  delivery_build : forall spec w, let '(r, w') := build_note spec w in
    owned w' = owned w
    /\ match r with Ok _ => failures w' <= failures w | Err _ => failures w' < failures w end%nat;
  delivery_take : forall sender spec serial op h,
    let '(r, h') := commit_via_ntx_consumed d sender (Built spec serial) op h in
    let w := h_world h in let w' := h_world h' in
    (failures w' <= failures w)%nat
    /\ match r with
       | Ok _ => takes (d_faucet_id d) sender spec (owned w) (owned w')
       | Err _ => ((owned w).1 ∈ [orig; ephemeral] -> (owned w').1 ∈ [orig; ephemeral])
                  /\ ((exists next, takes (d_faucet_id d) sender spec (owned w) next) ->
                      (failures w' < failures w)%nat)
       end;
}.

Lemma observe_reads h : Deliveries ->
  exists h', observe_owner d h = (Ok (owned (h_world h)), h') /\ same_chain (h_world h) (h_world h').
Proof.
  intros Hd. unfold observe_owner, fetch_faucet, sync, with_context, io_map_err, ask, io_bind, io_lift.
  destruct (delivery_sync Hd (h_world h)) as (w1 & -> & Ho1 & Hf1). cbn.
  destruct (delivery_read Hd w1) as (a & w2 & -> & Ha & Ho2 & Hf2). cbn. rewrite Ha, Ho1.
  eexists. split; [done|]. split; cbn; congruence.
Qed.

(** A note built and delivered, and what follows. *)
Lemma delivered_then sender spec c c' op (k : io (Harness (W := W)) Failure unit) h (Q : result Failure unit -> W -> Prop) :
  Deliveries -> (exists next, takes (d_faucet_id d) sender spec (owned (h_world h)) next) ->
  (owned (h_world h)).1 ∈ [orig; ephemeral] ->
  (forall e w', (owned w').1 ∈ [orig; ephemeral] -> (failures w' < failures (h_world h))%nat -> Q (Err e) w') ->
  (forall h', takes (d_faucet_id d) sender spec (owned (h_world h)) (owned (h_world h')) ->
     (failures (h_world h') <= failures (h_world h))%nat -> Q (k h').1 (h_world (k h').2)) ->
  let '(r, h') :=
    (let% note := build spec c in
     with_context c' (commit_via_ntx_consumed d sender note op) ;% k) h in
  Q r (h_world h').
Proof.
  intros Hd Hcan Hin Herr Hok. unfold build, with_context, io_map_err, ask, io_bind, io_ret.
  pose proof (delivery_build Hd spec (h_world h)) as Hb.
  destruct (build_note spec (h_world h)) as [[serial|e] w1]; cbn; destruct Hb as [Ho Hf].
  2: { apply Herr; [by rewrite Ho|done]. }
  pose proof (delivery_take Hd sender spec serial op (set_world w1 h)) as Ht.
  destruct (commit_via_ntx_consumed _ _ _ _ _) as [[b|e] h2]; cbn in Ht |- *; rewrite Ho in Ht.
  - destruct Ht as [Hle Ht]. specialize (Hok h2 Ht). destruct (k h2) as [r h3]. apply Hok. cbn. lia.
  - destruct Ht as (Hle & Hi & Hlt). apply Herr; [by apply Hi|]. specialize (Hlt Hcan). lia.
Qed.

Abbreviation ops := (DriverOwnershipOps d orig ephemeral).
Abbreviation view := (fun h : Harness (W := W) => owned (h_world h)).
Abbreviation left_to_fail := (fun h : Harness (W := W) => failures (h_world h)).

Lemma driver_transfers h : Deliveries -> orig <> ephemeral -> (view h).1 = ephemeral ->
  effective_at orig ephemeral view left_to_fail (op_transfer_back ops) h.
Proof.
  intros Hd Hne Hv. unfold effective_at. cbn [DriverOwnershipOps op_transfer_back]. unfold restore_ownership.
  apply (delivered_then ephemeral (XReserveTransferOwnership ephemeral (d_faucet_id d) orig) _ _ _ _ h
    (fun r w => match r with Ok _ => owner_back orig ephemeral (owned w)
                | Err _ => (owned w).1 ∈ [orig; ephemeral] /\ (failures w < failures (h_world h))%nat end) Hd).
  - exists (ephemeral, Some orig). split_and!; [done..|by left].
  - rewrite Hv. apply list_elem_of_further, list_elem_of_here.
  - done.
  - intros h1 (_ & _ & _ & Ho & Hn) Hle. destruct Hn as [Hn|[? _]]; [|done].
    pose proof (delivered_then orig (XReserveAcceptOwnership orig (d_faucet_id d)) "accept_ownership (restore) note"
      "accepting the ownership restore" "accept_ownership (restore)" (io_ret tt) h1
      (fun r w => match r with Ok _ => owner_back orig ephemeral (owned w)
                  | Err _ => (owned w).1 ∈ [orig; ephemeral] /\ (failures w < failures (h_world h))%nat end) Hd)
      as Ha.
    destruct (io_bind (build (XReserveAcceptOwnership orig (d_faucet_id d)) _) _ h1) as [r h2]. apply Ha.
    + by exists (orig, None).
    + rewrite Ho. apply list_elem_of_further, list_elem_of_here.
    + intros e w ? ?. split; [done|lia].
    + intros h3 (_ & _ & _ & E) _. cbn. rewrite E. by split.
Qed.
Lemma driver_cancels h : Deliveries -> orig <> ephemeral -> view h = (orig, Some ephemeral) ->
  effective_at orig ephemeral view left_to_fail (op_cancel_nomination ops) h.
Proof.
  intros Hd Hne Hv. unfold effective_at. cbn [DriverOwnershipOps op_cancel_nomination]. unfold cancel_nomination.
  apply (delivered_then orig (XReserveTransferOwnership orig (d_faucet_id d) orig) _ _ _ _ h
    (fun r w => match r with Ok _ => owner_back orig ephemeral (owned w)
                | Err _ => (owned w).1 ∈ [orig; ephemeral] /\ (failures w < failures (h_world h))%nat end) Hd).
  - exists (orig, None). cbn. rewrite Hv. split_and!; [done..|by right].
  - rewrite Hv. apply list_elem_of_here.
  - done.
  - intros h1 (_ & _ & _ & Ho & Hn) _. split; [done|]. cbn.
    destruct Hn as [Hn|[_ Hn]]; rewrite Hn; [|done]. by intros [= ?].
Qed.
Lemma driver_effective : Deliveries -> orig <> ephemeral -> Effective ops orig ephemeral view left_to_fail.
Proof.
  intros Hd Hne. split.
  - intros h. destruct (observe_reads h Hd) as (h' & E & Ho & Hf). by exists h'.
  - intros h. by apply driver_transfers.
  - intros h. by apply driver_cancels.
Qed.

(** C37. The administration checks give the ownership back. Take a chain that shows the ownership it holds,
    takes a delivered note in only from its owner or its nominated owner, and fails fewer than four of the
    notes it could take in. Over it, from a faucet of the original owner or the ephemeral wallet, the
    reconciliation with the driver's own notes (a transfer from the ephemeral wallet with the original owner's
    acceptance, or the owner's nomination of itself) ends with [Restored], after at most one attempt more than
    can fail and whatever part of a failed attempt was committed; the original owner then owns the faucet, the
    ephemeral wallet is not nominated, and the row recorded for the restore passes. *)
Theorem reconcile_restores (h : Harness (W := W)) : Deliveries -> orig <> ephemeral ->
  (owned (h_world h)).1 ∈ [orig; ephemeral] -> (failures (h_world h) < MAX_OWNERSHIP_RECONCILE_ATTEMPTS)%nat ->
  let '(r, h') := reconcile_ownership ops orig ephemeral h in
  (exists trace, r = Ok (Restored, trace) /\ (length trace <= Datatypes.S (failures (h_world h)))%nat)
  /\ owner_back orig ephemeral (owned (h_world h'))
  /\ exists detail, restore_ownership_to_original d orig ephemeral h
       = (Ok tt, set_ledger (record "ADMIN-OWNER-RESTORE" "admin"
                   "ownership restored to the ORIGINAL owner (the ephemeral wallet retains no control)" true detail
                   (h_ledger h')) h').
Proof.
  intros Hd Hne Ho Hl. unfold restore_ownership_to_original, io_bind.
  pose proof (reconcile_enough ops orig ephemeral view left_to_fail _ (driver_effective Hd Hne) Hne h [] Ho Hl) as Hr.
  fold (reconcile_ownership ops orig ephemeral) in Hr.
  destruct (reconcile_ownership ops orig ephemeral h) as [r h']. destruct Hr as [(trace & -> & Ht) Hb].
  split_and!; [by exists trace|done|]. cbn. by eexists.
Qed.
End delivery.

(** *** A small chain *)

(** A library over accounts of the type given, with what their slots hold. *)
Definition small_faucet_lib (Account : Type) (id : AccountId) (from_elements : Z -> Z -> option AccountId)
    (item : Account -> string -> option Word4) (map_item : Account -> Word4) : FaucetLib :=
  {| masm_error_code := fun _ => 0; FIXED_XUSDC_BURN_TAG := 5; account_id_is_public := fun _ => true;
     account_id_display := fun id => decimal (hd 0 id); account_id_from_elements := from_elements;
     embedded_bytes32 := fun id => replicate 31 0 ++ id; FaucetAccount := Account; fa_id := fun _ => id;
     fa_nonce := fun _ => 1; fa_note_allowlist := fun _ => None; fa_tx_allowlist := fun _ => None;
     fa_item := item; fa_map_item := fun a _ _ => Some (map_item a);
     allowed_note_scripts := ∅; expiration_script_root := []; domain_config_slot := "domain";
     IDENTIFIER_CONFIG_SLOT_LABEL := "identifier"; source_domain_config_slot := "source";
     xreserve_contract_hi_slot := "hi"; xreserve_contract_lo_slot := "lo"; identifier_for := fun _ => MARKER_CLEAR;
     storage_map_key := fun _ => MARKER_CLEAR; token_config_slot := "token"; min_burn_slot := "min";
     is_paused_slot := "paused"; owner_config_slot := "owner"; used_nonces_slot := "nonces";
     xreserve_attesters_slot := "attesters"; packed_felts := fun _ => (MARKER_CLEAR, MARKER_CLEAR) |}.
Definition small_evidence_lib : EvidenceLib :=
  {| NoteInclusionProof := Z; NoteInclusionProof_eq_dec := _; proof_block_num := id;
     transaction_id_to_hex := to_hex |}.
Definition small_fee_lib `{FaucetLib} : FeeNoteLib :=
  {| SCALE_EXP := 0;
     parse_deposit_intent_header := fun p => Ok {| dh_remote_recipient := [6]; dh_nonce := take 32 p; dh_amount := p |};
     account_id_of_bytes32 := Ok; reduced_amount := fun _ _ => Ok 40; fungible_asset := fun f v => Ok (f, v);
     account_target_tag := fun _ => 0; mint_storage := fun _ _ _ => Ok tt;
     deposit_intent_to_packed_felts := fun p => Ok (take 60 p); XUSDC_MINT_INTENT_ATTACHMENT_SCHEME := 4;
     XUSDC_MINT_ATTESTATION_ATTACHMENT_SCHEME := 5; attachment_scheme := fun _ => Ok tt;
     attachment_words := fun _ => Ok tt; public_key_elements := fun _ => replicate 16 2;
     signature_felts := fun _ => replicate 17 3; network_account_target := fun _ => Ok tt |}.
Definition small_sanity_lib `{FaucetLib} : SanityLib :=
  {| sanity_evidence_lib := small_evidence_lib; sanity_fee_lib := small_fee_lib;
     vector_bytes := fun _ => replicate 240 0; vector_hook_data_len := fun _ => 0;
     base_remote_token := replicate 32 1; remote_domain_off := 40; remote_token_off := 44; SigningKey := unit;
     keccak256 := fun _ => replicate 32 3; sign_prehash := fun _ _ => replicate 65 4;
     amount_ok := fun v => v <=? 10 ^ 12 |}.

(** The ownership of the faucet, and how many notes are still to be reported lost: of those a nomination is
    committed all the same, an acceptance is not. *)
Record Estate := { es_owned : AccountId * option AccountId; es_failures : nat }.
Definition estate_id (elements : Z) : option AccountId := countable.decode (Z.to_pos elements).
Definition estate_word (e : Estate) : Word4 :=
  (Z.pos (countable.encode (es_owned e).1), 0, match (es_owned e).2 with Some n => Z.pos (countable.encode n) | None => 0 end, 0).
#[local] Instance estate_faucet : FaucetLib :=
  small_faucet_lib Estate [9] (fun suffix _ => estate_id suffix) (fun e _ => Some (estate_word e))
    (fun _ => MARKER_CLEAR).
#[local] Instance estate_lib : SanityLib := small_sanity_lib.

(** What taking the note in leaves of the ownership, when the faucet takes it in. *)
Definition next_owned (sender : AccountId) (spec : NoteSpec) (was : AccountId * option AccountId)
    : option (AccountId * option AccountId) :=
  match spec with
  | XReserveTransferOwnership a f to =>
      if decide (a = sender /\ f = [9] /\ was.1 = sender)
      then Some (sender, if decide (to = sender) then None else Some to) else None
  | XReserveAcceptOwnership a f =>
      if decide (a = sender /\ f = [9] /\ was.2 = Some sender) then Some (sender, None) else None
  | _ => Some was
  end.
Definition taken_in (sender : AccountId) (spec : NoteSpec) (e : Estate) : result string bytes * Estate :=
  match next_owned sender spec (es_owned e), es_failures e, spec with
  | None, _, _ => (Err "the faucet refuses the note"%string, e)
  | Some next, O, _ => (Ok [1], {| es_owned := next; es_failures := O |})
  | Some next, Datatypes.S n, XReserveTransferOwnership _ _ _ =>
      (Err "timed out"%string, {| es_owned := ((es_owned e).1, next.2); es_failures := n |})
  | Some _, Datatypes.S n, _ => (Err "timed out"%string, {| es_owned := es_owned e; es_failures := n |})
  end.
#[local] Instance estate_node : HarnessNode Estate :=
  {| sync_state := fun e => (Ok tt, e); get_account_details := fun _ e => (Ok (Some e), e);
     submit_new_transaction := fun sender req e =>
       match req with OwnOutputNotes _ [Built spec _] => taken_in sender spec e | _ => (Ok [1], e) end;
     get_transaction := fun _ e => (Ok (Some (Committed 1)), e);
     execute_transaction := fun _ _ e => (Ok tt, e); get_consumable_notes := fun _ e => (Ok [], e);
     get_account := fun _ e => (Ok None, e); nullifier_commit_height := fun _ e => (Ok (Some 2), e);
     sync_notes_contains := fun _ _ e => (Ok false, e); get_sync_height := fun e => (Ok 2, e);
     get_notes_by_id := fun _ e => (Ok [], e); sync_transactions := fun _ _ e => (Ok [], e);
     note_id := fun _ => []; note_nullifier := fun _ => []; build_note := fun _ e => (Ok (1, 0, 0, 0), e);
     request_error := fun _ => None; add_account := fun _ _ e => (Ok tt, e); now := fun e => (0, e);
     sleep := fun _ e => e |}.
Definition estate_driver : SanityDriver := {| d_faucet_id := [9]; d_mint_config := None |}.

Lemma estate_reads (e : Estate) : owner_config e = Ok (es_owned e).
Proof.
  unfold owner_config, value_slot. cbn. unfold estate_id. cbn. rewrite !countable.decode_encode. cbn.
  destruct e as [[owner [n|]] ?]; cbn; by rewrite ?countable.decode_encode.
Qed.
Lemma next_taken sender spec was next : next_owned sender spec was = Some next -> takes [9] sender spec was next.
Proof.
  unfold next_owned, takes. destruct spec; try (by intros [= ->]); case_decide as Hc; try done; destruct Hc as (-> & -> & E).
  - intros [= <-]. split_and!; [done..|]. cbn. case_decide; [by right|by left].
  - by intros [= <-].
Qed.
Lemma taken_next sender spec was : (exists next, takes [9] sender spec was next) -> is_Some (next_owned sender spec was).
Proof.
  intros [next Ht]. unfold next_owned, takes in *. destruct spec; try done; case_decide as Hc; try done;
    exfalso; apply Hc; by destruct Ht as (-> & -> & ? & _).
Qed.
Lemma estate_commit sender spec serial op (h : Harness (W := Estate)) :
  let '(r, h') := commit_via_ntx_consumed estate_driver sender (Built spec serial) op h in
  h_world h' = (taken_in sender spec (h_world h)).2 /\ (is_ok r = is_ok (taken_in sender spec (h_world h)).1).
Proof.
  destruct h as [e sent led]. unfold commit_via_ntx_consumed, emitted, emit, build_request, submit, with_context, io_map_err.
  unfold io_bind. cbn [request_error estate_node io_ret h_world submit_new_transaction].
  destruct (taken_in sender spec e) as [[tx|m] e']; cbn; done.
Qed.
Lemma estate_deliveries : Deliveries estate_driver [1] [2] es_owned es_failures.
Proof.
  split.
  - intros e. by exists e.
  - intros e. exists e, e. split_and!; [done|apply estate_reads|done].
  - done.
  - intros sender spec serial op h. pose proof (estate_commit sender spec serial op h) as Hc.
    destruct (commit_via_ntx_consumed _ _ _ _ _) as [r h']. destruct Hc as [-> Hr]. revert Hr.
    pose proof (next_taken sender spec (es_owned (h_world h))) as Hn.
    pose proof (taken_next sender spec (es_owned (h_world h))) as Ht. unfold taken_in.
    destruct (next_owned sender spec (es_owned (h_world h))) as [next|].
    + destruct (es_failures (h_world h)) as [|n] eqn:Ef.
      * destruct r; [|done]. intros _. split; [cbn; lia|]. by apply Hn.
      * destruct r; [by destruct spec|]. intros _.
        destruct spec; cbn; (split; [lia|]; split; [done|lia]).
    + destruct r; [done|]. intros _. cbn. split; [done|]. split; [done|]. intros Hx. by destruct (Ht Hx).
Qed.

(** Three transfers are reported lost, their nominations committed all the same: the fourth attempt
    restores. *)
Definition estate_start : Harness (W := Estate) :=
  {| h_world := {| es_owned := ([2], None); es_failures := 3 |}; h_submitted := []; h_ledger := [] |}.
Lemma reconcile_restores_witness :
  let '(r, h') := reconcile_ownership (DriverOwnershipOps estate_driver [1] [2]) [1] [2] estate_start in
  (exists trace, r = Ok (Restored, trace) /\ (length trace <= 4)%nat)
  /\ owner_back [1] [2] (es_owned (h_world h'))
  /\ exists detail, restore_ownership_to_original estate_driver [1] [2] estate_start
       = (Ok tt, set_ledger (record "ADMIN-OWNER-RESTORE" "admin"
                   "ownership restored to the ORIGINAL owner (the ephemeral wallet retains no control)" true detail
                   (h_ledger h')) h').
Proof.
  apply (reconcile_restores estate_driver [1] [2] es_owned es_failures estate_start estate_deliveries).
  - discriminate.
  - apply list_elem_of_further, list_elem_of_here.
  - unfold MAX_OWNERSHIP_RECONCILE_ATTEMPTS. simpl. lia.
Defined.

(** ** Endings *)

(** Whatever the operations do, the reconciliation returns, after four attempts at most, and it says
    [Restored] only of a last observation that shows the original owner and no nomination of the
    ephemeral wallet. *)
Definition ended_as {S} (ops : OwnershipOps S) (orig ephemeral : AccountId) (n : nat) (trace : list string)
    (r : result Failure (OwnershipOutcome * list string)) (s' : S) : Prop :=
  exists outcome trace' before, r = Ok (outcome, trace') /\ (length trace' <= length trace + n)%nat
  /\ (outcome = Restored -> exists seen, op_observe ops before = (Ok seen, s') /\ owner_back orig ephemeral seen).

Lemma ended_attempt {S} (ops : OwnershipOps S) orig ephemeral budget (attempt : io S Failure unit) label :
  (forall trace s, let '(r, s') := reconcile_from budget ops orig ephemeral trace s in
     ended_as ops orig ephemeral budget trace r s') ->
  forall trace s,
  let '(r, s') :=
    (let% res := io_try attempt in
     reconcile_from budget ops orig ephemeral (trace ++ [attempt_label label res])) s in
  ended_as ops orig ephemeral (Datatypes.S budget) trace r s'.
Proof.
  intros IH trace s. unfold io_bind, io_try. destruct (attempt s) as [res s1].
  specialize (IH (trace ++ [attempt_label label res]) s1).
  destruct (reconcile_from _ _ _ _ _ s1) as [r s']. destruct IH as (o & t & b & -> & Hl & Hr).
  exists o, t, b. split_and!; [done| |done]. rewrite length_app in Hl. simpl in Hl. lia.
Qed.
Lemma reconcile_ends {S} (ops : OwnershipOps S) orig ephemeral budget : forall trace s,
  let '(r, s') := reconcile_from budget ops orig ephemeral trace s in
  ended_as ops orig ephemeral budget trace r s'.
Proof.
  induction budget as [|budget IH]; intros trace s; cbn [reconcile_from]; unfold io_bind at 1, io_try at 1;
    destruct (op_observe ops s) as [[[cur nominated]|e] s1] eqn:E;
    try (by eexists _, trace, s; split_and!; [reflexivity|lia|discriminate]);
    destruct (plan_ownership_restore cur nominated orig ephemeral) eqn:Hp;
    try (by eexists _, trace, s; split_and!; [reflexivity|lia|discriminate]);
    try (by eexists _, trace, s; split_and!; [reflexivity|lia|]; intros _; eexists;
           split; [exact E|apply plan_nothing, Hp]);
    by apply ended_attempt.
Qed.

(** ** A URL that is local to the gate and dialled elsewhere *)

(** The gate reads the host after the last ["://"], the client's endpoint the one after the first. *)
Example loopback_gate_dials_elsewhere :
  let url := "http://evil.example/x://127.0.0.1:80"%string in
  is_loopback url = true
  /\ decide_run_mode None url = Ok {| deployed_fresh := true; local_node := true; run_admin := true |}
  /\ parse_url_parts url = Ok ("http"%string, "evil.example/x://127.0.0.1"%string, Some 80).
Proof. split_and!; reflexivity. Qed.

(** ** The burn's evidence *)

Section evidence.
Context `{BurnNoteView} {W : Type} `{!HarnessNode W}.
Abbreviation act A := (io (Harness (W := W)) Failure A).

(** The assembler asks the port for its three reads and for nothing else, so it always answers. *)
Lemma assemble_answers port id faucet_id :
  run_reads port (assemble_evidence id faucet_id) = Some
    (let? details := observe_note id (pf_note port) in
     let? spend_block := observe_spend id details (pf_nullifier port) in
     link_transaction id faucet_id (pd_nullifier details) (proof_block_num (inclusion_proof details))
       spend_block (pf_txs port)).
Proof.
  unfold assemble_evidence, bind_ok. simpl. destruct (observe_note id (pf_note port)) as [details|e]; [|done]. simpl.
  by destruct (observe_spend id details (pf_nullifier port)).
Qed.

Lemma find_record_Some id fetched record : find_record id fetched = Some record ->
  nr_note_id record = id /\
  forall details, nr_details record = Some details -> exists n, PublicNote n ∈ fetched /\ cn_id n = id
    /\ cn_nullifier n = pd_nullifier details /\ cn_proof n = inclusion_proof details.
Proof.
  induction fetched as [|[n|id'] fetched IH]; simpl; [done|..]; case_bool_decide as Hid.
  - intros [= <-]. split; [done|]. intros details [= <-]. exists n. by split_and!; [apply list_elem_of_here|..].
  - intros (Hr & Hd)%IH. split; [done|]. intros details (m & Hm & ?)%Hd. exists m. split; [by right|done].
  - by intros [= <-].
  - intros (Hr & Hd)%IH. split; [done|]. intros details (m & Hm & ?)%Hd. exists m. split; [by right|done].
Qed.

Lemma link_package id faucet_id nullifier create spend txs package :
  link_transaction id faucet_id nullifier create spend txs = Ok package ->
  package = {| burn_tx_id := burn_tx_id package; ev_note_id := id; ev_nullifier := nullifier; ev_block_num := create |}.
Proof.
  unfold link_transaction. intros (tx & _ & He)%rbind_Ok. destruct (List.filter _ txs) as [|burn_tx rest]; [done|].
  apply rbind_Ok in He as (? & _ & He). apply rbind_Ok in He as (? & _ & He). by injection He as <-.
Qed.
(** A package is assembled only of reads that agree. *)
Record agreeing (port : Prefetched) (id : bytes) (faucet_id : AccountId) (details : PublicNoteDetails)
    (spent : Z) (tx : TransactionRecord) (package : EvidencePackage) : Prop := {
  ag_id : nr_note_id (pf_note port) = id;
  ag_details : nr_details (pf_note port) = Some details;
  ag_nullifier : nu_nullifier (pf_nullifier port) = pd_nullifier details;
  ag_spent : spent_in_block (pf_nullifier port) = Some spent;
  ag_later : proof_block_num (inclusion_proof details) < spent;
  ag_tx : tx ∈ pf_txs port /\ consumes faucet_id (pd_nullifier details) tx = true /\ block_num tx = spent;
  ag_only tx' : tx' ∈ pf_txs port -> consumes faucet_id (pd_nullifier details) tx' = true -> tx' = tx;
  ag_package : package = {| burn_tx_id := transaction_id_to_hex (transaction_id tx); ev_note_id := id;
                            ev_nullifier := pd_nullifier details;
                            ev_block_num := proof_block_num (inclusion_proof details) |};
}.
Lemma assembled_agree port id faucet_id package :
  run_reads port (assemble_evidence id faucet_id) = Some (Ok package) ->
  exists details spent tx, agreeing port id faucet_id details spent tx package.
Proof.
  rewrite assemble_answers. intros [= (details & Hobs & He)%rbind_Ok].
  apply rbind_Ok in Hobs as ([] & Hid%ensure_Ok & Hdet%ok_or_Ok).
  apply rbind_Ok in He as (spent & Hobs & Hlink).
  apply rbind_Ok in Hobs as ([] & Hnull%ensure_Ok & Hobs).
  apply rbind_Ok in Hobs as (block & Hspent%ok_or_Ok & Hobs).
  apply rbind_Ok in Hobs as ([] & Hlt%ensure_Ok & [= ->]). bool_prop.
  pose proof (link_package _ _ _ _ _ _ _ Hlink) as Hp.
  apply link_transaction_Ok in Hlink as (tx & Htx & Hcons & Hblock & Hhex & Huniq).
  exists details, spent, tx. split; try done. by rewrite Hhex.
Qed.

Lemma ask_Ok {A} (call : W -> result string A * W) h a h' :
  ask call h = (Ok a, h') -> call (h_world h) = (Ok a, h_world h').
Proof. unfold ask. destruct (call (h_world h)) as [[b|e] w]; [|done]. by intros [= -> <-]. Qed.
Lemma context_Ok {A} c (m : act A) h a h' : with_context c m h = (Ok a, h') -> m h = (Ok a, h').
Proof. unfold with_context, io_map_err. by destruct (m h) as [[b|e] h1]. Qed.
Lemma lift_Ok {A} (r : result Failure A) (h : Harness (W := W)) a h' : io_lift r h = (Ok a, h') -> r = Ok a /\ h' = h.
Proof. by intros [= -> ->]. Qed.

(** The evidence of a burn assembles only where the node's answers prove the burn by the attester's
    rules: it returned the burn's public note, with its nullifier and an inclusion proof, it saw that
    nullifier spent in a later block, and of the faucet's transactions all that take the nullifier in are
    one record, of that block. *)
Theorem evidence_proves_burn burn faucet_id (h h' : Harness (W := W)) text :
  assert_burn_evidence burn faucet_id h = (Ok text, h') ->
  exists fetched w1 spent w2 tip w3 txs n tx,
    get_notes_by_id (note_id burn) (h_world h) = (Ok fetched, w1)
    /\ nullifier_commit_height burn w1 = (Ok (Some spent), w2)
    /\ get_sync_height w2 = (Ok tip, w3) /\ sync_transactions tip faucet_id w3 = (Ok txs, h_world h')
    /\ PublicNote n ∈ fetched /\ cn_id n = note_id burn /\ cn_nullifier n = note_nullifier burn
    /\ cn_inclusion_block n < spent
    /\ tx ∈ txs /\ consumes faucet_id (note_nullifier burn) tx = true /\ block_num tx = spent
    /\ (forall tx', tx' ∈ txs -> consumes faucet_id (note_nullifier burn) tx' = true -> tx' = tx)
    /\ text = show_package {| burn_tx_id := transaction_id_to_hex (transaction_id tx);
                              ev_note_id := note_id burn; ev_nullifier := note_nullifier burn;
                              ev_block_num := cn_inclusion_block n |}.
Proof.
  intros (record & h1 & Hnote & E)%io_bind_Ok. apply context_Ok in Hnote.
  apply io_bind_Ok in Hnote as (fetched & h1' & Hf%context_Ok%ask_Ok & Hfind).
  apply lift_Ok in Hfind as [Hfind ->].
  apply io_bind_Ok in E as (spent & h2 & Hs%context_Ok%ask_Ok & E).
  apply io_bind_Ok in E as (txs & h4 & Ht%context_Ok & E). apply lift_Ok in E as [E ->].
  apply io_bind_Ok in Ht as (tip & h3 & Htip%context_Ok%ask_Ok & Ht%context_Ok%ask_Ok).
  apply ok_or_Ok in Hfind. apply find_record_Some in Hfind as [_ Hpub]. unfold assembled in E.
  destruct (run_reads _ _) as [[package|]|] eqn:Hrun in E; [|done..]. injection E as <-.
  apply assembled_agree in Hrun as (details & block & tx & [_ Hd Hn Hs' Hlt (Htx & Hc & Hb) Honly ->]).
  cbn [pf_note pf_nullifier pf_txs nu_nullifier spent_in_block] in *. subst spent.
  destruct (Hpub _ Hd) as (n & Hin & Hnid & Hnull & Hproof).
  rewrite <-Hn, <-Hproof in *. exists fetched, (h_world h1'), block, (h_world h2), tip, (h_world h3), txs, n, tx.
  by split_and!.
Qed.
End evidence.
