(* ===== verification/MatrixDriver.v ===== *)
(** The driver of the matrix rows (xusdc-validation/src/rows_ab.rs, rows_cf.rs, rows_de.rs, rows_gj.rs). It
    runs over the world of SanityDriver. The files repeat the same methods, which are modelled once, with
    what they do not share as arguments. *)
From S2P Require Import Prelude Text Foreign Io Observations LogScan Sanity SanityDriver Stack Actors.
From Stdlib Require Import Ascii.
Local Open Scope Z_scope.
Local Open Scope io_scope.

(** A consumable note of the client: its assets, the block of its inclusion proof if it has one, whether
    its script is the P2ID one, its tag and its serial number. *)
Record ConsumableNote := {
  cs_note : FoundNote;
  cs_block : option Z;
  cs_is_p2id : bool;
  cs_tag : Z;
  cs_serial : Word4;
}.

Class RowNode `{SanityLib} (W : Type) := {
  row_actors :: ActorWorld W;
  git_head_commit : W -> string * W;
  (** The directory of the services' logs. *)
  read_logs : string -> W -> LogDir * W;
  (** An executed transaction: the word its account patch writes to the token-config slot, if any. *)
  execute_patch : AccountId -> TxRequest -> W -> result string (option Word4) * W;
  sync_notes : Z -> Z -> W -> result string (list (list bytes)) * W;
  get_consumable : AccountId -> W -> result string (list ConsumableNote) * W;
  add_account_tag : AccountId -> W -> result string unit * W;
  note_tag_u32 : Note -> Z;
  (** The role-membership slot, and the elements of a role's symbol and of an account id. *)
  role_membership_slot : string;
  DOM_PAUSER_ROLE : string;
  role_felt : string -> Z;
  account_suffix : AccountId -> Z;
  account_prefix : AccountId -> Z;
  compile_tx_script : string -> result string bytes;
}.

Definition TX_COMMIT_TIMEOUT : Z := 180000.
Definition NOTE_SYNC_TIMEOUT : Z := 120000.
Definition MAX_FEE_UNITS : Z := 1.

Section driver.
Context `{SanityLib} {W : Type} `{!HarnessNode W, !RowNode W}.
Abbreviation act A := (io (Harness (W := W)) Failure A).

(** The driver of a run: its actors, its faucet, the notes that need the faucet as a foreign account when
    they are sent (rows_gj.rs; the others send none that does), and its [PATHN_TIMEOUT]. *)
Record Driver := {
  dr_actors : Actors;
  dr_faucet_id : AccountId;
  dr_foreign : Note -> bool;
  dr_pathn_timeout : Z;
}.

Definition sync_for (c : string) : act unit := with_context c (ask sync_state).

Definition try_fetch (account_id : AccountId) : act (option FaucetAccount) :=
  sync_for "syncing before a node read" ;%
  with_context (String.concat "" ["GetAccount("; account_id_display account_id; ")"])
    (ask (get_account_details account_id)).
Definition fetch_faucet (d : Driver) : act FaucetAccount :=
  let% found := try_fetch (dr_faucet_id d) in
  io_lift (ok_or found
    [String.append "the node does not recognize the faucet " (account_id_display (dr_faucet_id d))]).
Definition balance_of (d : Driver) (account_id : AccountId) : act Z :=
  sync_for "syncing before a balance read" ;%
  let% found := with_context (String.concat "" ["client get_account("; account_id_display account_id; ")"])
                  (ask (get_account account_id)) in
  io_ret (match found with Some assets => wallet_balance assets (dr_faucet_id d) | None => 0 end).

Definition look_commit (tx : bytes) : act (option Z) :=
  sync_for "syncing while waiting for a tx" ;%
  let% status := with_context "querying tx status" (ask (get_transaction tx)) in
  let% status := io_lift (ok_or status ["tx not tracked"%string]) in
  match status with
  | Committed block => io_ret (Some block)
  | Discarded cause => io_err [String.append "tx DISCARDED: " cause]
  | Pending => io_ret None
  end.
Definition wait_commit (tx : bytes) : act Z :=
  poll_for TX_COMMIT_TIMEOUT 500 ["tx did not commit"%string] (look_commit tx).

Definition emit (d : Driver) (sender : AccountId) (note : Note) : act Z :=
  let% req := build_request (OwnOutputNotes (dr_foreign d note) [note]) "building an emit request" in
  let% tx := with_context "submitting an emit transaction" (submit sender req) in
  wait_commit tx.

Definition look_faucet (d : Driver) (ready : FaucetAccount -> bool) : act (option FaucetAccount) :=
  let% account := fetch_faucet d in io_ret (if ready account then Some account else None).
Definition wait_for_faucet (d : Driver) (op : string) (ready : FaucetAccount -> bool) : act FaucetAccount :=
  poll_for (dr_pathn_timeout d) 2000
    [String.concat "" ["path-N commit of '"; op; "' timed out"]] (look_faucet d ready).
Definition commit_via_ntx (d : Driver) (sender : AccountId) (note : Note) (op : string)
    (ready : FaucetAccount -> bool) : act FaucetAccount :=
  let% _ := with_context (String.concat "" ["emitting the "; op; " note"]) (emit d sender note) in
  wait_for_faucet d op ready.

Definition probe_consume (d : Driver) (note : Note) : act Verdict :=
  sync_for "syncing before a probe" ;%
  let% req := build_request (InputNotes [note]) "building a probe consume request" in
  let% r := io_try (ask (execute_transaction (dr_faucet_id d) req)) in
  io_ret (match r with Ok _ => Accepted | Err e => Rejected (show_failure e) end).

(** The wait for a note of exactly so many units, and for whom (["target"] or ["recipient"]). *)
Definition carries_amount (d : Driver) (amount_units : Z) (n : ConsumableNote) : bool :=
  existsb (fun a => of_faucet (dr_faucet_id d) a && (a.2 =? amount_units)) (fn_assets (cs_note n)).
Definition look_note (d : Driver) (who : string) (target : AccountId) (amount_units : Z)
    : act (option (ConsumableNote * Z)) :=
  sync_for (String.concat "" ["syncing for the "; who; " P2ID note"]) ;%
  let% consumable := with_context (String.concat "" ["querying the "; who; "'s consumable notes"])
                       (ask (get_consumable target)) in
  match List.find (carries_amount d amount_units) consumable with
  | None => io_ret None
  | Some n =>
      let% block := io_lift (ok_or (cs_block n) ["the discovered note lacks an inclusion proof"%string]) in
      io_ret (Some (n, block))
  end.
Definition wait_for_note (d : Driver) (who : string) (target : AccountId) (amount_units : Z)
    : act (ConsumableNote * Z) :=
  poll_for NOTE_SYNC_TIMEOUT 1000
    [String.concat "" ["the "; who; " did not receive its committed P2ID note"]]
    (look_note d who target amount_units).
Definition target_consume (d : Driver) (who : string) (target : AccountId) (foreign : bool) (note : Note)
    : act Z :=
  let% req := build_request (ConsumeNotes foreign [note])
                (String.concat "" ["building the "; who; " consume request"]) in
  let% tx := with_context (String.concat "" ["submitting the "; who; " consume"]) (submit target req) in
  wait_commit tx.

Definition supply_of (d : Driver) : act Z := let% a := fetch_faucet d in io_lift (token_supply a).
Definition supply_is (p : Z -> bool) (a : FaucetAccount) : bool :=
  match token_supply a with Ok s => p s | Err _ => false end.
Definition pause_word (a : FaucetAccount) : result Failure Word4 := value_slot a is_paused_slot.
Definition paused_as (word : Word4) (a : FaucetAccount) : bool :=
  match pause_word a with Ok w => bool_decide (w = word) | Err _ => false end.
Definition tip (sync_c read_c : string) : act Z :=
  sync_for sync_c ;% with_context read_c (ask get_sync_height).
Definition nullifier_block (note : Note) : act (option Z) :=
  with_context "querying nullifier heights" (ask (nullifier_commit_height note)).
Definition note_consumed (note : Note) : act bool :=
  let% block := nullifier_block note in io_ret (bool_decide (is_Some block)).
(** The wait until the chain is so many blocks past [from]. *)
Definition look_past (sync_c read_c : string) (from blocks : Z) : act (option Z) :=
  let% height := tip sync_c read_c in
  io_ret (if wrap 32 (from + blocks) <=? height then Some height else None).
Definition wait_blocks_past (limit : Z) (sync_c read_c : string) (from blocks : Z) : act Z :=
  poll_for limit 500 ["the chain did not advance in time"%string] (look_past sync_c read_c from blocks).
Definition attester_enabled (commitment : Word4) (a : FaucetAccount) : bool :=
  bool_decide (fa_map_item a xreserve_attesters_slot commitment = Some MARKER_SET).

(** ** Setting a run up: the faucet deployed and attester A allowed *)

Definition deploy_params (actors : Actors) (max_supply : Z) (domain : DomainParams) : DeployParams :=
  {| dep_owner := owner actors; dep_pauser := pauser actors; dep_manager := manager actors;
     dep_blk_manager := blk_manager actors; dep_max_supply := max_supply;
     dep_domain := domain |}.
Definition deploy_faucet (owner_id faucet_id : AccountId) : act unit :=
  let% note1 := build (XReserveIdentifierInit owner_id faucet_id) "building the identifier_init note" in
  let% emit1 := build_request (OwnOutputNotes false [note1]) "building the identifier_init emit" in
  let% emit1_tx := with_context "emit identifier_init" (submit owner_id emit1) in
  with_context "waiting for the identifier_init emit" (wait_commit emit1_tx) ;%
  with_context "registering the faucet with the client" (ask (add_account faucet_id false)) ;%
  let% deploy := build_request (InputNotes [note1]) "building the deploy request" in
  let% deploy_tx := with_context "deploy tx" (submit faucet_id deploy) in
  with_context "waiting for the deploy" (wait_commit deploy_tx) ;%
  io_ret tt.
Definition allow_attester_a (d : Driver) : act unit :=
  let owner_id := owner (dr_actors d) in
  let a_commitment := commitment_word (attester (dr_actors d)) in
  let% set_a := build (XReserveSetAttester owner_id (dr_faucet_id d) a_commitment 1)
                  "building set_attester(A)" in
  with_context "allowlisting attester A via path N"
    (commit_via_ntx d owner_id set_a "set_attester(A, enabled=1)" (attester_enabled a_commitment)) ;%
  io_ret tt.
Definition start_client (cfg : RunConfig) (client_label : string) : act (string * Actors) :=
  let% main_commit := observe git_head_commit in
  build_client (rc_stack cfg) client_label ;%
  with_context "initial sync" (ask sync_state) ;%
  let% actors := create_actors (client_root (rc_stack cfg) client_label) in
  io_ret (main_commit, actors).
End driver.
