(* ===== verification/MatrixRuns.v ===== *)
(** The runs of the matrix rows over the driver of MatrixDriver (xusdc-validation/src/rows_ab.rs,
    rows_cf.rs, rows_de.rs, rows_gj.rs), with the notes they build (mintburn.rs): deployment, the
    administration checks, the mint lifecycle and the burn lifecycle, and the whole run (rows_kl.rs). *)
From S2P Require Import Prelude Text Foreign Io Observations LogScan Sanity SanityDriver Stack Actors MatrixDriver.
From Stdlib Require Import Ascii.
Local Open Scope Z_scope.
Local Open Scope io_scope.

(** ** Rows D and E *)

Definition D_EMPTY_UNITS : Z := 100.
Definition D_HOOK_UNITS : Z := 150.
Definition E_UNITS : Z := 40.
Definition FEE_UNITS : Z := 5.
Definition SALT_D_EMPTY : Z := 1.
Definition SALT_D_HOOK : Z := 2.
Definition SALT_E_FORGED : Z := 17.
Definition SALT_E_BAD_ATTESTER : Z := 18.
Definition SALT_E_FEE : Z := 19.
Definition SALT_E_TAMPERED : Z := 20.

(** The first fungible asset of a note: its amount, and whether it is the faucet's. *)
Definition first_asset (faucet_id : AccountId) (assets : list (AccountId * Z)) : Z * bool :=
  match assets with
  | (faucet, amount) :: _ => (amount, bool_decide (faucet = faucet_id))
  | [] => (0, false)
  end.

Section de.
Context `{SanityLib} {W : Type} `{!HarnessNode W, !RowNode W}.
Abbreviation act A := (io (Harness (W := W)) Failure A).

(** The payload of [units] to the recipient, as rows D and E make it. *)
Definition recipient_payload (d : Driver) (vector_id : string) (units salt : Z) : bytes :=
  mint_payload_own_id (dr_faucet_id d) vector_id (recipient (dr_actors d)) (raw_for_units units)
    (raw_for_units MAX_FEE_UNITS) salt.

Definition valid_mint (d : Driver) (vector_id : string) (units salt : Z) : act (Note * bytes) :=
  let payload := recipient_payload d vector_id units salt in
  let% note := build (XUsdcMint (owner (dr_actors d)) (dr_faucet_id d) payload
                        (attestation_for (attester (dr_actors d)) payload))
                 "building a valid XUsdcMintNote" in
  io_ret (note, payload).

Definition run_mint_happy (d : Driver) (label vector_id : string) (units salt : Z) : act MintHappy :=
  let owner_id := owner (dr_actors d) in
  let recipient_id := recipient (dr_actors d) in
  let% supply_before := supply_of d in
  let% recipient_balance_before := balance_of d recipient_id in
  let% made := valid_mint d vector_id units salt in
  let key := nonce_key made.2 in
  let% committed :=
    with_context (String.concat "" ["committing the "; label; " mint via path N"])
      (commit_via_ntx d owner_id made.1 (String.concat "" ["mint ("; label; ")"])
         (supply_is (fun s => wrap 64 (supply_before + units) <=? s))) in
  let% supply_after := io_lift (token_supply committed) in
  let% nonce_marker_after := io_lift (used_nonce_marker committed key) in
  let% found := wait_for_note d "recipient" recipient_id units in
  let asset := first_asset (dr_faucet_id d) (fn_assets (cs_note found.1)) in
  let% recipient_consume_block :=
    target_consume d "recipient" recipient_id true (Found (cs_note found.1)) in
  let% recipient_balance_after := balance_of d recipient_id in
  io_ret {| mh_label := label; hook_data_len := vector_hook_data_len vector_id; mh_amount_units := units;
            mh_supply_before := supply_before; mh_supply_after := supply_after;
            mh_nonce_marker_after := nonce_marker_after; note_serial := cs_serial found.1;
            expected_serial := key; note_is_p2id := cs_is_p2id found.1; mh_note_tag := cs_tag found.1;
            expected_tag := account_target_tag recipient_id; mh_note_asset_amount := asset.1;
            mh_note_asset_is_faucet := asset.2; recipient_balance_before := recipient_balance_before;
            recipient_balance_after := recipient_balance_after; mh_note_commit_block := found.2;
            recipient_consume_block := recipient_consume_block |}.

Definition negative (d : Driver) (label expected_error : string) (note : Note) (key : Word4)
    (expects_nonce_set : bool) : act MintNegative :=
  let% supply_before := supply_of d in
  let% verdict := probe_consume d note in
  let% committed := fetch_faucet d in
  let% supply_after := io_lift (token_supply committed) in
  let% nonce_marker_after := io_lift (used_nonce_marker committed key) in
  io_ret {| mn_label := label; mn_expected_error := expected_error; mn_verdict := verdict;
            mn_supply_before := supply_before; mn_supply_after := supply_after;
            mn_nonce_marker_after := nonce_marker_after; expects_nonce_set := expects_nonce_set |}.

Definition mint_note_with_fee (sender faucet : AccountId) (payload : bytes) (a : Attestation)
    (fee_limbs : list Z) : act Note :=
  let% content := io_lift (fee_note faucet payload a fee_limbs) in
  build (MintWithFee sender faucet payload a content) "building the adversarial stock MintNote".

(** A negative whose note is built as [spec], for the nonce of its [payload]. *)
Definition negative_of (d : Driver) (label expected_error c : string) (spec : NoteSpec) (payload : bytes)
    (expects_nonce_set : bool) : act MintNegative :=
  let% note := build spec c in
  negative d label expected_error note (nonce_key payload) expects_nonce_set.

Definition run_negatives (d : Driver) (replay_payload : bytes) : act (list MintNegative) :=
  let f := dr_faucet_id d in
  let sender := owner (dr_actors d) in
  let a := attester (dr_actors d) in
  let payload units salt := recipient_payload d BASE_VECTOR units salt in
  let% replayed := negative_of d "replayed-nonce" ERR_XRESERVE_NONCE_REPLAY
    "building the replay mint note" (XUsdcMint sender f replay_payload (attestation_for a replay_payload))
    replay_payload true in
  let forged_payload := payload E_UNITS SALT_E_FORGED in
  let% forged := negative_of d "forged-signature" ERR_XRESERVE_SIG_INVALID
    "building the forged-signature mint note"
    (XUsdcMint sender f forged_payload (attestation_over_digest a (replicate 32 171))) forged_payload false in
  let bad_payload := payload E_UNITS SALT_E_BAD_ATTESTER in
  let% bad_attester := negative_of d "non-allowlisted-attester" ERR_XRESERVE_DISALLOWED_PUB_KEY
    "building the non-allowlisted-attester mint note"
    (XUsdcMint sender f bad_payload (attestation_for (attester_b (dr_actors d)) bad_payload)) bad_payload false in
  let fee_payload := payload E_UNITS SALT_E_FEE in
  let% fee_limbs := io_lift (ok_or (fee_limbs_for (raw_for_units FEE_UNITS))
                               ["a well-formed accept payload packs"%string]) in
  let% fee_minted := with_context "building the non-zero-fee mint note"
                       (mint_note_with_fee sender f fee_payload (attestation_for a fee_payload) fee_limbs) in
  let% fee := negative d "nonzero-fee" ERR_XRESERVE_FEE_NONZERO fee_minted (nonce_key fee_payload) false in
  let signed_payload := payload E_UNITS SALT_E_TAMPERED in
  let note_payload := payload (E_UNITS * 2) SALT_E_TAMPERED in
  let% tampered := negative_of d "tampered-payload" ERR_XRESERVE_SIG_INVALID
    "building the tampered-payload mint note"
    (XUsdcMint sender f note_payload (attestation_for a signed_payload)) note_payload false in
  io_ret [replayed; forged; bad_attester; fee; tampered].

Definition run_rows_de_on (cfg : RunConfig) (client_label : string) : act RowsDeObservations :=
  let% started := start_client cfg client_label in
  let actors := started.2 in
  let owner_id := owner actors in
  let% faucet_id := build_faucet (deploy_params actors (rc_max_supply cfg) lnv2_domain_params) in
  deploy_faucet owner_id faucet_id ;%
  let d := {| dr_actors := actors; dr_faucet_id := faucet_id; dr_foreign := fun _ => false;
              dr_pathn_timeout := 240000 |} in
  with_context "tracking the recipient note tag" (ask (add_account_tag (recipient actors))) ;%
  allow_attester_a d ;%
  let% replay := valid_mint d BASE_VECTOR D_EMPTY_UNITS SALT_D_EMPTY in
  let% d_empty := run_mint_happy d "empty-hookData" BASE_VECTOR D_EMPTY_UNITS SALT_D_EMPTY in
  let% d_hook := run_mint_happy d "hookData-bearing" HOOKDATA_VECTOR D_HOOK_UNITS SALT_D_HOOK in
  let% e := run_negatives d replay.2 in
  io_ret {| de_main_commit := started.1; de_faucet_id := account_id_display faucet_id;
            de_recipient_id := account_id_display (recipient actors); row_d := [d_empty; d_hook];
            row_e := e |}.
End de.

(** ** Rows G to J *)

Definition MINT_UNITS : Z := 100.
Definition MIN_BURN : Z := 10.
Definition BURN_BELOW_MIN : Z := 5.
Definition ROW_G_BURN : Z := MINT_UNITS.
Definition ROW_H_BURN : Z := MINT_UNITS.
Definition NEG_BURN : Z := 50.
Definition SALT_MINT : Z := 81.

Definition SAME_BLOCK_MECHANISM : string :=
  "the production XReserveBurnNote consumed as an unauthenticated input (the same-block/never-committed lifecycle, mirroring canary c2_same_block_erasure_unauthenticated_consume): (1) a client-side execute shows the burn is valid and applies a supply delta; (2) submitting the faucet's consume via user RPC is REJECTED by the node — a COMMITTED same-block create+consume is unreachable (network-account faucet; the ntx-builder consumes only COMMITTED notes → always strictly-later-block, Row G); (3) the note never commits → no committed note, no nullifier, not SyncNotes-discoverable. Evidence for DEV-7; no acceptability decision".

Definition hex_lower (b : bytes) : string := list_str (hex_chars b).

Section gj.
Context `{SanityLib} {W : Type} `{!HarnessNode W, !RowNode W}.
Abbreviation act A := (io (Harness (W := W)) Failure A).

(** *** Notes (mintburn.rs) *)

Definition burn_items_of (amount : Z) (c : string) : result Failure BurnItemsOf :=
  ensure (amount_ok amount) [c] ;?
  Ok {| bi_amount := amount; bi_dest_domain := 3; bi_dest_recipient := replicate 32 171 |}.
Definition burn_note (sender faucet : AccountId) (amount : Z) : act Note :=
  let% items := io_lift (burn_items_of amount "burn amount is a valid AssetAmount") in
  build (XReserveBurn sender faucet items) "building the XReserveBurnNote probe".
Definition burn_note_wrong_asset (sender target_faucet asset_faucet : AccountId) (amount : Z) : act Note :=
  let% items := io_lift (burn_items_of amount "wrong-asset burn amount is a valid AssetAmount") in
  build (BurnWrongAsset sender target_faucet asset_faucet items) "wrong-asset burn".

(** *** Reads of the driver *)

(** The same-block consume, executed and not submitted: whether it is accepted, and the supply its patch
    takes away. *)
Definition probe_same_block (d : Driver) (note : Note) (supply_before : Z) : act (bool * option Z) :=
  sync_for "syncing before the same-block RIV" ;%
  let% req := build_request (InputNotes [note]) "building the same-block RIV request" in
  let% r := io_try (ask (execute_patch (dr_faucet_id d) req)) in
  io_ret match r with
         | Ok patch => (true, (fun '(e0, _, _, _) => saturating_sub supply_before e0) <$> patch)
         | Err _ => (false, None)
         end.
(** The same consume, submitted: whether the node refuses it, and how. *)
Definition submit_probe (d : Driver) (note : Note) : act (bool * string) :=
  sync_for "syncing before the submit probe" ;%
  let% req := build_request (InputNotes [note]) "building the submit-probe request" in
  let% r := io_try (submit (dr_faucet_id d) req) in
  io_ret match r with Ok _ => (false, ""%string) | Err e => (true, show_failure e) end.
Fixpoint capture_of (id : bytes) (fetched : list FetchedNote) : option CapturedNote :=
  match fetched with
  | [] => None
  | PublicNote n :: fetched => if bool_decide (cn_id n = id) then Some n else capture_of id fetched
  | PrivateNote _ :: fetched => capture_of id fetched
  end.
Definition get_note_capture (id : bytes) : act (option CapturedNote) :=
  let% fetched := with_context (String.concat "" ["GetNotesById("; to_hex id; ")"]) (ask (get_notes_by_id id)) in
  io_ret (capture_of id fetched).
Definition syncnotes_discovers (tag : Z) (id : bytes) : act bool :=
  let% to := tip "syncing before a tip read" "reading sync height" in
  let% blocks := with_context "SyncNotes" (ask (sync_notes tag to)) in
  io_ret (existsb (existsb (fun found => bool_decide (found = id))) blocks).

(** *** The mint the arc burns *)

Definition mint_to_holder (d : Driver) (units salt : Z) : act Z :=
  let owner_id := owner (dr_actors d) in
  let holder_id := holder (dr_actors d) in
  let% supply_before := supply_of d in
  let payload := mint_payload_own_id (dr_faucet_id d) BASE_VECTOR holder_id (raw_for_units units)
                   (raw_for_units MAX_FEE_UNITS) salt in
  let% note := build (XUsdcMint owner_id (dr_faucet_id d) payload
                        (attestation_for (attester (dr_actors d)) payload))
                 "building the mint-to-holder note" in
  let% committed :=
    with_context "committing the mint to the holder via path N"
      (commit_via_ntx d owner_id note "mint to holder"
         (supply_is (fun s => wrap 64 (supply_before + units) <=? s))) in
  let% supply_after := io_lift (token_supply committed) in
  let% p2id := wait_for_note d "target" holder_id units in
  let note := Found (cs_note p2id.1) in
  with_context "holder consuming its mint P2ID"
    (target_consume d "target" holder_id (policed_faucet_foreign note (dr_faucet_id d)) note) ;%
  io_ret supply_after.

(** *** Row I *)

Definition burn_negative (d : Driver) (label expected_error : string) (make : act Note) : act BurnNegative :=
  let% supply_before := supply_of d in
  let% note := make in
  let% verdict := probe_consume d note in
  let% supply_after := supply_of d in
  io_ret {| bn_label := label; bn_expected_error := expected_error; bn_verdict := verdict;
            bn_supply_before := supply_before; bn_supply_after := supply_after |}.

Definition run_row_i (d : Driver) (other_faucet_id : AccountId) : act (list BurnNegative) :=
  let holder_id := holder (dr_actors d) in
  let faucet_id := dr_faucet_id d in
  let pauser_id := pauser (dr_actors d) in
  let% below := burn_negative d "below-min" ERR_BURN_BELOW_MIN
                  (with_context "building the below-min burn note" (burn_note holder_id faucet_id BURN_BELOW_MIN)) in
  let% wrong := burn_negative d "wrong-asset" ERR_WRONG_ASSET_ORIGIN
                  (with_context "building the wrong-asset burn note"
                     (burn_note_wrong_asset holder_id faucet_id other_faucet_id NEG_BURN)) in
  let% pause := build (XReservePause pauser_id faucet_id) "building the pause note" in
  with_context "pausing via path N" (commit_via_ntx d pauser_id pause "pause" (paused_as MARKER_SET)) ;%
  let% paused := burn_negative d "while-paused" ERR_PAUSED
                   (with_context "building the while-paused burn note" (burn_note holder_id faucet_id NEG_BURN)) in
  let% unpause := build (XReserveUnpause pauser_id faucet_id) "building the unpause note" in
  with_context "unpausing via path N"
    (commit_via_ntx d pauser_id unpause "unpause" (paused_as MARKER_CLEAR)) ;%
  io_ret [below; wrong; paused].

(** *** Row H *)

Definition raw_response (id : bytes) (committed : option CapturedNote) : string :=
  match committed with
  | None =>
      String.concat "" ["GetNotesById(["; to_hex id; "]) -> [] (note not found: the never-committed burn note is absent from the note tree — Circle SyncNotes/GetNotesById discovery is starved)"]
  | Some n =>
      String.concat "" ["GetNotesById(["; to_hex id; "]) -> [Public(note, inclusion@block ";
        decimal (cn_inclusion_block n);
        ")] (UNEXPECTED — a never-committed note should not be found); note_bytes_hex=";
        hex_lower (cn_note_bytes n)]
  end.
Definition run_row_h (d : Driver) : act BurnSameBlock :=
  let holder_id := holder (dr_actors d) in
  let% onchain_supply_before := supply_of d in
  let% note := with_context "building the same-block RIV burn note"
                 (burn_note holder_id (dr_faucet_id d) ROW_H_BURN) in
  let id := note_id note in
  let% executed := probe_same_block d note onchain_supply_before in
  let% submitted := submit_probe d note in
  let% committed := get_note_capture id in
  let% nullifier := nullifier_block note in
  let% discovered := syncnotes_discovers FIXED_XUSDC_BURN_TAG id in
  let% onchain_supply_after := supply_of d in
  io_ret {| h_label := "same-block-erasure"; h_amount_units := ROW_H_BURN; mechanism := SAME_BLOCK_MECHANISM;
            h_note_tag := note_tag_u32 note; h_note_id := to_hex id; consume_accepted := executed.1;
            executed_supply_delta := executed.2; submit_via_user_rpc_rejected := submitted.1;
            submit_rejection_error := submitted.2; onchain_supply_before := onchain_supply_before;
            onchain_supply_after := onchain_supply_after;
            committed_note_found := bool_decide (is_Some committed);
            nullifier_recorded := bool_decide (is_Some nullifier); h_discovered_by_syncnotes := discovered;
            raw_getnotesbyid_response := raw_response id committed |}.

(** *** Row G *)

Definition run_row_g (d : Driver) : act BurnTwoBlock :=
  let holder_id := holder (dr_actors d) in
  let faucet_id := dr_faucet_id d in
  let% supply_before := supply_of d in
  let% holder_balance_before := balance_of d holder_id in
  let% note := with_context "building the two-block burn note" (burn_note holder_id faucet_id ROW_G_BURN) in
  let id := note_id note in
  let asset := first_asset faucet_id (note_assets note) in
  let% note_commit_block := with_context "emitting the burn note" (emit d holder_id note) in
  let% holder_balance_after := balance_of d holder_id in
  let% capture := get_note_capture id in
  let captured {A} (dflt : A) (get : CapturedNote -> A) :=
    match capture with Some n => get n | None => dflt end in
  let% discovered := syncnotes_discovers FIXED_XUSDC_BURN_TAG id in
  let target_supply := saturating_sub supply_before ROW_G_BURN in
  with_context "awaiting the ntx-builder's consumption of the burn note"
    (wait_for_faucet d "two-block burn consume" (supply_is (fun s => s <=? target_supply))) ;%
  let% supply_after := supply_of d in
  let% spent := nullifier_block note in
  let% consume_block := io_lift (ok_or spent
    ["the burn note's nullifier was not recorded after the consume"%string]) in
  let% found_after := get_note_capture id in
  io_ret {| g_label := "two-block-burn"; g_amount_units := ROW_G_BURN; g_supply_before := supply_before;
            g_supply_after := supply_after; holder_balance_before := holder_balance_before;
            holder_balance_after := holder_balance_after; g_note_id := to_hex id;
            g_note_tag := note_tag_u32 note; g_note_commit_block := note_commit_block;
            consume_block := consume_block; committed_before_consume := bool_decide (is_Some capture);
            g_discovered_by_syncnotes := discovered; found_after_consume := bool_decide (is_Some found_after);
            nullifier_recorded_after_consume := true; g_note_asset_amount := asset.1;
            g_note_asset_is_faucet := asset.2;
            getnotesbyid_note_bytes_hex := captured ""%string (fun n => hex_lower (cn_note_bytes n));
            getnotesbyid_inclusion_proof_bytes_hex := captured ""%string (fun n => hex_lower (cn_proof_bytes n));
            getnotesbyid_inclusion_block := captured 0 cn_inclusion_block |}.

(** *** The whole arc *)

Definition ledger_of (supply_after_mint final_supply holder_final : Z) : ConservationLedger :=
  {| total_minted := MINT_UNITS; total_burned := ROW_G_BURN; final_supply := final_supply;
     ledger_steps := [ {| step_label := "after-mint"; step_supply := supply_after_mint |};
                       {| step_label := "after-two-block-burn"; step_supply := final_supply |} ];
     holder_final_balance := holder_final |}.

Definition run_rows_gj_on (cfg : RunConfig) (client_label : string) : act RowsGjObservations :=
  let% started := start_client cfg client_label in
  let actors := started.2 in
  let owner_id := owner actors in
  let holder_id := holder actors in
  let% faucet_id := build_faucet (deploy_params actors (rc_max_supply cfg) lnv2_domain_params) in
  let% other_faucet_id := build_faucet (deploy_params actors (rc_max_supply cfg) lnv2_domain_params) in
  deploy_faucet owner_id faucet_id ;%
  let d := {| dr_actors := actors; dr_faucet_id := faucet_id;
              dr_foreign := fun note => policed_faucet_foreign note faucet_id;
              dr_pathn_timeout := 240000 |} in
  with_context "tracking the holder note tag" (ask (add_account_tag holder_id)) ;%
  allow_attester_a d ;%
  io_lift (ensure (amount_ok MIN_BURN) ["invalid minimum burn amount"%string]) ;%
  let% set_min := build (MinBurnAmountConfig owner_id faucet_id MIN_BURN)
                    "building the minimum-burn configuration note" in
  with_context "committing set_min_burn_size via path N"
    (commit_via_ntx d owner_id set_min "set_min_burn_size"
       (fun a => match min_burn a with Ok m => m =? MIN_BURN | Err _ => false end)) ;%
  let% supply_after_mint := mint_to_holder d MINT_UNITS SALT_MINT in
  let% i := run_row_i d other_faucet_id in
  let% h := run_row_h d in
  let% g := run_row_g d in
  let% final := supply_of d in
  let% holder_final := balance_of d holder_id in
  io_ret {| gj_main_commit := started.1; gj_faucet_id := account_id_display faucet_id;
            gj_holder_id := account_id_display holder_id; row_g := g; row_h := h; row_i := i;
            row_j := ledger_of supply_after_mint final holder_final |}.
End gj.

(** ** Rows C and F *)

Definition SUPPLY_UNITS : Z := 100.
Definition CAP_UNITS : Z := 300.
Definition WITHIN_CAP_UNITS : Z := 100.
Definition OVER_CAP_UNITS : Z := 250.
Definition PROBE_MINT_UNITS : Z := 50.
Definition RAISED_MIN : Z := 50.
Definition LOWERED_MIN : Z := 10.
Definition BURN_BELOW : Z := 5.
Definition F6_MIN : Z := 7.
Definition UNCONSUMED_WATCH_BLOCKS : Z := 3.
Definition NOP_SCRIPT : string := String.concat (String.String (ascii_of_nat 10) "")
  ["@transaction_script"; "pub proc main"; "    nop"; "end"; ""].

Section cf.
Context `{SanityLib} {W : Type} `{!HarnessNode W, !RowNode W}.
Abbreviation act A := (io (Harness (W := W)) Failure A).

Definition role_membership (a : FaucetAccount) (role : string) (member : AccountId) : result Failure Word4 :=
  ok_or (fa_map_item a role_membership_slot (0, role_felt role, account_suffix member, account_prefix member))
    ["reading role_membership"%string].
(** A reading of the faucet that is this word. *)
Definition word_is (r : result Failure Word4) (word : Word4) : bool :=
  match r with Ok w => bool_decide (w = word) | Err _ => false end.
Definition amount_is (r : result Failure Z) (v : Z) : bool :=
  match r with Ok m => m =? v | Err _ => false end.

(** *** Notes *)

Definition set_attester_note (d : Driver) (sender : AccountId) (commitment : Word4) (enabled : Z) : act Note :=
  build (XReserveSetAttester sender (dr_faucet_id d) commitment enabled) "building a set_attester note".
Definition set_max_supply_note (d : Driver) (sender : AccountId) (cap : Z) : act Note :=
  io_lift (ensure (amount_ok cap) ["invalid maximum supply"%string]) ;%
  build (SetMaxSupplyConfig sender (dr_faucet_id d) cap) "building a set_max_supply note".
Definition set_min_burn_note (d : Driver) (sender : AccountId) (min : Z) : act Note :=
  io_lift (ensure (amount_ok min) ["invalid minimum burn amount"%string]) ;%
  build (MinBurnAmountConfig sender (dr_faucet_id d) min) "building a minimum-burn configuration note".
Definition pause_note (d : Driver) (sender : AccountId) : act Note :=
  build (XReservePause sender (dr_faucet_id d)) "building a pause note".
Definition unpause_note (d : Driver) (sender : AccountId) : act Note :=
  build (XReserveUnpause sender (dr_faucet_id d)) "building an unpause note".
Definition mint_note (d : Driver) (attester_is_b : bool) (recipient_id : AccountId) (units salt : Z) : act Note :=
  let payload := mint_payload_own_id (dr_faucet_id d) BASE_VECTOR recipient_id (raw_for_units units)
                   (raw_for_units MAX_FEE_UNITS) salt in
  let a := if attester_is_b then attester_b (dr_actors d) else attester (dr_actors d) in
  build (XUsdcMint (owner (dr_actors d)) (dr_faucet_id d) payload (attestation_for a payload))
    "building the XUsdcMintNote probe".
Definition cf_burn_note (d : Driver) (units : Z) : act Note :=
  burn_note (holder (dr_actors d)) (dr_faucet_id d) units.
Definition grant_pauser_note (d : Driver) (member : AccountId) : act Note :=
  build (XReserveGrantRole (manager (dr_actors d)) (dr_faucet_id d) DOM_PAUSER_ROLE member)
    "building a grant_role note".
Definition revoke_pauser_note (d : Driver) (member : AccountId) : act Note :=
  build (XReserveRevokeRole (manager (dr_actors d)) (dr_faucet_id d) DOM_PAUSER_ROLE member)
    "building a revoke_role note".

(** A note built and committed by the ntx-builder; a note built and executed only. *)
Definition commit_admin (d : Driver) (sender : AccountId) (make : act Note) (op : string)
    (ready : FaucetAccount -> bool) : act FaucetAccount :=
  let% note := make in commit_via_ntx d sender note op ready.
Definition probe (d : Driver) (make : act Note) : act Verdict :=
  let% note := make in probe_consume d note.
Definition probe_tx_script (d : Driver) (script : bytes) : act Verdict :=
  sync_for "syncing before the tx-script probe" ;%
  let% req := build_request (CustomScript script) "building the tx-script request" in
  let% r := io_try (ask (execute_transaction (dr_faucet_id d) req)) in
  io_ret (match r with Ok _ => Accepted | Err e => Rejected (show_failure e) end).

(** Committing a setting of an attester, of the minimum burn, or of the pause, and reading it back. *)
Definition commit_attester (d : Driver) (commitment : Word4) (enabled : Z) (op : string) : act Word4 :=
  let word := if enabled =? 1 then MARKER_SET else MARKER_CLEAR in
  let owner_id := owner (dr_actors d) in
  let% acct := commit_admin d owner_id (set_attester_note d owner_id commitment enabled) op
                 (fun a => word_is (attester_marker a commitment) word) in
  io_lift (attester_marker acct commitment).
Definition commit_min_burn (d : Driver) (min : Z) (op : string) : act Z :=
  let owner_id := owner (dr_actors d) in
  let% acct := commit_admin d owner_id (set_min_burn_note d owner_id min) op
                 (fun a => amount_is (min_burn a) min) in
  io_lift (min_burn acct).
Definition commit_pause (d : Driver) (sender : AccountId) (make : act Note) (word : Word4) (op : string)
    : act Word4 :=
  let% acct := commit_admin d sender make op (paused_as word) in io_lift (pause_word acct).
Definition commit_role (d : Driver) (make : act Note) (member : AccountId) (word : Word4) (op : string)
    : act Word4 :=
  let% acct := commit_admin d (manager (dr_actors d)) make op
                 (fun a => word_is (role_membership a DOM_PAUSER_ROLE member) word) in
  io_lift (role_membership acct DOM_PAUSER_ROLE member).

(** *** Rows C1 to C5 *)

Definition run_c3 (d : Driver) : act C3MaxSupply :=
  let owner_id := owner (dr_actors d) in
  let recipient_id := recipient (dr_actors d) in
  let% acct := commit_admin d owner_id (set_max_supply_note d owner_id CAP_UNITS) "set_max_supply"
                 (fun a => amount_is (max_supply a) CAP_UNITS) in
  let% readback := io_lift (max_supply acct) in
  let% within := probe d (mint_note d false recipient_id WITHIN_CAP_UNITS 33) in
  let% over := probe d (mint_note d false recipient_id OVER_CAP_UNITS 34) in
  io_ret {| committed_cap := CAP_UNITS; max_supply_readback := readback; over_cap_mint := over;
            within_cap_mint := within |}.
Definition run_c2 (d : Driver) : act C2MinBurn :=
  let% after_raise := commit_min_burn d RAISED_MIN "set_min_burn_size(raise)" in
  let% below := probe d (cf_burn_note d BURN_BELOW) in
  let% after_lower := commit_min_burn d LOWERED_MIN "set_min_burn_size(lower)" in
  let% at_min := probe d (cf_burn_note d LOWERED_MIN) in
  io_ret {| raised_min := RAISED_MIN; committed_after_raise := after_raise; burn_below_raised := below;
            lowered_min := LOWERED_MIN; committed_after_lower := after_lower; burn_at_lowered := at_min |}.
Definition run_c1 (d : Driver) (a_marker_enabled : Word4) : act C1SetAttester :=
  let recipient_id := recipient (dr_actors d) in
  let% a_rotated := commit_attester d (commitment_word (attester (dr_actors d))) 0 "set_attester(A, enabled=0)" in
  let% b_rotated := commit_attester d (commitment_word (attester_b (dr_actors d))) 1 "set_attester(B, enabled=1)" in
  let% by_a := probe d (mint_note d false recipient_id PROBE_MINT_UNITS 49) in
  let% by_b := probe d (mint_note d true recipient_id PROBE_MINT_UNITS 50) in
  io_ret {| a_marker_after_enable := a_marker_enabled; a_marker_after_rotate := a_rotated;
            b_marker_after_rotate := b_rotated; mint_by_a := by_a; mint_by_b := by_b |}.
Definition run_c4 (d : Driver) : act C4Pause :=
  let pauser_id := pauser (dr_actors d) in
  let recipient_id := recipient (dr_actors d) in
  let% paused := commit_pause d pauser_id (pause_note d pauser_id) MARKER_SET "pause" in
  let% mint_paused := probe d (mint_note d true recipient_id PROBE_MINT_UNITS 65) in
  let% burn_paused := probe d (cf_burn_note d LOWERED_MIN) in
  let% owner_attester := commit_attester d (commitment_word (attester (dr_actors d))) 1
                           "owner set_attester WHILE PAUSED (F6)" in
  let% owner_min := commit_min_burn d F6_MIN "owner set_min_burn WHILE PAUSED (F6)" in
  let% unpaused := commit_pause d pauser_id (unpause_note d pauser_id) MARKER_CLEAR "unpause" in
  let% mint_after := probe d (mint_note d true recipient_id PROBE_MINT_UNITS 66) in
  io_ret {| is_paused_after_pause := paused; mint_while_paused := mint_paused;
            burn_while_paused := burn_paused; owner_set_attester_while_paused_marker := owner_attester;
            owner_set_min_burn_while_paused := owner_min; is_paused_after_unpause := unpaused;
            mint_after_unpause := mint_after |}.
Definition run_c5 (d : Driver) : act C5RoleRotation :=
  let member := new_pauser (dr_actors d) in
  let% granted := commit_role d (grant_pauser_note d member) member MARKER_SET
                    "grant_role(DOM_PAUSER, new_pauser)" in
  let% new_pause := commit_pause d member (pause_note d member) MARKER_SET "new_pauser pause" in
  commit_admin d member (unpause_note d member) "new_pauser unpause (restore)" (paused_as MARKER_CLEAR) ;%
  let% revoked := commit_role d (revoke_pauser_note d member) member MARKER_CLEAR
                    "revoke_role(DOM_PAUSER, new_pauser)" in
  let% revoked_pause := probe d (pause_note d member) in
  io_ret {| new_pauser_membership_after_grant := granted; is_paused_after_new_pauser_pause := new_pause;
            new_pauser_membership_after_revoke := revoked; revoked_pauser_pause := revoked_pause |}.

(** *** Rows C6 and F *)

Definition run_c6 (d : Driver) (stranger : AccountId) (a_commitment : Word4) : act (list AdminGateReject) :=
  let% n_attester := set_attester_note d stranger a_commitment 1 in
  let% n_max := set_max_supply_note d stranger (raw_for_units CAP_UNITS) in
  let% n_pause := pause_note d stranger in
  let% emit_block := emit d stranger n_attester in
  emit d stranger n_max ;%
  emit d stranger n_pause ;%
  let% v_attester := probe_consume d n_attester in
  let% v_max := probe_consume d n_max in
  let% v_pause := probe_consume d n_pause in
  wait_blocks_past (dr_pathn_timeout d) "syncing while watching blocks" "reading sync height" emit_block
    UNCONSUMED_WATCH_BLOCKS ;%
  let% c_attester := note_consumed n_attester in
  let% c_max := note_consumed n_max in
  let% c_pause := note_consumed n_pause in
  io_ret
    [ {| agr_op := "set_attester"; agr_sender := "non-owner"; agr_expected_gate := ERR_NOT_OWNER;
         agr_verdict := v_attester; note_unconsumed := negb c_attester |};
      {| agr_op := "set_max_supply"; agr_sender := "non-owner"; agr_expected_gate := ERR_NOT_OWNER;
         agr_verdict := v_max; note_unconsumed := negb c_max |};
      {| agr_op := "pause"; agr_sender := "non-DOM_PAUSER"; agr_expected_gate := ERR_LACKS_ROLE;
         agr_verdict := v_pause; note_unconsumed := negb c_pause |} ].

Definition run_row_f (d : Driver) (sender : AccountId) : act RowF :=
  io_lift (ensure (amount_ok 1) ["nominal P2ID asset"%string]) ;%
  let% p2id := build (StockP2id sender (dr_faucet_id d) 1) "building the stock P2ID note" in
  let% note_verdict := probe_consume d p2id in
  let% script := io_lift (map_err (fun e => ["compiling the trivial tx-script"%string; e])
                   (compile_tx_script NOP_SCRIPT)) in
  let% script_verdict := probe_tx_script d script in
  io_ret {| non_allowlisted_note := note_verdict; tx_script := script_verdict |}.

Definition run_rows_cf_on (cfg : RunConfig) (client_label : string) : act RowsCfObservations :=
  let% started := start_client cfg client_label in
  let actors := started.2 in
  let% faucet_id := build_faucet (deploy_params actors (rc_max_supply cfg) lnv2_domain_params) in
  deploy_faucet (owner actors) faucet_id ;%
  let d := {| dr_actors := actors; dr_faucet_id := faucet_id; dr_foreign := fun _ => false;
              dr_pathn_timeout := 180000 |} in
  let a_commitment := commitment_word (attester actors) in
  let% a_enabled := commit_attester d a_commitment 1 "set_attester(A, enabled=1)" in
  let% supply_mint := mint_note d false (recipient actors) SUPPLY_UNITS 0 in
  with_context "committing the supply-establishing mint via path N"
    (commit_via_ntx d (owner actors) supply_mint "supply mint (attested by A)"
       (supply_is (fun s => SUPPLY_UNITS <=? s))) ;%
  let% c3 := run_c3 d in
  let% c2 := run_c2 d in
  let% c1 := run_c1 d a_enabled in
  let% c4 := run_c4 d in
  let% c5 := run_c5 d in
  let% c6 := run_c6 d (holder actors) a_commitment in
  let% f := run_row_f d (holder actors) in
  io_ret {| cf_main_commit := started.1; cf_faucet_id := account_id_display faucet_id; c1 := c1; c2 := c2;
            c3 := c3; c4 := c4; c5 := c5; c6 := c6; row_f := f |}.
End cf.

(** ** Rows A and B, and the whole run *)

Definition REINIT_WATCH_BLOCKS : Z := 3.
Definition WATCH_TIMEOUT : Z := 180000.

Section whole.
Context `{SanityLib} {W : Type} `{!HarnessNode W, !RowNode W}.
Abbreviation act A := (io (Harness (W := W)) Failure A).

Definition identifier_init_note (owner_id faucet_id : AccountId) : act Note :=
  build (XReserveIdentifierInit owner_id faucet_id) "building an identifier_init note".
Definition look_tx_commit (tx : bytes) : act (option Z) :=
  sync_for "syncing while waiting for a transaction" ;%
  let% status := with_context "querying the transaction status" (ask (get_transaction tx)) in
  let% status := io_lift (ok_or status ["the transaction is not tracked by the client"%string]) in
  match status with
  | Committed block => io_ret (Some block)
  | Discarded cause => io_err [String.append "the transaction was DISCARDED: " cause]
  | Pending => io_ret None
  end.
Definition wait_for_tx_commit (tx : bytes) : act Z :=
  poll_for TX_COMMIT_TIMEOUT 500 ["the transaction did not commit"%string] (look_tx_commit tx).
Definition emit_init (owner_id : AccountId) (note : Note) (build_c submit_c : string) : act Z :=
  let% req := build_request (OwnOutputNotes false [note]) build_c in
  let% tx := with_context submit_c (submit owner_id req) in
  wait_for_tx_commit tx.
Definition get_account_after (faucet_id : AccountId) (what : string) : act (option FaucetAccount) :=
  with_context (String.concat "" ["GetAccount("; account_id_display faucet_id; ") after "; what])
    (ask (get_account_details faucet_id)).

Definition run_rows_ab_on (cfg : RunConfig) (client_label : string) : act RowsAbObservations :=
  let% started := start_client cfg client_label in
  let actors := started.2 in
  let owner_id := owner actors in
  let% faucet_id := build_faucet (deploy_params actors (rc_max_supply cfg) (rc_domain_params cfg)) in
  let% note1 := identifier_init_note owner_id faucet_id in
  emit_init owner_id note1 "building the owner's first emit request"
    "submitting the owner's identifier_init #1 emit transaction" ;%
  with_context "registering the new faucet account with the client" (ask (add_account faucet_id false)) ;%
  let% deploy := build_request (InputNotes [note1]) "building the deploy request" in
  let% deploy_tx := with_context "submitting the faucet deploy (+identifier_init) transaction"
                      (submit faucet_id deploy) in
  let% deploy_block := wait_for_tx_commit deploy_tx in
  let% deployed := get_account_after faucet_id "deploy" in
  let% note2 := identifier_init_note owner_id faucet_id in
  let% emit2_block := emit_init owner_id note2 "building the owner's second emit request"
                        "submitting the owner's identifier_init #2 emit transaction" in
  let% reinit := build_request (InputNotes [note2]) "building the reinit-attempt request" in
  let% r := io_try (ask (execute_transaction faucet_id reinit)) in
  let reinit_error := match r with Ok _ => None | Err e => Some (show_failure e) end in
  wait_blocks_past WATCH_TIMEOUT "syncing while waiting for blocks" "reading the sync height" emit2_block
    REINIT_WATCH_BLOCKS ;%
  let% second_consumed := with_context "querying nullifier commit heights" (ask (nullifier_commit_height note2)) in
  let% after_reinit := get_account_after faucet_id "the reinit attempt" in
  io_ret {| ab_main_commit := started.1; ab_faucet_id := faucet_id; ab_deployed := deployed;
            ab_deploy_tx_id := to_hex deploy_tx; ab_deploy_block := deploy_block; ab_owner_id := owner_id;
            ab_domain_params := rc_domain_params cfg; ab_reinit_params := rc_reinit_params cfg;
            ab_first_note_id := to_hex (note_id note1); ab_second_note_id := to_hex (note_id note2);
            ab_reinit_error := reinit_error; ab_after_reinit := after_reinit;
            ab_second_note_consumed := bool_decide (is_Some second_consumed) |}.

(** [run_rows_ab], [run_rows_cf], [run_rows_de], [run_rows_gj]: one part on a stack of its own. *)
Definition on_own_stack {A} (cfg : RunConfig) (run : string -> act A) : act A :=
  on_stack cfg (run "main"%string) io_ret.
Definition run_rows_ab (cfg : RunConfig) : act RowsAbObservations := on_own_stack cfg (run_rows_ab_on cfg).
Definition run_rows_cf (cfg : RunConfig) : act RowsCfObservations :=
  on_own_stack cfg (run_rows_cf_on cfg).
Definition run_rows_de (cfg : RunConfig) : act RowsDeObservations :=
  on_own_stack cfg (run_rows_de_on cfg).
Definition run_rows_gj (cfg : RunConfig) : act RowsGjObservations :=
  on_own_stack cfg (run_rows_gj_on cfg).

Definition matrix_failure (dir : string) (e : MatrixError) : Failure :=
  match e with
  | ReadingNtxLog path => [String.append "reading " path]
  | ScanningLogs (ReadingDir dir) => [String.append "reading the log dir " dir]
  | ScanningLogs (ReadingLog name) => [String.concat "" ["reading the service log "; dir; "/"; name]]
  end.
(** The four parts in the order of the matrix, on the one stack. *)
Definition run_parts (cfg : RunConfig) :
    act (RowsAbObservations * RowsCfObservations * RowsDeObservations * RowsGjObservations) :=
  let% ab := with_context "rows A/B sub-run (deploy + identifier_init)" (run_rows_ab_on cfg "ab") in
  let% cf := with_context "rows C/F sub-run (admin + auth boundary)" (run_rows_cf_on cfg "cf") in
  let% de := with_context "rows D/E sub-run (mint lifecycle)" (run_rows_de_on cfg "de") in
  let% gj := with_context "rows G/H/I/J sub-run (burn lifecycle + conservation)"
               (run_rows_gj_on cfg "gj") in
  io_ret (ab, cf, de, gj).
(** The logs are read once, as they are when the services have stopped. *)
Definition matrix_of (cfg : RunConfig)
    (parts : RowsAbObservations * RowsCfObservations * RowsDeObservations * RowsGjObservations) : act FullMatrix :=
  let '(ab, cf, de, gj) := parts in
  let dir := log_dir (rc_stack cfg) in
  let% files := observe (read_logs dir) in
  io_lift (map_err (matrix_failure dir) (full_matrix dir files ab cf de gj)).
Definition run_full_matrix (cfg : RunConfig) : act FullMatrix := on_stack cfg (run_parts cfg) (matrix_of cfg).
End whole.
