(* ===== verification/MatrixProps.v ===== *)
(** What a run of the burn rows moves: the notes it emits that change the faucet's supply are those of its
    ledger; that a run leaves no node behind; and what the adversarial mint note carries. *)
From S2P Require Import Prelude Text Foreign Io Observations LogScan Sanity Evidence SanityDriver.
From S2P Require Import LogScanProps Stack Actors SanityAdmin SanityProps MatrixDriver MatrixRuns.
From Stdlib Require Import Ascii.
Local Open Scope Z_scope.
Local Open Scope io_scope.

(** ** The moves of a transaction *)

Section moves.
Context `{SanityLib}.

(** A note whose consumption by its faucet changes the supply. *)
Definition moves_supply (spec : NoteSpec) : bool :=
  match spec with
  | XUsdcMint _ _ _ _ | MintWithFee _ _ _ _ _ | XReserveBurn _ _ _ | BurnWrongAsset _ _ _ _ => true
  | _ => false
  end.
(** Such a note emitted, and left to the network to consume, or consumed by the transaction itself. *)
Inductive Move : Type := Emitted (sender : AccountId) (spec : NoteSpec) | Consumed (account : AccountId) (spec : NoteSpec).
Definition moves_of_note (how : NoteSpec -> Move) (n : Note) : list Move :=
  match n with Built spec _ => if moves_supply spec then [how spec] else [] | Found _ => [] end.
Definition moves_of (s : AccountId * TxRequest) : list Move :=
  match s.2 with
  | OwnOutputNotes _ notes => flat_map (moves_of_note (Emitted s.1)) notes
  | ConsumeNotes _ notes | InputNotes notes => flat_map (moves_of_note (Consumed s.1)) notes
  | CustomScript _ => []
  end.
Definition still (s : AccountId * TxRequest) : Prop := moves_of s = [].

(** The moves of the arc, newest first: the burn, the submission of row H's burn that the node is to
    refuse, and the mint. *)
Definition burn_of (holder_id faucet_id : AccountId) (amount : Z) : NoteSpec :=
  XReserveBurn holder_id faucet_id {| bi_amount := amount; bi_dest_domain := 3; bi_dest_recipient := replicate 32 171 |}.
Definition mint_of (actors : Actors) (faucet_id : AccountId) (units : Z) : NoteSpec :=
  let payload := mint_payload_own_id faucet_id BASE_VECTOR (holder actors) (raw_for_units units)
                   (raw_for_units MAX_FEE_UNITS) SALT_MINT in
  XUsdcMint (owner actors) faucet_id payload (attestation_for (attester actors) payload).
Definition ledger_moves (actors : Actors) (faucet_id : AccountId) (minted refused burned : Z) : list Move :=
  [ Emitted (holder actors) (burn_of (holder actors) faucet_id burned);
    Consumed faucet_id (burn_of (holder actors) faucet_id refused);
    Emitted (owner actors) (mint_of actors faucet_id minted) ].
End moves.

(** ** Methods that move exactly what they should *)

Section rules.
Context `{SanityLib} {W : Type} `{!HarnessNode W, !RowNode W}.
Abbreviation act A := (io (Harness (W := W)) Failure A).
Abbreviation quiet := (keeps (submits (W := W) still)).

(** The method moves [p], newest first, and returns what [Q] says; or it fails on the way. *)
Definition moves {A} (p : list Move) (Q : A -> Prop) (m : act A) : Prop := forall h, exists new,
  h_submitted (m h).2 = new ++ h_submitted h
  /\ match (m h).1 with
     | Ok a => flat_map moves_of new = p /\ Q a
     | Err _ => suffix (flat_map moves_of new) p
     end.

Lemma still_moves new : Forall still new -> flat_map moves_of new = [].
Proof. induction 1 as [|s new Hs _ IH]; simpl; [done|]. by rewrite Hs, IH. Qed.

Lemma moves_quiet {A} (m : act A) : quiet m -> moves [] (fun _ => True) m.
Proof.
  intros Hm h. destruct (Hm h) as (new & E & Hn). exists new. split; [done|].
  rewrite (still_moves new Hn). destruct (m h).1; [by split|by apply suffix_nil].
Qed.
Lemma moves_then {A B} p1 p2 (Q1 : A -> Prop) (Q2 : B -> Prop) (m : act A) (k : A -> act B) :
  moves p1 Q1 m -> (forall a, Q1 a -> moves p2 Q2 (k a)) -> moves (p2 ++ p1) Q2 (io_bind m k).
Proof.
  intros Hm Hk h. destruct (Hm h) as (n1 & E1 & F1). unfold io_bind. destruct (m h) as [[a|e] h1]; cbn [fst snd] in *.
  - destruct F1 as [F1 Ha]. destruct (Hk a Ha h1) as (n2 & E2 & F2). exists (n2 ++ n1).
    rewrite E2, E1, <-app_assoc, flat_map_app, F1. split; [done|].
    destruct (k a h1) as [[b|e] h2]; cbn [fst snd] in *; [by destruct F2 as [-> ?]|]. by apply suffix_app.
  - exists n1. split; [done|]. by apply suffix_app_r.
Qed.
Lemma moves_quiet_bind {A B} p (Q : B -> Prop) (m : act A) (k : A -> act B) :
  quiet m -> (forall a, moves p Q (k a)) -> moves p Q (io_bind m k).
Proof. intros Hm Hk. rewrite <-(app_nil_r p). eapply moves_then; [by apply moves_quiet|]. intros a _. apply Hk. Qed.
Lemma moves_bind_quiet {A B} p Q1 (Q : B -> Prop) (m : act A) (k : A -> act B) :
  moves p Q1 m -> (forall a, Q1 a -> moves [] Q (k a)) -> moves p Q (io_bind m k).
Proof. intros Hm Hk. exact (moves_then p [] Q1 Q m k Hm Hk). Qed.
Lemma moves_ret {A} (Q : A -> Prop) a : Q a -> moves [] Q (io_ret a).
Proof. intros Ha h. by exists []. Qed.
Lemma moves_context {A} p (Q : A -> Prop) c (m : act A) : moves p Q m -> moves p Q (with_context c m).
Proof.
  intros Hm h. destruct (Hm h) as (new & E & F). exists new. unfold with_context, io_map_err.
  by destruct (m h) as [[a|e] h'].
Qed.
Lemma moves_weaken {A} p (Q Q' : A -> Prop) (m : act A) : (forall a, Q a -> Q' a) -> moves p Q m -> moves p Q' m.
Proof.
  intros HQ Hm h. destruct (Hm h) as (new & E & F). exists new. split; [done|].
  destruct (m h).1; [|done]. destruct F. auto.
Qed.

(** A step whose outcome is known. *)
Lemma moves_request_then {A} p (Q : A -> Prop) req c (k : TxRequest -> act A) :
  moves p Q (k req) -> moves p Q (io_bind (build_request req c) k).
Proof.
  intros Hk. unfold build_request. destruct (request_error req); [|exact Hk].
  intros h. exists []. split; [done|]. by apply suffix_nil.
Qed.
Lemma moves_assoc {A B C} p (Q : C -> Prop) (m : act A) (k : A -> act B) (k' : B -> act C) :
  moves p Q (io_bind m (fun a => io_bind (k a) k')) -> moves p Q (io_bind (io_bind m k) k').
Proof. intros Hm h. specialize (Hm h). unfold io_bind in *. by destruct (m h) as [[a|e] h1]. Qed.
Lemma moves_build_then {A} p (Q : A -> Prop) spec c (k : Note -> act A) :
  (forall serial, moves p Q (k (Built spec serial))) -> moves p Q (io_bind (build spec c) k).
Proof. intros Hk. apply moves_assoc, moves_quiet_bind; [apply mild_context, mild_ask|exact Hk]. Qed.
Lemma moves_context_assoc {A B C} p (Q : C -> Prop) c (m : act A) (k : A -> act B) (k' : B -> act C) :
  moves p Q (io_bind (with_context c m) (fun a => io_bind (with_context c (k a)) k')) ->
  moves p Q (io_bind (with_context c (io_bind m k)) k').
Proof.
  intros Hm h. specialize (Hm h). unfold io_bind, with_context, io_map_err in *.
  by destruct (m h) as [[a|e] h1].
Qed.

Lemma moves_submit sender req : moves (moves_of (sender, req)) (fun _ => True) (submit (W := W) sender req).
Proof.
  intros h. exists [(sender, req)]. unfold submit. destruct (submit_new_transaction sender req (h_world h)) as [r w].
  split; [done|]. simpl. rewrite app_nil_r. destruct r; [by split|by exists []].
Qed.
End rules.

(** ** The driver *)

Ltac quiet_step :=
  match goal with
  | |- keeps _ (io_bind (io_bind _ _) _) => apply mild_assoc
  | _ => mild_step
  end.
Ltac quiet_walk := repeat quiet_step.

Section driver.
Context `{SanityLib} {W : Type} `{!HarnessNode W, !RowNode W}.
Context (d : Driver).
Abbreviation act A := (io (Harness (W := W)) Failure A).
Abbreviation quiet := (keeps (submits (W := W) still)).

Lemma quiet_poll_for {A} limit pause timeout (look : act (option A)) :
  quiet look -> quiet (poll_for limit pause timeout look).
Proof. intros. unfold poll_for. quiet_walk. Qed.
#[local] Hint Resolve quiet_poll_for : mild.
Lemma quiet_sync c : quiet (sync_for c).
Proof. unfold sync_for. quiet_walk. Qed.
#[local] Hint Resolve quiet_sync : mild.
Lemma quiet_fetch : quiet (fetch_faucet d).
Proof. unfold fetch_faucet, try_fetch. quiet_walk. Qed.
#[local] Hint Resolve quiet_fetch : mild.
Lemma quiet_balance id : quiet (balance_of d id).
Proof. unfold balance_of. quiet_walk. Qed.
Lemma quiet_supply : quiet (supply_of d).
Proof. unfold supply_of. quiet_walk. Qed.
Lemma quiet_wait_commit tx : quiet (wait_commit tx).
Proof. apply quiet_poll_for. unfold look_commit. quiet_walk. Qed.
Lemma quiet_wait_faucet op ready : quiet (wait_for_faucet d op ready).
Proof. apply quiet_poll_for. unfold look_faucet. quiet_walk. Qed.
Lemma quiet_wait_note who target amount : quiet (wait_for_note d who target amount).
Proof. apply quiet_poll_for. unfold look_note. quiet_walk. Qed.
Lemma quiet_probe note : quiet (probe_consume d note).
Proof. unfold probe_consume. quiet_walk. Qed.
Lemma quiet_nullifier note : quiet (nullifier_block note).
Proof. unfold nullifier_block. quiet_walk. Qed.
Lemma quiet_capture id : quiet (get_note_capture id).
Proof. unfold get_note_capture. quiet_walk. Qed.
Lemma quiet_discovers tag id : quiet (syncnotes_discovers tag id).
Proof. unfold syncnotes_discovers, tip. quiet_walk. Qed.
Lemma quiet_same_block note supply : quiet (probe_same_block d note supply).
Proof. unfold probe_same_block. quiet_walk. Qed.
#[local] Hint Resolve quiet_balance quiet_supply quiet_wait_commit quiet_wait_faucet quiet_wait_note quiet_probe
  quiet_nullifier quiet_capture quiet_discovers quiet_same_block : mild.

Lemma moves_emit sender note :
  moves (moves_of_note (Emitted sender) note) (fun _ => True) (emit (W := W) d sender note).
Proof.
  apply moves_request_then. eapply moves_bind_quiet.
  - apply moves_context. pose proof (moves_submit (W := W) sender (OwnOutputNotes (dr_foreign d note) [note])) as Hs.
    unfold moves_of in Hs. simpl in Hs. rewrite app_nil_r in Hs. exact Hs.
  - intros tx _. apply moves_quiet, quiet_wait_commit.
Qed.
Lemma moves_commit sender note op ready :
  moves (moves_of_note (Emitted sender) note) (fun _ => True) (commit_via_ntx (W := W) d sender note op ready).
Proof.
  eapply moves_bind_quiet; [apply moves_context, moves_emit|]. intros _ _.
  apply moves_quiet, quiet_wait_faucet.
Qed.

Lemma quiet_of_moves {A} (m : act A) Q : moves [] Q m -> quiet m.
Proof.
  intros Hm h. destruct (Hm h) as (new & E & F). exists new. split; [done|].
  assert (flat_map moves_of new = []) as Hn.
  { destruct (m h).1; [apply F|]. destruct F as [l Hl]. by destruct (app_eq_nil _ _ (eq_sym Hl)). }
  clear E F. induction new as [|s new IH]; [constructor|]. simpl in Hn.
  apply app_eq_nil in Hn as [Hs Hn]. constructor; auto.
Qed.
Lemma quiet_commit sender spec serial op ready : moves_supply spec = false ->
  quiet (commit_via_ntx d sender (Built spec serial) op ready).
Proof.
  intros Hs. apply (quiet_of_moves _ (fun _ => True)). pose proof (moves_commit sender (Built spec serial) op ready) as Hm.
  simpl in Hm. by rewrite Hs in Hm.
Qed.
Lemma quiet_consume who target foreign n : quiet (target_consume d who target foreign (Found n)).
Proof. unfold target_consume. quiet_walk. by apply mild_submit. Qed.
#[local] Hint Resolve quiet_consume : mild.
#[local] Hint Extern 1 (keeps _ (commit_via_ntx _ _ _ _ _)) => by apply quiet_commit : mild.

(** A built burn note is the one asked for. *)
Lemma moves_burn_then {A} p (Q : A -> Prop) c sender faucet amount (k : Note -> act A) :
  (forall serial, moves p Q (k (Built (burn_of sender faucet amount) serial))) ->
  moves p Q (io_bind (with_context c (burn_note sender faucet amount)) k).
Proof.
  intros Hk. unfold burn_note, burn_items_of. destruct (amount_ok amount).
  - apply moves_context_assoc. cbn. intros h. specialize (fun s => Hk s (set_world (build_note (burn_of sender faucet amount) (h_world h)).2 h)).
    unfold io_bind, with_context, io_map_err, io_lift, build, ask, io_ret, io_bind, with_context, io_map_err in *.
    cbn. unfold burn_of in Hk. destruct (build_note _ (h_world h)) as [[serial|e] w]; cbn in *; [apply Hk|].
    exists []. split; [done|by apply suffix_nil].
  - intros h. exists []. split; [done|by apply suffix_nil].
Qed.
End driver.

(** ** The run *)

Section run.
Context `{SanityLib} {W : Type} `{!HarnessNode W, !RowNode W}.
Abbreviation act A := (io (Harness (W := W)) Failure A).
Abbreviation quiet := (keeps (submits (W := W) still)).
#[local] Hint Resolve quiet_poll_for quiet_sync quiet_fetch quiet_balance quiet_supply quiet_wait_commit
  quiet_wait_faucet quiet_wait_note quiet_probe quiet_nullifier quiet_capture quiet_discovers quiet_same_block
  quiet_consume : mild.
#[local] Hint Extern 1 (keeps _ (commit_via_ntx _ _ _ _ _)) => by apply quiet_commit : mild.

Lemma quiet_start cfg label : quiet (start_client cfg label).
Proof. unfold start_client. quiet_walk. Qed.
Lemma quiet_deploy owner_id faucet_id : quiet (deploy_faucet owner_id faucet_id).
Proof. unfold deploy_faucet. quiet_walk; by apply mild_submit. Qed.
Lemma quiet_allow d : quiet (allow_attester_a d).
Proof. unfold allow_attester_a. quiet_walk. Qed.
Lemma quiet_burn_note sender faucet amount : quiet (burn_note sender faucet amount).
Proof. unfold burn_note. quiet_walk. Qed.
Lemma quiet_wrong_asset sender faucet other amount : quiet (burn_note_wrong_asset sender faucet other amount).
Proof. unfold burn_note_wrong_asset. quiet_walk. Qed.
#[local] Hint Resolve quiet_start quiet_deploy quiet_allow quiet_burn_note quiet_wrong_asset : mild.

Lemma quiet_negative d label expected (make : act Note) :
  quiet make -> quiet (burn_negative d label expected make).
Proof. intros. unfold burn_negative. quiet_walk. Qed.
#[local] Hint Resolve quiet_negative mild_context : mild.
Lemma quiet_row_i d other : quiet (run_row_i d other).
Proof. unfold run_row_i. quiet_walk. Qed.
#[local] Hint Resolve quiet_row_i : mild.

Lemma moves_mint d :
  moves [Emitted (owner (dr_actors d)) (mint_of (dr_actors d) (dr_faucet_id d) MINT_UNITS)] (fun _ => True)
    (mint_to_holder (W := W) d MINT_UNITS SALT_MINT).
Proof.
  unfold mint_to_holder. apply moves_quiet_bind; [apply quiet_supply|]. intros before. cbv zeta.
  apply moves_build_then. intros serial. eapply moves_bind_quiet.
  - exact (moves_context _ _ _ _ (moves_commit d _ _ _ _)).
  - intros committed _. apply moves_quiet. quiet_walk.
Qed.

Lemma moves_probe d spec serial : moves_supply spec = true ->
  moves [Consumed (dr_faucet_id d) spec] (fun _ => True) (submit_probe (W := W) d (Built spec serial)).
Proof.
  intros Hs. unfold submit_probe. apply moves_quiet_bind; [apply quiet_sync|]. intros _.
  apply moves_request_then. intros h. exists [(dr_faucet_id d, InputNotes [Built spec serial])].
  unfold io_bind, io_try, submit. destruct (submit_new_transaction _ _ _) as [r w].
  destruct r; (split; [done|]); cbn; rewrite Hs; by split.
Qed.
Lemma moves_row_h d :
  moves [Consumed (dr_faucet_id d) (burn_of (holder (dr_actors d)) (dr_faucet_id d) ROW_H_BURN)]
    (fun o => h_amount_units o = ROW_H_BURN) (run_row_h (W := W) d).
Proof.
  unfold run_row_h. apply moves_quiet_bind; [apply quiet_supply|]. intros before.
  apply moves_burn_then. intros serial. cbv zeta.
  apply moves_quiet_bind; [apply quiet_same_block|]. intros executed.
  eapply moves_bind_quiet; [by apply moves_probe|]. intros submitted _.
  repeat (apply moves_quiet_bind; [by eauto with mild|]; intros ?). by apply moves_ret.
Qed.
Lemma moves_row_g d :
  moves [Emitted (holder (dr_actors d)) (burn_of (holder (dr_actors d)) (dr_faucet_id d) ROW_G_BURN)]
    (fun _ => True) (run_row_g (W := W) d).
Proof.
  unfold run_row_g. do 2 (apply moves_quiet_bind; [by eauto with mild|]; intros ?).
  apply moves_burn_then. intros serial. cbv zeta.
  eapply moves_bind_quiet; [exact (moves_context _ _ _ _ (moves_emit d _ _))|]. intros block _.
  repeat (apply moves_quiet_bind; [by eauto with mild|]; intros ?). by apply moves_ret.
Qed.

(** What the run returns about itself. *)
Definition tells (actors : Actors) (faucet_id : AccountId) (o : RowsGjObservations) : Prop :=
  gj_faucet_id o = account_id_display faucet_id /\ gj_holder_id o = account_id_display (holder actors)
  /\ total_minted (row_j o) = MINT_UNITS /\ total_burned (row_j o) = ROW_G_BURN
  /\ h_amount_units (row_h o) = ROW_H_BURN.

(** The end of a run: the moves it made, as its ledger has them, or those it had made when it failed. *)
Definition accounts_for (moved : list Move) (r : result Failure RowsGjObservations) : Prop :=
  match r with
  | Ok o => exists actors faucet_id, tells actors faucet_id o
      /\ moved = ledger_moves actors faucet_id (total_minted (row_j o)) (h_amount_units (row_h o)) (total_burned (row_j o))
  | Err _ => moved = [] \/ exists actors faucet_id,
      suffix moved (ledger_moves actors faucet_id MINT_UNITS ROW_H_BURN ROW_G_BURN)
  end.
Definition accounted (m : act RowsGjObservations) : Prop := forall h, exists new,
  h_submitted (m h).2 = new ++ h_submitted h /\ accounts_for (flat_map moves_of new) (m h).1.

Lemma accounted_bind {A} (m : act A) (k : A -> act RowsGjObservations) :
  quiet m -> (forall a, accounted (k a)) -> accounted (io_bind m k).
Proof.
  intros Hm Hk h. destruct (Hm h) as (n1 & E1 & F1). apply still_moves in F1. unfold io_bind.
  destruct (m h) as [[a|e] h1]; cbn [fst snd] in *.
  - destruct (Hk a h1) as (n2 & E2 & F2). exists (n2 ++ n1).
    by rewrite E2, E1, <-app_assoc, flat_map_app, F1, app_nil_r.
  - exists n1. split; [done|by left].
Qed.
Lemma accounted_moves actors faucet_id (m : act RowsGjObservations) :
  moves (ledger_moves actors faucet_id MINT_UNITS ROW_H_BURN ROW_G_BURN) (tells actors faucet_id) m -> accounted m.
Proof.
  intros Hm h. destruct (Hm h) as (new & E & F). exists new. split; [done|].
  destruct (m h) as [[o|e] h']; cbn [fst] in *.
  - destruct F as [-> Ho]. exists actors, faucet_id. split; [done|].
    by destruct Ho as (_ & _ & -> & -> & ->).
  - right. by exists actors, faucet_id.
Qed.

Lemma run_accounted cfg label : accounted (run_rows_gj_on (W := W) cfg label).
Proof.
  unfold run_rows_gj_on. apply accounted_bind; [apply quiet_start|]. intros [commit actors]. cbv zeta. cbn [fst snd].
  apply accounted_bind; [apply mild_build_faucet|]. intros faucet_id.
  apply accounted_bind; [apply mild_build_faucet|]. intros other.
  apply (accounted_moves actors faucet_id).
  do 4 (apply moves_quiet_bind; [by eauto with mild|]; intros ?).
  apply moves_build_then. intros serial. apply moves_quiet_bind; [by eauto with mild|]. intros _.
  match goal with |- context [mint_to_holder ?d _ _] => set (driver := d) end.
  change (ledger_moves _ _ _ _ _) with
    (([Emitted (holder (dr_actors driver)) (burn_of (holder (dr_actors driver)) (dr_faucet_id driver) ROW_G_BURN)]
      ++ [Consumed (dr_faucet_id driver) (burn_of (holder (dr_actors driver)) (dr_faucet_id driver) ROW_H_BURN)])
     ++ [Emitted (owner (dr_actors driver)) (mint_of (dr_actors driver) (dr_faucet_id driver) MINT_UNITS)]).
  eapply moves_then; [apply moves_mint|]. intros supply _.
  apply moves_quiet_bind; [apply quiet_row_i|]. intros i.
  eapply moves_then; [apply moves_row_h|]. intros row Hrow.
  eapply moves_bind_quiet; [apply moves_row_g|]. intros g _.
  do 2 (apply moves_quiet_bind; [by eauto with mild|]; intros ?). by apply moves_ret.
Qed.

Lemma ledger_check (o : RowsGjObservations) : gj_assert_all o = Ok tt ->
  final_supply (row_j o) = total_minted (row_j o) - total_burned (row_j o)
  /\ submit_via_user_rpc_rejected (row_h o) = true.
Proof.
  unfold gj_assert_all, assert_h, assert_j. rewrite !bind_ok, !ensure_ok. intros (_ & Hh & _ & Hj).
  split; [|apply Hh]. destruct Hj as (_ & Hj & _). by apply Z.eqb_eq.
Qed.

(** The run added to the transactions [old] what its ledger accounts for; and when the checks pass, the
    supply it read last is the emitted mint less the emitted burn, and the node refused row H's direct
    consumption. *)
Definition ledger_holds (old : list (AccountId * TxRequest))
    (run : result Failure RowsGjObservations * Harness (W := W)) : Prop :=
  let '(r, h') := run in
  exists new, h_submitted h' = new ++ old /\ accounts_for (flat_map moves_of new) r
  /\ match r with
     | Ok o => gj_assert_all o = Ok tt ->
         final_supply (row_j o) = total_minted (row_j o) - total_burned (row_j o)
         /\ submit_via_user_rpc_rejected (row_h o) = true
     | Err _ => True
     end.

(** C38. The totals of the ledger are what the run did: of the notes it emits and the transactions it
    submits, those that can move the faucet's supply are the mint of [total_minted], row H's direct
    consumption of a burn note, and the burn of [total_burned], in this order and of the faucet the
    observations name; no negative of row I moves any. When the checks pass, the supply the run ends with is the
    emitted mint less the emitted burn, and the node refused the direct consumption. A run that fails has
    made the first of these moves only. *)
Theorem ledger_is_what_moved cfg label (h : Harness (W := W)) :
  ledger_holds (h_submitted h) (run_rows_gj_on cfg label h).
Proof.
  destruct (run_accounted cfg label h) as (new & E & F). unfold ledger_holds.
  destruct (run_rows_gj_on cfg label h) as [r h']. exists new. split_and!; [done..|].
  destruct r as [o|e]; [apply ledger_check|done].
Qed.
End run.

(** ** No node left behind *)

Section stack.
Context `{SanityLib} {W : Type} `{!HarnessNode W, !RowNode W} (cfg : RunConfig) (Down : W -> Prop).
Context `{!StopsNode W (rc_stack cfg) Down}.

(** A run of the matrix, or of one of its parts on a stack of its own, that does not keep the stack ends
    with the node down, whatever the rows do and wherever they fail, unless it found the port in use or the
    start script failed. *)
Theorem matrix_leaves_no_node (h : Harness (W := W)) :
  rc_keep_stack cfg = false ->
  (forall w, Down w -> Down (read_logs (log_dir (rc_stack cfg)) w).2) ->
  (Down (h_world (run_full_matrix cfg h).2)
   /\ forall A (run : string -> io (Harness (W := W)) Failure A), Down (h_world (on_own_stack cfg run h).2))
  \/ exists e, (start_node (rc_stack cfg) h).1 = Err e.
Proof.
  intros Hk Hlogs. destruct (start_node (rc_stack cfg) h).1 as [[]|e] eqn:Es; [left|right; eauto]. split.
  - edestruct (on_stack_down (rc_stack cfg) Down cfg (run_parts cfg) (matrix_of cfg) h) as [|[e He]];
      [done..| |done|congruence].
    intros [[[ab cf] de] gj] h1 Hh. unfold matrix_of, io_bind, observe. apply Hlogs in Hh.
    by destruct (read_logs _ (h_world h1)).
  - intros A run. edestruct (on_stack_down (rc_stack cfg) Down cfg (run "main"%string) io_ret h) as [|[e He]];
      [done..|done|congruence].
Qed.
End stack.

(** ** The adversarial mint note *)

Section fee.
Context `{SanityLib}.

Definition elements (w : Word4) : list Z := let '(a, b, c, d) := w in [a; b; c; d].
(** Of whole words no element is lost. *)
Lemma words_elements n : forall felts, length felts = (4 * n)%nat ->
  length (words_of felts) = n /\ flat_map elements (words_of felts) = felts.
Proof.
  induction n as [|n IH]; intros felts Hl; [by destruct felts|].
  destruct felts as [|a [|b [|c [|d felts]]]]; simpl in Hl; try lia.
  destruct (IH felts) as [Hn Hf]; [lia|]. simpl. by rewrite Hn, Hf.
Qed.
Lemma padded_elements felts : exists pad, (pad < 4)%nat
  /\ flat_map elements (words_of (padded felts)) = felts ++ replicate pad 0.
Proof.
  unfold padded. set (r := Nat.modulo (length felts) 4). exists (Nat.modulo (4 - r) 4).
  split; [by apply Nat.mod_upper_bound|].
  pose proof (Nat.div_mod_eq (length felts) 4) as Hd. pose proof (Nat.mod_upper_bound (length felts) 4) as Hr.
  fold r in Hd, Hr. specialize (Hr ltac:(lia)).
  apply (words_elements (Nat.div (length felts) 4 + Nat.b2n (negb (Nat.eqb r 0)))).
  rewrite length_app, length_replicate. clearbody r.
  revert Hd. generalize (Nat.div (length felts) 4). intros q Hd.
  destruct r as [|[|[|[|r]]]]; [simpl; lia..|lia].
Qed.

(** The attestation of the note is the eleven words of the policy's order: the fee asked for, the signer's
    key, the signature and three zeros, with nothing lost; and its intent is the payload's, padded to a
    word. Its storage is the mint to the recipient the payload names, under the payload's own nonce. *)
Theorem fee_note_layout faucet payload a fee_raw limbs n :
  length (public_key_elements (att_public_key a)) = 16%nat ->
  length (signature_felts (att_signature a)) = 17%nat ->
  fee_limbs_for fee_raw = Some limbs -> fee_note faucet payload a limbs = Ok n ->
  length (fe_attestation n) = 11%nat
  /\ flat_map elements (fe_attestation n)
     = limbs ++ public_key_elements (att_public_key a) ++ signature_felts (att_signature a) ++ [0; 0; 0]
  /\ (exists felts pad, deposit_intent_to_packed_felts payload = Ok felts /\ (pad < 4)%nat
      /\ flat_map elements (fe_intent n) = felts ++ replicate pad 0)
  /\ exists header, parse_deposit_intent_header payload = Ok header
     /\ account_id_of_bytes32 (dh_remote_recipient header) = Ok (fe_recipient n)
     /\ fe_serial n = storage_map_key (dh_nonce header).
Proof.
  intros Hk Hs Hlimbs. assert (Hl : length limbs = 8%nat).
  { unfold fee_limbs_for in Hlimbs. destruct (deposit_intent_to_packed_felts _) as [packed|]; [|done].
    destruct (Nat.eqb _ 8) eqn:He; [|done]. injection Hlimbs as <-. by apply Nat.eqb_eq. }
  unfold fee_note, worded, in_context, attachment. intros (header & Hh%map_err_Ok & Hn)%rbind_Ok.
  apply rbind_Ok in Hn as (id & Hid%map_err_Ok & Hn). apply rbind_Ok in Hn as (amount & _ & Hn).
  apply rbind_Ok in Hn as (asset & _ & Hn). apply rbind_Ok in Hn as (u & _ & Hn).
  apply rbind_Ok in Hn as (felts & Hf%map_err_Ok & Hn).
  apply rbind_Ok in Hn as (intent & Hi & Hn). apply rbind_Ok in Hi as (u1 & _ & Hi).
  apply rbind_Ok in Hi as (u2 & _ & [= <-]).
  apply rbind_Ok in Hn as (att & Ha & Hn). apply rbind_Ok in Ha as (u3 & _ & Ha).
  apply rbind_Ok in Ha as (u4 & _ & [= <-]). apply rbind_Ok in Hn as (u5 & _ & [= <-]).
  cbn [fe_attestation fe_intent fe_recipient fe_serial].
  destruct (words_elements 11 (limbs ++ public_key_elements (att_public_key a)
    ++ signature_felts (att_signature a) ++ [0; 0; 0])) as [Hw He].
  { rewrite !length_app, Hl, Hk, Hs. done. }
  split_and!; [exact Hw|exact He| |by exists header].
  destruct (padded_elements felts) as (pad & ? & ?). by exists felts, pad.
Qed.
End fee.

(** ** A run that passes *)

(** A small chain: the faucet with its supply, pause and minimum burn, the holder's balance, and the
    emitted notes with their blocks. Every emitted note is consumed in the block after its own. *)
Record Chain := {
  ch_height : Z;
  ch_supply : Z;
  ch_balance : Z;
  ch_paused : bool;
  ch_min : Z;
  ch_allowed : bool;
  ch_serial : Z;
  ch_notes : list (bytes * Z);
  ch_node : bool;
}.
Definition sample_faucet : AccountId := [9].
Definition marker (on : bool) : Word4 := if on then MARKER_SET else MARKER_CLEAR.

#[local] Instance chain_faucet : FaucetLib :=
  small_faucet_lib Chain sample_faucet (fun _ _ => None)
    (fun c name => Some
       (if bool_decide (name = "token") then (ch_supply c, 1000, 0, 0)
        else if bool_decide (name = "min") then (ch_min c, 0, 0, 0) else marker (ch_paused c)))
    (fun c => marker (ch_allowed c)).
#[local] Instance chain_lib : SanityLib := small_sanity_lib.

(** What an emitted note does to the faucet. *)
Definition applied (spec : NoteSpec) (id : bytes) (c : Chain) : Chain :=
  let height := ch_height c + 1 in
  let delta := match spec with XUsdcMint _ _ _ _ => 100 | XReserveBurn _ _ items => - bi_amount items | _ => 0 end in
  {| ch_height := height; ch_supply := ch_supply c + delta;
     ch_balance := ch_balance c + Z.min delta 0;
     ch_paused := match spec with XReservePause _ _ => true | XReserveUnpause _ _ => false | _ => ch_paused c end;
     ch_min := match spec with MinBurnAmountConfig _ _ m => m | _ => ch_min c end;
     ch_allowed := match spec with XReserveSetAttester _ _ _ _ => true | _ => ch_allowed c end;
     ch_serial := ch_serial c; ch_notes := (id, height) :: ch_notes c;
     ch_node := ch_node c |}.
Definition credited (c : Chain) : Chain :=
  {| ch_height := ch_height c + 1; ch_supply := ch_supply c; ch_balance := ch_balance c + 100;
     ch_paused := ch_paused c; ch_min := ch_min c; ch_allowed := ch_allowed c; ch_serial := ch_serial c;
     ch_notes := ch_notes c; ch_node := ch_node c |}.
Definition drawn (c : Chain) : Chain :=
  {| ch_height := ch_height c; ch_supply := ch_supply c; ch_balance := ch_balance c;
     ch_paused := ch_paused c; ch_min := ch_min c; ch_allowed := ch_allowed c; ch_serial := ch_serial c + 1;
     ch_notes := ch_notes c; ch_node := ch_node c |}.
Definition chain_id (n : Note) : bytes :=
  match n with Built _ (serial, _, _, _) => [serial] | Found n => fn_id n end.
Definition block_of (c : Chain) (id : bytes) : option Z :=
  snd <$> List.find (fun n => bool_decide (n.1 = id)) (ch_notes c).
Definition executed (req : TxRequest) (c : Chain) : result string unit :=
  match req with
  | InputNotes [Built (BurnWrongAsset _ _ _ _) _] => Err ERR_WRONG_ASSET_ORIGIN
  | InputNotes [Built (XReserveBurn _ _ items) _] =>
      if ch_paused c then Err ERR_PAUSED
      else if bi_amount items <? ch_min c then Err ERR_BURN_BELOW_MIN else Ok tt
  | _ => Ok tt
  end.

#[local] Instance chain_node : HarnessNode Chain :=
  {| sync_state := fun c => (Ok tt, c); get_account_details := fun _ c => (Ok (Some c), c);
     submit_new_transaction := fun _ req c =>
       match req with
       | OwnOutputNotes _ [(Built spec _) as n] => (Ok [1], applied spec (chain_id n) c)
       | ConsumeNotes _ _ => (Ok [1], credited c)
       | InputNotes [Built (XReserveBurn _ _ _) _] => (Err "a network account takes no user transaction"%string, c)
       | _ => (Ok [1], c)
       end;
     get_transaction := fun _ c => (Ok (Some (Committed (ch_height c))), c);
     execute_transaction := fun _ req c => (executed req c, c);
     get_consumable_notes := fun _ c => (Ok [], c);
     get_account := fun _ c => (Ok (Some [(sample_faucet, ch_balance c)]), c);
     nullifier_commit_height := fun n c => (Ok (Z.succ <$> block_of c (chain_id n)), c);
     sync_notes_contains := fun _ _ c => (Ok false, c);
     get_sync_height := fun c => (Ok (ch_height c), c);
     get_notes_by_id := fun id c =>
       (Ok (match block_of c id with
            | Some b => [PublicNote {| cn_id := id; cn_note_bytes := [1]; cn_nullifier := id; cn_proof := b;
                                       cn_proof_bytes := [2] |}]
            | None => []
            end), c);
     sync_transactions := fun _ _ c => (Ok [], c); note_id := chain_id; note_nullifier := chain_id;
     build_note := fun _ c => (Ok (ch_serial c, 0, 0, 0), drawn c); request_error := fun _ => None;
     add_account := fun _ _ c => (Ok tt, c);
     now := fun c => (0, c); sleep := fun _ c => c |}.
Definition set_node (on : bool) (c : Chain) : Chain :=
  {| ch_height := ch_height c; ch_supply := ch_supply c; ch_balance := ch_balance c; ch_paused := ch_paused c;
     ch_min := ch_min c; ch_allowed := ch_allowed c; ch_serial := ch_serial c; ch_notes := ch_notes c;
     ch_node := on |}.
(** The start script is the one that takes an argument. *)
Definition chain_stack : StackWorld Chain :=
  {| env_var := fun _ => None; port_open := fun _ c => (ch_node c, c); path_exists := fun _ c => (true, c);
     create_dir_all := fun _ c => (Ok tt, c); say := fun _ c => c;
     unix_secs := fun c => (0, c);
     run_bash := fun run c => (Ok ExitSuccess, set_node (bool_decide (is_Some (sr_arg run))) c) |}.
(** Wallets are numbered in the order of their making. *)
Definition chain_actors : ActorWorld Chain :=
  {| actor_machine := chain_stack; WalletKey := unit; new_wallet_key := fun c => (tt, c);
     os_seed := fun c => ([ch_serial c], drawn c); random_signing_key := fun c => (tt, c);
     wallet_account := fun _ seed => Ok seed; keystore_add_key := fun _ _ c => (Ok tt, c);
     scalar_of := fun _ => replicate 32 5; sec1_of := fun _ => replicate 33 2; key_from_slice := fun _ => Ok tt;
     commitment_of_sec1 := fun _ => Ok MARKER_SET; word_to_hex := fun _ => "";
     create_new_file := fun _ _ _ c => (Ok tt, c); write_all := fun _ _ c => (Ok tt, c);
     open_keystore := fun _ c => (Ok tt, c); build_miden_client := fun _ _ c => (Ok tt, c); Library := unit;
     Assembler := unit; Component := unit; Components := unit; TokenFaucet := unit; TokenName := unit;
     TokenSymbol := unit; USDCX_DECIMALS := 6; xreserve_assembler := Ok tt; assemble_library := fun _ => Ok tt;
     storage_slot_name := fun name => Ok name; token_name := fun _ => Ok tt; token_symbol := fun _ => Ok tt;
     bind_component := fun _ _ _ => Ok tt; token_faucet := fun _ _ _ _ _ _ => Ok tt;
     stablecoin_components := fun _ _ _ _ _ _ _ => Ok tt; auth_component := Ok tt;
     account_of := fun _ _ _ _ _ => Ok sample_faucet |}.
#[local] Instance chain_rows : RowNode Chain :=
  {| git_head_commit := fun c => ("c0ffee"%string, c); row_actors := chain_actors; read_logs := fun _ c => (None, c);
     execute_patch := fun _ _ c => (Ok (Some (ch_supply c - 100, 1000, 0, 0)), c);
     sync_notes := fun _ _ c => (Ok [fst <$> ch_notes c], c);
     get_consumable := fun _ c =>
       (Ok [{| cs_note := {| fn_id := [70]; fn_assets := [(sample_faucet, 100)] |}; cs_block := Some (ch_height c);
               cs_is_p2id := true; cs_tag := 0; cs_serial := MARKER_CLEAR |}], c);
     add_account_tag := fun _ c => (Ok tt, c); note_tag_u32 := fun _ => 5;
     role_membership_slot := "roles"; DOM_PAUSER_ROLE := "DOM_PAUSER"; role_felt := fun _ => 0;
     account_suffix := fun _ => 0; account_prefix := fun _ => 0; compile_tx_script := fun _ => Ok [] |}.

Definition chain_start : Harness (W := Chain) :=
  {| h_world := {| ch_height := 1; ch_supply := 0; ch_balance := 0; ch_paused := false; ch_min := 1;
                   ch_allowed := false; ch_serial := 1; ch_notes := []; ch_node := false |};
     h_submitted := []; h_ledger := [] |}.

Lemma passing_run (run : result Failure RowsGjObservations * Harness (W := Chain)) (old : list (AccountId * TxRequest)) :
  match run.1 with Ok o => gj_assert_all o = Ok tt | Err _ => False end -> ledger_holds old run ->
  exists o new, run.1 = Ok o /\ gj_assert_all o = Ok tt /\ h_submitted run.2 = new ++ old
    /\ accounts_for (flat_map moves_of new) (Ok o).
Proof. destruct run as [[o|e] h']; [|done]. intros Hp (new & E & F & _). by exists o, new. Qed.

(** The checks of rows G to J pass on a run over the small chain. *)
Definition chain_config : RunConfig := fresh None "/repo" "gj".
Lemma ledger_is_what_moved_witness :
  let run := run_rows_gj_on chain_config "gj" chain_start in
  exists o new, run.1 = Ok o /\ gj_assert_all o = Ok tt /\ h_submitted run.2 = new ++ h_submitted chain_start
    /\ accounts_for (flat_map moves_of new) (Ok o).
Proof.
  apply (passing_run (run_rows_gj_on chain_config "gj" chain_start) (h_submitted chain_start)).
  - vm_compute. reflexivity.
  - exact (ledger_is_what_moved chain_config "gj" chain_start).
Defined.

(** A run of rows G to J on a stack of its own over the small chain: it starts the node, passes, and leaves
    the node down. *)
#[local] Instance chain_stops : StopsNode Chain (rc_stack chain_config) (fun c => ch_node c = false).
Proof. by split. Qed.
Lemma matrix_leaves_no_node_witness :
  (start_node (rc_stack chain_config) chain_start).1 = Ok tt
  /\ match (run_rows_gj chain_config chain_start).1 with Ok o => gj_assert_all o = Ok tt | Err _ => False end
  /\ ((ch_node (h_world (run_full_matrix chain_config chain_start).2) = false
       /\ forall A (run : string -> io (Harness (W := Chain)) Failure A),
            ch_node (h_world (on_own_stack chain_config run chain_start).2) = false)
      \/ exists e, (start_node (rc_stack chain_config) chain_start).1 = Err e).
Proof.
  split; [vm_compute; reflexivity|]. split; [vm_compute; reflexivity|].
  apply (matrix_leaves_no_node chain_config (fun c => ch_node c = false)); [reflexivity|done].
Defined.
