(* ===== verification/Witnesses.v ===== *)
(** The properties applied to concrete stores, replies and runs. *)
From S2P Require Import Prelude Text Telemetry Foreign Wire Types Burn Store StoreFacts.
From S2P Require Import StoreInv StoreWf StoreScan StoreReads Config Verify Circle Signer.
From S2P Require Import Submission Admin Attester AttesterLogic AttesterSubmit.
From S2P Require Import AttesterCycle AttesterRun Sample StoreProps StoreQueries AdminSocket.
From S2P Require Import AdminProps AdminLive StoreAuth StoreTypes VerifyProps ReplyProps ClientProps.
From Stdlib Require Import Ascii.
From stdpp Require Import countable.
Local Open Scope Z_scope.

(** The runs are evaluated by [vm_compute] only. *)
#[local] Strategy opaque [run_cycles cycle start sample_started].

(** ** Stores *)

Definition id_A : NoteId := sample_note_id note_A.
(** The store [n] cycles after startup in world [w]. *)
Definition store_after (n : nat) (w : SampleWorld) : Store := at_store (sample_after n w).

(** Circle is unavailable: note A stays ready for withdrawal. *)
Definition world_idle : SampleWorld :=
  {| w_now := 1000 * NANOS; w_tip := 13; w_blocks := sample_chain_blocks; w_prepare := [];
     w_post := []; w_get := []; w_commands := [] |}.
Lemma world_idle_starts : is_ok (sample_start world_idle) = true.
Proof. vm_compute. reflexivity. Qed.

Definition store_idle : Store := store_after 1 world_idle.
Definition store_held : Store := store_after 1 world_refuses.
Definition store_sent : Store := store_after 1 world_accepts.
Definition store_waits : Store := store_after 1 world_limits.

Lemma store_waits_eq : store_waits = at_store (sample_after 1 world_limits).
Proof. reflexivity. Qed.

Abbreviation sample_reached := (reachable sample_faucet sample_anchor).
Lemma idle_reachable : sample_reached store_idle.
Proof. exact (sample_reachable 1 world_idle world_idle_starts). Qed.
Lemma held_reachable : sample_reached store_held.
Proof. exact (sample_reachable 1 world_refuses world_refuses_starts). Qed.
Lemma sent_reachable : sample_reached store_sent.
Proof. exact (sample_reachable 1 world_accepts world_accepts_starts). Qed.
Lemma waits_reachable : sample_reached store_waits.
Proof. exact (sample_reachable 1 world_limits world_limits_starts). Qed.

(** The store a transaction leaves, and that it committed. *)
Definition committed {E A} (r : result E (A * Store)) (st : Store) : Store :=
  match r with Ok (_, st') => st' | Err _ => st end.
Definition committed_value {E A} (r : result E (A * Store)) (a : A) : A :=
  match r with Ok (x, _) => x | Err _ => a end.
Lemma committed_Ok {E A} (r : result E (A * Store)) st a :
  is_ok r = true -> r = Ok (committed_value r a, committed r st).
Proof. by destruct r as [[x st']|]. Qed.
Lemma committed_unit {E} (r : result E (unit * Store)) st :
  is_ok r = true -> r = Ok (tt, committed r st).
Proof. by destruct r as [[[] st']|]. Qed.

(** The operator releases note A's held withdrawal. *)
Definition release_A : result ReleaseError ((Z * Z) * Store) := release_hold 2000 id_A true store_held.
Definition store_released : Store := committed release_A store_held.
Lemma release_A_Ok : release_A = Ok (committed_value release_A (0, 0), store_released).
Proof. apply committed_Ok. vm_compute. reflexivity. Qed.

(** The request the service had saved for note A, saved again after the release. *)
Definition empty_row : SubmissionRow :=
  {| s_endpoint := ""; s_body := []; s_transfer_spec_hash := []; s_status := Submitting;
     s_withdrawal_id := None; s_hold_reason := None; s_last_http_status := None;
     s_last_response := None; s_last_error := None |}.
Definition saved_A : SavedSubmission :=
  with_hold_reason None (with_status Submitting
    (saved_of id_A (default empty_row (submissions store_held !! id_A)))).
Definition resave_A : result StoreError (unit * Store) := save_submission 3000 saved_A store_released.
Definition store_resaved : Store := committed resave_A store_released.
Lemma resave_A_Ok : resave_A = Ok (tt, store_resaved).
Proof. apply committed_unit. vm_compute. reflexivity. Qed.

Lemma released_reachable : sample_reached store_released.
Proof.
  eapply star_trans; [exact held_reachable|]. apply star_one.
  exact (step_release _ _ _ _ _ _ _ release_A_Ok).
Qed.

Lemma eligible_dec_A st b :
  burns st !! id_A = Some b -> burn_selected st false (id_A, b) = true -> eligible st id_A.
Proof. intros. by exists b. Qed.
Definition no_burn : BurnRow :=
  {| b_nullifier := []; b_note := []; b_creation_block := 0; b_consumption_block := None;
     b_hold_reason := None; b_retry_at := None |}.
Definition burn_A (st : Store) : BurnRow := default no_burn (burns st !! id_A).
Lemma burn_A_Ok st :
  match burns st !! id_A with Some _ => true | None => false end = true ->
  burns st !! id_A = Some (burn_A st).
Proof. unfold burn_A. by destruct (burns st !! id_A). Qed.

Lemma released_eligible : eligible store_released id_A.
Proof.
  apply (eligible_dec_A _ (burn_A store_released)); [apply burn_A_Ok|]; vm_compute; reflexivity.
Qed.

Lemma resaved_reachable : sample_reached store_resaved.
Proof.
  eapply star_trans; [exact released_reachable|]. apply star_one.
  refine (step_save _ 3000 saved_A _ _ released_eligible _ _ resave_A_Ok); vm_compute; reflexivity.
Qed.

#[local] Strategy opaque [store_held store_released store_resaved store_idle store_waits].

(** ** The store *)

Lemma history_and_burns_persist_witness :
  events store_resaved <> events store_held /\
  (exists newer, events store_resaved = newer ++ events store_held /\
     Forall (fun e => sequence store_held < e_seq e <= sequence store_resaved) newer) /\
  exists b', burns store_resaved !! id_A = Some b' /\ b_consumption_block b' = Some 12.
Proof.
  split; [intros He; apply (f_equal length) in He; vm_compute in He; discriminate He|].
  destruct (history_and_burns_persist sample_faucet sample_anchor store_held store_resaved held_reachable)
    as [Hnew Hb].
  - eapply star_trans; [apply star_one; exact (step_release _ _ _ _ _ _ _ release_A_Ok)|].
    apply star_one. refine (step_save _ 3000 saved_A _ _ released_eligible _ _ resave_A_Ok); vm_compute; reflexivity.
  - split; [exact Hnew|].
    destruct (Hb id_A (burn_A store_held)) as (b' & Hb' & _ & _ & _ & Hk); [apply burn_A_Ok; vm_compute; reflexivity|].
    exists b'. split; [exact Hb'|]. apply Hk. vm_compute. reflexivity.
Defined.

(** The four history rows of the store, newest first. *)
Definition no_event : EventRow :=
  event_row 0 [] BurnHeld None no_burn None 0.
Definition resaved_event (n : nat) : EventRow := nth n (events store_resaved) no_event.
Lemma four {A} (l : list A) d :
  length l = 4%nat -> l = [] ++ nth 0 l d :: [nth 1 l d; nth 2 l d] ++ nth 3 l d :: [].
Proof. destruct l as [|a [|b [|c [|e [|]]]]]; try done. Qed.

Lemma resaved_length : length (events store_resaved) = 4%nat.
Proof. vm_compute. reflexivity. Qed.
Lemma resaved_events :
  events store_resaved =
    [] ++ resaved_event 0 :: [resaved_event 1; resaved_event 2] ++ resaved_event 3 :: [].
Proof. exact (four (events store_resaved) no_event resaved_length). Qed.

Lemma authorized_once_witness :
  exists x y e after before,
    reachable sample_faucet sample_anchor x /\ closing (e_note_id (resaved_event 3)) x y /\
    star (store_step sample_anchor) y store_resaved /\
    [resaved_event 1; resaved_event 2] = after ++ e :: before /\
    events x = before ++ resaved_event 3 :: [] /\ events y = e :: events x /\
    exists row, submissions x !! e_note_id (resaved_event 3) = Some row /\ s_status row <> Expired /\
      e_body (resaved_event 3) = Some (s_body row).
Proof.
  apply (authorized_once sample_faucet sample_anchor store_resaved [] (resaved_event 0)
    [resaved_event 1; resaved_event 2] (resaved_event 3) [] resaved_reachable resaved_events).
  - vm_compute. reflexivity.
  - vm_compute. reflexivity.
  - vm_compute. reflexivity.
Defined.

(** The hold the operator reviewed, and the same note after another release. *)
Definition reviewed_A : ReleaseSelection :=
  {| sel_note_id := id_A; sel_expected_event_seq := default 0 (revision store_held id_A);
     sel_circle_not_accepted := true |}.
Lemma reviewed_revision : revision store_held id_A = Some (sel_expected_event_seq reviewed_A).
Proof. vm_compute. reflexivity. Qed.

Lemma changed_hold_refused_witness :
  is_ok (release_checked 2000 reviewed_A store_held) = true /\
  release_checked 3000 reviewed_A store_released = Err ReleaseConflict.
Proof.
  split; [vm_compute; reflexivity|].
  apply (changed_hold_refused sample_faucet sample_anchor 3000 reviewed_A store_held store_released held_reachable).
  - apply star_one. exact (step_release _ _ _ _ _ _ _ release_A_Ok).
  - exact reviewed_revision.
  - intros He. apply (f_equal (fun v => match v.2 with Some _ => true | None => false end)) in He.
    vm_compute in He. discriminate He.
Defined.

Lemma release_requeues_witness :
  eligible store_released id_A /\ sequence store_released = sequence store_held + 1.
Proof.
  destruct (release_requeues sample_faucet sample_anchor 2000 id_A true
    (committed_value release_A (0, 0)) store_held store_released held_reachable release_A_Ok)
    as (_ & Hel & _ & _ & e & _ & Hseq & _).
  split; [exact Hel|exact Hseq].
Defined.

Lemma save_submission_iff_witness : exists st', save_submission 3000 saved_A store_released = Ok (tt, st').
Proof.
  apply (proj1 (save_submission_iff sample_faucet sample_anchor 3000 saved_A store_released released_reachable)).
  split; [vm_compute; reflexivity|]. split.
  - exists (burn_A store_released). apply burn_A_Ok. vm_compute. reflexivity.
  - intros row Hrow. apply (f_equal (fun o : option SubmissionRow => match o with Some _ => true | None => false end)) in Hrow.
    vm_compute in Hrow. discriminate Hrow.
Defined.

(** The held outcome of note A, recorded again. *)
Definition held_outcome : SavedSubmission := saved_of id_A (default empty_row (submissions store_held !! id_A)).
Definition record_again : result StoreError (unit * Store) := update_submission_outcome 5000 held_outcome store_resaved.
Lemma record_again_Ok : record_again = Ok (tt, committed record_again store_resaved).
Proof. apply committed_unit. vm_compute. reflexivity. Qed.

Lemma outcome_idempotent_witness :
  length (events (committed record_again store_resaved)) = 5%nat /\
  update_submission_outcome 6000 held_outcome (committed record_again store_resaved) =
    Ok (tt, committed record_again store_resaved).
Proof.
  split; [vm_compute; reflexivity|].
  exact (outcome_idempotent sample_faucet sample_anchor 5000 6000 held_outcome store_resaved
    (committed record_again store_resaved) resaved_reachable record_again_Ok).
Defined.

(** The holds of the store with a held note, and the creation block of its burn. *)
Lemma reads_never_fail_witness :
  (exists l, holds store_held = Ok l /\
     Forall (fun h => hold_kind_typed (hold_kind h) (hold_reason_text h) /\
                      canonical_word (hold_note_id h) = true) l) /\
  (exists n, burn_creation_block store_held id_A = Ok n /\
     block_typed n /\ exists b, burns store_held !! id_A = Some b /\ n = b_creation_block b).
Proof.
  split.
  - exact (reads_never_fail (ML := sample_miden) sample_faucet sample_anchor QHolds store_held held_reachable I).
  - apply (reads_never_fail (ML := sample_miden) sample_faucet sample_anchor (QCreationBlock id_A) store_held held_reachable).
    exists (burn_A store_held). apply burn_A_Ok. vm_compute. reflexivity.
Defined.

Lemma ready_burns_exact_witness :
  exists ready, burns_ready_for_withdrawal store_idle 13 1 = Ok ready /\
    StronglySorted burn_before ready /\ exists d, d ∈ ready /\ db_note_id d = id_A.
Proof.
  destruct (ready_burns_exact (ML := sample_miden) sample_faucet sample_anchor store_idle 13 13 1 idle_reachable)
    as (ready & Hr & Hs & Hid); [vm_compute; reflexivity|lia|].
  exists ready. split; [exact Hr|]. split; [exact Hs|]. apply Hid.
  exists (burn_A store_idle), 12. split; [apply burn_A_Ok; vm_compute; reflexivity|].
  split; [vm_compute; reflexivity|]. split; [vm_compute; reflexivity|]. split.
  - intros row Hrow. apply (f_equal (fun o : option SubmissionRow => match o with Some _ => true | None => false end)) in Hrow.
    vm_compute in Hrow. discriminate Hrow.
  - split; [lia|]. vm_compute. discriminate.
Defined.

Lemma progress_accounts_witness :
  withdrawals_held (progress store_held) = 1 /\
  count (fun r => bool_decide (is_Some (b_consumption_block r.2))) (map_to_list (burns store_held)) =
    burns_held (progress store_held) + withdrawals_held (progress store_held)
    + withdrawals_failed (progress store_held)
    + status_count store_held (fun s => bool_decide (s = Finalized)) + burns_unfinished (progress store_held).
Proof.
  split; [vm_compute; reflexivity|].
  destruct (progress_accounts sample_faucet sample_anchor store_held held_reachable) as [Hsum _].
  exact Hsum.
Defined.

(** ** The operator *)

Lemma holds_pages_complete_witness :
  length (hold_rows store_held) = 1%nat /\
  exists entries ids, list_all sample_config 5 None store_held = Some entries /\
    StronglySorted bytes_lt ids /\ (forall id, id ∈ ids <-> held_note store_held id) /\
    Forall2 (fun id e => he_note_id e = note_id_to_string id /\
               revision store_held id = Some (he_event_seq e)) ids entries.
Proof.
  split; [vm_compute; reflexivity|].
  apply (holds_pages_complete sample_faucet sample_anchor sample_config store_held 5 held_reachable).
  vm_compute. lia.
Defined.

Lemma release_exact_witness :
  exists counts st', release_checked 2000 reviewed_A store_held = Ok (counts, st').
Proof.
  apply (proj2 (release_exact sample_faucet sample_anchor 2000 store_held reviewed_A held_reachable)).
  split; [|split; [exact reviewed_revision|intros _; reflexivity]].
  right. exists (default empty_row (submissions store_held !! id_A)).
  split; vm_compute; reflexivity.
Defined.

Lemma selection_roundtrip_witness :
  parse_selection (to_hex id_A +:+ ":" +:+ list_str (to_decimal 42)) = Ok (to_hex id_A, 42).
Proof.
  refine (proj1 (selection_roundtrip id_A 42 true _ _)); [vm_compute; reflexivity|].
  unfold i64_max. lia.
Defined.

(** The wait of note A ends at 1300 s. *)
Definition waiting_A : Attester SampleWorld :=
  put_world {| w_now := 1400 * NANOS; w_tip := 13; w_blocks := sample_chain_blocks; w_prepare := [];
               w_post := []; w_get := []; w_commands := [] |} (sample_after 1 world_limits).
Lemma put_world_store (w : SampleWorld) s : at_store (put_world w s) = at_store s.
Proof. done. Qed.
Lemma waiting_store : at_store waiting_A = store_waits.
Proof. unfold waiting_A. rewrite put_world_store, store_waits_eq. reflexivity. Qed.
Lemma pair_with {A B} (p : A * B) a : p.1 = a -> p = (a, p.2).
Proof. destruct p. by intros <-. Qed.
Definition allowed_A := limit_allows (W := SampleWorld) id_A waiting_A.
Lemma limit_wait_in_order_witness :
  b_retry_at (burn_A store_waits) = Some 1300 /\
  exists limit next, cfg_withdrawal_limit (at_config waiting_A) = Some limit /\
    retry_at limit (1400 * NANOS) = Ok next /\
    at_store allowed_A.2 =
      set_burns (<[id_A := set_retry (Some next) (burn_A store_waits)]> (burns store_waits)) store_waits.
Proof.
  assert (Hb : b_retry_at (burn_A store_waits) = Some 1300) by (vm_compute; reflexivity).
  split; [exact Hb|].
  assert (Hr : limit_allows (W := SampleWorld) id_A waiting_A = (Ok true, allowed_A.2)).
  { apply pair_with. vm_compute. reflexivity. }
  assert (Hk : burns (at_store waiting_A) !! id_A = Some (burn_A store_waits)).
  { rewrite waiting_store. apply (burn_A_Ok store_waits). vm_compute. reflexivity. }
  assert (Hreach : sample_reached (at_store waiting_A)) by (rewrite waiting_store; exact waits_reachable).
  pose proof (limit_wait_in_order sample_faucet sample_anchor waiting_A id_A (burn_A store_waits)
    allowed_A.2 Hreach Hk Hr) as [_ H]. rewrite Hb, waiting_store in H. exact (proj2 H).
Defined.

(** ** Verification *)

Definition verified_A : VerifiedWithdrawal :=
  match verify sample_prepared sample_burn sample_config with
  | Ok v => v
  | Err _ => {| vw_note_id := []; vw_intent := sample_intent; vw_digest := []; vw_transfer_spec_hash := [] |}
  end.
Lemma result_default {E A} (r : result E A) d :
  is_ok r = true -> r = Ok (match r with Ok a => a | Err _ => d end).
Proof. by destruct r. Qed.
Lemma verified_A_Ok : verify sample_prepared sample_burn sample_config = Ok verified_A.
Proof. apply result_default. vm_compute. reflexivity. Qed.
#[local] Strategy opaque [verified_A].

Lemma verified_pays_burner_witness :
  exists intent hook fee, parse_intent (vw_intent verified_A) = Ok (intent, hook) /\
    vw_note_id verified_A = db_note_id sample_burn /\ pays sample_config sample_burn (spec intent) hook fee.
Proof.
  destruct (verified_pays_burner sample_prepared sample_burn sample_config verified_A verified_A_Ok)
    as (intent & hook & fee & Hp & Hid & _ & _ & _ & _ & _ & _ & _ & Hpays).
  exists intent, hook, fee. split; [exact Hp|]. split; [exact Hid|exact Hpays].
Defined.

Lemma verified_within_fees_witness :
  exists intent hook fee, parse_intent (vw_intent verified_A) = Ok (intent, hook) /\
    value (spec intent) + maxFee intent = 65000000 /\ maxFee intent + fee <= 1119500.
Proof.
  destruct (verified_within_fees sample_prepared sample_burn sample_config verified_A verified_A_Ok)
    as (intent & hook & fee & Hp & _ & Hsum & _ & _ & Hle);
    [split; vm_compute; discriminate|split; vm_compute; discriminate|split; vm_compute; discriminate|].
  exists intent, hook, fee. split; [exact Hp|]. split; [exact Hsum|exact Hle].
Defined.

Definition sign_A : result SignerError SignedWithdrawal * SampleWorld := sign verified_A sample_pair world_idle.
Definition signed_A : SignedWithdrawal :=
  match sign_A.1 with Ok s => s | Err _ => {| sw_verified := verified_A; sw_signatures := (EmptyString, EmptyString) |} end.
Lemma sign_A_Ok : sign verified_A sample_pair world_idle = (Ok signed_A, sign_A.2).
Proof.
  change (sign_A = (Ok signed_A, sign_A.2)). rewrite (surjective_pairing sign_A) at 1. f_equal.
Qed.
Definition submitted_A : SavedSubmission :=
  default (saved_of [] empty_row) (signed_submission signed_A sample_host).
Lemma submitted_A_Ok : signed_submission signed_A sample_host = Some submitted_A.
Proof.
  unfold submitted_A. destruct (signed_submission signed_A sample_host) eqn:Hs; [done|].
  exfalso. apply (f_equal (fun o : option SavedSubmission => match o with Some _ => true | None => false end)) in Hs.
  vm_compute in Hs. discriminate Hs.
Qed.
#[local] Strategy opaque [signed_A submitted_A].

Lemma verified_signs_checked_witness :
  exists batch intent hook spec_bytes encoded first second w1, pr_batches sample_prepared = [batch] /\
    pb_burn_intents batch = [vw_intent verified_A] /\
    parse_intent (vw_intent verified_A) = Ok (intent, hook) /\
    parse_b256 (pb_message_hash_to_sign batch) = Some (signing_hash intent) /\
    BurnIntent_encode intent = Ok encoded /\ parse_hex_bytes (pb_encoded batch) = Some encoded /\
    TransferSpec_encode (spec intent) = Ok spec_bytes /\
    signer_sign_digest (sp_signers sample_pair).1 (signing_hash intent) world_idle = (Ok first, w1) /\
    signer_sign_digest (sp_signers sample_pair).2 (signing_hash intent) w1 = (Ok second, sign_A.2) /\
    json_submission (vw_intent verified_A) first second (note_id_to_hex (db_note_id sample_burn)) =
      Some (body submitted_A) /\
    note_id submitted_A = db_note_id sample_burn /\ transfer_spec_hash submitted_A = keccak256 spec_bytes /\
    sub_endpoint submitted_A = sample_host /\ status submitted_A = Submitting /\
    withdrawal_id submitted_A = None.
Proof.
  exact (verified_signs_checked sample_prepared sample_burn sample_config verified_A sample_pair world_idle
    signed_A sign_A.2 sample_host submitted_A verified_A_Ok sign_A_Ok submitted_A_Ok).
Defined.

(** The fields of the sample intent, and its encoding. *)
Definition fields_A : IntentFields :=
  match parse_intent sample_intent with
  | Ok (i, _) => i
  | Err _ => {| maxBlockHeight := 0; maxFee := 0; spec :=
      {| version := 0; sourceDomain := 0; destinationDomain := 0; sourceContract := [];
         destinationContract := []; sourceToken := []; destinationToken := []; sourceDepositor := [];
         destinationRecipient := []; sourceSigner := []; destinationCaller := []; value := 0;
         salt := []; hookData := [] |} |}
  end.
Lemma fields_A_sized : intent_sized fields_A.
Proof.
  split; [split; vm_compute; discriminate|split; vm_compute; discriminate|].
  split; try (split; vm_compute; discriminate). vm_compute. repeat constructor.
Qed.
Definition encoded_A : bytes := match BurnIntent_encode fields_A with Ok b => b | Err _ => [] end.
Lemma encoded_A_Ok : BurnIntent_encode fields_A = Ok encoded_A.
Proof. apply result_default. vm_compute. reflexivity. Qed.

Lemma burn_intent_encode_injective_witness :
  length encoded_A = 524%nat /\ forall i, intent_sized i -> BurnIntent_encode i = Ok encoded_A -> i = fields_A.
Proof.
  split; [vm_compute; reflexivity|]. intros i Hi He.
  exact (burn_intent_encode_injective i fields_A encoded_A Hi fields_A_sized He encoded_A_Ok).
Defined.

(** ** Replies *)

(** The accepted submission of note A is polled, and Circle answers that it is finalized. *)
Definition state_sent : Attester SampleWorld := sample_after 1 world_accepts.
Definition row_A : SubmissionRow := default empty_row (submissions (at_store state_sent) !! id_A).
Lemma row_A_Ok : submissions (at_store state_sent) !! id_A = Some row_A.
Proof. vm_compute. reflexivity. Qed.
Lemma row_A_pending : pending row_A.
Proof. right. vm_compute. reflexivity. Qed.
Lemma state_sent_reachable : sample_reached (at_store state_sent).
Proof. exact sent_reachable. Qed.
Lemma state_sent_quiet : at_rate_limited state_sent = false.
Proof. vm_compute. reflexivity. Qed.
Definition polled : result SubmitError unit * Attester SampleWorld :=
  advance_submission (saved_of id_A row_A) Recovery state_sent.
Lemma polled_eq : advance_submission (saved_of id_A row_A) Recovery state_sent = (polled.1, polled.2).
Proof. unfold polled. apply surjective_pairing. Qed.
Lemma polled_finalized : s_status <$> submissions (at_store polled.2) !! id_A = Some Finalized.
Proof. vm_compute. reflexivity. Qed.
#[local] Strategy opaque [state_sent row_A].

Lemma decided_only_by_identified_witness :
  s_status <$> submissions (at_store polled.2) !! id_A = Some Finalized /\
  match submissions (at_store polled.2) !! id_A with
  | None => Recovery = First /\ s_withdrawal_id row_A = None /\
      exists rr policy, (circle_call (saved_of id_A row_A) (at_world state_sent)).1 = Ok rr /\
        cfg_withdrawal_limit (at_config state_sent) = Some policy /\
        is_withdrawal_limit (rr_status rr) (rr_body rr) (wl_message_prefix policy) = true
  | Some row' =>
      decided_by (saved_of id_A row_A) (circle_call (saved_of id_A row_A) (at_world state_sent)).1
        (s_status row') (s_withdrawal_id row') \/
      (s_withdrawal_id row_A = None /\ exists conflict recorded named c w,
         (circle_call (saved_of id_A row_A) (at_world state_sent)).1 = Ok conflict /\
         rr_status conflict = CONFLICT_STATUS /\
         answered (saved_of id_A row_A) recorded /\ last_response recorded = Some (rr_body conflict) /\
         read_conflict recorded = (None, named) /\ same_saved_request (saved_of id_A row_A) named /\
         withdrawal_id named = Some c /\
         decided_by named (circle_get_withdrawal named c w).1 (s_status row') (s_withdrawal_id row'))
  end.
Proof.
  split; [exact polled_finalized|].
  exact (decided_only_by_identified sample_faucet sample_anchor state_sent id_A row_A Recovery
    polled.1 polled.2 state_sent_reachable row_A_Ok row_A_pending polled_eq).
Defined.

Lemma answer_is_recorded_witness :
  exists s' reply recorded limited,
    advance_submission (saved_of id_A row_A) Recovery state_sent = (Ok tt, s') /\
    reachable sample_faucet sample_anchor (at_store s') /\
    record_answer (saved_of id_A row_A) (circle_call (saved_of id_A row_A) (at_world state_sent)).1 =
      (reply, recorded, limited) /\
    attempt_recorded (at_config state_sent) (circle_call (saved_of id_A row_A) (at_world state_sent)).2
      (saved_of id_A row_A) Recovery reply recorded (at_store state_sent) (at_store s').
Proof.
  apply (answer_is_recorded sample_faucet sample_anchor state_sent id_A row_A Recovery
    state_sent_reachable row_A_Ok row_A_pending state_sent_quiet); [discriminate|].
  intros policy Hp. exists 1300.
  assert (Hw : system_now (circle_call (saved_of id_A row_A) (at_world state_sent)).2 =
               system_now (circle_call (saved_of id_A row_A) (at_world state_sent)).2) by reflexivity.
  assert (Hc : cfg_withdrawal_limit (at_config state_sent) =
    Some {| wl_message_prefix := "Withdrawal limit"; wl_retry_interval := 300 * NANOS |})
    by (vm_compute; reflexivity).
  rewrite Hc in Hp. injection Hp as <-. vm_compute. reflexivity.
Defined.

(** ** Clients *)

Lemma requests_are_paced_witness :
  dispatches 0 [Sends 10 (Some 5); GivesUp; Sends 20 None; Sends 900000000 (Some 1)] =
    [10; 250000015; 900000000] /\
  StronglySorted (fun a b => a + REQUEST_GAP <= b)
    (dispatches 0 [Sends 10 (Some 5); GivesUp; Sends 20 None; Sends 900000000 (Some 1)]).
Proof.
  split; [vm_compute; reflexivity|]. apply requests_are_paced. repeat constructor; discriminate.
Defined.

Lemma usdc_text_exact_witness :
  UsdcDecimals_from 6 1500000 = "1.500000"%string /\
  exists whole fraction, UsdcDecimals_from 6 1500000 = list_str (whole ++ "."%char :: fraction) /\
    digits_value whole * 10 ^ 6 + digits_value fraction = 1500000.
Proof.
  split; [vm_compute; reflexivity|].
  destruct (usdc_text_exact 6 1500000) as (whole & fraction & Ht & _ & _ & Hv);
    [lia|split; vm_compute; discriminate|].
  exists whole, fraction. split; [exact Ht|exact Hv].
Defined.

(** A server that answers everything with a reply in two chunks. *)
#[local] Instance sample_http : HttpExec SampleWorld := {|
  http_execute := fun request w => (Some (200, [Some [1; 2]; Some [3]]), w);
|}.
#[local] Instance sample_http_laws : HttpLaws SampleWorld.
Proof. split. intros rq w status chunks w' [= <- _ _]. vm_compute. reflexivity. Qed.
Definition sample_request : Circle.Request :=
  {| rq_method := GET; rq_url := sample_host; rq_timeout := NANOS; rq_json := false; rq_body := None |}.

Lemma client_replies_witness :
  (send sample_request world_idle).1 = Ok {| rr_status := 200; rr_body := [1; 2; 3] |} /\
  reply_ok (send sample_request world_idle).1.
Proof.
  split; [vm_compute; reflexivity|].
  exact (proj1 (client_replies sample_request world_idle world_idle 200 [Some [1; 2]; Some [3]]
    sample_http_laws eq_refl)).
Defined.

Definition sample_pair_read : result SignerError SignerPair * SampleWorld := SignerPair_new ("k2", "k1")%string world_idle.
Lemma sample_pair_read_Ok : sample_pair_read = (Ok sample_pair, world_idle).
Proof. vm_compute. reflexivity. Qed.
Lemma signer_pair_ordered_witness :
  (sp_public_keys sample_pair).1 <> (sp_public_keys sample_pair).2 /\
  bytes_le (address_from_public_key (sp_public_keys sample_pair).1)
    (address_from_public_key (sp_public_keys sample_pair).2).
Proof.
  destruct (signer_pair_ordered ("k2", "k1")%string world_idle world_idle sample_pair sample_pair_read_Ok)
    as (first & second & w1 & _ & _ & _ & Hne & Hle).
  split; [exact Hne|exact Hle].
Defined.

(** A KMS that holds one good key and signs with it. *)
#[local] Instance sample_kms : KmsApi SampleWorld := {|
  kms_describe_key := fun arn w =>
    (Some (Some {| km_arn := Some arn; km_enabled := true; km_key_state := Some KeyEnabled;
                   km_key_spec := Some EccSecgP256K1; km_key_usage := Some SignVerify |}), w);
  kms_get_public_key := fun arn w =>
    (Some {| gp_key_id := Some arn; gp_key_spec := Some EccSecgP256K1; gp_key_usage := Some SignVerify;
             gp_signing_algorithms := [EcdsaSha256]; gp_public_key := Some (left_pad 33 2 [7]) |}, w);
  kms_sign := fun request w =>
    (Some {| so_key_id := Some (sr_key_id request); so_signing_algorithm := Some EcdsaSha256;
             so_signature := Some (sr_message request) |}, w);
|}.
Definition sample_kms_signer : KmsSigner := {| ks_key_arn := "arn"; ks_public_key := left_pad 33 2 [7] |}.
Lemma kms_signatures_verify_witness :
  exists response der s odd,
    (kms_sign (sign_request "arn" [1; 2]) world_idle).1 = Some response /\
    so_signature response = Some der /\ ecdsa_from_der der = Some s /\
    ecdsa_verify_prehash (ks_public_key sample_kms_signer) [1; 2] (default s (ecdsa_normalize_s s)) = true /\
    to_hex [1; 2] = signature_text (default s (ecdsa_normalize_s s)) odd.
Proof.
  destruct (kms_signatures_verify "arn" world_idle world_idle world_idle world_idle sample_kms_signer
    [1; 2] (to_hex [1; 2])) as (_ & _ & response & der & s & odd & H1 & _ & H3 & H4 & H5 & _ & H7);
    [vm_compute; reflexivity|vm_compute; reflexivity|].
  exists response, der, s, odd. split; [exact H1|]. split; [exact H3|]. split; [exact H4|]. split; [exact H5|exact H7].
Defined.

(** ** Configuration *)

Definition sample_limit : WithdrawalLimit :=
  {| wl_message_prefix := "Withdrawal limit"; wl_retry_interval := 300 * NANOS |}.
Lemma retry_waits_interval_witness :
  retry_at sample_limit (1000 * NANOS + 1) = Ok 1301 /\
  1000 * NANOS + 1 + 300 * NANOS <= 1301 * NANOS < 1000 * NANOS + 1 + 300 * NANOS + NANOS.
Proof.
  assert (Hr : retry_at sample_limit (1000 * NANOS + 1) = Ok 1301) by (vm_compute; reflexivity).
  split; [exact Hr|].
  assert (Hi : 0 <= wl_retry_interval sample_limit) by (vm_compute; discriminate).
  exact (proj1 (proj1 (retry_waits_interval sample_limit (1000 * NANOS + 1) Hi) 1301 Hr)).
Defined.

Definition sample_cli : Cli := {|
  cli_admin_socket := None; cli_aws_kms_region := "us"; cli_aws_kms_key_arn := ["k1"; "k2"]%string;
  cli_aws_kms_operation_timeout := NANOS; cli_miden_rpc_url := "https://node"; cli_circle_url := sample_host;
  cli_request_timeout := NANOS; cli_faucet_account_id := "0x07"; cli_max_withdrawal_fee := 1100000;
  cli_max_withdrawal_fee_bps := 3; cli_cctp_forwarding_max_fee := 500000;
  cli_xreserve_deposit_max_fee := Some 200000;
  cli_cctp_forwarder_address := address_lit "8888888199b2df864bf678259607d6d5ebb4e3ce";
  cli_cctp_token_messenger_address := repeat 6 20; cli_poll_interval := NANOS;
  cli_withdrawal_limit_message_prefix := Some "Withdrawal limit"%string;
  cli_withdrawal_limit_retry_interval := Some (300 * NANOS); cli_faucet_deployment_block := 20;
  cli_trusted_anchor_block := 10; cli_trusted_anchor_commitment := to_hex (be_bytes 32 10);
  cli_expected_signing_public_key := ["a"; "b"]%string; cli_minimum_finality_depth_blocks := 1;
  cli_store_path := "store.db";
|}.
Definition accepted_config : Config :=
  match Config_try_from sample_cli (Some true) with Ok c => c | Err _ => sample_config end.
Lemma accepted_config_Ok : Config_try_from sample_cli (Some true) = Ok accepted_config.
Proof. apply result_default. vm_compute. reflexivity. Qed.

Lemma config_serves_routes_witness :
  forwarding_max_fee accepted_config STACKS_DOMAIN = Some 200000 /\
  is_Some (xreserve_deployment (cf_forwarder (cfg_cctp_forwarding accepted_config))).
Proof.
  assert (Hf : forwarding_max_fee accepted_config STACKS_DOMAIN = Some 200000) by (vm_compute; reflexivity).
  split; [exact Hf|].
  exact (proj1 (proj1 (config_serves_routes sample_cli (Some true) accepted_config STACKS_DOMAIN 200000
    accepted_config_Ok Hf))).
Defined.

Definition public_A : @PublicOutputNote sample_miden := note_A.
Definition candidate_A : BurnCandidate :=
  match BurnCandidate_new public_A 11 sample_faucet with
  | Ok c => c
  | Err _ => {| bc_note := public_A; bc_creation_block := 0; bc_items := (0 : @BurnItems sample_miden); bc_amount := 0 |}
  end.
Lemma candidate_A_Ok : BurnCandidate_new public_A 11 sample_faucet = Ok candidate_A.
Proof. apply result_default. vm_compute. reflexivity. Qed.
#[local] Strategy opaque [candidate_A].

Lemma burn_note_exact_witness :
  bc_amount candidate_A = 65000000 /\
  is_burn_note public_A sample_faucet (bc_items candidate_A) (bc_amount candidate_A).
Proof.
  split; [vm_compute; reflexivity|].
  destruct (burn_note_exact public_A 11 sample_faucet) as [_ H].
  destruct (H candidate_A 12 candidate_A_Ok) as (_ & _ & Hb & _). exact Hb.
Defined.

(** ** Messages as one number on a line *)

(** A message is one "byte", the code of its fields; a line may end with the newline. *)
Definition code_of {A} `{Countable A} (a : A) : bytes := [Zpos (encode a)].
Definition of_code {A} `{Countable A} (part : bytes) : option A :=
  match part with
  | [Zpos p] | [Zpos p; 10] => decode p
  | _ => None
  end.

Lemma of_code_part {A} `{Countable A} (a : A) part (b : A) :
  part `prefix_of` line (code_of a) -> of_code part = Some b -> b = a.
Proof.
  intros [rest Hrest] Hb. unfold line, code_of in Hrest. simpl in Hrest.
  destruct part as [|x [|y [|z part]]]; simplify_eq/=; by rewrite decode_encode in Hb; simplify_eq.
Qed.

Lemma of_code_line {A} `{Countable A} (a : A) : of_code (line (code_of a)) = Some a.
Proof. simpl. apply decode_encode. Qed.

Definition request_fields (r : Request) : option string + (string * Z * bool) :=
  match r with
  | RequestHolds after => inl after
  | RequestRelease id seq flag => inr (id, seq, flag)
  end.
Definition request_of_fields (f : option string + (string * Z * bool)) : Request :=
  match f with inl after => RequestHolds after | inr (id, seq, flag) => RequestRelease id seq flag end.

Abbreviation entry_fields := (string * string * string * option Z * option string * Z)%type.
Abbreviation page_fields := (string * Z * string * list entry_fields * option string)%type.
Definition entry_to (h : HoldEntry) : entry_fields :=
  (he_note_id h, he_kind h, he_reason h, he_http_status h, he_circle_message h, he_event_seq h).
Definition entry_from (f : entry_fields) : HoldEntry :=
  let '(id, kind, reason, status, message, seq) := f in
  {| he_note_id := id; he_kind := kind; he_reason := reason; he_http_status := status;
     he_circle_message := message; he_event_seq := seq |}.
Definition body_fields (b : ReplyBody) : page_fields + (Z * Z) + (string * string) :=
  match b with
  | BodyPage p => inl (inl (hp_faucet_account_id p, hp_trusted_anchor_block p,
      hp_trusted_anchor_commitment p, entry_to <$> hp_holds p, hp_next_after p))
  | BodyReleased r => inl (inr (released_burns r, released_withdrawals r))
  | BodyError e => inr (eb_code e, eb_message e)
  end.
Definition body_of_fields (f : page_fields + (Z * Z) + (string * string)) : ReplyBody :=
  match f with
  | inl (inl (faucet, block, commitment, holds, next)) =>
      BodyPage {| hp_faucet_account_id := faucet; hp_trusted_anchor_block := block;
        hp_trusted_anchor_commitment := commitment; hp_holds := entry_from <$> holds;
        hp_next_after := next |}
  | inl (inr (burns, withdrawals)) =>
      BodyReleased {| released_burns := burns; released_withdrawals := withdrawals |}
  | inr (code, message) => BodyError {| eb_code := code; eb_message := message |}
  end.
Lemma body_fields_inv b : body_of_fields (body_fields b) = b.
Proof.
  destruct b as [[f k c holds next]|[]|[]]; simpl; [|done|done]. do 2 f_equal.
  induction holds as [|[] holds IH]; simpl; [done|]. by f_equal.
Qed.
Lemma request_fields_inv r : request_of_fields (request_fields r) = r.
Proof. by destruct r. Qed.

#[export] Instance sample_admin_json : AdminJson :=
  {| json_request := fun part => request_of_fields <$> of_code part |}.
#[export] Instance sample_admin_wire : AdminWire := {|
  json_of_request := fun r => code_of (request_fields r);
  json_of_reply := fun b => code_of (body_fields b);
  json_page := fun part =>
    b ← of_code part;
    match body_of_fields b with
    | BodyPage p => Some (ReplyOk p) | BodyError e => Some (ReplyError e) | BodyReleased _ => None
    end;
  json_released := fun part =>
    b ← of_code part;
    match body_of_fields b with
    | BodyReleased r => Some (ReplyOk r) | BodyError e => Some (ReplyError e) | BodyPage _ => None
    end;
|}.
#[export] Instance sample_admin_wire_laws : AdminWireLaws.
Proof.
  split; simpl.
  - intros r part r' Hp (f & Hf & ->)%fmap_Some. apply (of_code_part _ _ _ Hp) in Hf as ->.
    apply request_fields_inv.
  - intros b part reply Hp (f & Hf & Hr)%bind_Some. apply (of_code_part _ _ _ Hp) in Hf as ->.
    rewrite body_fields_inv in Hr. by destruct b; simplify_eq/=.
  - intros b part reply Hp (f & Hf & Hr)%bind_Some. apply (of_code_part _ _ _ Hp) in Hf as ->.
    rewrite body_fields_inv in Hr. by destruct b; simplify_eq/=.
Qed.

(** ** A release, from the connect to the reply *)

Definition release_hold_A : string * Z := (note_id_to_string id_A, sel_expected_event_seq reviewed_A).
Definition release_request : Request := client_request (CliReleaseHolds release_hold_A true).
Definition release_line : bytes := line (json_of_request release_request).
Lemma request_line_read r : json_request (line (json_of_request r)) = Some r.
Proof. simpl. rewrite decode_encode. simpl. by rewrite request_fields_inv. Qed.
Lemma released_line_read counts : json_released (line (json_of_reply (BodyReleased counts))) = Some (ReplyOk counts).
Proof. simpl. rewrite decode_encode. simpl. by destruct counts. Qed.
Lemma request_line_length r : length (line (json_of_request r)) = 2%nat.
Proof. done. Qed.
Lemma reply_line_length b : length (line (json_of_reply b)) = 2%nat.
Proof. done. Qed.
#[local] Strategy opaque [code_of].
Lemma release_queued : handle_request release_request = Ok (OpRelease reviewed_A).
Proof. vm_compute. reflexivity. Qed.

(** What the attester ran for connection 0, and what that caused. *)
Definition queued_A : Queued :=
  {| q_conn := 0; q_operation := OpRelease reviewed_A; q_deadline := 0 + COMMAND_WAIT |}.
Definition ran_A : Executed := execute sample_config 2000 queued_A (resting store_held (Some queued_A)).
Definition counts_A : Released := {| released_burns := 0; released_withdrawals := 1 |}.
Lemma ran_A_answer : ex_answer ran_A = AnswerRelease (Ok counts_A).
Proof. vm_compute. reflexivity. Qed.
Definition world_A : AdminWorld :=
  lone_world release_line (Ended (line (json_of_reply (BodyReleased counts_A))))
    (ran ran_A (resting store_held (Some queued_A))).
Lemma release_runs : star (admin_step sample_config sample_anchor) (admin_started 0 store_held) world_A.
Proof.
  pose proof (request_served sample_config sample_anchor store_held 2000 release_request (OpRelease reviewed_A)
    (request_line_read _)) as Hrun.
  rewrite request_line_length in Hrun. specialize (Hrun ltac:(vm_compute; discriminate) release_queued).
  cbv zeta in Hrun. fold queued_A in Hrun. fold ran_A in Hrun. rewrite ran_A_answer in Hrun. exact Hrun.
Qed.

Lemma release_reply_told_witness :
  exchange json_released (ReadToEnd (line (json_of_reply (BodyReleased counts_A)))) = Ok counts_A /\
  exists e, released (aw_core world_A) 0 = [e] /\ release_of e = Some counts_A.
Proof.
  assert (Hread : exchange json_released (ReadToEnd (line (json_of_reply (BodyReleased counts_A)))) = Ok counts_A).
  { unfold exchange. rewrite take_ge by (rewrite reply_line_length; unfold REPLY_LIMIT; lia).
    rewrite reply_line_length, released_line_read. reflexivity. }
  split; [exact Hread|].
  destruct (release_reply_told sample_config sample_faucet sample_anchor 0 store_held world_A world_A 0
    {| cn_line := release_line; cn_phase := Ended (line (json_of_reply (BodyReleased counts_A))) |}
    release_hold_A true (ReadToEnd (line (json_of_reply (BodyReleased counts_A))))
    held_reachable release_runs (star_refl _ _) eq_refl eq_refl eq_refl) as (_ & Hout & _).
  rewrite Hread in Hout. exact Hout.
Defined.
