(* ===== verification/RelayWitnesses.v ===== *)
(** Concrete instances of the properties of the deposit relayer and of the bridge. *)
From S2P Require Import Prelude Text Telemetry Foreign Wire Feed Mint Io MidenNode Relayer.
From S2P Require Import RelayerFacts RelayerScan RelayerProps RelayerChain MidenProps.
From S2P Require Import Sample RelaySample.
From S2P Require Import Bridge.
Local Open Scope Z_scope.

(** The relayer after one scan of the whole feed. *)
Definition relay_done : Relayer RelayScript := relayer_after 1 (relay_script [] []).
Definition hash_3 : MessageHash := repeat 3 32.

Lemma progress_covers_feed_witness :
  exists newer v rest, sample_feed = newer ++ v :: rest /\ value_hash v = Some hash_3 /\
    Forall (settled relay_config (rl_trace relay_done)) (v :: rest).
Proof.
  destruct (progress_covers_feed sample_feed_at sample_older sample_honest relay_config relay_done
    {| st_watermark := Some hash_3; st_scan := None |}) as [Hw _].
  - apply relayer_after_lives.
  - vm_compute. reflexivity.
  - exact (Hw hash_3 eq_refl).
Defined.

Lemma complete_scan_handles_feed_witness :
  exists st newer target, read_state (rl_file relay_again) = Ok st /\
    sample_feed = newer ++ target /\
    Forall (settled relay_config (rl_trace (scan 5 relay_again).2)) target /\
    match st_scan st with
    | None => newer = []
    | Some p => exists v rest, target = v :: rest /\ value_hash v = Some (sp_head p)
    end.
Proof.
  apply (complete_scan_handles_feed sample_feed_at sample_older sample_honest relay_config relay_again 5).
  - apply relay_again_lives.
  - vm_compute. reflexivity.
Defined.

Lemma scan_ends_witness : (scan 4 relay_again).1 <> Ok None.
Proof.
  apply (scan_ends sample_feed_at sample_older sample_honest sample_pages relay_config relay_again 4).
  - apply relay_again_lives.
  - apply Nat.ltb_lt. vm_compute. reflexivity.
Defined.

Lemma transaction_carries_unminted_page_witness :
  exists asked unminted before minted, [Checked [[3]] [[3]]; SavedProgress State_default]
      = Checked asked unminted :: before /\
    [[3]] = note_of_mint <$> minted /\ minted <> [] /\
    Forall (fun note => mint_nonce note ∈ asked /\ mint_nonce note ∈ unminted) minted /\
    Z.of_nat (length minted) <= rc_page_size relay_config /\
    Z.of_nat (length minted) <= 10.
Proof.
  apply (transaction_carries_unminted_page sample_feed_at relay_config relay_stopped
    (take 2 (rl_trace relay_stopped)) [[3]] [1]).
  - apply relayer_after_lives.
  - vm_compute. reflexivity.
Defined.

(** A scan of three pages whose last one fails. *)
Definition expired_scan : result RelayFailure (option ScanOutcome) * Relayer RelayScript := scan 5 relay_expired.
Lemma expired_scan_Err : scan 5 relay_expired = (Err expired_failure, expired_scan.2).
Proof. vm_compute. reflexivity. Qed.
Lemma failed_page_is_retried_witness :
  exists position (r1 r2 : Relayer RelayScript),
    run_page position r2 = (Err expired_failure, expired_scan.2) /\
    rl_file expired_scan.2 = rl_file r1 /\
    (forall (later : Relayer RelayScript) pages', rl_file later = rl_file expired_scan.2 ->
       (fs_reads (rl_world later)).1 = true ->
       scan pages' later =
       scan_pages pages'
         match pos_head position with
         | Some _ => position
         | None => {| pos_watermark := pos_watermark position; pos_head := None; pos_resume := None |}
         end (put_relay_world (fs_reads (rl_world later)).2 later)) /\
    forall scans pages, cc_page_size (rl_circle (run_until scans pages expired_scan.2).2) <= 10.
Proof.
  destruct (failed_page_is_retried relay_expired 5 expired_failure expired_scan.2 expired_scan_Err)
    as [[Hl _]|(st & r0 & position & r1 & r2 & _ & _ & _ & Hrun & Hf & Hres & Hex)].
  - exfalso. apply (f_equal (fun x => is_ok x.1)) in Hl. vm_compute in Hl. discriminate Hl.
  - exists position, r1, r2. split; [exact Hrun|]. split; [exact Hf|]. split; [exact Hres|].
    apply Hex. reflexivity.
Defined.

Definition sample_client : NodeClient := {| nc_relayer := [8]; nc_faucet := [7]; nc_expiration_delta := 10 |}.
Definition node_start : SampleNode := {| sn_clock := 0; sn_synced := 0 |}.
Lemma submission_ends_committed_witness :
  (submit_notes 13 sample_client [[3]] node_start).1 <> Ok None /\
  exists (records : list TransactionRecord) record block,
    last records = Some record /\ tr_status record = Committed block.
Proof.
  destruct (submission_ends_committed sn_clock sn_synced 1000000000 10 sample_node_chain 13
    sample_client [[3]] node_start) as [Hends Hok].
  - vm_compute. discriminate.
  - split; [exact Hends|].
    destruct (Hok [1]) as (request & v0 & v1 & v2 & v3 & records & record & block & _ & _ & _ & Hl & Hs).
    + vm_compute. reflexivity.
    + by exists records, record, block.
Defined.

(** The relayer over the sample node, after a scan of the whole feed. *)
#[local] Instance node_world : RelayWorld SampleNode := {|
  feed_get := fun url v =>
    let n := cursor_index url in
    (FeedAnswered 200 (if bool_decide (drop (S n) sample_feed = []) then None else Some (Some (cursor_of (S n))))
       [Some [Z.of_nat n]], v);
  fs_reads := fun v => (true, v);
  fs_replaces := fun v => (true, v);
  instant_now := fun v => (sn_clock v, v);
  relay_cancelled := fun v => (false, v);
  relay_pause := fun d v => (true, v);
|}.
Definition node_relayer : Relayer SampleNode :=
  (run_until (MidenClient0 := NodeMiden 13 sample_client) 1 10
     (Relayer_new relay_config true (assembled relay_config 0 NoFile node_start)).2).2.
Definition latest_transaction : list MidenNote * TransactionId :=
  match List.find (fun a => match a with OnChain _ _ => true | _ => false end) (rl_trace node_relayer) with
  | Some (OnChain notes t) => (notes, t)
  | _ => ([], [])
  end.
Lemma relayed_is_committed_witness :
  latest_transaction = ([[2]], [1]) /\
  exists minted request v0 v1 v2 v3 v4 v5 v6 records record block,
    [[2]] = note_of_mint <$> minted /\ minted <> [] /\
    Z.of_nat (length minted) <= effective_page_size relay_config /\
    node_sync v0 = (Ok tt, v1) /\ star (map_read sample_client) v1 v2 /\
    Forall (fun note => read_empty sample_client (mint_nonce note) v1 v2) minted /\
    node_build_request [[2]] (nc_expiration_delta sample_client) = Some request /\
    node_sync v2 = (Ok tt, v3) /\ node_submit (nc_relayer sample_client) request v3 = (Ok [1], v4) /\
    star (waiting [1]) v4 v5 /\ node_transactions [1] v5 = (Ok records, v6) /\
    last records = Some record /\ tr_status record = Committed block.
Proof.
  split; [vm_compute; reflexivity|].
  apply (relayed_is_committed 13 sample_client (fun _ => []) relay_config node_relayer
           (take 2 (rl_trace node_relayer)) [[2]] [1] (drop 3 (rl_trace node_relayer))).
  - apply ran, started, installed.
  - vm_compute. reflexivity.
Defined.

(** ** The bridge *)

(** A signal at second 1; the attester stops after 2 seconds and the relayer after 3. *)
Definition clean_shutdown : list (Z * BridgeEvent) :=
  [(2000000000, Ends AttesterSide (Returned (Ok tt))); (3000000000, Ends RelayerSide (Returned (Ok tt)))].
Lemma bridge_stops_together_witness :
  supervise 300000000000 ((1000000000, Signal) :: clean_shutdown) supervised_start = Stopped (Ok tt).
Proof.
  apply (bridge_stops_together 300000000000 1000000000 Signal clean_shutdown).
  - lia.
  - unfold clean_shutdown. apply in_order_cons.
    + apply Forall_cons_2; [simpl; lia|]. apply Forall_cons_2; [simpl; lia|apply Forall_nil_2].
    + apply in_order_cons; [apply Forall_cons_2; [simpl; lia|apply Forall_nil_2]|].
      apply in_order_cons; [apply Forall_nil_2|apply in_order_nil].
  - split; [reflexivity|]. intros service. destruct service;
      [exists 2000000000|exists 3000000000]; split; try reflexivity; lia.
Defined.
