(* ===== verification/ListenerWitnesses.v ===== *)
(** The properties of withdrawal-listener-attester applied to the sample withdrawal. *)
From S2P Require Import Prelude Text Foreign Ledger AttesterWire AttesterHttp Quorum Evidence Listener Programs SubmitOnce Deployment ListenerProps GovernorProps SettleProps Sample ListenerSample.
Local Open Scope Z_scope.

Definition sample_refusal : result string HttpReply := http_reply "/v1/withdraw" 503 [].
Definition sample_acceptance : result string HttpReply := http_reply "/v1/withdraw" 201 [2].

Lemma sent_again_only_after_refusal_witness :
  dp_trace sample_deployment =
    take 1 (dp_trace sample_deployment) ++ Sent sample_withdraw sample_acceptance :: [] ++
    Sent sample_withdraw sample_refusal :: drop 3 (dp_trace sample_deployment) /\
  refused sample_refusal = true.
Proof.
  assert (dp_trace sample_deployment =
    take 1 (dp_trace sample_deployment) ++ Sent sample_withdraw sample_acceptance :: [] ++
    Sent sample_withdraw sample_refusal :: drop 3 (dp_trace sample_deployment)) as Htrace
    by (vm_compute; reflexivity).
  split; [exact Htrace|].
  apply (sent_again_only_after_refusal _ _ _ _ _ _ _ _ "0xab"%string sample_deployed Htrace).
  - vm_compute. left.
  - vm_compute. left.
Defined.

Definition sample_run_trace : list Action := sample_listener_run.1.1.

(** Whether every signature of the run is of bytes. *)
Definition typed_action (a : Action) : bool :=
  match a with
  | SignatureMade _ (Ok claims) =>
      forallb (forallb (fun c => forallb (fun b => (0 <=? b) && (b <? 256)) c.2)) claims
  | _ => true
  end.
Lemma all_bytes l : forallb (fun b => (0 <=? b) && (b <? 256)) l = true -> Forall is_byte l.
Proof.
  intros Hl. apply Forall_forall. intros b Hb%list_elem_of_In.
  pose proof (proj1 (forallb_forall _ _) Hl b Hb) as Hr. cbv beta in Hr.
  apply andb_true_iff in Hr as [H1%Z.leb_le H2%Z.ltb_lt]. by split.
Qed.
Lemma typed_actions history : forallb typed_action history = true -> typed history.
Proof.
  intros Hall v claims Hin%list_elem_of_In. pose proof (proj1 (forallb_forall _ _) Hall _ Hin) as Hc. simpl in Hc.
  apply Forall_forall. intros cs Hcs%list_elem_of_In. apply Forall_forall. intros c Hc'%list_elem_of_In.
  apply all_bytes. exact (proj1 (forallb_forall _ _) (proj1 (forallb_forall _ _) Hc _ Hcs) _ Hc').
Qed.
Lemma sample_run_typed : typed (drop 5 sample_run_trace).
Proof. apply typed_actions. vm_compute. reflexivity. Qed.

Lemma listener_releases_checked_intent_witness :
  checked_release sample_listener_config sample_discovered (drop 5 sample_run_trace) sample_withdraw_request.
Proof.
  apply (listener_releases_checked_intent sample_context sample_discovered sample_run_trace
    sample_listener_run.2 (take 4 sample_run_trace) sample_withdraw sample_refusal
    sample_withdraw_request (drop 5 sample_run_trace)).
  - apply script_trace.
  - vm_compute. reflexivity.
  - reflexivity.
  - exact sample_run_typed.
Defined.

Definition sample_burst : list (string * Z) :=
  [("a", 0); ("a", 1); ("b", 1); ("a", 2); ("a", 600000000); ("b", 1000000000)]%string.

Lemma governor_keeps_rates_witness :
  (turns (RateGovernor_new 2 3) sample_burst GovernorState_default).1 =
    [("a", 0); ("a", 1); ("b", 1); ("b", 1000000000)]%string /\
  spaced 3 [0; 1; 1; 1000000000].
Proof.
  split; [vm_compute; reflexivity|].
  apply (governor_keeps_rates 2 3 sample_burst
    (turns (RateGovernor_new 2 3) sample_burst GovernorState_default).1
    (turns (RateGovernor_new 2 3) sample_burst GovernorState_default).2).
  - split; repeat constructor; simpl; lia.
  - apply surjective_pairing.
Defined.

Definition sample_settling :=
  script submission_answers [] ∅ (submit_withdraw sample_circle sample_authorized).

Lemma submission_settles_every_burn_witness :
  settled_with ["0xab"%string] sample_settling.1.1 (Ok (SubmittedWith [sample_status KindCreated])).
Proof.
  apply (submission_settles_every_burn sample_circle sample_authorized sample_settling.1.1
    (Ok (SubmittedWith [sample_status KindCreated]))
    [{| sr_burn_key := "0xab"; sr_withdrawal_id := None; sr_status := Pending; sr_timestamp := 1000 |}]).
  - assert (sample_settling.2 = Ret (Ok (SubmittedWith [sample_status KindCreated]))) as <-
      by (vm_compute; reflexivity).
    apply script_trace.
  - vm_compute. repeat ((left; reflexivity) || right).
Defined.
